(* ===== verification/_CoqProject ===== *)
-Q . S2P
Prelude.v
ValCommon.v
Machine.v
Gic.v
GicProof.v
GicV2Only.v
Log.v
Event.v
EventProof.v
CMem.v
Asm.v
Vectors.v
Entry.v
EntryProof.v
StartProof.v
Glue.v
Libc.v
TpmShim.v
TpmShimProof.v
Bytes.v
Malloc.v
MallocSpec.v
MallocProof.v
MallocCorrect.v
MallocClient.v
MallocRealloc.v
MallocTrace.v
MallocReport.v
MallocAligned.v
MallocLimits.v
FfaAbi.v
GlueProof.v
FfaHelpers.v
FfaHelpersProof.v
TpmPlatform.v
TpmCrb.v
TpmCrbProof.v
EndpointInfo.v
TpmClient.v
TpmClientProof.v
Irq.v
IrqProof.v
VectorsProof.v
Drivers.v
DriversProof.v
Console.v
ConsoleProof.v
PageTable.v
PageTableProof.v
Devices.v
Framework.v
FrameworkProof.v
TestDispatch.v
TestCheck.v
DirectMessage.v
RxtxTest.v
SyncProof.v
DispatchProof.v
DirectMessageProof.v
RxtxTestProof.v
Boot.v
