(* ===== verification/Prelude.v ===== *)
(** * Verification of the FF-A Architecture Compliance Suite

    The suite (ACS) runs conformance tests of Arm's Firmware Framework for A-profile:
    the same C sources are built once per endpoint (VM1 to VM3, the secure partitions
    SP1 to SP4, and TPM_SP), every image boots, sets up its translation tables, and
    then either drives the regression (VM1) or waits for direct messages that name the
    test function to run.  This library models that code, all of [src/val] and the FVP
    platform of [src/platform], and proves what it is relied on for.

    ** How a model reads

    A C function is a Rocq function of the same name.  Pure code is a function on [Z]
    with the wrap-around of its C type written out ([u8] to [u64], [uwrap]).  Code that
    can stop is an [outcome]: [Ret], [Panic] (VAL_PANIC and a failed assert end in an
    endless loop), [Fault] (a null or out-of-range access, a shift too wide) or
    [Diverge] (fuel used up).  Code with state is a [cmd S A], a function from a state
    to an outcome with a new state, written with [x ← c; k]; static variables are a
    record, [zoom] runs a command on one part of a larger state.  [keeps I c] says that
    [c] preserves the invariant [I], with the hint database [keeps].

    What is outside the repository is a parameter: the FF-A conduit (the partition
    manager), the status codes and report functions of the empty submodule val_common
    (classes [ValCommon], [ValConfig], [InfoCommon]), the TPM reference code, the device
    registers (class [Machine]), the list of tests, the handlers an interrupt calls.
    Documented behaviour of these is a class of laws ([GicDevice], [CounterDevice]) or
    a named hypothesis, with an instance that satisfies it next to the theorem.

    ** Files and code

    - Prelude: outcomes, commands, machine integers, packing of fields.
      ValCommon: the interface to val_common.
    - Machine: volatile accesses and system registers; pal_vcpu_setup.c,
      val_vcpu_setup.c, platform.S (numbering and power of CPUs).
    - CMem (pal_mmio.c): the byte memory all pointers go to.
      Asm: the instructions the assembly sources use, executed on registers and that
      memory.  Entry, EntryProof, StartProof (val_entry.S): from the loader to val_main.
      Vectors, VectorsProof (val_vtable.S, val_exceptions.c): exceptions.
      Glue, GlueProof (val_syscalls.S, pal_asm_smc.S, val_sysreg.S, pal_misc_asm.S,
      val_entry_el0.S): conduits, system registers, the entry of secondary CPUs and of
      EL0 partitions.
      Libc (pal_libc.c, val_misc.c): memory and string functions.
      Bytes: static byte arrays.
    - Malloc (val_malloc.c): the heap as headers in the byte memory.  MallocSpec is the
      abstract list of blocks; MallocProof and MallocCorrect prove that [val_malloc] and
      [val_free] refine it; MallocClient is what a client holds, MallocRealloc what
      [val_realloc] does to it; MallocTrace is about any sequence of calls; MallocLimits
      has the inputs outside the contract; MallocReport is the report of the heap;
      MallocAligned refines the aligned allocation and follows clients that take whole
      pages.
    - FfaAbi (val_ffa_abi.c, val_ffa.h): every wrapper down to the registers.
      FfaHelpers, FfaHelpersProof (val_ffa_helpers.c): memory transaction descriptors
      and the partition information parser, for FF-A 1.0 and 1.1 and later.
    - TpmPlatform (pal_tpm_tcg_platform.c, pal_tpm.c): NV storage, entropy, bring-up.
      TpmShim, TpmShimProof (pal_tpm_abi_shim.c): what the TPM binary links against.
      TpmCrb, TpmCrbProof (val_tpm_crb_service.c): the service of the TPM partition.
      TpmClient, TpmClientProof (val_tpm_crb_common_abi.c): its client in VM1, run
      against the service.
    - Gic, GicProof (platform/driver/src/gic): both interrupt controllers and the
      choice between them.  GicV2Only: the driver for version 2 only, which defines the
      same functions in the same archive.
      Irq, IrqProof (pal_irq.c, pal_spm_helpers.c, val_irq.c): the handler tables and
      the dispatcher.
    - Event, EventProof (val_shemaphore.c, pal_spinlock.S): events between CPUs as an
      interleaved step relation.
    - Log (pal_log.c): printing.  Drivers, DriversProof (pal_pl011_uart.c,
      pal_sp805_watchdog.c, pal_ap_refclk_timer.c, pal_nvm.c, pal_smmuv3_testengine.c,
      pal_sp_helpers.c, pal_driver.c, val_wd.c, val_timer.c): the other devices.
      Console, ConsoleProof (pal_driver_intf.c, pal_xen_pvconsole.c, pal_xen_console.c,
      pal_ffa_console_log.c): where printed characters go.
    - EndpointInfo (val_endpoint_info.c): the endpoint table.
      PageTable, PageTableProof (val_memory.c): translation tables and the MMU.
      Devices (pal_misc.c, pal_config_def.h): the device regions of every image.
    - Framework, FrameworkProof (val_framework.c): bookkeeping in non-volatile memory,
      partition discovery, synchronisation of the endpoint tables.
      TestDispatch (val_test_dispatch.c), SyncProof, DispatchProof: the regression loop,
      the wait loops of the servers, and the two sides put together.
    - TestCheck: what the tests of src/test share.
      DirectMessage (test/v1.0/direct_messaging): the client and the server of the tests
      ffa_direct_message_32 and ffa_direct_message_64.  DirectMessageProof runs them
      through the dispatcher, the server as a coroutine behind the partition manager.
      RxtxTest, RxtxTestProof (test/v1.0/setup_discovery): ffa_rxtx_map_and_unmap and
      ffa_rx_release, on the heap of the endpoint.
    - Boot (val_main.c): the parts above in the order val_main calls them.

    ** What the theorems show

    - From reset to the tests: the entry code gives the C code its stack, a relocated
      offset table and a cleared .bss; relocations stay in the image; an exception
      leaves the interrupted code as it was; the suite starts only with the FF-A version
      accepted and the MMU on; secondary CPUs have stacks of their own.
    - Heap: [val_malloc] and [val_free] refine first fit with splitting and coalescing;
      in every history of calls whose sizes do not wrap, reallocations included, live
      regions are disjoint, aligned and keep their bytes, calls return, and nothing leaks
      once everything is freed.  [val_aligned_alloc] is apart: it refines its search on
      the block list where the aligned header does not meet the old one, and clients that
      take whole pages only get aligned, disjoint ones; mixed with the other calls it can
      lose memory (MallocLimits).
    - TPM service: every request is answered once, at most one locality is granted, the
      notification variables agree in every reachable state, a command put off runs as
      it would have run at once, the response the client reads is the one the TPM gave;
      the client's registration agrees with the service (but when another status is
      expected, [unexpected_registration_kept]), its clean-up makes the calls that
      release what it holds; copies stay in the window.
    - Memory map: [val_pgt_create] maps exactly its region, by the table walk of the
      architecture; after [val_setup_mmu] every register the drivers of the image use is
      mapped to itself as device memory, the CRB beyond its first page apart.  Images of
      VM1 for Xen have overlapping device regions and are outside this theorem; the
      magic pages of such a guest are in [endpoint_image_regions].
    - Regression: the server's table agrees with VM1's after the synchronisation, the
      dispatcher runs the tests it should, the whole list or those SUITE_TEST_RANGE
      selects, in order and records their results, also after a reset, and a server test
      reaches the function it names.
    - Conformance tests: the direct message tests pass on every manager that behaves, and
      a pass, whatever the manager, was earned: the answers it stands for are in the log.
      So do the tests of the RX/TX buffers with the 4 KiB granule, and every page they
      took is back when they end, on a heap whose free blocks have clean page boundaries
      ([page_room]; on others [rxtx_unclean_heap_fails]).
    - CPUs and interrupts: one CPU at a time in a locked region, no event lost, no
      wake-up missed and no deadlock in any interleaving; enabling an interrupt changes
      that interrupt only, an SGI goes to the core asked for, an interrupt runs the
      handler registered for it, in VM1 and in the partitions; the exclusive-access loop
      of the TPM shim, an instruction at a time, is linearizable and lock-free.
    - FF-A: the assembly behind the wrappers passes and returns the 18 registers, as
      the calling convention has it; an interrupted direct request completes,
      descriptors read back as they were asked for.
    - Printing: numbers come out in full and the paravirtual console delivers lines.
    - The rest: the choice of a supported granule, the recovery of the last test, the NV
      storage of the TPM, sleeping long enough.

    Theorems without a claim number back these up or show where the code goes wrong
    (MallocLimits, [el2_return_state_lost], [start_clears_past_bss],
    [rela_below_link_address_hangs], [sgi_to_unprobed_core], [priority_of_first_in_word],
    [two_page_copy_rejected], [crb_localities_unmapped], [long_line_lost],
    [forbidden_calls_skipped], [unsupported_yield_fails], [rxtx_large_granule],
    [rxtx_alloc_failure_leaks], [rxtx_unclean_heap_fails],
    [unexpected_registration_kept] and others).

    ** Loops and fuel

    Loops over a count or a list are structural.  The others take fuel: the loops of the
    allocator get one step per possible header of the 512 KiB buffer ([heap_fuel], proved
    enough), string loops one step per byte up to the terminator, [val_ffa_run] and the
    server loops one step per message (theorems give the number that suffices), the table
    fill four levels, the sleep one step per tick to wait, the UART and redistributor
    polls whatever the device needs.  Running out is [Diverge], which no theorem about a
    result admits.

    ** Not modelled

    - Cache and TLB maintenance and barriers: memory is sequentially consistent.
    - Log output, except [pal_printf] itself.
    - hypercall.S of Xen, the linker scripts, and the accessor macros of pal_arch.h and
      pal_arch_helpers.h (class [Machine] has the registers that are used).
    - The other tests of src/test: the list of tests is a parameter.
    - val_common, linux-acs and the TPM reference code (submodules). *)

From Stdlib Require Export ZArith Lia List.
From stdpp Require Export base tactics list gmap numbers.

#[global] Open Scope Z_scope.

(** ** Outcomes of C code

    A C function either returns, stops the endpoint for good ([VAL_PANIC] and a
    failed [assert] both end in [pal_terminate_simulation], an endless loop), or
    does what C leaves undefined: it dereferences a null or out-of-range pointer,
    or shifts by the width of the operand ([Fault]).  [Diverge] is what a loop with
    fuel gives when the fuel runs out. *)
Inductive outcome (A : Type) : Type :=
| Ret (a : A)
| Panic
| Fault
| Diverge.
Arguments Ret {A} a.
Arguments Panic {A}.
Arguments Fault {A}.
Arguments Diverge {A}.

Definition obind {A B} (c : outcome A) (f : A -> outcome B) : outcome B :=
  match c with
  | Ret a => f a
  | Panic => Panic
  | Fault => Fault
  | Diverge => Diverge
  end.

Declare Scope c_scope.
Delimit Scope c_scope with c.
Notation "'let!' x := c 'in' k" := (obind c (fun x => k))
  (at level 10, x pattern, c at level 200, k at level 200) : c_scope.
#[global] Open Scope c_scope.

Lemma obind_assoc {A B C} (c : outcome A) (f : A -> outcome B) (g : B -> outcome C) :
  obind (obind c f) g = obind c (fun a => obind (f a) g).
Proof. by destruct c. Qed.

Lemma obind_Ret_inv {A B} (c : outcome A) (f : A -> outcome B) b :
  obind c f = Ret b -> exists a, c = Ret a /\ f a = Ret b.
Proof. destruct c; simpl; intros; try discriminate; eauto. Qed.

(** ** Machine integers

    A [w]-bit unsigned integer is a [Z] in [0, 2^w); the wrap-around is written
    where the C code computes. *)
Definition uwrap (w z : Z) : Z := z mod 2 ^ w.
Abbreviation u8 := (uwrap 8).
Abbreviation u16 := (uwrap 16).
Abbreviation u32 := (uwrap 32).
Abbreviation u64 := (uwrap 64).

(** The signed reading of a [w]-bit value (two's complement). *)
Definition sint (w z : Z) : Z := if z <? 2 ^ (w - 1) then z else z - 2 ^ w.

Definition is_uint (w z : Z) : Prop := 0 <= z < 2 ^ w.

Lemma uwrap_range w z : 0 <= w -> 0 <= uwrap w z < 2 ^ w.
Proof. intros; apply Z.mod_pos_bound; lia. Qed.

Lemma uwrap_small w z : 0 <= z < 2 ^ w -> uwrap w z = z.
Proof. apply Z.mod_small. Qed.

Lemma uwrap_idem w z : 0 <= w -> uwrap w (uwrap w z) = uwrap w z.
Proof. intros; apply uwrap_small, uwrap_range; lia. Qed.

Lemma uwrap_is_uint w z : 0 <= w -> is_uint w (uwrap w z).
Proof. apply uwrap_range. Qed.

Create HintDb cint.
#[export] Hint Resolve uwrap_range uwrap_is_uint : cint.

Ltac ulia := first [lia | unfold uwrap, is_uint in *; lia].
(** [usmall] removes the wrap-arounds whose argument provably fits. *)
Ltac usmall :=
  repeat match goal with |- context [uwrap ?w ?z] => rewrite (uwrap_small w z) by ulia end.

(** ** Masks *)

Lemma land_ones_uwrap w z : 0 <= w -> Z.land z (Z.ones w) = uwrap w z.
Proof. apply Z.land_ones. Qed.

(** [x & ~(2^k - 1)] rounds down to a multiple of [2^k]. *)
Lemma land_lnot_ones w k x :
  0 <= k <= w -> is_uint w x ->
  Z.land x (uwrap w (Z.lnot (Z.ones k))) = x - x mod 2 ^ k.
Proof.
  intros Hk Hx. rewrite <- land_ones_uwrap by lia.
  rewrite (Z.land_comm (Z.lnot _)), Z.land_assoc, land_ones_uwrap, uwrap_small by (done || lia).
  rewrite <- Z.ldiff_land, Z.ldiff_ones_r by lia.
  rewrite Z.shiftr_div_pow2, Z.shiftl_mul_pow2 by lia.
  pose proof (Z.div_mod x (2 ^ k)). lia.
Qed.

Lemma ones_pow2 k : Z.ones k = 2 ^ k - 1.
Proof. rewrite Z.ones_equiv. lia. Qed.

(** ** Commands

    Code that talks to the outside (the SPM behind the FF-A conduit, non-volatile
    memory, devices) passes that outside state [S] along. *)
Definition cmd (S A : Type) : Type := S -> outcome (A * S).

#[export] Instance cmd_ret S : MRet (cmd S) := fun A a s => Ret (a, s).
#[export] Instance cmd_bind S : MBind (cmd S) := fun A B f c s =>
  match c s with
  | Ret (a, s') => f a s'
  | Panic => Panic
  | Fault => Fault
  | Diverge => Diverge
  end.

Definition panic {S A} : cmd S A := fun _ => Panic.

Lemma cmd_bind_ret {S A B} (a : A) (f : A -> cmd S B) s : (mret a ≫= f) s = f a s.
Proof. done. Qed.

Lemma cmd_bind_Ret_inv {S A B} (c : cmd S A) (f : A -> cmd S B) s b s2 :
  (c ≫= f) s = Ret (b, s2) -> exists a s1, c s = Ret (a, s1) /\ f a s1 = Ret (b, s2).
Proof. unfold mbind, cmd_bind. destruct (c s) as [[a s1]| | |]; intros; try discriminate; eauto. Qed.

Lemma cmd_bind_eq {S A B} (c : cmd S A) (f : A -> cmd S B) s a s1 :
  c s = Ret (a, s1) -> (c ≫= f) s = f a s1.
Proof. unfold mbind, cmd_bind. by intros ->. Qed.

(** ** Packing fields *)

Lemma testbit_small k z n : 0 <= z < 2 ^ k -> k <= n -> Z.testbit z n = false.
Proof.
  intros Hz Hn. destruct (decide (k < 0)) as [Hk|Hk]; [rewrite Z.pow_neg_r in Hz by lia; lia|].
  rewrite <- (Z.mod_small z (2 ^ k)) by lia. apply Z.mod_pow2_bits_high. lia.
Qed.

Lemma land_shiftl_0 k lo hi : 0 <= k -> 0 <= lo < 2 ^ k -> Z.land lo (Z.shiftl hi k) = 0.
Proof.
  intros Hk Hlo. apply Z.bits_inj'. intros n Hn. rewrite Z.land_spec, Z.shiftl_spec, Z.bits_0 by lia.
  destruct (Z.ltb_spec n k).
  - rewrite (Z.testbit_neg_r hi) by lia. apply andb_false_r.
  - rewrite (testbit_small k lo) by lia. done.
Qed.

(** [lo | (hi << k)] of a [k]-bit [lo] is their sum. *)
Lemma lor_shiftl k lo hi : 0 <= k -> 0 <= lo < 2 ^ k -> Z.lor lo (Z.shiftl hi k) = lo + hi * 2 ^ k.
Proof.
  intros Hk Hlo. pose proof (Z.add_lor_land lo (Z.shiftl hi k)) as H.
  rewrite land_shiftl_0 in H by done. rewrite Z.shiftl_mul_pow2 in * by lia. lia.
Qed.

Definition gets {S A} (f : S -> A) : cmd S A := fun s => Ret (f s, s).
Definition modify {S} (f : S -> S) : cmd S unit := fun s => Ret (tt, f s).

(** Running a command on one component of a larger state. *)
Definition zoom {S T A} (get : S -> T) (put : T -> S -> S) (c : cmd T A) : cmd S A := fun s =>
  match c (get s) with
  | Ret (a, t) => Ret (a, put t s)
  | Panic => Panic
  | Fault => Fault
  | Diverge => Diverge
  end.

(** Returning with a new state. *)
Definition retst {S A} (a : A) (s : S) : cmd S A := fun _ => Ret (a, s).

(** Lifting a function that may stop the endpoint. *)
Definition lift {S A} (o : outcome A) : cmd S A := fun s =>
  match o with Ret a => Ret (a, s) | Panic => Panic | Fault => Fault | Diverge => Diverge end.

(** ** Invariants of commands

    [keeps I c]: whenever [c] returns from a state with [I], the new state has [I]. *)
Definition keeps {S A} (I : S -> Prop) (c : cmd S A) : Prop :=
  forall s a s', I s -> c s = Ret (a, s') -> I s'.

Section Keeps.
Context {S : Type} (I : S -> Prop).

Lemma keeps_ret {A} (a : A) : keeps I (mret a).
Proof. intros s b s' HI E. by injection E as _ <-. Qed.

Lemma keeps_bind {A B} (c : cmd S A) (f : A -> cmd S B) :
  keeps I c -> (forall a, keeps I (f a)) -> keeps I (c ≫= f).
Proof. intros Hc Hf s b s' HI E. apply cmd_bind_Ret_inv in E as (a & s1 & E1 & E2). exact (Hf a s1 b s' (Hc s a s1 HI E1) E2). Qed.

Lemma keeps_here {A} (f : S -> cmd S A) : (forall s, keeps I (f s)) -> keeps I (fun s => f s s).
Proof. intros Hf s a s' HI E. exact (Hf s s a s' HI E). Qed.

Lemma keeps_panic {A} : keeps I (panic (A := A)).
Proof. by intros s a s' _ E. Qed.

Lemma keeps_gets {A} (f : S -> A) : keeps I (gets f).
Proof. intros s a s' HI E. by injection E as _ <-. Qed.

Lemma keeps_modify f : (forall s, I s -> I (f s)) -> keeps I (modify f).
Proof. intros Hf s a s' HI E. injection E as _ <-. by apply Hf. Qed.

Lemma keeps_lift {A} (o : outcome A) : keeps I (lift o).
Proof. intros s a s' HI. unfold lift. destruct o; intros E; try discriminate. by injection E as _ <-. Qed.

Lemma keeps_zoom {T A} (get : S -> T) put (c : cmd T A) :
  (forall t s, I s -> I (put t s)) -> keeps I (zoom get put c).
Proof.
  intros Hp s a s' HI. unfold zoom. destruct (c (get s)) as [[b t]| | |]; intros E; try discriminate.
  injection E as _ <-. by apply Hp.
Qed.

Lemma keeps_zoom_in {T A} (J : T -> Prop) (get : S -> T) put (c : cmd T A) :
  (forall s, I s -> J (get s)) -> (forall t s, I s -> J t -> I (put t s)) -> (forall t a t', J t -> c t = Ret (a, t') -> J t') ->
  keeps I (zoom get put c).
Proof.
  intros Hg Hp Hc s a s' HI. unfold zoom. destruct (c (get s)) as [[b t]| | |] eqn:E; intros E'; try discriminate.
  injection E' as _ <-. apply Hp; [done|]. eapply Hc; [by apply Hg | exact E].
Qed.

Lemma keeps_if {A} (b : bool) (c d : cmd S A) : keeps I c -> keeps I d -> keeps I (if b then c else d).
Proof. by destruct b. Qed.
End Keeps.

Create HintDb keeps.
#[export] Hint Resolve keeps_ret keeps_bind keeps_panic keeps_gets keeps_lift keeps_if : keeps.

(** Walks down a command; the leaves are lemmas of the [keeps] database. *)
Ltac keeps_step :=
  match goal with
  | |- keeps _ _ => solve [eauto 2 with keeps]
  | |- keeps _ (if _ then _ else _) => apply keeps_if
  | |- keeps _ (match ?x with _ => _ end) => destruct x
  | |- keeps _ _ => apply keeps_bind
  | |- forall _, keeps _ _ => intros ?
  end.
Ltac keeps_tac := repeat keeps_step.
