(* ===== verification/ValCommon.v ===== *)
(** * Interface to the val_common submodule

    The status codes and the test bookkeeping macros of the suite come from the
    git submodule [val_common], which is not part of this repository.  They are
    the fields of one class, with the facts the code of [val/src] relies on:
    every caller writes [if (f(...))] for "f failed", so success is 0 and the
    skip status is neither success nor the local [VAL_ERROR]. *)

From S2P Require Import Prelude.

(** [val/inc/val.h] *)
Definition VAL_ERROR : Z := 1.

Class ValCommon := {
  VAL_SUCCESS : Z;
  VAL_SKIP_CHECK : Z;
  VAL_SUCCESS_zero : VAL_SUCCESS = 0;
  VAL_SKIP_CHECK_uint32 : is_uint 32 VAL_SKIP_CHECK;
  VAL_SKIP_CHECK_not_success : VAL_SKIP_CHECK <> VAL_SUCCESS;
  VAL_SKIP_CHECK_not_error : VAL_SKIP_CHECK <> VAL_ERROR
}.

Lemma VAL_ERROR_not_success `{ValCommon} : VAL_ERROR <> VAL_SUCCESS.
Proof. rewrite VAL_SUCCESS_zero. done. Qed.

(** One concrete choice of the constants, used by the witnesses. *)
Definition sample_val_common : ValCommon.
Proof. by refine {| VAL_SUCCESS := 0; VAL_SKIP_CHECK := 2 |}. Defined.
