(* ===== verification/Machine.v ===== *)
(** * The machine under the drivers

    The drivers of platform/ reach the hardware through volatile loads and stores
    and through system registers.  What an access does is up to the device: it is
    a parameter, the class [Machine].  A load may change the device (reading the
    acknowledge register takes the interrupt), so it returns a new state.

    The file also has the [assert] of pal_libc.h, arrays of fixed size, and the
    bookkeeping of the CPUs: [platform_get_core_pos] (platform.S) and
    pal_vcpu_setup.c, which number the CPUs in two ways. *)

From S2P Require Import Prelude.

(** The smallest page (pal_config_def.h). *)
Definition PAGE_SIZE_4K : Z := 0x1000.

(** System registers the drivers use. *)
Inductive sysreg :=
| MPIDR_EL1 | ID_AA64PFR0_EL1 | CurrentEL
| ICC_SRE_EL1 | ICC_SRE_EL2 | ICC_IGRPEN1_EL1 | ICC_PMR_EL1 | ICC_IAR1_EL1 | ICC_EOIR1_EL1 | ICC_SGI1R
| CNTFRQ_EL0 | CNTVCT_EL0.

#[export] Instance sysreg_eq_dec : EqDecision sysreg.
Proof. solve_decision. Defined.

(** [load n a]: a load of [n] bytes at [a]; [mrs]: a system register read.  The
    interrupt masks of the CPU are set by [daif]: true masks. *)
Class Machine (S : Type) := {
  load : nat -> Z -> S -> Z * S;
  store : nat -> Z -> Z -> S -> S;
  mrs : sysreg -> S -> Z * S;
  msr : sysreg -> Z -> S -> S;
  set_irq_mask : bool -> S -> S;
  set_fiq_mask : bool -> S -> S
}.

Section Access.
Context {S : Type} `{!Machine S}.

Definition mmio_read (n : nat) (a : Z) : cmd S Z := fun s => Ret (load n (u64 a) s).
Definition mmio_write (n : nat) (a v : Z) : cmd S unit := fun s => Ret (tt, store n (u64 a) (uwrap (8 * Z.of_nat n) v) s).
Definition read_sysreg (r : sysreg) : cmd S Z := fun s => Ret (mrs r s).
Definition write_sysreg (r : sysreg) (v : Z) : cmd S unit := fun s => Ret (tt, msr r (u64 v) s).

Definition enable_irq : cmd S unit := modify (set_irq_mask false).
Definition disable_irq : cmd S unit := modify (set_irq_mask true).
Definition enable_fiq : cmd S unit := modify (set_fiq_mask false).
Definition disable_fiq : cmd S unit := modify (set_fiq_mask true).
End Access.

(** A driver: its static variables and the machine. *)
Section Driver.
Context {D S : Type}.
Definition hw {A} (c : cmd S A) : cmd (D * S) A := zoom snd (fun w s => (s.1, w)) c.
Definition getv {A} (f : D -> A) : cmd (D * S) A := gets (fun s => f s.1).
Definition setv (f : D -> D) : cmd (D * S) unit := modify (fun s => (f s.1, s.2)).
End Driver.

(** ** assert and arrays *)

(** A failed assertion prints and calls [pal_terminate_simulation]. *)
Definition assert {S} (b : bool) : cmd S unit := if b then mret tt else panic.

(** [a[i]] of an array of [length a] elements. *)
Definition aref {A S} (a : list A) (i : Z) : cmd S A :=
  if i <? 0 then (fun _ => Fault)
  else match a !! Z.to_nat i with Some x => mret x | None => (fun _ => Fault) end.
Definition aset {A} (a : list A) (i : Z) (x : A) : list A := <[Z.to_nat i := x]> a.

Lemma aref_Ret {A S} (a : list A) i (s : S) x : 0 <= i -> a !! Z.to_nat i = Some x -> aref a i s = Ret (x, s).
Proof. intros Hi E. unfold aref. replace (i <? 0) with false by lia. by rewrite E. Qed.

(** ** Numbering the CPUs *)
Definition PLATFORM_NO_OF_CPUS : Z := 8.
Definition MPIDR_MT_MASK : Z := Z.shiftl 1 24.
Definition MPIDR_AFFINITY_BITS : Z := 8.
Definition MPIDR_AFFLVL_MASK : Z := 0xff.
Definition MPIDR_AFF0_SHIFT : Z := 0.
Definition MPIDR_AFF1_SHIFT : Z := 8.
Definition MPIDR_AFF2_SHIFT : Z := 16.
Definition MPIDR_AFF3_SHIFT : Z := 32.
Definition MPIDR_AFFINITY_MASK : Z := 0xff00ffffff.
Definition MPID_MASK : Z :=
  Z.lor MPIDR_MT_MASK (Z.lor (Z.shiftl MPIDR_AFFLVL_MASK MPIDR_AFF3_SHIFT) (Z.lor (Z.shiftl MPIDR_AFFLVL_MASK MPIDR_AFF2_SHIFT)
    (Z.lor (Z.shiftl MPIDR_AFFLVL_MASK MPIDR_AFF1_SHIFT) (Z.shiftl MPIDR_AFFLVL_MASK MPIDR_AFF0_SHIFT)))).
Definition TARGET_CPU_ON_MASK : Z := Z.land MPID_MASK (u64 (Z.lnot MPIDR_MT_MASK)).
Definition FVP_MAX_CPUS_PER_CLUSTER : Z := 4.
Definition FVP_MAX_PE_PER_CPU : Z := 1.

(** The affinity field at [shift]: [MPIDR_AFF_ID], and [ubfx] in platform.S. *)
Definition MPIDR_AFF_ID (mpid shift : Z) : Z := Z.land (Z.shiftr mpid shift) MPIDR_AFFLVL_MASK.

(** Without the multi-threading bit the fields are moved up one place. *)
Definition platform_get_core_pos (mpid : Z) : Z :=
  let x3 := if Z.land mpid MPIDR_MT_MASK =? 0 then u64 (Z.shiftl mpid MPIDR_AFFINITY_BITS) else mpid in
  let x0 := MPIDR_AFF_ID x3 MPIDR_AFF0_SHIFT in
  let x1 := MPIDR_AFF_ID x3 MPIDR_AFF1_SHIFT in
  let x4 := MPIDR_AFF_ID x3 MPIDR_AFF2_SHIFT in
  let x1 := x4 * FVP_MAX_CPUS_PER_CLUSTER + x1 in
  u32 (x1 * FVP_MAX_PE_PER_CPU + x0).

(** ** pal_vcpu_setup.c *)
Definition PAL_SUCCESS : Z := 0.
Definition PAL_ERROR : Z := 1.
Definition PAL_INVALID_CPU_INFO : Z := 0xffffffff.
Definition SMC_PSCI_CPU_ON_AARCH64 : Z := 0xc4000003.
Definition SMC_PSCI_CPU_OFF : Z := 0x84000002.
Definition PSCI_E_SUCCESS : Z := 0.
Definition CONTEXT_ID_VALUE : Z := 0x55555555.

Definition mpid_array : list Z :=
  [0x1000000; 0x1000100; 0x1000200; 0x1000300; 0x1010000; 0x1010100; 0x1010200; 0x1010300].
Definition vmpid_array : list Z := [0; 1; 2; 3; 4; 5; 6; 7].
Definition pal_get_no_of_cpus : Z := PLATFORM_NO_OF_CPUS.

(** [for (i = ..; i < no_of_cpus; i++) if (mpid == ids[i]) return i;] *)
Fixpoint cpu_index (mpid i : Z) (ids : list Z) : option Z :=
  match ids with
  | [] => None
  | x :: ids' => if mpid =? x then Some i else cpu_index mpid (i + 1) ids'
  end.

Definition pal_get_cpuid (mpid : Z) : Z :=
  let mpid := Z.land mpid MPID_MASK in
  match cpu_index mpid 0 mpid_array with
  | Some i => i
  | None => match cpu_index mpid 0 vmpid_array with
            | Some i => i
            | None => PAL_INVALID_CPU_INFO
            end
  end.

Definition pal_get_mpid (cpuid : Z) : Z :=
  if cpuid <? pal_get_no_of_cpus then default 0 (mpid_array !! Z.to_nat cpuid) else PAL_INVALID_CPU_INFO.

(** val_vcpu_setup.c *)
Definition val_get_no_of_cpus : Z := pal_get_no_of_cpus.
Definition val_get_cpuid (mpid : Z) : Z := pal_get_cpuid mpid.
Definition val_get_mpid (cpuid : Z) : Z := pal_get_mpid cpuid.

Section Power.
Context {S : Type}.
(** The PSCI call of pal_misc_asm.S, and the address the linker gives to the boot
    code of a secondary CPU. *)
Context (pal_syscall_for_psci : Z -> Z -> Z -> Z -> cmd S Z) (pal_secondary_cpu_boot_entry : Z).

Definition pal_psci_cpu_on (target_cpu entry_point_address context_id : Z) : cmd S Z :=
  r ← pal_syscall_for_psci SMC_PSCI_CPU_ON_AARCH64 target_cpu entry_point_address context_id; mret (u32 r).
Definition pal_psci_cpu_off : cmd S Z := r ← pal_syscall_for_psci SMC_PSCI_CPU_OFF 0 0 0; mret (u32 r).
Definition pal_power_on_cpu (mpid : Z) : cmd S Z :=
  ret ← pal_psci_cpu_on mpid pal_secondary_cpu_boot_entry CONTEXT_ID_VALUE;
  mret (if ret =? PSCI_E_SUCCESS then PAL_SUCCESS else PAL_ERROR).
Definition pal_power_off_cpu : cmd S Z := _ ← pal_psci_cpu_off; mret PAL_ERROR.

Definition val_power_on_cpu (target_cpuid : Z) : cmd S Z :=
  pal_power_on_cpu (Z.land (val_get_mpid target_cpuid) TARGET_CPU_ON_MASK).
Definition val_power_off_cpu : cmd S Z := pal_power_off_cpu.
End Power.

(** ** The two numberings agree *)

Lemma cpu_index_spec mpid i ids k : cpu_index mpid i ids = Some k -> i <= k /\ ids !! Z.to_nat (k - i) = Some mpid.
Proof.
  revert i; induction ids as [|x ids IH]; intros i; cbn [cpu_index]; [done|].
  destruct (Z.eqb_spec mpid x) as [->|].
  - intros [= <-]. by rewrite Z.sub_diag.
  - intros E%IH. destruct E as [H1 H2]. split; [lia|]. replace (Z.to_nat (k - i)) with (S (Z.to_nat (k - (i + 1)))) by lia. done.
Qed.

Lemma MPID_MASK_low k : 0 <= k < 24 -> Z.testbit MPID_MASK k = true.
Proof.
  intros Hk. assert (E : Z.testbit (Z.land MPID_MASK (Z.ones 24)) k = true).
  { change (Z.land MPID_MASK (Z.ones 24)) with (Z.ones 24). apply Z.ones_spec_low. lia. }
  rewrite Z.land_spec in E. by apply andb_true_iff in E as [E _].
Qed.

(** A field below bit 24 is a field of what [MPID_MASK] keeps. *)
Lemma aff_field_ext x y s :
  0 <= s -> (forall k, s <= k < s + 8 -> Z.testbit x k = Z.testbit y k) -> MPIDR_AFF_ID x s = MPIDR_AFF_ID y s.
Proof.
  intros Hs He. unfold MPIDR_AFF_ID. change MPIDR_AFFLVL_MASK with (Z.ones 8). apply Z.bits_inj'. intros n Hn.
  rewrite !Z.land_spec, !Z.shiftr_spec by lia. destruct (Z.ltb_spec n 8).
  - by rewrite (He (n + s)) by lia.
  - by rewrite Z.ones_spec_high, !andb_false_r by lia.
Qed.

(** The position of a core depends on the fields [MPID_MASK] keeps. *)
Lemma core_pos_masked mpid : platform_get_core_pos (Z.land mpid MPID_MASK) = platform_get_core_pos mpid.
Proof.
  unfold platform_get_core_pos. rewrite <- Z.land_assoc. change (Z.land MPID_MASK MPIDR_MT_MASK) with MPIDR_MT_MASK.
  assert (HF : forall s, 0 <= s <= 16 ->
    let x3 m := if Z.land mpid MPIDR_MT_MASK =? 0 then u64 (Z.shiftl m MPIDR_AFFINITY_BITS) else m in
    MPIDR_AFF_ID (x3 (Z.land mpid MPID_MASK)) s = MPIDR_AFF_ID (x3 mpid) s).
  { intros s Hs x3. apply aff_field_ext; [lia|]. intros k Hk. unfold x3. destruct (_ =? 0).
    - rewrite <- !land_ones_uwrap, !Z.land_spec by lia. f_equal. unfold MPIDR_AFFINITY_BITS.
      rewrite !Z.shiftl_spec by lia. destruct (Z.ltb_spec k 8); [by rewrite !(Z.testbit_neg_r _ (k - 8)) by lia|].
      rewrite Z.land_spec, MPID_MASK_low by lia. apply andb_true_r.
    - rewrite Z.land_spec, MPID_MASK_low by lia. apply andb_true_r. }
  cbv zeta in HF. unfold MPIDR_AFF0_SHIFT, MPIDR_AFF1_SHIFT, MPIDR_AFF2_SHIFT in *. by rewrite !HF by lia.
Qed.

(** A number found in one of the two tables is the position of the core. *)
Lemma table_positions x k : 0 <= k < 8 -> mpid_array !! Z.to_nat k = Some x \/ vmpid_array !! Z.to_nat k = Some x ->
  platform_get_core_pos x = k.
Proof.
  intros Hk Hx. assert (Hc : k = 0 \/ k = 1 \/ k = 2 \/ k = 3 \/ k = 4 \/ k = 5 \/ k = 6 \/ k = 7) by lia.
  destruct Hc as [-> | [-> | [-> | [-> | [-> | [-> | [-> | ->]]]]]]]; destruct Hx as [E | E];
    injection E as <-; vm_compute; reflexivity.
Qed.

(** The two numberings of the CPUs agree: a known MPIDR has the same index in the
    tables of pal_vcpu_setup.c and in platform_get_core_pos, and pal_get_mpid and
    pal_get_cpuid are inverse to each other. *)
Theorem cpu_numbers_agree :
  (forall mpid, pal_get_cpuid mpid = PAL_INVALID_CPU_INFO \/ pal_get_cpuid mpid = platform_get_core_pos mpid) /\
  (forall i, 0 <= i -> if decide (i < PLATFORM_NO_OF_CPUS) then pal_get_cpuid (pal_get_mpid i) = i
                       else pal_get_mpid i = PAL_INVALID_CPU_INFO) /\
  (forall i j, 0 <= i < PLATFORM_NO_OF_CPUS -> 0 <= j < PLATFORM_NO_OF_CPUS ->
     pal_get_mpid i = pal_get_mpid j -> i = j).
Proof.
  assert (HR : forall i, 0 <= i < PLATFORM_NO_OF_CPUS -> pal_get_cpuid (pal_get_mpid i) = i).
  { intros i Hi. unfold PLATFORM_NO_OF_CPUS in Hi.
    assert (Hc : i = 0 \/ i = 1 \/ i = 2 \/ i = 3 \/ i = 4 \/ i = 5 \/ i = 6 \/ i = 7) by lia.
    by destruct Hc as [-> | [-> | [-> | [-> | [-> | [-> | [-> | ->]]]]]]]. }
  split; [|split].
  - intros mpid. unfold pal_get_cpuid. rewrite <- (core_pos_masked mpid). set (m := Z.land mpid MPID_MASK).
    assert (HK : forall ids k, length ids = 8%nat -> cpu_index m 0 ids = Some k -> 0 <= k < 8 /\ ids !! Z.to_nat k = Some m).
    { intros ids k Hl E. apply cpu_index_spec in E as [Hk E]. rewrite Z.sub_0_r in E.
      apply lookup_lt_Some in E as Hlt. split; [lia | done]. }
    destruct (cpu_index m 0 mpid_array) as [k|] eqn:E1.
    { right. symmetry. destruct (HK mpid_array k eq_refl E1). apply table_positions; auto. }
    destruct (cpu_index m 0 vmpid_array) as [k|] eqn:E2; [|by left].
    right. symmetry. destruct (HK vmpid_array k eq_refl E2). apply table_positions; auto.
  - intros i Hi. case_decide; [apply HR; lia|]. unfold pal_get_mpid, pal_get_no_of_cpus.
    by replace (i <? PLATFORM_NO_OF_CPUS) with false by lia.
  - intros i j Hi Hj E. rewrite <- (HR i Hi), <- (HR j Hj). by rewrite E.
Qed.
