(* ===== verification/Gic.v ===== *)
(** * The interrupt controller drivers

    pal_gic_common.c, pal_gic_v2.c, pal_gic_v3.c and pal_arm_gic_v2v3.c, which picks
    one of the two at run time.  The static variables of each driver are a record
    next to the machine; barriers ([isb], [dsb]) order accesses the model orders
    anyway and are left out. *)

From S2P Require Import Prelude Machine.

(** ** Interrupt numbers (pal_arm_gic.h) *)
Definition MIN_SGI_ID : Z := 0.
Definition MAX_SGI_ID : Z := 15.
Definition MIN_PPI_ID : Z := 16.
Definition MAX_PPI_ID : Z := 31.
Definition MIN_SPI_ID : Z := 32.
Definition MAX_SPI_ID : Z := 1019.
Definition IS_SGI (irq_num : Z) : bool := irq_num <=? MAX_SGI_ID.
Definition IS_PPI (irq_num : Z) : bool := (MIN_PPI_ID <=? irq_num) && (irq_num <=? MAX_PPI_ID).
Definition IS_SPI (irq_num : Z) : bool := (MIN_SPI_ID <=? irq_num) && (irq_num <=? MAX_SPI_ID).
Definition IS_VALID_INTR_ID (irq_num : Z) : bool := irq_num <=? MAX_SPI_ID.
Definition GIC_SPURIOUS_INTERRUPT : Z := 1023.

(** ** Registers *)
Definition GICD_CTLR : Z := 0.
Definition GICD_TYPER : Z := 4.
Definition GICD_ISENABLER : Z := 0x100.
Definition GICD_ICENABLER : Z := 0x180.
Definition GICD_ISPENDR : Z := 0x200.
Definition GICD_ICPENDR : Z := 0x280.
Definition GICD_ISACTIVER : Z := 0x300.
Definition GICD_ICACTIVER : Z := 0x380.
Definition GICD_IPRIORITYR : Z := 0x400.
Definition GICD_ICFGR : Z := 0xc00.
Definition ISENABLER_SHIFT : Z := 5.
Definition ICENABLER_SHIFT : Z := ISENABLER_SHIFT.
Definition ISPENDR_SHIFT : Z := 5.
Definition ICPENDR_SHIFT : Z := ISPENDR_SHIFT.
Definition ISACTIVER_SHIFT : Z := 5.
Definition ICACTIVER_SHIFT : Z := ISACTIVER_SHIFT.
Definition IPRIORITYR_SHIFT : Z := 2.
Definition ICFGR_SHIFT : Z := 4.
Definition GIC_PRI_MASK : Z := 0xff.
Definition NUM_PCPU_INTR : Z := 32.
Definition ID_AA64PFR0_GIC_SHIFT : Z := 24.
Definition ID_AA64PFR0_GIC_MASK : Z := 0xf.
Definition ICC_SRE_SRE_BIT : Z := 1.
Definition MODE_EL_SHIFT : Z := 2.
Definition MODE_EL_MASK : Z := 3.
Definition MODE_EL2 : Z := 2.

(** ** Loops over registers *)

(** The values [f] yields for [i], [i + 1], .., [n] of them. *)
Fixpoint collect {S A} (n : nat) (i : Z) (f : Z -> cmd S A) : cmd S (list A) :=
  match n with
  | O => mret []
  | Datatypes.S n' => x ← f i; xs ← collect n' (i + 1) f; mret (x :: xs)
  end.

(** [f i], [f (i + 1)], .., [n] times. *)
Fixpoint for_n {S} (n : nat) (i : Z) (f : Z -> cmd S unit) : cmd S unit :=
  match n with
  | O => mret tt
  | Datatypes.S n' => _ ← f i; for_n n' (i + 1) f
  end.

(** ** pal_gic_common.c *)
Section Common.
Context {S : Type} `{!Machine S}.

(** The address of the word of [reg] that holds interrupt [id]. *)
Definition word_of (base reg shift id : Z) : Z := base + reg + u32 (Z.shiftl (Z.shiftr id shift) 2).
(** [1U << (id & ((1 << shift) - 1))]. *)
Definition bit_of (shift id : Z) : Z := u32 (Z.shiftl 1 (Z.land id (Z.shiftl 1 shift - 1))).

Definition gicd_read_isenabler (base id : Z) : cmd S Z := mmio_read 4 (word_of base GICD_ISENABLER ISENABLER_SHIFT id).
Definition gicd_read_icenabler (base id : Z) : cmd S Z := mmio_read 4 (word_of base GICD_ICENABLER ICENABLER_SHIFT id).
Definition gicd_read_ispendr (base id : Z) : cmd S Z := mmio_read 4 (word_of base GICD_ISPENDR ISPENDR_SHIFT id).
Definition gicd_read_icpendr (base id : Z) : cmd S Z := mmio_read 4 (word_of base GICD_ICPENDR ICPENDR_SHIFT id).
Definition gicd_read_isactiver (base id : Z) : cmd S Z := mmio_read 4 (word_of base GICD_ISACTIVER ISACTIVER_SHIFT id).
Definition gicd_read_icactiver (base id : Z) : cmd S Z := mmio_read 4 (word_of base GICD_ICACTIVER ICACTIVER_SHIFT id).
Definition gicd_read_ipriorityr (base id : Z) : cmd S Z := mmio_read 4 (word_of base GICD_IPRIORITYR IPRIORITYR_SHIFT id).
Definition gicd_read_icfgr (base id : Z) : cmd S Z := mmio_read 4 (word_of base GICD_ICFGR ICFGR_SHIFT id).

Definition gicd_write_isenabler (base id v : Z) : cmd S unit := mmio_write 4 (word_of base GICD_ISENABLER ISENABLER_SHIFT id) v.
Definition gicd_write_icenabler (base id v : Z) : cmd S unit := mmio_write 4 (word_of base GICD_ICENABLER ICENABLER_SHIFT id) v.
Definition gicd_write_ispendr (base id v : Z) : cmd S unit := mmio_write 4 (word_of base GICD_ISPENDR ISPENDR_SHIFT id) v.
Definition gicd_write_icpendr (base id v : Z) : cmd S unit := mmio_write 4 (word_of base GICD_ICPENDR ICPENDR_SHIFT id) v.
Definition gicd_write_isactiver (base id v : Z) : cmd S unit := mmio_write 4 (word_of base GICD_ISACTIVER ISACTIVER_SHIFT id) v.
Definition gicd_write_icactiver (base id v : Z) : cmd S unit := mmio_write 4 (word_of base GICD_ICACTIVER ICACTIVER_SHIFT id) v.
Definition gicd_write_ipriorityr (base id v : Z) : cmd S unit := mmio_write 4 (word_of base GICD_IPRIORITYR IPRIORITYR_SHIFT id) v.
Definition gicd_write_icfgr (base id v : Z) : cmd S unit := mmio_write 4 (word_of base GICD_ICFGR ICFGR_SHIFT id) v.

Definition gicd_get_isenabler (base id : Z) : cmd S Z := v ← gicd_read_isenabler base id; mret (Z.land v (bit_of ISENABLER_SHIFT id)).
Definition gicd_set_isenabler (base id : Z) : cmd S unit := gicd_write_isenabler base id (bit_of ISENABLER_SHIFT id).
Definition gicd_set_icenabler (base id : Z) : cmd S unit := gicd_write_icenabler base id (bit_of ICENABLER_SHIFT id).
Definition gicd_set_ispendr (base id : Z) : cmd S unit := gicd_write_ispendr base id (bit_of ISPENDR_SHIFT id).
Definition gicd_set_icpendr (base id : Z) : cmd S unit := gicd_write_icpendr base id (bit_of ICPENDR_SHIFT id).
Definition gicd_set_isactiver (base id : Z) : cmd S unit := gicd_write_isactiver base id (bit_of ISACTIVER_SHIFT id).
Definition gicd_set_icactiver (base id : Z) : cmd S unit := gicd_write_icactiver base id (bit_of ICACTIVER_SHIFT id).
Definition gicd_get_ipriorityr (base id : Z) : cmd S Z := v ← gicd_read_ipriorityr base id; mret (Z.land v GIC_PRI_MASK).
Definition gicd_set_ipriorityr (base id priority : Z) : cmd S unit :=
  mmio_write 1 (base + GICD_IPRIORITYR + id) (Z.land priority GIC_PRI_MASK).

Definition gicd_read_ctlr (base : Z) : cmd S Z := mmio_read 4 (base + GICD_CTLR).
Definition gicd_read_typer (base : Z) : cmd S Z := mmio_read 4 (base + GICD_TYPER).
Definition gicd_write_ctlr (base v : Z) : cmd S unit := mmio_write 4 (base + GICD_CTLR) v.

(** [IS_IN_EL2()] chooses the register. *)
Definition is_sre_enabled : cmd S Z :=
  el ← read_sysreg CurrentEL;
  sre ← read_sysreg (if Z.land (Z.shiftr el MODE_EL_SHIFT) MODE_EL_MASK =? MODE_EL2 then ICC_SRE_EL2 else ICC_SRE_EL1);
  mret (Z.land sre ICC_SRE_SRE_BIT).

Definition gic_sysregs_present : cmd S bool :=
  pfr ← read_sysreg ID_AA64PFR0_EL1;
  mret (negb (Z.land pfr (Z.shiftl ID_AA64PFR0_GIC_MASK ID_AA64PFR0_GIC_SHIFT) =? 0)).

Definition is_gicv3_mode : cmd S Z :=
  present ← gic_sysregs_present;
  if negb present then mret 0 else sre ← is_sre_enabled; mret (if sre =? 0 then 0 else 1).

(** The position of the core this runs on. *)
Definition my_core_pos : cmd S Z := mpidr ← read_sysreg MPIDR_EL1; mret (platform_get_core_pos mpidr).
End Common.

(** ** pal_gic_v2.c *)
Definition GICD_CTLR_ENABLE : Z := 1.
Definition GICD_ITARGETSR : Z := 0x800.
Definition GICD_SGIR : Z := 0xf00.
Definition GICD_CPENDSGIR : Z := 0xf10.
Definition GICD_SPENDSGIR : Z := 0xf20.
Definition ITARGETSR_SHIFT : Z := 2.
Definition CPENDSGIR_SHIFT : Z := 2.
Definition SPENDSGIR_SHIFT : Z := CPENDSGIR_SHIFT.
Definition GICD_SGIR_INTID_SHIFT : Z := 0.
Definition GICD_SGIR_CPUTL_SHIFT : Z := 16.
Definition GICC_CTLR : Z := 0.
Definition GICC_PMR : Z := 4.
Definition GICC_IAR : Z := 0xc.
Definition GICC_EOIR : Z := 0x10.
Definition GICC_IAR_INTID_SHIFT : Z := 0.
Definition GICC_IAR_INTID_MASK : Z := 0x3ff.
Definition get_gicc_iar_intid (v : Z) : Z := Z.land (Z.shiftr v GICC_IAR_INTID_SHIFT) GICC_IAR_INTID_MASK.
Definition GICC_CTLR_ENABLE : Z := 1.
Definition FIQ_BYP_DIS_GRP1 : Z := Z.shiftl 1 5.
Definition IRQ_BYP_DIS_GRP1 : Z := Z.shiftl 1 6.
Definition UINT32_MAX : Z := 0xffffffff.

Module V2.
Record gicv2_pcpu_ctx := PcpuCtx { c_gicc_ctlr : Z; c_isenabler0 : Z; c_ipriorityr : list Z; c_icfgr : Z }.
Record gicv2 := GicV2 {
  pcpu_gic_ctx : list gicv2_pcpu_ctx; gicc_base_addr : Z; gicd_base_addr : Z; gic_cpu_id : list Z
}.
Definition set_ctx (i : Z) (f : gicv2_pcpu_ctx -> gicv2_pcpu_ctx) (d : gicv2) : gicv2 :=
  GicV2 (alter f (Z.to_nat i) (pcpu_gic_ctx d)) (gicc_base_addr d) (gicd_base_addr d) (gic_cpu_id d).
Definition set_cpu_id (i v : Z) (d : gicv2) : gicv2 :=
  GicV2 (pcpu_gic_ctx d) (gicc_base_addr d) (gicd_base_addr d) (aset (gic_cpu_id d) i v).

(** The initialiser gives [UINT32_MAX] to the first element only. *)
Definition gicv2_zero : gicv2 :=
  GicV2 (replicate 8 (PcpuCtx 0 0 (replicate 8 0) 0)) 0 0 (UINT32_MAX :: replicate 7 0).

Section V2.
Context {S : Type} `{!Machine S}.
Abbreviation cm := (cmd (gicv2 * S)).

Definition core_pos_to_gic_id (core_pos : Z) : cm Z :=
  ids ← getv gic_cpu_id; id ← aref ids core_pos; _ ← assert (negb (id =? UINT32_MAX)); mret id.

(** The registers with a 32-bit [base]. *)
Definition gicd_read_itargetsr_byte (base id : Z) : cmd S Z := mmio_read 1 (u32 (u32 (base + GICD_ITARGETSR) + id)).
Definition gicd_read_itargetsr (base id : Z) : cmd S Z := mmio_read 4 (u32 (word_of base GICD_ITARGETSR ITARGETSR_SHIFT id)).
Definition gicd_read_cpendsgir (base id : Z) : cmd S Z := mmio_read 4 (u32 (word_of base GICD_CPENDSGIR CPENDSGIR_SHIFT id)).
Definition gicd_read_spendsgir (base id : Z) : cmd S Z := mmio_read 4 (u32 (word_of base GICD_SPENDSGIR SPENDSGIR_SHIFT id)).
Definition gicd_write_itargetsr (base id v : Z) : cmd S unit := mmio_write 4 (u32 (word_of base GICD_ITARGETSR ITARGETSR_SHIFT id)) v.
Definition gicd_write_itargetsr_byte (base id v : Z) : cmd S unit := mmio_write 1 (u32 (base + GICD_ITARGETSR + id)) (u8 v).
Definition gicd_write_cpendsgir (base id v : Z) : cmd S unit := mmio_write 4 (u32 (word_of base GICD_CPENDSGIR CPENDSGIR_SHIFT id)) v.
Definition gicd_write_spendsgir (base id v : Z) : cmd S unit := mmio_write 4 (u32 (word_of base GICD_SPENDSGIR SPENDSGIR_SHIFT id)) v.
Definition gicd_set_itargetsr (base id iface : Z) : cmd S unit :=
  mmio_write 1 (u32 (base + GICD_ITARGETSR + id)) (u8 (u32 (Z.shiftl 1 iface))).
Definition gicd_write_sgir (base v : Z) : cmd S unit := mmio_write 4 (u32 (base + GICD_SGIR)) v.
Definition gicc_read_ctlr (base : Z) : cmd S Z := mmio_read 4 (u32 (base + GICC_CTLR)).
Definition gicc_read_iar (base : Z) : cmd S Z := mmio_read 4 (u32 (base + GICC_IAR)).
Definition gicc_write_ctlr (base v : Z) : cmd S unit := mmio_write 4 (u32 (base + GICC_CTLR)) v.
Definition gicc_write_pmr (base v : Z) : cmd S unit := mmio_write 4 (u32 (base + GICC_PMR)) v.
Definition gicc_write_eoir (base v : Z) : cmd S unit := mmio_write 4 (u32 (base + GICC_EOIR)) v.

(** [assert(gicc_base_addr)] and [assert(gicd_base_addr)], with the base. *)
Definition gicc : cm Z := b ← getv gicc_base_addr; _ ← assert (negb (b =? 0)); mret b.
Definition gicd : cm Z := b ← getv gicd_base_addr; _ ← assert (negb (b =? 0)); mret b.

Definition gicv2_enable_cpuif : cm unit :=
  b ← gicc; hw (gicc_write_ctlr (u32 b) (Z.lor GICC_CTLR_ENABLE (Z.lor FIQ_BYP_DIS_GRP1 IRQ_BYP_DIS_GRP1))).

(** [__builtin_ctz] of a non-zero 32-bit value. *)
Fixpoint ctz (n : nat) (v : Z) : Z :=
  match n with
  | O => 0
  | Datatypes.S n' => if Z.odd v then 0 else 1 + ctz n' (Z.shiftr v 1)
  end.

Definition gicv2_probe_gic_cpu_id : cm unit :=
  b ← gicd;
  core_pos ← hw my_core_pos;
  v ← hw (gicd_read_itargetsr (u32 b) 0);
  _ ← assert (negb (v =? 0));
  ids ← getv gic_cpu_id; _ ← aref ids core_pos;
  setv (set_cpu_id core_pos (ctz 32 v)).

Definition gicv2_setup_cpuif : cm unit :=
  b ← gicc; _ ← hw (gicc_write_pmr (u32 b) GIC_PRI_MASK); gicv2_enable_cpuif.

Definition gicv2_disable_cpuif : cm unit :=
  b ← gicc; v ← hw (gicc_read_ctlr (u32 b));
  let v := Z.land v (u32 (Z.lnot GICC_CTLR_ENABLE)) in
  hw (gicc_write_ctlr (u32 b) (Z.lor v (Z.lor FIQ_BYP_DIS_GRP1 IRQ_BYP_DIS_GRP1))).

Definition gicv2_save_cpuif_context : cm unit :=
  core_pos ← hw my_core_pos; b ← gicc;
  v ← hw (gicc_read_ctlr (u32 b));
  cs ← getv pcpu_gic_ctx; _ ← aref cs core_pos;
  setv (set_ctx core_pos (fun c => PcpuCtx v (c_isenabler0 c) (c_ipriorityr c) (c_icfgr c))).

Definition gicv2_restore_cpuif_context : cm unit :=
  core_pos ← hw my_core_pos; b ← gicc;
  _ ← hw (gicc_write_pmr (u32 b) GIC_PRI_MASK);
  cs ← getv pcpu_gic_ctx; c ← aref cs core_pos;
  hw (gicc_write_ctlr (u32 b) (c_gicc_ctlr c)).

Definition gicv2_setup_distif : cm unit :=
  b ← gicd; v ← hw (gicd_read_ctlr b); hw (gicd_write_ctlr b (Z.lor v GICD_CTLR_ENABLE)).

(** The number of priority words of the banked interrupts. *)
Definition ipriority_words : nat := Z.to_nat (Z.shiftr NUM_PCPU_INTR IPRIORITYR_SHIFT).

Definition gicv2_save_sgi_ppi_context : cm unit :=
  core_pos ← hw my_core_pos; b ← gicd;
  cs ← getv pcpu_gic_ctx; _ ← aref cs core_pos;
  en ← hw (gicd_read_isenabler b 0);
  pri ← hw (collect ipriority_words 0 (fun i => gicd_read_ipriorityr b (Z.shiftl i IPRIORITYR_SHIFT)));
  cfg ← hw (gicd_read_icfgr b MIN_PPI_ID);
  setv (set_ctx core_pos (fun c => PcpuCtx (c_gicc_ctlr c) en pri cfg)).

Definition gicv2_restore_sgi_ppi_context : cm unit :=
  core_pos ← hw my_core_pos; b ← gicd;
  cs ← getv pcpu_gic_ctx; c ← aref cs core_pos;
  _ ← hw (for_n ipriority_words 0 (fun i =>
        gicd_write_ipriorityr b (Z.shiftl i IPRIORITYR_SHIFT) (default 0 (c_ipriorityr c !! Z.to_nat i))));
  _ ← hw (gicd_write_icfgr b MIN_PPI_ID (c_icfgr c));
  hw (gicd_write_isenabler b 0 (c_isenabler0 c)).

Definition gicv2_gicd_get_ipriorityr (id : Z) : cm Z :=
  b ← gicd; _ ← assert (IS_VALID_INTR_ID id); hw (gicd_get_ipriorityr b id).
Definition gicv2_gicd_set_ipriorityr (id priority : Z) : cm unit :=
  b ← gicd; _ ← assert (IS_VALID_INTR_ID id); hw (gicd_set_ipriorityr b id priority).

Definition gicv2_send_sgi (sgi_id core_pos : Z) : cm unit :=
  b ← gicd; _ ← assert (IS_SGI sgi_id);
  gid ← core_pos_to_gic_id core_pos;
  hw (gicd_write_sgir (u32 b) (Z.lor (u32 (Z.shiftl sgi_id GICD_SGIR_INTID_SHIFT))
                                 (u32 (Z.shiftl (u32 (Z.shiftl 1 gid)) GICD_SGIR_CPUTL_SHIFT)))).

Definition gicv2_set_itargetsr (num core_pos : Z) : cm unit :=
  b ← gicd; _ ← assert (IS_SPI num);
  gid ← core_pos_to_gic_id core_pos; hw (gicd_set_itargetsr (u32 b) num gid).
Definition gicv2_read_itargetsr_value (num : Z) : cm Z :=
  b ← getv gicd_base_addr; hw (gicd_read_itargetsr_byte (u32 b) num).
Definition gicv2_set_itargetsr_value (num v : Z) : cm unit :=
  b ← gicd; _ ← assert (IS_SPI num);
  _ ← hw (gicd_write_itargetsr_byte (u32 b) num v);
  r ← gicv2_read_itargetsr_value num; assert (r =? v).

Definition gicv2_gicd_get_isenabler (num : Z) : cm Z :=
  b ← gicd; _ ← assert (IS_VALID_INTR_ID num); hw (gicd_get_isenabler b num).
Definition gicv2_gicd_set_isenabler (num : Z) : cm unit :=
  b ← gicd; _ ← assert (IS_VALID_INTR_ID num); hw (gicd_set_isenabler b num).
Definition gicv2_gicd_set_icenabler (num : Z) : cm unit :=
  b ← gicd; _ ← assert (IS_VALID_INTR_ID num); hw (gicd_set_icenabler b num).
Definition gicv2_gicc_read_iar : cm Z := b ← gicc; hw (gicc_read_iar (u32 b)).
Definition gicv2_gicd_get_ispendr (id : Z) : cm Z :=
  b ← gicd; _ ← assert (IS_VALID_INTR_ID id);
  v ← hw (gicd_read_ispendr b id);
  mret (if Z.land v (u32 (Z.shiftl 1 (id mod Z.shiftl 1 ISPENDR_SHIFT))) =? 0 then 0 else 1).
Definition gicv2_gicd_set_ispendr (id : Z) : cm unit :=
  b ← gicd; _ ← assert (IS_PPI id || IS_SPI id); hw (gicd_set_ispendr b id).
Definition gicv2_gicd_set_icpendr (id : Z) : cm unit :=
  b ← gicd; _ ← assert (IS_PPI id || IS_SPI id); hw (gicd_set_icpendr b id).
Definition gicv2_gicc_write_eoir (v : Z) : cm unit := b ← gicc; hw (gicc_write_eoir (u32 b) v).

Definition gicv2_init (gicc_base gicd_base : Z) : cm unit :=
  _ ← assert (negb (gicc_base =? 0)); _ ← assert (negb (gicd_base =? 0));
  v3 ← hw is_gicv3_mode; _ ← assert (v3 =? 0);
  setv (fun d => GicV2 (pcpu_gic_ctx d) gicc_base gicd_base (gic_cpu_id d)).
End V2.
End V2.

(** ** pal_gic_v3.c *)
Definition GICD_IROUTER : Z := 0x6000.
Definition GICD_CTLR_ENABLE_GRP1A : Z := Z.shiftl 1 1.
Definition GICD_CTLR_ARE_NS_SHIFT : Z := 4.
Definition GICD_CTLR_ARE_NS_MASK : Z := 1.
Definition TYPER_AFF_VAL_SHIFT : Z := 32.
Definition TYPER_AFF_VAL_MASK : Z := 0xffffffff.
Definition TYPER_LAST_SHIFT : Z := 4.
Definition TYPER_LAST_BIT : Z := Z.shiftl 1 TYPER_LAST_SHIFT.
Definition GICR_PCPUBASE_SHIFT : Z := 0x11.
Definition GICR_SGIBASE_OFFSET : Z := Z.shiftl 1 0x10.
Definition GICR_TYPER : Z := 8.
Definition GICR_ISENABLER0 : Z := GICR_SGIBASE_OFFSET + 0x100.
Definition GICR_ICENABLER0 : Z := GICR_SGIBASE_OFFSET + 0x180.
Definition GICR_ISPENDR0 : Z := GICR_SGIBASE_OFFSET + 0x200.
Definition GICR_ICPENDR0 : Z := GICR_SGIBASE_OFFSET + 0x280.
Definition GICR_IPRIORITYR : Z := GICR_SGIBASE_OFFSET + 0x400.
Definition GICR_ICFGR1 : Z := GICR_SGIBASE_OFFSET + 0xc04.
Definition IAR1_EL1_INTID_MASK : Z := 0xffffff.
Definition SGI1R_TARGET_LIST_MASK : Z := 0xffff.
Definition SGI1R_TARGET_LIST_SHIFT : Z := 0.
Definition SGI1R_AFF_MASK : Z := 0xff.
Definition SGI1R_AFF1_SHIFT : Z := 16.
Definition SGI1R_AFF2_SHIFT : Z := 32.
Definition SGI1R_AFF3_SHIFT : Z := 48.
Definition SGI1R_INTID_MASK : Z := 0xf.
Definition SGI1R_INTID_SHIFT : Z := 24.
Definition IGRPEN1_EL1_ENABLE_BIT : Z := 1.
Definition SGI_TARGET_MAX_AFF0 : Z := 16.
Definition UINT64_MAX : Z := 0xffffffffffffffff.
Definition MPIDR_AFFLVL3_MASK : Z := Z.shiftl MPIDR_AFFLVL_MASK MPIDR_AFF3_SHIFT.
(** Affinity level 3 moved next to the others, as GICR_TYPER has it. *)
Definition gic_typer_affinity_from_mpidr (mpidr : Z) : Z :=
  Z.lor (Z.land mpidr (u64 (Z.lnot MPIDR_AFFLVL3_MASK))) (Z.shiftr (Z.land mpidr MPIDR_AFFLVL3_MASK) 8).

Module V3.
Record gicv3_pcpu_ctx := PcpuCtx {
  is_suspended : Z; icc_igrpen1 : Z; c_isenabler : Z; c_ipriorityr : list Z; c_icfgr : Z
}.
Record gicv3 := GicV3 {
  gicr_base_addr : Z; gicd_base_addr : Z; pcpu_ctx : list gicv3_pcpu_ctx;
  rdist_pcpu_base : list Z; mpidr_list : list Z
}.
Definition set_ctx (i : Z) (f : gicv3_pcpu_ctx -> gicv3_pcpu_ctx) (d : gicv3) : gicv3 :=
  GicV3 (gicr_base_addr d) (gicd_base_addr d) (alter f (Z.to_nat i) (pcpu_ctx d)) (rdist_pcpu_base d) (mpidr_list d).
Definition set_rdist (i base mpidr : Z) (d : gicv3) : gicv3 :=
  GicV3 (gicr_base_addr d) (gicd_base_addr d) (pcpu_ctx d) (aset (rdist_pcpu_base d) i base) (aset (mpidr_list d) i mpidr).

(** The initialiser gives [UINT64_MAX] to the first element only. *)
Definition gicv3_zero : gicv3 :=
  GicV3 0 0 (replicate 8 (PcpuCtx 0 0 0 (replicate 8 0) 0)) (replicate 8 0) (UINT64_MAX :: replicate 7 0).

Section V3.
Context {S : Type} `{!Machine S} (fuel : nat).
Abbreviation cm := (cmd (gicv3 * S)).

Definition gicd_write_irouter (base id route : Z) : cmd S unit :=
  _ ← assert (MIN_SPI_ID <=? id); mmio_write 8 (base + GICD_IROUTER + u32 (Z.shiftl id 3)) route.
Definition gicr_write_isenabler0 (base v : Z) : cmd S unit := mmio_write 4 (base + GICR_ISENABLER0) v.
Definition gicr_write_icenabler0 (base v : Z) : cmd S unit := mmio_write 4 (base + GICR_ICENABLER0) v.
Definition gicr_write_icpendr0 (base v : Z) : cmd S unit := mmio_write 4 (base + GICR_ICPENDR0) v.
Definition gicr_write_ipriorityr (base id v : Z) : cmd S unit := mmio_write 4 (word_of base GICR_IPRIORITYR IPRIORITYR_SHIFT id) v.
Definition gicr_write_icfgr1 (base v : Z) : cmd S unit := mmio_write 4 (base + GICR_ICFGR1) v.
Definition gicr_read_typer (base : Z) : cmd S Z := mmio_read 8 (base + GICR_TYPER).
Definition gicr_read_icfgr1 (base : Z) : cmd S Z := mmio_read 4 (base + GICR_ICFGR1).
Definition gicr_read_isenabler0 (base : Z) : cmd S Z := mmio_read 4 (base + GICR_ISENABLER0).
Definition gicr_read_ipriorityr (base id : Z) : cmd S Z := mmio_read 4 (word_of base GICR_IPRIORITYR IPRIORITYR_SHIFT id).
Definition gicr_read_ispendr0 (base : Z) : cmd S Z := mmio_read 4 (base + GICR_ISPENDR0).
Definition gicr_get_isenabler0 (base id : Z) : cmd S Z := v ← gicr_read_isenabler0 base; mret (Z.land v (bit_of ISENABLER_SHIFT id)).
Definition gicr_set_isenabler0 (base id : Z) : cmd S unit := gicr_write_isenabler0 base (bit_of ISENABLER_SHIFT id).
Definition gicr_set_icenabler0 (base id : Z) : cmd S unit := gicr_write_icenabler0 base (bit_of ISENABLER_SHIFT id).
Definition gicr_set_icpendr0 (base id : Z) : cmd S unit := gicr_write_icpendr0 base (bit_of ICPENDR_SHIFT id).

Definition gicv3_enable_cpuif : cm unit :=
  sre ← hw is_sre_enabled; _ ← assert (negb (sre =? 0));
  v ← hw (read_sysreg ICC_IGRPEN1_EL1); hw (write_sysreg ICC_IGRPEN1_EL1 (Z.lor v IGRPEN1_EL1_ENABLE_BIT)).
Definition gicv3_setup_cpuif : cm unit := _ ← hw (write_sysreg ICC_PMR_EL1 GIC_PRI_MASK); gicv3_enable_cpuif.
Definition gicv3_disable_cpuif : cm unit :=
  v ← hw (read_sysreg ICC_IGRPEN1_EL1);
  hw (write_sysreg ICC_IGRPEN1_EL1 (Z.land v (u32 (Z.lnot IGRPEN1_EL1_ENABLE_BIT)))).

Definition gicv3_save_cpuif_context : cm unit :=
  core_pos ← hw my_core_pos; cs ← getv pcpu_ctx; _ ← aref cs core_pos;
  _ ← setv (set_ctx core_pos (fun c => PcpuCtx 1 (icc_igrpen1 c) (c_isenabler c) (c_ipriorityr c) (c_icfgr c)));
  v ← hw (read_sysreg ICC_IGRPEN1_EL1);
  setv (set_ctx core_pos (fun c => PcpuCtx (is_suspended c) (u32 v) (c_isenabler c) (c_ipriorityr c) (c_icfgr c))).

Definition gicv3_restore_cpuif_context : cm unit :=
  core_pos ← hw my_core_pos; cs ← getv pcpu_ctx; c ← aref cs core_pos;
  _ ← setv (set_ctx core_pos (fun c => PcpuCtx 0 (icc_igrpen1 c) (c_isenabler c) (c_ipriorityr c) (c_icfgr c)));
  _ ← hw (write_sysreg ICC_PMR_EL1 GIC_PRI_MASK);
  hw (write_sysreg ICC_IGRPEN1_EL1 (icc_igrpen1 c)).

(** The redistributor of a core, asserted to be known. *)
Definition rdist (core_pos : Z) : cm Z :=
  bs ← getv rdist_pcpu_base; b ← aref bs core_pos; _ ← assert (negb (b =? 0)); mret b.

(** The body of the two loops runs for this core and the suspended ones. *)
Definition for_suspended (body : Z -> cm unit) : cm unit :=
  my ← hw my_core_pos;
  for_n (Z.to_nat PLATFORM_NO_OF_CPUS) 0 (fun core_pos =>
    cs ← getv pcpu_ctx; c ← aref cs core_pos;
    if negb (core_pos =? my) && (is_suspended c =? 0) then mret tt else body core_pos).

Definition ipriority_words : nat := Z.to_nat (Z.shiftr NUM_PCPU_INTR IPRIORITYR_SHIFT).

Definition gicv3_save_sgi_ppi_context : cm unit :=
  for_suspended (fun core_pos =>
    b ← rdist core_pos;
    en ← hw (gicr_read_isenabler0 b);
    pri ← hw (collect ipriority_words 0 (fun i => gicr_read_ipriorityr b (Z.shiftl i IPRIORITYR_SHIFT)));
    cfg ← hw (gicr_read_icfgr1 b);
    setv (set_ctx core_pos (fun c => PcpuCtx (is_suspended c) (icc_igrpen1 c) en pri cfg))).

Definition gicv3_restore_sgi_ppi_context : cm unit :=
  for_suspended (fun core_pos =>
    b ← rdist core_pos;
    cs ← getv pcpu_ctx; c ← aref cs core_pos;
    _ ← hw (for_n ipriority_words 0 (fun i =>
          gicr_write_ipriorityr b (Z.shiftl i IPRIORITYR_SHIFT) (default 0 (c_ipriorityr c !! Z.to_nat i))));
    _ ← hw (gicr_write_icfgr1 b (c_icfgr c));
    hw (gicr_write_isenabler0 b (c_isenabler c))).

(** The frame an interrupt is controlled from: the redistributor of this core for
    the banked interrupts, the distributor for the shared ones. *)
Definition frame_of {A} (id : Z) (banked shared : Z -> cm A) : cm A :=
  d ← getv gicd_base_addr; _ ← assert (negb (d =? 0)); _ ← assert (IS_VALID_INTR_ID id);
  if id <? MIN_SPI_ID then core_pos ← hw my_core_pos; b ← rdist core_pos; banked b else shared d.

Definition gicv3_get_ipriorityr (id : Z) : cm Z :=
  frame_of id (fun b => hw (mmio_read 1 (b + GICR_IPRIORITYR + id))) (fun d => hw (mmio_read 1 (d + GICD_IPRIORITYR + id))).
Definition gicv3_set_ipriorityr (id priority : Z) : cm unit :=
  frame_of id (fun b => hw (mmio_write 1 (b + GICR_IPRIORITYR + id) (Z.land priority GIC_PRI_MASK)))
              (fun d => hw (mmio_write 1 (d + GICD_IPRIORITYR + id) (Z.land priority GIC_PRI_MASK))).

(** The value of ICC_SGI1R for interrupt [sgi_id] of the core [mpidr]. *)
Definition sgi1r (mpidr sgi_id : Z) : Z :=
  let aff0 := MPIDR_AFF_ID mpidr MPIDR_AFF0_SHIFT in
  let aff1 := MPIDR_AFF_ID mpidr MPIDR_AFF1_SHIFT in
  let aff2 := MPIDR_AFF_ID mpidr MPIDR_AFF2_SHIFT in
  let aff3 := MPIDR_AFF_ID mpidr MPIDR_AFF3_SHIFT in
  let target_list := u64 (Z.shiftl 1 aff0) in
  let sgir := Z.lor (u64 (Z.shiftl (Z.land aff3 SGI1R_AFF_MASK) SGI1R_AFF3_SHIFT))
                (Z.lor (u64 (Z.shiftl (Z.land aff2 SGI1R_AFF_MASK) SGI1R_AFF2_SHIFT))
                  (Z.lor (u64 (Z.shiftl (Z.land aff1 SGI1R_AFF_MASK) SGI1R_AFF1_SHIFT))
                    (u64 (Z.shiftl (Z.land target_list SGI1R_TARGET_LIST_MASK) SGI1R_TARGET_LIST_SHIFT)))) in
  Z.lor sgir (u32 (Z.shiftl (Z.land sgi_id SGI1R_INTID_MASK) SGI1R_INTID_SHIFT)).

Definition gicv3_send_sgi (sgi_id core_pos : Z) : cm unit :=
  _ ← assert (IS_SGI sgi_id); _ ← assert (core_pos <? PLATFORM_NO_OF_CPUS);
  ms ← getv mpidr_list; mpidr ← aref ms core_pos; _ ← assert (negb (mpidr =? UINT64_MAX));
  _ ← assert (MPIDR_AFF_ID mpidr MPIDR_AFF0_SHIFT <? SGI_TARGET_MAX_AFF0);
  hw (write_sysreg ICC_SGI1R (sgi1r mpidr sgi_id)).

Definition gicv3_set_intr_route (id core_pos : Z) : cm unit :=
  d ← getv gicd_base_addr; _ ← assert (negb (d =? 0)); _ ← assert (core_pos <? PLATFORM_NO_OF_CPUS);
  ms ← getv mpidr_list; mpidr ← aref ms core_pos; _ ← assert (negb (mpidr =? UINT64_MAX));
  _ ← assert (IS_SPI id);
  hw (gicd_write_irouter d id mpidr).

Definition gicv3_get_isenabler (id : Z) : cm Z :=
  frame_of id (fun b => hw (gicr_get_isenabler0 b id)) (fun d => hw (gicd_get_isenabler d id)).
Definition gicv3_set_isenabler (id : Z) : cm unit :=
  frame_of id (fun b => hw (gicr_set_isenabler0 b id)) (fun d => hw (gicd_set_isenabler d id)).
Definition gicv3_set_icenabler (id : Z) : cm unit :=
  frame_of id (fun b => hw (gicr_set_icenabler0 b id)) (fun d => hw (gicd_set_icenabler d id)).
Definition gicv3_get_ispendr (id : Z) : cm Z :=
  v ← frame_of id (fun b => hw (gicr_read_ispendr0 b)) (fun d => hw (gicd_read_ispendr d id));
  mret (if Z.land v (u32 (Z.shiftl 1 (id mod Z.shiftl 1 ISPENDR_SHIFT))) =? 0 then 0 else 1).
Definition gicv3_set_icpendr (id : Z) : cm unit :=
  d ← getv gicd_base_addr; _ ← assert (negb (d =? 0)); _ ← assert (IS_SPI id || IS_PPI id);
  frame_of id (fun b => hw (gicr_set_icpendr0 b id)) (fun d => hw (gicd_set_icpendr d id)).

(** The frames from [base]; the loop ends at the frame with the LAST bit. *)
Fixpoint probe_loop (fuel : nat) (affinity base core_pos : Z) : cm unit :=
  match fuel with
  | O => fun _ => Diverge
  | Datatypes.S fuel' =>
      typer_val ← hw (gicr_read_typer base);
      if affinity =? Z.land (Z.shiftr typer_val TYPER_AFF_VAL_SHIFT) TYPER_AFF_VAL_MASK then
        mpidr ← hw (read_sysreg MPIDR_EL1);
        ms ← getv mpidr_list; _ ← aref ms core_pos;
        setv (set_rdist core_pos base (Z.land mpidr MPIDR_AFFINITY_MASK))
      else if negb (Z.land typer_val TYPER_LAST_BIT =? 0) then mret tt
      else probe_loop fuel' affinity (u64 (base + Z.shiftl 1 GICR_PCPUBASE_SHIFT)) core_pos
  end.

Definition gicv3_probe_redistif_addr : cm unit :=
  core_pos ← hw my_core_pos;
  r ← getv gicr_base_addr; _ ← assert (negb (r =? 0));
  bs ← getv rdist_pcpu_base; b ← aref bs core_pos;
  if negb (b =? 0) then mret tt
  else
    mpidr ← hw (read_sysreg MPIDR_EL1);
    probe_loop fuel (gic_typer_affinity_from_mpidr (Z.land mpidr MPIDR_AFFINITY_MASK)) r core_pos.

Definition gicv3_setup_distif : cm unit :=
  d ← getv gicd_base_addr; _ ← assert (negb (d =? 0));
  present ← hw gic_sysregs_present; _ ← assert present;
  sre ← hw is_sre_enabled; _ ← assert (negb (sre =? 0));
  v ← hw (gicd_read_ctlr d);
  _ ← assert (negb (Z.land v (Z.shiftl GICD_CTLR_ARE_NS_MASK GICD_CTLR_ARE_NS_SHIFT) =? 0));
  hw (gicd_write_ctlr d (Z.lor v GICD_CTLR_ENABLE_GRP1A)).

Definition gicv3_init (gicr_base gicd_base : Z) : cm unit :=
  _ ← assert (negb (gicr_base =? 0)); _ ← assert (negb (gicd_base =? 0));
  setv (fun d => GicV3 gicr_base gicd_base (pcpu_ctx d) (rdist_pcpu_base d) (mpidr_list d)).

Definition gicv3_acknowledge_interrupt : cm Z := v ← hw (read_sysreg ICC_IAR1_EL1); mret (Z.land v IAR1_EL1_INTID_MASK).
Definition gicv3_end_of_interrupt (id : Z) : cm unit := hw (write_sysreg ICC_EOIR1_EL1 id).
End V3.
End V3.

(** ** pal_arm_gic_v2v3.c *)
Module Arm.
Record arm_gic {S : Type} := ArmGic { gicv3_detected : Z; v2 : V2.gicv2; v3 : V3.gicv3; machine : S }.
Arguments arm_gic : clear implicits.

Section Arm.
Context {S : Type} `{!Machine S} (fuel : nat).
Abbreviation cm := (cmd (arm_gic S)).

Definition on_v2 {A} (c : cmd (V2.gicv2 * S) A) : cm A :=
  zoom (fun s => (v2 s, machine s)) (fun p s => ArmGic S (gicv3_detected s) p.1 (v3 s) p.2) c.
Definition on_v3 {A} (c : cmd (V3.gicv3 * S) A) : cm A :=
  zoom (fun s => (v3 s, machine s)) (fun p s => ArmGic S (gicv3_detected s) (v2 s) p.1 p.2) c.

(** [if (gicv3_detected) .. else ..]. *)
Definition choose {A} (c3 : cmd (V3.gicv3 * S) A) (c2 : cmd (V2.gicv2 * S) A) : cm A :=
  d ← gets gicv3_detected; if negb (d =? 0) then on_v3 c3 else on_v2 c2.

Definition arm_gic_enable_interrupts_local : cm unit := choose V3.gicv3_enable_cpuif V2.gicv2_enable_cpuif.
Definition arm_gic_setup_local : cm unit :=
  choose (_ ← V3.gicv3_probe_redistif_addr fuel; V3.gicv3_setup_cpuif) (_ ← V2.gicv2_probe_gic_cpu_id; V2.gicv2_setup_cpuif).
Definition arm_gic_disable_interrupts_local : cm unit := choose V3.gicv3_disable_cpuif V2.gicv2_disable_cpuif.
Definition arm_gic_save_context_local : cm unit := choose V3.gicv3_save_cpuif_context V2.gicv2_save_cpuif_context.
Definition arm_gic_restore_context_local : cm unit := choose V3.gicv3_restore_cpuif_context V2.gicv2_restore_cpuif_context.
Definition arm_gic_save_context_global : cm unit := choose V3.gicv3_save_sgi_ppi_context V2.gicv2_save_sgi_ppi_context.
Definition arm_gic_restore_context_global : cm unit :=
  choose (_ ← V3.gicv3_setup_distif; V3.gicv3_restore_sgi_ppi_context) (_ ← V2.gicv2_setup_distif; V2.gicv2_restore_sgi_ppi_context).
Definition arm_gic_setup_global : cm unit := choose V3.gicv3_setup_distif V2.gicv2_setup_distif.
Definition arm_gic_get_intr_priority (num : Z) : cm Z := choose (V3.gicv3_get_ipriorityr num) (V2.gicv2_gicd_get_ipriorityr num).
Definition arm_gic_set_intr_priority (num priority : Z) : cm unit :=
  choose (V3.gicv3_set_ipriorityr num priority) (V2.gicv2_gicd_set_ipriorityr num priority).
Definition arm_gic_send_sgi (sgi_id core_pos : Z) : cm unit := choose (V3.gicv3_send_sgi sgi_id core_pos) (V2.gicv2_send_sgi sgi_id core_pos).
Definition arm_gic_set_intr_target (num core_pos : Z) : cm unit :=
  choose (V3.gicv3_set_intr_route num core_pos) (V2.gicv2_set_itargetsr num core_pos).
Definition arm_gic_intr_enabled (num : Z) : cm Z :=
  v ← choose (V3.gicv3_get_isenabler num) (V2.gicv2_gicd_get_isenabler num); mret (if v =? 0 then 0 else 1).
Definition arm_gic_intr_enable (num : Z) : cm unit := choose (V3.gicv3_set_isenabler num) (V2.gicv2_gicd_set_isenabler num).
Definition arm_gic_intr_disable (num : Z) : cm unit := choose (V3.gicv3_set_icenabler num) (V2.gicv2_gicd_set_icenabler num).
(** The interrupt and the raw value of the register. *)
Definition arm_gic_intr_ack : cm (Z * Z) :=
  d ← gets gicv3_detected;
  if negb (d =? 0) then v ← on_v3 V3.gicv3_acknowledge_interrupt; mret (u32 v, u32 v)
  else v ← on_v2 V2.gicv2_gicc_read_iar; mret (get_gicc_iar_intid v, v).
Definition arm_gic_is_intr_pending (num : Z) : cm Z := choose (V3.gicv3_get_ispendr num) (V2.gicv2_gicd_get_ispendr num).
Definition arm_gic_intr_clear (num : Z) : cm unit := choose (V3.gicv3_set_icpendr num) (V2.gicv2_gicd_set_icpendr num).
Definition arm_gic_end_of_intr (raw_iar : Z) : cm unit := choose (V3.gicv3_end_of_interrupt raw_iar) (V2.gicv2_gicc_write_eoir raw_iar).

Definition arm_gic_init (gicc_base gicd_base gicr_base : Z) : cm unit :=
  mode ← on_v2 (hw is_gicv3_mode);
  if negb (mode =? 0) then
    _ ← modify (fun s => ArmGic S 1 (v2 s) (v3 s) (machine s));
    _ ← on_v3 (V3.gicv3_init gicr_base gicd_base);
    _ ← arm_gic_setup_global; arm_gic_setup_local
  else on_v2 (V2.gicv2_init gicc_base gicd_base).
End Arm.
End Arm.
