(* ===== verification/GicProof.v ===== *)
(** * The interrupt controller does what its driver asks

    The registers are those of a controller that keeps the documented rules for the
    enable bits: a write to ISENABLER sets, a write to ICENABLER clears the bits that
    are 1 in the value (class [GicDevice]).  Under them, on either version of the
    controller, enabling or disabling an interrupt changes the state of that
    interrupt only. *)

From S2P Require Import Prelude Machine Gic.

Class GicDevice (S : Type) `{!Machine S} := {
  (** The bases of the register frames, and the 32-bit enable words of a frame. *)
  gic_frame : Z -> Prop;
  enable_word : S -> Z -> Z -> Z;
  (** The core this runs on; no register access changes it. *)
  core_mpidr : S -> Z;
  frame_range : forall b, gic_frame b -> 0 <= b /\ b + 0x10000 < 2 ^ 64;
  enable_word_range : forall s b n, is_uint 32 (enable_word s b n);
  load_isenabler : forall s b n, gic_frame b -> 0 <= n < 32 ->
    load 4 (b + GICD_ISENABLER + 4 * n) s = (enable_word s b n, s);
  store_isenabler : forall s b n v, gic_frame b -> 0 <= n < 32 -> is_uint 32 v ->
    forall b' n', enable_word (store 4 (b + GICD_ISENABLER + 4 * n) v s) b' n' =
      if decide (b' = b /\ n' = n) then Z.lor (enable_word s b n) v else enable_word s b' n';
  store_icenabler : forall s b n v, gic_frame b -> 0 <= n < 32 -> is_uint 32 v ->
    forall b' n', enable_word (store 4 (b + GICD_ICENABLER + 4 * n) v s) b' n' =
      if decide (b' = b /\ n' = n) then Z.ldiff (enable_word s b n) v else enable_word s b' n';
  read_mpidr : forall s, mrs MPIDR_EL1 s = (core_mpidr s, s);
  core_load : forall n a s, core_mpidr (load n a s).2 = core_mpidr s;
  core_store : forall n a v s, core_mpidr (store n a v s) = core_mpidr s;
  core_mrs : forall r s, core_mpidr (mrs r s).2 = core_mpidr s;
  core_msr : forall r v s, core_mpidr (msr r v s) = core_mpidr s
}.

(** ** The bit of an interrupt *)

Lemma bit_of_eq id : 0 <= id -> bit_of ISENABLER_SHIFT id = 2 ^ (id mod 32).
Proof.
  intros Hid. unfold bit_of, ISENABLER_SHIFT. change (Z.shiftl 1 5 - 1) with (Z.ones 5).
  rewrite Z.land_ones, Z.shiftl_1_l by lia. change (2 ^ 5) with 32.
  pose proof (Z.mod_pos_bound id 32 ltac:(lia)). apply uwrap_small. split; [apply Z.pow_nonneg; lia|].
  apply Z.pow_lt_mono_r; lia.
Qed.

Lemma word_of_eq base reg id : 0 <= id < 2 ^ 32 -> word_of base reg ISENABLER_SHIFT id = base + reg + 4 * (id / 32).
Proof.
  intros Hid. unfold word_of, ISENABLER_SHIFT. rewrite Z.shiftr_div_pow2, Z.shiftl_mul_pow2 by lia.
  change (2 ^ 5) with 32. change (2 ^ 2) with 4. rewrite uwrap_small; [lia|].
  Z.div_mod_to_equations; lia.
Qed.

Lemma testbit_pow2 n k : 0 <= n -> Z.testbit (2 ^ n) k = bool_decide (k = n).
Proof.
  intros. destruct (decide (k = n)) as [->|]; [rewrite Z.pow2_bits_true by lia | rewrite Z.pow2_bits_false by lia];
    symmetry; [by apply bool_decide_eq_true | by apply bool_decide_eq_false].
Qed.

(** A bit tested with a mask. *)
Lemma land_pow2_zero v n : 0 <= n -> (Z.land v (2 ^ n) =? 0) = negb (Z.testbit v n).
Proof.
  intros Hn. destruct (Z.eqb_spec (Z.land v (2 ^ n)) 0) as [E|E].
  - assert (Z.testbit (Z.land v (2 ^ n)) n = false) by (rewrite E; apply Z.bits_0).
    rewrite Z.land_spec, Z.pow2_bits_true, andb_true_r in H by lia. by rewrite H.
  - destruct (Z.testbit v n) eqn:Ev; [done|]. destruct E. apply Z.bits_inj'. intros k Hk.
    rewrite Z.land_spec, Z.bits_0, testbit_pow2 by lia. case_bool_decide; [subst; by rewrite Ev|]. apply andb_false_r.
Qed.

(** Interrupts of one frame with the same word and bit are the same. *)
Lemma same_interrupt i j : i / 32 = j / 32 -> i mod 32 = j mod 32 -> i = j.
Proof. intros. rewrite (Z.div_mod i 32), (Z.div_mod j 32) by lia. congruence. Qed.

(** ** The enable registers of one frame *)
Section Frame.
Context {S : Type} `{HM : !Machine S} `{!GicDevice S}.

Definition enabled (s : S) (b i : Z) : bool := Z.testbit (enable_word s b (i / 32)) (i mod 32).

(** [s'] differs from [s] in the enable state of interrupt [id] of frame [b]. *)
Definition enable_changed (s s' : S) (b id : Z) (v : bool) : Prop :=
  core_mpidr s' = core_mpidr s /\
  forall b' j, 0 <= j -> enabled s' b' j = if decide (b' = b /\ j = id) then v else enabled s b' j.

Lemma address b n : gic_frame b -> 0 <= n < 32 ->
  u64 (b + GICD_ISENABLER + 4 * n) = b + GICD_ISENABLER + 4 * n /\
  u64 (b + GICD_ICENABLER + 4 * n) = b + GICD_ICENABLER + 4 * n.
Proof. intros Hb Hn. pose proof (frame_range b Hb). unfold GICD_ISENABLER, GICD_ICENABLER. usmall. lia. Qed.

Lemma index_range id : 0 <= id <= MAX_SPI_ID -> 0 <= id / 32 < 32 /\ 0 <= id mod 32 < 32.
Proof. unfold MAX_SPI_ID. intros. split; [Z.div_mod_to_equations; lia | apply Z.mod_pos_bound; lia]. Qed.

Lemma bit_uint id : 0 <= id mod 32 < 32 -> is_uint 32 (2 ^ (id mod 32)).
Proof. intros. unfold is_uint. split; [apply Z.pow_nonneg; lia | apply Z.pow_lt_mono_r; lia]. Qed.

Lemma set_isenabler_at b id s : gic_frame b -> 0 <= id <= MAX_SPI_ID ->
  exists s', mmio_write 4 (b + GICD_ISENABLER + 4 * (id / 32)) (2 ^ (id mod 32)) s = Ret (tt, s') /\
    enable_changed s s' b id true.
Proof.
  intros Hb Hid. destruct (index_range id Hid) as [Hn Hm]. pose proof (bit_uint id Hm) as Hu.
  unfold mmio_write. rewrite (proj1 (address b _ Hb Hn)), (uwrap_small (8 * Z.of_nat 4)) by exact Hu.
  pose proof (store_isenabler s b (id / 32) _ Hb Hn Hu) as He.
  eexists. split; [reflexivity|]. split; [apply core_store|]. intros b' j Hj. unfold enabled. rewrite He.
  destruct (decide (b' = b /\ j / 32 = id / 32)) as [[-> E]|Hne].
  - rewrite E, Z.lor_spec, testbit_pow2 by lia. destruct (decide (b = b /\ j = id)) as [[_ ->]|Hne].
    + by rewrite bool_decide_eq_true_2, orb_true_r.
    + rewrite bool_decide_eq_false_2, orb_false_r; [done|]. intros Em. apply Hne. split; [done|]. by apply same_interrupt.
  - rewrite decide_False; [done|]. intros [-> ->]. by apply Hne.
Qed.

Lemma set_icenabler_at b id s : gic_frame b -> 0 <= id <= MAX_SPI_ID ->
  exists s', mmio_write 4 (b + GICD_ICENABLER + 4 * (id / 32)) (2 ^ (id mod 32)) s = Ret (tt, s') /\
    enable_changed s s' b id false.
Proof.
  intros Hb Hid. destruct (index_range id Hid) as [Hn Hm]. pose proof (bit_uint id Hm) as Hu.
  unfold mmio_write. rewrite (proj2 (address b _ Hb Hn)), (uwrap_small (8 * Z.of_nat 4)) by exact Hu.
  pose proof (store_icenabler s b (id / 32) _ Hb Hn Hu) as He.
  eexists. split; [reflexivity|]. split; [apply core_store|]. intros b' j Hj. unfold enabled. rewrite He.
  destruct (decide (b' = b /\ j / 32 = id / 32)) as [[-> E]|Hne].
  - rewrite E, Z.ldiff_spec, testbit_pow2 by lia. destruct (decide (b = b /\ j = id)) as [[_ ->]|Hne].
    + by rewrite bool_decide_eq_true_2, andb_false_r.
    + rewrite bool_decide_eq_false_2, andb_true_r; [done|]. intros Em. apply Hne. split; [done|]. by apply same_interrupt.
  - rewrite decide_False; [done|]. intros [-> ->]. by apply Hne.
Qed.

Lemma get_isenabler_at b id s : gic_frame b -> 0 <= id <= MAX_SPI_ID ->
  exists v, (v ← mmio_read 4 (b + GICD_ISENABLER + 4 * (id / 32)); mret (Z.land v (2 ^ (id mod 32)))) s = Ret (v, s) /\
    (v =? 0) = negb (enabled s b id).
Proof.
  intros Hb Hid. destruct (index_range id Hid) as [Hn Hm].
  unfold mmio_read, mbind, cmd_bind. rewrite (proj1 (address b _ Hb Hn)), load_isenabler by done.
  eexists. split; [reflexivity|]. by rewrite land_pow2_zero by lia.
Qed.
End Frame.

(** ** Either driver *)
Section Arm.
Context {S : Type} `{HM : !Machine S} `{!GicDevice S}.
Abbreviation gic := (Arm.arm_gic S).

Definition my_core (g : gic) : Z := platform_get_core_pos (core_mpidr (Arm.machine g)).

(** The frame that controls interrupt [id] for this core. *)
Definition frame_base (g : gic) (id : Z) : Z :=
  if Arm.gicv3_detected g =? 0 then V2.gicd_base_addr (Arm.v2 g)
  else if id <? MIN_SPI_ID
  then default 0 (V3.rdist_pcpu_base (Arm.v3 g) !! Z.to_nat (my_core g)) + GICR_SGIBASE_OFFSET
  else V3.gicd_base_addr (Arm.v3 g).

(** The driver was initialised on this core. *)
Definition gic_ready (g : gic) : Prop :=
  (forall id, 0 <= id <= MAX_SPI_ID -> gic_frame (frame_base g id)) /\
  if Arm.gicv3_detected g =? 0 then V2.gicd_base_addr (Arm.v2 g) <> 0
  else V3.gicd_base_addr (Arm.v3 g) <> 0 /\
       exists b, V3.rdist_pcpu_base (Arm.v3 g) !! Z.to_nat (my_core g) = Some b /\ b <> 0 /\
                 b + GICR_SGIBASE_OFFSET <> V3.gicd_base_addr (Arm.v3 g).

Lemma core_pos_nonneg mpid : 0 <= platform_get_core_pos mpid.
Proof. unfold platform_get_core_pos. apply uwrap_range. lia. Qed.

(** Running on the controller of version 3: the frame is found. *)
Lemma frame_of_ready {A} (g : gic) id (banked shared : Z -> cmd (V3.gicv3 * S) A) :
  gic_ready g -> Arm.gicv3_detected g <> 0 -> 0 <= id <= MAX_SPI_ID ->
  V3.frame_of id banked shared (Arm.v3 g, Arm.machine g) =
    (if id <? MIN_SPI_ID then banked (frame_base g id - GICR_SGIBASE_OFFSET) else shared (frame_base g id))
      (Arm.v3 g, Arm.machine g).
Proof.
  intros [_ Hr] Hd Hid. unfold frame_base. rewrite (proj2 (Z.eqb_neq _ _) Hd) in *. destruct Hr as (Hd0 & b & Eb & Hb & _).
  unfold V3.frame_of, getv, gets, hw, mbind, cmd_bind. cbn [fst]. rewrite (proj2 (Z.eqb_neq _ _) Hd0). cbn [negb assert].
  replace (IS_VALID_INTR_ID id) with true by (unfold IS_VALID_INTR_ID; lia). cbn [assert].
  unfold mret, cmd_ret. destruct (id <? MIN_SPI_ID); [|done].
  unfold zoom, my_core_pos, read_sysreg, V3.rdist, getv, gets, mbind, cmd_bind, mret, cmd_ret. cbn [snd].
  rewrite read_mpidr. cbn [fst].
  fold (my_core g). erewrite aref_Ret; [|apply core_pos_nonneg|exact Eb]. rewrite (proj2 (Z.eqb_neq _ _) Hb). cbn [negb assert mret cmd_ret].
  rewrite Eb. change (default 0 (Some b)) with b. by rewrite Z.add_simpl_r.
Qed.

Definition with_machine (m : S) (g : gic) : gic := Arm.ArmGic S (Arm.gicv3_detected g) (Arm.v2 g) (Arm.v3 g) m.

(** One operation on the enable registers, on the frame of the interrupt: what the
    distributor does for it, and the redistributor for a banked one. *)
Lemma on_frame {A} (g : gic) id (dist : Z -> cmd S A) (redist : Z -> cmd S A) (v2op : Z -> cmd (V2.gicv2 * S) A) :
  gic_ready g -> 0 <= id <= MAX_SPI_ID ->
  (forall b, id < MIN_SPI_ID -> redist b = dist (b + GICR_SGIBASE_OFFSET)) ->
  (forall d s, V2.gicd_base_addr d <> 0 -> v2op id (d, s) = hw (dist (V2.gicd_base_addr d)) (d, s)) ->
  Arm.choose (V3.frame_of id (fun b => hw (redist b)) (fun d => hw (dist d))) (v2op id) g =
  match dist (frame_base g id) (Arm.machine g) with
  | Ret (a, m) => Ret (a, with_machine m g)
  | Panic => Panic | Fault => Fault | Diverge => Diverge
  end.
Proof.
  intros Hr Hid Hre Hv2. unfold Arm.choose, gets, mbind, cmd_bind.
  destruct (Z.eqb_spec (Arm.gicv3_detected g) 0) as [E|E]; cbn [negb].
  - unfold Arm.on_v2, zoom. destruct Hr as [_ Hd]. rewrite E in Hd. cbn [Z.eqb] in Hd. rewrite Hv2 by exact Hd.
    unfold frame_base, with_machine. rewrite E. cbn [Z.eqb]. unfold hw, zoom. cbn [snd fst].
    destruct (dist _ _) as [[a m]| | |]; done.
  - unfold Arm.on_v3, zoom. rewrite frame_of_ready by done. destruct (Z.ltb_spec id MIN_SPI_ID).
    + rewrite Hre, Z.sub_add by done. unfold hw, zoom. cbn [snd fst]. destruct (dist _ _) as [[a m]| | |]; done.
    + unfold hw, zoom. cbn [snd fst]. destruct (dist _ _) as [[a m]| | |]; done.
Qed.

Lemma v2_checked {A} id (c : Z -> cmd S A) (d : V2.gicv2) (s : S) :
  IS_VALID_INTR_ID id = true -> V2.gicd_base_addr d <> 0 ->
  (b ← V2.gicd; _ ← assert (IS_VALID_INTR_ID id); hw (c b)) (d, s) = hw (c (V2.gicd_base_addr d)) (d, s).
Proof.
  intros Hv Hd. unfold V2.gicd, getv, gets, mbind, cmd_bind. cbn [fst]. rewrite (proj2 (Z.eqb_neq _ _) Hd).
  cbn [negb assert mret cmd_ret]. by rewrite Hv.
Qed.

Lemma valid_intr id : 0 <= id <= MAX_SPI_ID -> IS_VALID_INTR_ID id = true /\ 0 <= id < 2 ^ 32.
Proof. unfold IS_VALID_INTR_ID, MAX_SPI_ID. intros. split; lia. Qed.

Lemma intr_enable_spec g id : gic_ready g -> 0 <= id <= MAX_SPI_ID ->
  exists m, Arm.arm_gic_intr_enable id g = Ret (tt, with_machine m g) /\
    enable_changed (Arm.machine g) m (frame_base g id) id true.
Proof.
  intros Hr Hid. destruct (valid_intr id Hid) as [Hv Hw].
  destruct (set_isenabler_at (frame_base g id) id (Arm.machine g)) as (m & E & Hm); [by apply Hr | done|].
  exists m. split; [|exact Hm]. unfold Arm.arm_gic_intr_enable, V3.gicv3_set_isenabler.
  rewrite (on_frame g id (fun b => gicd_set_isenabler b id) (fun b => V3.gicr_set_isenabler0 b id) V2.gicv2_gicd_set_isenabler); [|done|done| |].
  - unfold gicd_set_isenabler, gicd_write_isenabler. rewrite word_of_eq, bit_of_eq by lia. by rewrite E.
  - intros b Hb. unfold V3.gicr_set_isenabler0, V3.gicr_write_isenabler0, gicd_set_isenabler, gicd_write_isenabler.
    rewrite word_of_eq by lia. f_equal. unfold GICR_ISENABLER0, GICD_ISENABLER. unfold MIN_SPI_ID in Hb. rewrite Z.div_small by lia. lia.
  - intros d s Hd. by apply (v2_checked id (fun b => gicd_set_isenabler b id)).
Qed.

Lemma intr_disable_spec g id : gic_ready g -> 0 <= id <= MAX_SPI_ID ->
  exists m, Arm.arm_gic_intr_disable id g = Ret (tt, with_machine m g) /\
    enable_changed (Arm.machine g) m (frame_base g id) id false.
Proof.
  intros Hr Hid. destruct (valid_intr id Hid) as [Hv Hw].
  destruct (set_icenabler_at (frame_base g id) id (Arm.machine g)) as (m & E & Hm); [by apply Hr | done|].
  exists m. split; [|exact Hm]. unfold Arm.arm_gic_intr_disable, V3.gicv3_set_icenabler.
  rewrite (on_frame g id (fun b => gicd_set_icenabler b id) (fun b => V3.gicr_set_icenabler0 b id) V2.gicv2_gicd_set_icenabler); [|done|done| |].
  - unfold gicd_set_icenabler, gicd_write_icenabler. unfold ICENABLER_SHIFT. rewrite word_of_eq, bit_of_eq by lia. by rewrite E.
  - intros b Hb. unfold V3.gicr_set_icenabler0, V3.gicr_write_icenabler0, gicd_set_icenabler, gicd_write_icenabler, ICENABLER_SHIFT.
    rewrite word_of_eq by lia. f_equal. unfold GICR_ICENABLER0, GICD_ICENABLER. unfold MIN_SPI_ID in Hb. rewrite Z.div_small by lia. lia.
  - intros d s Hd. by apply (v2_checked id (fun b => gicd_set_icenabler b id)).
Qed.

Lemma intr_enabled_spec g id : gic_ready g -> 0 <= id <= MAX_SPI_ID ->
  Arm.arm_gic_intr_enabled id g = Ret (if enabled (Arm.machine g) (frame_base g id) id then 1 else 0, g).
Proof.
  intros Hr Hid. destruct (valid_intr id Hid) as [Hv Hw].
  destruct (get_isenabler_at (frame_base g id) id (Arm.machine g)) as (v & E & Hm); [by apply Hr | done|].
  unfold Arm.arm_gic_intr_enabled, V3.gicv3_get_isenabler. erewrite cmd_bind_eq.
  2:{ rewrite (on_frame g id (fun b => gicd_get_isenabler b id) (fun b => V3.gicr_get_isenabler0 b id) V2.gicv2_gicd_get_isenabler); [|done|done| |].
    - unfold gicd_get_isenabler, gicd_read_isenabler. rewrite word_of_eq, bit_of_eq by lia. rewrite E. reflexivity.
    - intros b Hb. unfold V3.gicr_get_isenabler0, V3.gicr_read_isenabler0, gicd_get_isenabler, gicd_read_isenabler.
      rewrite word_of_eq by lia. do 2 f_equal. unfold GICR_ISENABLER0, GICD_ISENABLER. unfold MIN_SPI_ID in Hb. rewrite Z.div_small by lia. lia.
    - intros d s Hd. by apply (v2_checked id (fun b => gicd_get_isenabler b id)). }
  unfold mret, cmd_ret. rewrite Hm. destruct g. by destruct (enabled _ _ _).
Qed.

Lemma frame_base_machine m g id : core_mpidr m = core_mpidr (Arm.machine g) -> frame_base (with_machine m g) id = frame_base g id.
Proof. intros E. unfold frame_base, my_core. cbn [Arm.gicv3_detected Arm.v2 Arm.v3 Arm.machine with_machine]. by rewrite E. Qed.

Lemma gic_ready_machine m g : core_mpidr m = core_mpidr (Arm.machine g) -> gic_ready g -> gic_ready (with_machine m g).
Proof.
  intros E [Hf Hr]. split; [intros id Hid; rewrite frame_base_machine by done; by apply Hf|].
  unfold my_core in *. cbn [Arm.gicv3_detected Arm.v2 Arm.v3 Arm.machine with_machine]. by rewrite E.
Qed.

(** What both operations give, read through [arm_gic_intr_enabled]. *)
Lemma enable_change_read g m id v :
  gic_ready g -> enable_changed (Arm.machine g) m (frame_base g id) id v ->
  gic_ready (with_machine m g) /\
  forall j, 0 <= j <= MAX_SPI_ID -> exists old,
    Arm.arm_gic_intr_enabled j g = Ret (old, g) /\
    Arm.arm_gic_intr_enabled j (with_machine m g) = Ret (if decide (j = id) then (if v then 1 else 0) else old, with_machine m g).
Proof.
  intros Hr [Hc He]. pose proof (gic_ready_machine m g Hc Hr) as Hr'. split; [done|]. intros j Hj.
  eexists. split; [by apply intr_enabled_spec|]. rewrite intr_enabled_spec by done. rewrite frame_base_machine by done.
  cbn [Arm.machine with_machine]. rewrite He by lia. destruct (decide (j = id)) as [->|Hne].
  - by rewrite decide_True.
  - rewrite decide_False; [done|]. by intros [_ ?].
Qed.

(** On a set-up interrupt controller of either version, arm_gic_intr_enable and
    arm_gic_intr_disable change the enable state of the given interrupt and of no
    other. *)
Theorem interrupt_enable_exact (g : gic) id :
  gic_ready g -> 0 <= id <= MAX_SPI_ID ->
  (exists g', Arm.arm_gic_intr_enable id g = Ret (tt, g') /\ gic_ready g' /\
     forall j, 0 <= j <= MAX_SPI_ID -> exists old,
       Arm.arm_gic_intr_enabled j g = Ret (old, g) /\
       Arm.arm_gic_intr_enabled j g' = Ret (if decide (j = id) then 1 else old, g')) /\
  (exists g', Arm.arm_gic_intr_disable id g = Ret (tt, g') /\ gic_ready g' /\
     forall j, 0 <= j <= MAX_SPI_ID -> exists old,
       Arm.arm_gic_intr_enabled j g = Ret (old, g) /\
       Arm.arm_gic_intr_enabled j g' = Ret (if decide (j = id) then 0 else old, g')).
Proof.
  intros Hr Hid. split.
  - destruct (intr_enable_spec g id Hr Hid) as (m & E & Hm). exists (with_machine m g). split; [exact E|].
    exact (enable_change_read g m id true Hr Hm).
  - destruct (intr_disable_spec g id Hr Hid) as (m & E & Hm). exists (with_machine m g). split; [exact E|].
    exact (enable_change_read g m id false Hr Hm).
Qed.
End Arm.

(** ** The core stays the same *)
Section Core.
Context {S : Type} `{HM : !Machine S} `{!GicDevice S}.
Abbreviation on_core c := (fun s : S => core_mpidr s = c).

Lemma keeps_mmio_read c n a : keeps (on_core c) (mmio_read n a).
Proof. intros s v s' HI [= E]. pose proof (core_load n (u64 a) s) as H. by rewrite E in H; cbn in H; rewrite H. Qed.
Lemma keeps_mmio_write c n a v : keeps (on_core c) (mmio_write n a v).
Proof. intros s u s' HI E. injection E as _ <-. by rewrite core_store. Qed.
Lemma keeps_read_sysreg c r : keeps (on_core c) (read_sysreg r).
Proof. intros s v s' HI [= E]. pose proof (core_mrs r s) as H. by rewrite E in H; cbn in H; rewrite H. Qed.
Lemma keeps_write_sysreg c r v : keeps (on_core c) (write_sysreg r v).
Proof. intros s u s' HI E. injection E as _ <-. by rewrite core_msr. Qed.

Lemma keeps_hw {D A} c (k : cmd S A) : keeps (on_core c) k -> keeps (fun s : D * S => core_mpidr s.2 = c) (hw k).
Proof. intros Hk. apply (keeps_zoom_in _ (on_core c)); [done|done|exact Hk]. Qed.
Lemma keeps_assert {T} (I : T -> Prop) b : keeps I (assert b).
Proof. unfold assert. destruct b; [apply keeps_ret | apply keeps_panic]. Qed.
Lemma keeps_getv {D A} (I : D * S -> Prop) (f : D -> A) : keeps I (getv f).
Proof. apply keeps_gets. Qed.
End Core.
#[export] Hint Resolve keeps_mmio_read keeps_mmio_write keeps_read_sysreg keeps_write_sysreg keeps_hw keeps_assert keeps_getv : keeps.

Section Arm2.
Context {S : Type} `{HM : !Machine S} `{!GicDevice S}.
Abbreviation gic := (Arm.arm_gic S).
Abbreviation on_core c := (fun g : gic => core_mpidr (Arm.machine g) = c).

Lemma keeps_on_v3 {A} c (k : cmd (V3.gicv3 * S) A) : keeps (fun s : V3.gicv3 * S => core_mpidr s.2 = c) k -> keeps (on_core c) (Arm.on_v3 k).
Proof. intros Hk. apply (keeps_zoom_in _ (fun s : V3.gicv3 * S => core_mpidr s.2 = c)); [done|done|exact Hk]. Qed.
Lemma keeps_on_v2 {A} c (k : cmd (V2.gicv2 * S) A) : keeps (fun s : V2.gicv2 * S => core_mpidr s.2 = c) k -> keeps (on_core c) (Arm.on_v2 k).
Proof. intros Hk. apply (keeps_zoom_in _ (fun s : V2.gicv2 * S => core_mpidr s.2 = c)); [done|done|exact Hk]. Qed.

Lemma intr_ack_core c : keeps (on_core c) Arm.arm_gic_intr_ack.
Proof.
  unfold Arm.arm_gic_intr_ack. keeps_tac; [apply keeps_on_v3 | apply keeps_on_v2].
  - unfold V3.gicv3_acknowledge_interrupt. keeps_tac.
  - unfold V2.gicv2_gicc_read_iar, V2.gicc, V2.gicc_read_iar. keeps_tac.
Qed.

Lemma end_of_intr_core c raw : keeps (on_core c) (Arm.arm_gic_end_of_intr raw).
Proof.
  unfold Arm.arm_gic_end_of_intr, Arm.choose. keeps_tac; [apply keeps_on_v3 | apply keeps_on_v2].
  - unfold V3.gicv3_end_of_interrupt. keeps_tac.
  - unfold V2.gicv2_gicc_write_eoir, V2.gicc, V2.gicc_write_eoir. keeps_tac.
Qed.
End Arm2.

(** ** A controller *)

(** The enable words of the distributor and of one redistributor; the rest of the
    registers ignore writes and read 0, but for the acknowledge register: interrupt 40
    is pending. *)
Abbreviation sim_gic := (gmap (Z * Z) Z).
Definition sim_gicd : Z := 0x2f000000.
Definition sim_gicr : Z := 0x2f100000.
Definition sim_word (s : sim_gic) (b n : Z) : Z := u32 (default 0 (s !! (b, n))).
Definition sim_decode (reg a : Z) : option (Z * Z) :=
  let hit b := (b + reg <=? a) && (a <? b + reg + 128) && ((a - b - reg) mod 4 =? 0) in
  if hit sim_gicd then Some (sim_gicd, (a - sim_gicd - reg) / 4)
  else let r := sim_gicr + GICR_SGIBASE_OFFSET in
       if hit r then Some (r, (a - r - reg) / 4) else None.

#[export] Instance sim_machine : Machine sim_gic := {|
  load n a s := (match sim_decode GICD_ISENABLER a with Some (b, k) => sim_word s b k | None => 0 end, s);
  store n a v s :=
    match sim_decode GICD_ISENABLER a, sim_decode GICD_ICENABLER a with
    | Some (b, k), _ => <[(b, k) := Z.lor (sim_word s b k) v]> s
    | None, Some (b, k) => <[(b, k) := Z.ldiff (sim_word s b k) v]> s
    | None, None => s
    end;
  mrs r s := (match r with MPIDR_EL1 => 0x81000000 | ICC_IAR1_EL1 => 40 | _ => 0 end, s);
  msr _ _ s := s; set_irq_mask _ s := s; set_fiq_mask _ s := s
|}.

Definition sim_frame (b : Z) : Prop := b = sim_gicd \/ b = sim_gicr + GICR_SGIBASE_OFFSET.

Lemma sim_decode_hit reg b n : sim_frame b -> 0 <= n < 32 -> 0 <= reg < 0x1000 -> sim_decode reg (b + reg + 4 * n) = Some (b, n).
Proof.
  intros Hb Hn Hreg. unfold sim_decode, sim_gicd, sim_gicr. change GICR_SGIBASE_OFFSET with 0x10000.
  unfold sim_frame, sim_gicd, sim_gicr in Hb. change GICR_SGIBASE_OFFSET with 0x10000 in Hb. cbv zeta.
  assert (E4 : forall x, x = 4 * n -> (x mod 4 =? 0) = true /\ x / 4 = n) by (intros x ->; split; Z.div_mod_to_equations; lia).
  destruct Hb as [-> | ->].
  - destruct (E4 (0x2f000000 + reg + 4 * n - 0x2f000000 - reg) ltac:(lia)) as [-> ->].
    by replace (0x2f000000 + reg <=? 0x2f000000 + reg + 4 * n) with true by lia;
      replace (0x2f000000 + reg + 4 * n <? 0x2f000000 + reg + 128) with true by lia.
  - destruct (E4 (0x2f100000 + 0x10000 + reg + 4 * n - (0x2f100000 + 0x10000) - reg) ltac:(lia)) as [-> ->].
    replace (0x2f100000 + 0x10000 + reg + 4 * n <? 0x2f000000 + reg + 128) with false by lia. rewrite andb_false_r. cbn [andb].
    by replace (0x2f100000 + 0x10000 + reg <=? 0x2f100000 + 0x10000 + reg + 4 * n) with true by lia;
      replace (0x2f100000 + 0x10000 + reg + 4 * n <? 0x2f100000 + 0x10000 + reg + 128) with true by lia.
Qed.

Lemma sim_decode_miss b n : sim_frame b -> 0 <= n < 32 -> sim_decode GICD_ISENABLER (b + GICD_ICENABLER + 4 * n) = None.
Proof.
  intros Hb Hn. unfold sim_decode, sim_gicd, sim_gicr, GICD_ISENABLER, GICD_ICENABLER. change GICR_SGIBASE_OFFSET with 0x10000.
  unfold sim_frame, sim_gicd, sim_gicr in Hb. change GICR_SGIBASE_OFFSET with 0x10000 in Hb. cbv zeta.
  destruct Hb as [-> | ->];
    (match goal with |- context [?x <? 0x2f000000 + 0x100 + 128] => replace (x <? 0x2f000000 + 0x100 + 128) with false by lia end);
    rewrite andb_false_r; cbn [andb];
    (match goal with |- context [?x <? 0x2f100000 + 0x10000 + 0x100 + 128] =>
       destruct (Z.ltb_spec x (0x2f100000 + 0x10000 + 0x100 + 128)), (Z.leb_spec (0x2f100000 + 0x10000 + 0x100) x) end);
    cbn [andb]; done || lia.
Qed.

Lemma uwrap_lor w a b : 0 <= w -> uwrap w a = a -> uwrap w b = b -> uwrap w (Z.lor a b) = Z.lor a b.
Proof. intros Hw Ha Hb. rewrite <- land_ones_uwrap in * by done. by rewrite Z.land_lor_distr_l, Ha, Hb. Qed.

Lemma uwrap_ldiff w a b : 0 <= w -> uwrap w a = a -> uwrap w (Z.ldiff a b) = Z.ldiff a b.
Proof.
  intros Hw Ha. rewrite <- land_ones_uwrap in * by done. rewrite <- Ha at 2. apply Z.bits_inj'. intros n Hn.
  rewrite Z.land_spec, !Z.ldiff_spec, Z.land_spec. by destruct (Z.testbit a n), (Z.testbit b n), (Z.testbit (Z.ones w) n).
Qed.

#[export] Instance sim_device : GicDevice sim_gic.
Proof.
  refine {| gic_frame := sim_frame; enable_word := sim_word; core_mpidr := fun _ => 0x81000000 |}.
  - intros b [-> | ->]; unfold sim_gicd, sim_gicr; change GICR_SGIBASE_OFFSET with 0x10000; lia.
  - intros s b n. apply (uwrap_range 32). lia.
  - intros s b n Hb Hn. unfold load, sim_machine. by rewrite (sim_decode_hit GICD_ISENABLER b n Hb Hn) by (unfold GICD_ISENABLER; lia).
  - intros s b n v Hb Hn Hv. unfold store, sim_machine. rewrite (sim_decode_hit GICD_ISENABLER b n Hb Hn) by (unfold GICD_ISENABLER; lia).
    intros b' n'. unfold sim_word at 1.
    destruct (decide (b' = b /\ n' = n)) as [[-> ->]|Hne].
    + rewrite lookup_insert_eq. apply (uwrap_lor 32); [lia | apply uwrap_idem; lia | by apply uwrap_small].
    + rewrite lookup_insert_ne; [done|]. intros [= -> ->]. by apply Hne.
  - intros s b n v Hb Hn Hv. unfold store, sim_machine. rewrite (sim_decode_miss b n Hb Hn).
    rewrite (sim_decode_hit GICD_ICENABLER b n Hb Hn) by (unfold GICD_ICENABLER; lia).
    intros b' n'. unfold sim_word at 1.
    destruct (decide (b' = b /\ n' = n)) as [[-> ->]|Hne].
    + rewrite lookup_insert_eq. apply (uwrap_ldiff 32); [lia | apply uwrap_idem; lia].
    + rewrite lookup_insert_ne; [done|]. intros [= -> ->]. by apply Hne.
  - done.
  - done.
  - done.
  - done.
  - done.
Defined.

(** Version 3, with the redistributor of core 0 known. *)
Definition demo_gic : Arm.arm_gic sim_gic :=
  Arm.ArmGic _ 1 V2.gicv2_zero (V3.set_rdist 0 sim_gicr 0x1000000 (V3.GicV3 sim_gicr sim_gicd
    (V3.pcpu_ctx V3.gicv3_zero) (V3.rdist_pcpu_base V3.gicv3_zero) (V3.mpidr_list V3.gicv3_zero))) ∅.

Lemma demo_gic_ready : gic_ready demo_gic.
Proof.
  split.
  - intros id Hid. unfold frame_base. change (Arm.gicv3_detected demo_gic =? 0) with false.
    destruct (id <? MIN_SPI_ID); [by right | by left].
  - split; [discriminate|]. exists sim_gicr. split; [reflexivity|]. split; discriminate.
Qed.

Lemma interrupt_enable_exact_witness :
  exists g', Arm.arm_gic_intr_enable 40 demo_gic = Ret (tt, g') /\ Arm.arm_gic_intr_enabled 40 g' = Ret (1, g').
Proof.
  destruct (interrupt_enable_exact demo_gic 40) as [(g' & E & _ & HJ) _].
  - apply demo_gic_ready.
  - vm_compute. split; discriminate.
  - exists g'. split; [exact E|]. destruct (HJ 40) as (old & _ & Hv); [vm_compute; split; discriminate|].
    rewrite Hv. reflexivity.
Defined.

(** ** SGIs *)

Lemma lor_shiftl_r k a b : 0 <= k -> 0 <= a < 2 ^ k -> Z.lor (Z.shiftl b k) a = a + b * 2 ^ k.
Proof. intros. rewrite Z.lor_comm. by apply lor_shiftl. Qed.

Lemma aff_range mpidr s : 0 <= MPIDR_AFF_ID mpidr s < 2 ^ 8.
Proof. unfold MPIDR_AFF_ID. change MPIDR_AFFLVL_MASK with (Z.ones 8). rewrite Z.land_ones by lia. apply Z.mod_pos_bound. lia. Qed.

(** ICC_SGI1R as a sum of its fields. *)
Lemma sgi1r_eq mpidr sgi :
  MPIDR_AFF_ID mpidr MPIDR_AFF0_SHIFT < SGI_TARGET_MAX_AFF0 -> 0 <= sgi <= MAX_SGI_ID ->
  V3.sgi1r mpidr sgi =
    2 ^ MPIDR_AFF_ID mpidr MPIDR_AFF0_SHIFT + MPIDR_AFF_ID mpidr MPIDR_AFF1_SHIFT * 2 ^ 16 + sgi * 2 ^ 24 +
    MPIDR_AFF_ID mpidr MPIDR_AFF2_SHIFT * 2 ^ 32 + MPIDR_AFF_ID mpidr MPIDR_AFF3_SHIFT * 2 ^ 48.
Proof.
  intros H0 Hs. unfold V3.sgi1r. unfold SGI_TARGET_MAX_AFF0, MAX_SGI_ID in *.
  pose proof (aff_range mpidr MPIDR_AFF0_SHIFT) as R0. pose proof (aff_range mpidr MPIDR_AFF1_SHIFT) as R1.
  pose proof (aff_range mpidr MPIDR_AFF2_SHIFT) as R2. pose proof (aff_range mpidr MPIDR_AFF3_SHIFT) as R3.
  set (a0 := MPIDR_AFF_ID mpidr MPIDR_AFF0_SHIFT) in *. set (a1 := MPIDR_AFF_ID mpidr MPIDR_AFF1_SHIFT) in *.
  set (a2 := MPIDR_AFF_ID mpidr MPIDR_AFF2_SHIFT) in *. set (a3 := MPIDR_AFF_ID mpidr MPIDR_AFF3_SHIFT) in *.
  clearbody a0 a1 a2 a3.
  assert (Ht : 0 < 2 ^ a0 < 2 ^ 16) by (split; [apply Z.pow_pos_nonneg; lia | apply Z.pow_lt_mono_r; lia]).
  assert (HM : forall k x, 0 <= k -> 0 <= x < 2 ^ k -> Z.land x (Z.ones k) = x)
    by (intros; rewrite Z.land_ones by lia; by apply Z.mod_small).
  unfold SGI1R_AFF_MASK, SGI1R_TARGET_LIST_MASK, SGI1R_INTID_MASK, SGI1R_AFF1_SHIFT, SGI1R_AFF2_SHIFT, SGI1R_AFF3_SHIFT,
    SGI1R_TARGET_LIST_SHIFT, SGI1R_INTID_SHIFT.
  change 0xffff with (Z.ones 16). change 0xff with (Z.ones 8). change 0xf with (Z.ones 4).
  rewrite Z.shiftl_1_l, (uwrap_small 64 (2 ^ a0)) by lia. rewrite !HM by lia. rewrite Z.shiftl_0_r.
  rewrite !uwrap_small by (rewrite ?Z.shiftl_mul_pow2 by lia; lia).
  replace (Z.lor (Z.lor (Z.shiftl a3 48) (Z.lor (Z.shiftl a2 32) (Z.lor (Z.shiftl a1 16) (2 ^ a0)))) (Z.shiftl sgi 24))
    with (Z.lor (Z.shiftl a3 48) (Z.lor (Z.shiftl a2 32) (Z.lor (Z.shiftl sgi 24) (Z.lor (Z.shiftl a1 16) (2 ^ a0)))))
    by (rewrite <- !Z.lor_assoc; do 2 f_equal; rewrite Z.lor_comm, <- Z.lor_assoc; done).
  rewrite (lor_shiftl_r 16), (lor_shiftl_r 24), (lor_shiftl_r 32), (lor_shiftl_r 48) by lia. lia.
Qed.

Section Sgi.
Context {S : Type} `{!Machine S}.

(** gicv3_send_sgi writes one ICC_SGI1R value that fits 64 bits: its target list is
    the one bit of affinity 0, its affinity fields are those of the MPIDR the driver
    recorded for the target core, its interrupt id is the given one and it is not a
    broadcast. *)
Theorem sgi_targets_core (d : V3.gicv3) (s : S) core mpidr sgi :
  V3.mpidr_list d !! Z.to_nat core = Some mpidr -> 0 <= core < PLATFORM_NO_OF_CPUS -> mpidr <> UINT64_MAX ->
  MPIDR_AFF_ID mpidr MPIDR_AFF0_SHIFT < SGI_TARGET_MAX_AFF0 -> 0 <= sgi <= MAX_SGI_ID ->
  exists x, V3.gicv3_send_sgi sgi core (d, s) = Ret (tt, (d, msr ICC_SGI1R x s)) /\
    is_uint 64 x /\
    Z.land x SGI1R_TARGET_LIST_MASK = 2 ^ MPIDR_AFF_ID mpidr MPIDR_AFF0_SHIFT /\
    MPIDR_AFF_ID x SGI1R_AFF1_SHIFT = MPIDR_AFF_ID mpidr MPIDR_AFF1_SHIFT /\
    MPIDR_AFF_ID x SGI1R_AFF2_SHIFT = MPIDR_AFF_ID mpidr MPIDR_AFF2_SHIFT /\
    MPIDR_AFF_ID x SGI1R_AFF3_SHIFT = MPIDR_AFF_ID mpidr MPIDR_AFF3_SHIFT /\
    Z.land (Z.shiftr x SGI1R_INTID_SHIFT) SGI1R_INTID_MASK = sgi /\ Z.testbit x 40 = false.
Proof.
  intros Em Hc Hne H0 Hs. exists (V3.sgi1r mpidr sgi).
  assert (HX : is_uint 64 (V3.sgi1r mpidr sgi) /\
    Z.land (V3.sgi1r mpidr sgi) SGI1R_TARGET_LIST_MASK = 2 ^ MPIDR_AFF_ID mpidr MPIDR_AFF0_SHIFT /\
    MPIDR_AFF_ID (V3.sgi1r mpidr sgi) SGI1R_AFF1_SHIFT = MPIDR_AFF_ID mpidr MPIDR_AFF1_SHIFT /\
    MPIDR_AFF_ID (V3.sgi1r mpidr sgi) SGI1R_AFF2_SHIFT = MPIDR_AFF_ID mpidr MPIDR_AFF2_SHIFT /\
    MPIDR_AFF_ID (V3.sgi1r mpidr sgi) SGI1R_AFF3_SHIFT = MPIDR_AFF_ID mpidr MPIDR_AFF3_SHIFT /\
    Z.land (Z.shiftr (V3.sgi1r mpidr sgi) SGI1R_INTID_SHIFT) SGI1R_INTID_MASK = sgi /\
    Z.testbit (V3.sgi1r mpidr sgi) 40 = false).
  { rewrite sgi1r_eq by done. unfold MAX_SGI_ID, SGI_TARGET_MAX_AFF0 in *.
    pose proof (aff_range mpidr MPIDR_AFF0_SHIFT) as R0. pose proof (aff_range mpidr MPIDR_AFF1_SHIFT) as R1.
    pose proof (aff_range mpidr MPIDR_AFF2_SHIFT) as R2. pose proof (aff_range mpidr MPIDR_AFF3_SHIFT) as R3.
    set (a0 := MPIDR_AFF_ID mpidr MPIDR_AFF0_SHIFT) in *. set (a1 := MPIDR_AFF_ID mpidr MPIDR_AFF1_SHIFT) in *.
    set (a2 := MPIDR_AFF_ID mpidr MPIDR_AFF2_SHIFT) in *. set (a3 := MPIDR_AFF_ID mpidr MPIDR_AFF3_SHIFT) in *.
    clearbody a0 a1 a2 a3.
    assert (Ht : 0 < 2 ^ a0 < 2 ^ 16) by (split; [apply Z.pow_pos_nonneg; lia | apply Z.pow_lt_mono_r; lia]).
    set (t := 2 ^ a0) in *. clearbody t.
    unfold MPIDR_AFF_ID, MPIDR_AFFLVL_MASK, SGI1R_TARGET_LIST_MASK, SGI1R_INTID_MASK, SGI1R_AFF1_SHIFT, SGI1R_AFF2_SHIFT,
      SGI1R_AFF3_SHIFT, SGI1R_INTID_SHIFT, is_uint.
    change 0xffff with (Z.ones 16). change 0xff with (Z.ones 8). change 0xf with (Z.ones 4).
    rewrite !Z.land_ones, Z.testbit_odd, !Z.shiftr_div_pow2 by lia.
    split; [lia|]. repeat (split; [Z.div_mod_to_equations; lia|]).
    replace ((t + a1 * 2 ^ 16 + sgi * 2 ^ 24 + a2 * 2 ^ 32 + a3 * 2 ^ 48) / 2 ^ 40) with (2 * (a3 * 2 ^ 7)) by (Z.div_mod_to_equations; lia).
    by rewrite Z.odd_mul. }
  split; [|exact HX]. unfold V3.gicv3_send_sgi, getv, gets, mbind, cmd_bind.
  replace (IS_SGI sgi) with true by (unfold IS_SGI; lia). replace (core <? PLATFORM_NO_OF_CPUS) with true by lia.
  cbn [assert mret cmd_ret fst]. erewrite aref_Ret; [|lia|exact Em]. rewrite (proj2 (Z.eqb_neq _ _) Hne). cbn [negb assert].
  replace (MPIDR_AFF_ID mpidr MPIDR_AFF0_SHIFT <? SGI_TARGET_MAX_AFF0) with true by lia. cbn [assert mret cmd_ret].
  unfold hw, zoom, write_sysreg. cbn [fst snd]. by rewrite uwrap_small by apply HX.
Qed.
End Sgi.

Lemma sgi_targets_core_witness :
  exists x, V3.gicv3_send_sgi 7 0 (Arm.v3 demo_gic, ∅ : sim_gic) = Ret (tt, (Arm.v3 demo_gic, msr ICC_SGI1R x ∅)) /\
    Z.land (Z.shiftr x 24) 0xf = 7.
Proof.
  destruct (sgi_targets_core (Arm.v3 demo_gic) (∅ : sim_gic) 0 0x1000000 7) as (x & E & _ & _ & _ & _ & _ & Hs & _).
  - reflexivity.
  - vm_compute. split; congruence.
  - discriminate.
  - reflexivity.
  - vm_compute. split; congruence.
  - exists x. split; [exact E | exact Hs].
Defined.

(** ** Where the drivers misbehave *)

(** Only the first element of [mpidr_list] is initialised to the value the
    assertion looks for: an SGI for a core that never probed its redistributor goes
    to the core with affinity 0. *)
Theorem sgi_to_unprobed_core {S} `{!Machine S} (s : S) core :
  1 <= core < PLATFORM_NO_OF_CPUS ->
  V3.gicv3_send_sgi 1 core (V3.gicv3_zero, s) = Ret (tt, (V3.gicv3_zero, msr ICC_SGI1R (V3.sgi1r 0 1) s)).
Proof.
  unfold PLATFORM_NO_OF_CPUS. intros Hc.
  assert (Hd : core = 1 \/ core = 2 \/ core = 3 \/ core = 4 \/ core = 5 \/ core = 6 \/ core = 7) by lia.
  by destruct Hd as [-> | [-> | [-> | [-> | [-> | [-> | ->]]]]]].
Qed.

(** [gicd_get_ipriorityr] masks the word of four interrupts without shifting: it
    answers with the priority of the first of them. *)
Theorem priority_of_first_in_word {S} `{!Machine S} base id (s : S) :
  0 <= id -> gicd_get_ipriorityr base id s = gicd_get_ipriorityr base (4 * (id / 4)) s.
Proof.
  intros Hid. unfold gicd_get_ipriorityr, gicd_read_ipriorityr, word_of, IPRIORITYR_SHIFT.
  rewrite !(Z.shiftr_div_pow2 _ 2) by lia. change (2 ^ 2) with 4.
  by rewrite (Z.mul_comm 4 (id / 4)), Z.div_mul by lia.
Qed.

(** On version 2 [arm_gic_init] sets no core up: routing a shared interrupt to
    core 0 fails its assertion. *)
Theorem gicv2_core_not_set_up (g : Arm.arm_gic sim_gic) :
  Arm.v2 g = V2.gicv2_zero -> Arm.gicv3_detected g = 0 ->
  exists g', Arm.arm_gic_init 0 0x2c000000 0x2f000000 0x2f100000 g = Ret (tt, g') /\
    Arm.arm_gic_set_intr_target 40 0 g' = Panic.
Proof. destruct g as [d v2 v3 m]. cbn. intros -> ->. eexists. split; reflexivity. Qed.
