(* ===== verification/GicV2Only.v ===== *)
(** * The driver of the interrupt controller for version 2 only (pal_arm_gic_v2.c)

    The file defines the functions of pal_arm_gic_v2v3.c a second time, without the
    choice between the versions.  pal.cmake puts both into one archive, so the
    order of its members decides which one an image gets.  The file proves when
    that makes no difference. *)

From S2P Require Import Prelude Machine Gic.

Module V2Only.
Section V2Only.
Context {S : Type} `{!Machine S}.
Abbreviation cm := (cmd (V2.gicv2 * S)).

Definition arm_gic_enable_interrupts_local : cm unit := V2.gicv2_enable_cpuif.
Definition arm_gic_setup_local : cm unit := _ ← V2.gicv2_probe_gic_cpu_id; V2.gicv2_setup_cpuif.
Definition arm_gic_disable_interrupts_local : cm unit := V2.gicv2_disable_cpuif.
Definition arm_gic_save_context_local : cm unit := V2.gicv2_save_cpuif_context.
Definition arm_gic_restore_context_local : cm unit := V2.gicv2_restore_cpuif_context.
Definition arm_gic_save_context_global : cm unit := V2.gicv2_save_sgi_ppi_context.
Definition arm_gic_restore_context_global : cm unit := _ ← V2.gicv2_setup_distif; V2.gicv2_restore_sgi_ppi_context.
Definition arm_gic_setup_global : cm unit := V2.gicv2_setup_distif.
Definition arm_gic_get_intr_priority (num : Z) : cm Z := V2.gicv2_gicd_get_ipriorityr num.
Definition arm_gic_set_intr_priority (num priority : Z) : cm unit := V2.gicv2_gicd_set_ipriorityr num priority.
Definition arm_gic_send_sgi (sgi_id core_pos : Z) : cm unit := V2.gicv2_send_sgi sgi_id core_pos.
Definition arm_gic_set_intr_target (num core_pos : Z) : cm unit := V2.gicv2_set_itargetsr num core_pos.
Definition arm_gic_intr_enabled (num : Z) : cm Z :=
  v ← V2.gicv2_gicd_get_isenabler num; mret (if v =? 0 then 0 else 1).
Definition arm_gic_intr_enable (num : Z) : cm unit := V2.gicv2_gicd_set_isenabler num.
Definition arm_gic_intr_disable (num : Z) : cm unit := V2.gicv2_gicd_set_icenabler num.
(** The interrupt and the raw value of the register. *)
Definition arm_gic_intr_ack : cm (Z * Z) := v ← V2.gicv2_gicc_read_iar; mret (get_gicc_iar_intid v, v).
Definition arm_gic_is_intr_pending (num : Z) : cm Z := V2.gicv2_gicd_get_ispendr num.
Definition arm_gic_intr_clear (num : Z) : cm unit := V2.gicv2_gicd_set_icpendr num.
Definition arm_gic_end_of_intr (raw_iar : Z) : cm unit := V2.gicv2_gicc_write_eoir raw_iar.
(** [gicr_base] is not used. *)
Definition arm_gic_init (gicc_base gicd_base gicr_base : Z) : cm unit := V2.gicv2_init gicc_base gicd_base.
End V2Only.
End V2Only.

(** ** Calls of the interface (pal_arm_gic.h) *)
Inductive gic_call :=
| Enable_local | Setup_local | Disable_local | Save_local | Restore_local
| Save_global | Restore_global | Setup_global
| Get_priority (num : Z) | Set_priority (num priority : Z)
| Send_sgi (sgi_id core_pos : Z) | Set_target (num core_pos : Z)
| Enabled (num : Z) | Enable (num : Z) | Disable (num : Z)
| Ack | Pending (num : Z) | Clear (num : Z) | End_of (raw_iar : Z).

(** What a call returns: nothing, a value, or the two values of [arm_gic_intr_ack]. *)
Definition nothing {S} (c : cmd S unit) : cmd S (list Z) := _ ← c; mret [].
Definition one {S} (c : cmd S Z) : cmd S (list Z) := v ← c; mret [v].
Definition two {S} (c : cmd S (Z * Z)) : cmd S (list Z) := '(a, b) ← c; mret [a; b].

Section Calls.
Context {S : Type} `{!Machine S} (fuel : nat).

Definition call_v2 (c : gic_call) : cmd (V2.gicv2 * S) (list Z) :=
  match c with
  | Enable_local => nothing V2Only.arm_gic_enable_interrupts_local
  | Setup_local => nothing V2Only.arm_gic_setup_local
  | Disable_local => nothing V2Only.arm_gic_disable_interrupts_local
  | Save_local => nothing V2Only.arm_gic_save_context_local
  | Restore_local => nothing V2Only.arm_gic_restore_context_local
  | Save_global => nothing V2Only.arm_gic_save_context_global
  | Restore_global => nothing V2Only.arm_gic_restore_context_global
  | Setup_global => nothing V2Only.arm_gic_setup_global
  | Get_priority n => one (V2Only.arm_gic_get_intr_priority n)
  | Set_priority n p => nothing (V2Only.arm_gic_set_intr_priority n p)
  | Send_sgi n p => nothing (V2Only.arm_gic_send_sgi n p)
  | Set_target n p => nothing (V2Only.arm_gic_set_intr_target n p)
  | Enabled n => one (V2Only.arm_gic_intr_enabled n)
  | Enable n => nothing (V2Only.arm_gic_intr_enable n)
  | Disable n => nothing (V2Only.arm_gic_intr_disable n)
  | Ack => two V2Only.arm_gic_intr_ack
  | Pending n => one (V2Only.arm_gic_is_intr_pending n)
  | Clear n => nothing (V2Only.arm_gic_intr_clear n)
  | End_of r => nothing (V2Only.arm_gic_end_of_intr r)
  end.

Definition call_v2v3 (c : gic_call) : cmd (Arm.arm_gic S) (list Z) :=
  match c with
  | Enable_local => nothing Arm.arm_gic_enable_interrupts_local
  | Setup_local => nothing (Arm.arm_gic_setup_local fuel)
  | Disable_local => nothing Arm.arm_gic_disable_interrupts_local
  | Save_local => nothing Arm.arm_gic_save_context_local
  | Restore_local => nothing Arm.arm_gic_restore_context_local
  | Save_global => nothing Arm.arm_gic_save_context_global
  | Restore_global => nothing Arm.arm_gic_restore_context_global
  | Setup_global => nothing Arm.arm_gic_setup_global
  | Get_priority n => one (Arm.arm_gic_get_intr_priority n)
  | Set_priority n p => nothing (Arm.arm_gic_set_intr_priority n p)
  | Send_sgi n p => nothing (Arm.arm_gic_send_sgi n p)
  | Set_target n p => nothing (Arm.arm_gic_set_intr_target n p)
  | Enabled n => one (Arm.arm_gic_intr_enabled n)
  | Enable n => nothing (Arm.arm_gic_intr_enable n)
  | Disable n => nothing (Arm.arm_gic_intr_disable n)
  | Ack => two Arm.arm_gic_intr_ack
  | Pending n => one (Arm.arm_gic_is_intr_pending n)
  | Clear n => nothing (Arm.arm_gic_intr_clear n)
  | End_of r => nothing (Arm.arm_gic_end_of_intr r)
  end.

(** An image: it initialises the driver and makes calls. *)
Fixpoint calls {T} (call : gic_call -> cmd T (list Z)) (cs : list gic_call) : cmd T (list (list Z)) :=
  match cs with
  | [] => mret []
  | c :: cs' => r ← call c; rs ← calls call cs'; mret (r :: rs)
  end.
Definition image_v2 (gicc gicd gicr : Z) (cs : list gic_call) : cmd (V2.gicv2 * S) (list (list Z)) :=
  _ ← V2Only.arm_gic_init gicc gicd gicr; calls call_v2 cs.
Definition image_v2v3 (gicc gicd gicr : Z) (cs : list gic_call) : cmd (Arm.arm_gic S) (list (list Z)) :=
  _ ← Arm.arm_gic_init fuel gicc gicd gicr; calls call_v2v3 cs.

(** ** The two agree on version 2 *)

(** What the driver of both versions shows of its state on version 2. *)
Definition shown {A} (o : outcome (A * Arm.arm_gic S)) : outcome (A * (V2.gicv2 * S)) :=
  match o with
  | Ret (a, g) => Ret (a, (Arm.v2 g, Arm.machine g))
  | Panic => Panic
  | Fault => Fault
  | Diverge => Diverge
  end.

(** [c] does on version 2 what [c2] does, and stays on version 2. *)
Definition same_on_v2 {A} (c2 : cmd (V2.gicv2 * S) A) (c : cmd (Arm.arm_gic S) A) : Prop :=
  forall g, Arm.gicv3_detected g = 0 ->
    shown (c g) = c2 (Arm.v2 g, Arm.machine g) /\
    match c g with Ret (_, g') => Arm.gicv3_detected g' = 0 | _ => True end.

Lemma same_on_v2_on {A} (c2 : cmd (V2.gicv2 * S) A) : same_on_v2 c2 (Arm.on_v2 c2).
Proof. intros g Hg. unfold Arm.on_v2, zoom. by destruct (c2 _) as [[a [d m]]| | |]. Qed.

Lemma same_on_v2_choose {A} c3 (c2 : cmd (V2.gicv2 * S) A) : same_on_v2 c2 (Arm.choose c3 c2).
Proof. intros g Hg. unfold Arm.choose, gets, mbind, cmd_bind. rewrite Hg. by apply same_on_v2_on. Qed.

Lemma same_on_v2_ret {A} (a : A) : same_on_v2 (mret a) (mret a).
Proof. by intros g Hg. Qed.

Lemma same_on_v2_bind {A B} c2 c (f2 : A -> cmd (V2.gicv2 * S) B) f :
  same_on_v2 c2 c -> (forall a, same_on_v2 (f2 a) (f a)) -> same_on_v2 (c2 ≫= f2) (c ≫= f).
Proof.
  intros Hc Hf g Hg. destruct (Hc g Hg) as [E HD]. unfold mbind, cmd_bind. rewrite <- E.
  destruct (c g) as [[a g']| | |]; [exact (Hf a g' HD) | done..].
Qed.

Lemma same_on_v2_ack : same_on_v2 V2Only.arm_gic_intr_ack Arm.arm_gic_intr_ack.
Proof.
  assert (K : same_on_v2 V2Only.arm_gic_intr_ack (v ← Arm.on_v2 V2.gicv2_gicc_read_iar; mret (get_gicc_iar_intid v, v))).
  { apply same_on_v2_bind; [apply same_on_v2_on | intros v; apply same_on_v2_ret]. }
  intros g Hg. replace (Arm.arm_gic_intr_ack g) with ((v ← Arm.on_v2 V2.gicv2_gicc_read_iar; mret (get_gicc_iar_intid v, v)) g).
  { exact (K g Hg). }
  unfold Arm.arm_gic_intr_ack, gets, mbind, cmd_bind. by rewrite Hg.
Qed.

Lemma same_call c : same_on_v2 (call_v2 c) (call_v2v3 c).
Proof.
  destruct c; cbn [call_v2 call_v2v3]; unfold nothing, one, two, V2Only.arm_gic_intr_enabled, Arm.arm_gic_intr_enabled;
    repeat first [apply same_on_v2_choose | apply same_on_v2_ack | apply same_on_v2_ret
                 | apply same_on_v2_bind; [|intros r; match type of r with (_ * _)%type => destruct r | _ => idtac end]].
Qed.

Lemma same_calls cs : same_on_v2 (calls call_v2 cs) (calls call_v2v3 cs).
Proof.
  induction cs as [|c cs IH]; cbn [calls]; [apply same_on_v2_ret|].
  apply same_on_v2_bind; [apply same_call|]. intros r. apply same_on_v2_bind; [exact IH|]. intros rs. apply same_on_v2_ret.
Qed.

(** Claim C33: Which of the two drivers, pal_arm_gic_v2.c or pal_arm_gic_v2v3.c, an
    image gets makes no difference on a machine that runs its interrupt controller
    as version 2: every sequence of calls after arm_gic_init gives the same results,
    the same static variables and the same accesses. On version 3 the driver for
    version 2 only does not get past arm_gic_init: its assertion fails. *)
Theorem v2_driver_equivalent gicc gicd gicr cs (g : Arm.arm_gic S) m :
  Arm.gicv3_detected g = 0 ->
  (is_gicv3_mode (Arm.machine g) = Ret (0, Arm.machine g) ->
   shown (image_v2v3 gicc gicd gicr cs g) = image_v2 gicc gicd gicr cs (Arm.v2 g, Arm.machine g)) /\
  (gicc <> 0 -> gicd <> 0 -> is_gicv3_mode (Arm.machine g) = Ret (1, m) ->
   image_v2 gicc gicd gicr cs (Arm.v2 g, Arm.machine g) = Panic).
Proof.
  intros Hg. split.
  - intros HM. unfold image_v2v3, image_v2, Arm.arm_gic_init, V2Only.arm_gic_init.
    set (i2 := V2.gicv2_init gicc gicd).
    assert (E : forall k, shown ((mode ← Arm.on_v2 (hw is_gicv3_mode);
                  if negb (mode =? 0) then k else Arm.on_v2 i2) g) = i2 (Arm.v2 g, Arm.machine g) /\
                match (mode ← Arm.on_v2 (hw is_gicv3_mode); if negb (mode =? 0) then k else Arm.on_v2 i2) g with
                | Ret (_, g') => Arm.gicv3_detected g' = 0 | _ => True end).
    { intros k. unfold Arm.on_v2, hw, zoom, mbind, cmd_bind. cbn [snd]. rewrite HM. cbn [fst Arm.v2 Arm.machine negb Z.eqb].
      destruct (i2 _) as [[a [d m']]| | |]; [by destruct g | done..]. }
    match goal with |- context [if negb (_ =? 0) then ?k else _] => destruct (E k) as [E1 E2] end.
    unfold mbind at 1, cmd_bind at 1. revert E1 E2. match goal with |- context [shown (?c g) = _] => generalize (c g) end.
    intros o E1 E2. unfold mbind at 1, cmd_bind at 1. rewrite <- E1.
    destruct o as [[a g']| | |]; [|done..]. by apply same_calls.
  - intros Hc Hd HM. unfold image_v2, V2Only.arm_gic_init, V2.gicv2_init, hw, zoom, assert, mbind, cmd_bind.
    rewrite (proj2 (Z.eqb_neq gicc 0)), (proj2 (Z.eqb_neq gicd 0)) by done. cbn. by rewrite HM.
Qed.
End Calls.

(** ** Example: a controller whose version the identification registers tell *)

(** The machine is the version and the list of the words stored. *)
#[export] Instance demo_versions : Machine (Z * list (Z * Z)) := {|
  load n a s := (if a =? 0x2c00000c then 40 else 1, s);
  store n a v s := (s.1, s.2 ++ [(a, v)]);
  mrs r s := (if decide (r = MPIDR_EL1) then 0x81000000 else if s.1 =? 3 then 0x1000001 else 0, s);
  msr r v s := s; set_irq_mask b s := s; set_fiq_mask b s := s
|}.
Definition demo_state (version : Z) : Arm.arm_gic (Z * list (Z * Z)) :=
  Arm.ArmGic _ 0 V2.gicv2_zero V3.gicv3_zero (version, []).

Lemma v2_driver_equivalent_witness :
  (exists d m, shown (image_v2v3 1 0x2c000000 0x2f000000 0x2f100000
                 [Setup_local; Enable 40; Set_target 40 0; Ack; End_of 40] (demo_state 2)) =
               Ret ([[]; []; []; [40; 40]; []], (d, (2, m))) /\ (0x2f000828, 1) ∈ m) /\
  image_v2 0x2c000000 0x2f000000 0x2f100000 [Ack] (V2.gicv2_zero, (3, [])) = Panic.
Proof.
  split.
  - destruct (v2_driver_equivalent 1 0x2c000000 0x2f000000 0x2f100000
                [Setup_local; Enable 40; Set_target 40 0; Ack; End_of 40] (demo_state 2) (2, []) eq_refl) as [E _].
    do 2 eexists. split; [rewrite (E eq_refl); vm_compute; reflexivity | set_solver].
  - apply (v2_driver_equivalent 1 0x2c000000 0x2f000000 0x2f100000 [Ack] (demo_state 3) (3, []) eq_refl);
      [lia | lia | reflexivity].
Defined.
