(* ===== verification/Log.v ===== *)
(** * Printing (pal_log.c)

    [pal_printf] understands %d and %x of 64-bit values, with an optional l before
    the letter, and takes at most two of them.  Strings are lists of bytes without
    the final zero; characters go out through [putc] (pal_uart_putc). *)

From S2P Require Import Prelude Machine.

(** ** Characters *)
Definition ch_lf : Z := 10.
Definition ch_cr : Z := 13.
Definition ch_percent : Z := 37.
Definition ch_0 : Z := 48.
Definition ch_A : Z := 65.
Definition ch_L : Z := 76.
Definition ch_X : Z := 88.
Definition ch_d : Z := 100.
Definition ch_l : Z := 108.
Definition ch_x : Z := 120.

(** [uint8_t buffer[16]]. *)
Definition BUFFER_SIZE : nat := 16.

(** The digits of [data], last one first, as the loop puts them into the buffer;
    [room] elements are left, and a write past the end is undefined. *)
Fixpoint dec_digits (room : nat) (data : Z) : outcome (list Z) :=
  if data =? 0 then Ret []
  else match room with
       | O => Fault
       | S room' => let! ds := dec_digits room' (data / 10) in Ret (data mod 10 + ch_0 :: ds)
       end.
Fixpoint hex_digits (room : nat) (data : Z) : outcome (list Z) :=
  if data =? 0 then Ret []
  else match room with
       | O => Fault
       | S room' =>
           let j := Z.land data 0xf in
           let! ds := hex_digits room' (Z.shiftr data 4) in
           Ret (u8 (j + (if 9 <? j then ch_A - 10 else ch_0)) :: ds)
       end.

Section Printf.
Context {S : Type} (putc : Z -> cmd S unit).

Fixpoint put_all (cs : list Z) : cmd S unit :=
  match cs with [] => mret tt | c :: cs' => _ ← putc c; put_all cs' end.

(** [while (i > 0) pal_uart_putc(buffer[--i]);] *)
Definition put_digits (ds : list Z) : cmd S unit := put_all (rev ds).

Definition put_dec (data : Z) : cmd S unit :=
  if data =? 0 then putc ch_0 else ds ← lift (dec_digits BUFFER_SIZE data); put_digits ds.
Definition put_hex (data : Z) : cmd S unit :=
  if data =? 0 then putc ch_0 else ds ← lift (hex_digits BUFFER_SIZE data); put_digits ds.

(** After a percent sign at the very end the loop steps over the final zero. *)
Fixpoint printf_loop (fuel : nat) (msg : list Z) (data data2 : Z) : cmd S Z :=
  match fuel, msg with
  | _, [] => mret PAL_SUCCESS
  | O, _ => fun _ => Diverge
  | Datatypes.S fuel', c :: msg =>
      if c =? ch_percent then
        let msg := match msg with
                   | l :: msg' => if (l =? ch_l) || (l =? ch_L) then msg' else msg
                   | [] => msg
                   end in
        match msg with
        | [] => fun _ => Fault
        | f :: msg =>
            if f =? ch_d then _ ← put_dec data; printf_loop fuel' msg data2 data2
            else if (f =? ch_x) || (f =? ch_X) then _ ← put_hex data; printf_loop fuel' msg data2 data2
            else printf_loop fuel' msg data data2
        end
      else
        _ ← (if c =? ch_lf then putc ch_cr else mret tt);
        _ ← putc c;
        printf_loop fuel' msg data data2
  end.

(** Every round consumes a character. *)
Definition pal_printf (msg : list Z) (data1 data2 : Z) : cmd S Z := printf_loop (length msg) msg data1 data2.
End Printf.

(** ** What is printed *)

Definition digit_val (c : Z) : Z := if c <? 58 then c - ch_0 else c - (ch_A - 10).
Definition num_value (base : Z) (ds : list Z) : Z := fold_left (fun v c => v * base + digit_val c) ds 0.
(** A number in [base], most significant digit first, without leading zeros. *)
Definition numeral (base : Z) (ds : list Z) (v : Z) : Prop :=
  ds <> [] /\ num_value base ds = v /\ Forall (fun c => 0 <= digit_val c < base) ds /\ (hd 0 ds = ch_0 -> ds = [ch_0]).

(** Text without percent signs, as it comes out: a carriage return before each line feed. *)
Definition plain (t : list Z) : Prop := Forall (fun c => c <> ch_percent) t.
Definition crlf (t : list Z) : list Z := flat_map (fun c => if c =? ch_lf then [ch_cr; c] else [c]) t.

(** The digits, least significant first, of the two loops. *)
Lemma num_value_rev base ds c : num_value base (rev (c :: ds)) = num_value base (rev ds) * base + digit_val c.
Proof. unfold num_value. cbn [rev]. by rewrite fold_left_app. Qed.

Definition digits_ok (base : Z) (ds : list Z) (v : Z) : Prop :=
  num_value base (rev ds) = v /\ Forall (fun c => 0 <= digit_val c < base) ds /\ (v <> 0 -> exists ds' c, ds = ds' ++ [c] /\ c <> ch_0).

Lemma digits_numeral base ds v : v <> 0 -> digits_ok base ds v -> numeral base (rev ds) v.
Proof.
  intros Hv (Hn & Hf & Hl). destruct (Hl Hv) as (ds' & c & -> & Hc). unfold numeral. rewrite rev_app_distr in *. cbn [rev app] in *.
  split; [done|]. split; [done|]. split; [|by intros ?].
  apply list.Forall_cons. rewrite Forall_app, list.Forall_cons in Hf. destruct Hf as (Hf & Hf' & _). split; [done|].
  by apply Forall_rev.
Qed.

(** One more digit in front of a loop's result. *)
Lemma digits_step base c ds v : 1 < base -> 0 <= v ->
  digit_val c = v mod base -> (c = ch_0 -> v mod base = 0) ->
  digits_ok base ds (v / base) -> (v / base = 0 -> ds = []) -> digits_ok base (c :: ds) v.
Proof.
  intros Hb Hv Hd Hc (Hn & Hf & Hl) Hz. split; [|split].
  - rewrite num_value_rev, Hn, Hd. pose proof (Z.div_mod v base ltac:(lia)). lia.
  - apply list.Forall_cons. split; [|done]. rewrite Hd. apply Z.mod_pos_bound. lia.
  - intros Hv0. destruct (decide (v / base = 0)) as [E|E].
    + rewrite (Hz E). exists [], c. split; [done|]. intros Ec. apply Hv0. specialize (Hc Ec).
      rewrite (Z.div_mod v base) by lia. by rewrite E, Hc, Z.mul_0_r.
    + destruct (Hl E) as (ds' & c' & -> & Hc'). by exists (c :: ds'), c'.
Qed.

Lemma dec_digits_spec room v : 0 <= v ->
  if decide (v < 10 ^ Z.of_nat room)
  then exists ds, dec_digits room v = Ret ds /\ digits_ok 10 ds v /\ (v = 0 -> ds = [])
  else dec_digits room v = Fault.
Proof.
  revert v; induction room as [|room IH]; intros v Hv; cbn [dec_digits].
  { change (10 ^ Z.of_nat 0) with 1. destruct (Z.eqb_spec v 0) as [->|]; case_decide; try lia; [|done].
    exists []. split; [done|]. split; [|done]. split; [done|]. split; [constructor | done]. }
  pose proof (Z.pow_pos_nonneg 10 (Z.of_nat (S room)) ltac:(lia) ltac:(lia)) as Hp.
  replace (10 ^ Z.of_nat (S room)) with (10 * 10 ^ Z.of_nat room) in * by (rewrite <- Z.pow_succ_r by lia; f_equal; lia).
  destruct (Z.eqb_spec v 0) as [->|Hv0].
  { rewrite decide_True by lia. exists []. split; [done|]. split; [|done]. split; [done|]. split; [constructor | done]. }
  specialize (IH (v / 10) ltac:(Z.div_mod_to_equations; lia)).
  destruct (decide (v / 10 < 10 ^ Z.of_nat room)) as [Hlt|Hge].
  - rewrite decide_True by (Z.div_mod_to_equations; lia). destruct IH as (ds & -> & Hds & Hz).
    eexists. split; [reflexivity|]. split; [|done]. apply digits_step; [lia|lia| | |exact Hds|exact Hz].
    + unfold digit_val, ch_0. pose proof (Z.mod_pos_bound v 10 ltac:(lia)). replace (v mod 10 + 48 <? 58) with true by lia. lia.
    + unfold ch_0. lia.
  - rewrite decide_False by (Z.div_mod_to_equations; lia). by rewrite IH.
Qed.

Lemma hex_digits_spec room v : 0 <= v ->
  if decide (v < 16 ^ Z.of_nat room)
  then exists ds, hex_digits room v = Ret ds /\ digits_ok 16 ds v /\ (v = 0 -> ds = [])
  else hex_digits room v = Fault.
Proof.
  revert v; induction room as [|room IH]; intros v Hv; cbn [hex_digits].
  { change (16 ^ Z.of_nat 0) with 1. destruct (Z.eqb_spec v 0) as [->|]; case_decide; try lia; [|done].
    exists []. split; [done|]. split; [|done]. split; [done|]. split; [constructor | done]. }
  pose proof (Z.pow_pos_nonneg 16 (Z.of_nat (S room)) ltac:(lia) ltac:(lia)) as Hp.
  replace (16 ^ Z.of_nat (S room)) with (16 * 16 ^ Z.of_nat room) in * by (rewrite <- Z.pow_succ_r by lia; f_equal; lia).
  destruct (Z.eqb_spec v 0) as [->|Hv0].
  { rewrite decide_True by lia. exists []. split; [done|]. split; [|done]. split; [done|]. split; [constructor | done]. }
  rewrite Z.shiftr_div_pow2 by lia. change (2 ^ 4) with 16.
  specialize (IH (v / 16) ltac:(Z.div_mod_to_equations; lia)).
  destruct (decide (v / 16 < 16 ^ Z.of_nat room)) as [Hlt|Hge].
  - rewrite decide_True by (Z.div_mod_to_equations; lia). destruct IH as (ds & -> & Hds & Hz).
    eexists. split; [reflexivity|]. split; [|done]. cbv zeta.
    replace (Z.land v 0xf) with (v mod 16) by (symmetry; exact (Z.land_ones v 4 ltac:(lia))).
    pose proof (Z.mod_pos_bound v 16 ltac:(lia)). unfold ch_A, ch_0.
    apply digits_step; [lia|lia| | |exact Hds|exact Hz]; destruct (Z.ltb_spec 9 (v mod 16)); rewrite uwrap_small by lia;
      unfold digit_val, ch_0, ch_A; try lia.
    + by replace (v mod 16 + (65 - 10) <? 58) with false by lia; lia.
    + by replace (v mod 16 + 48 <? 58) with true by lia; lia.
  - rewrite decide_False by (Z.div_mod_to_equations; lia). by rewrite IH.
Qed.

(** Characters are appended to the output. *)
Abbreviation emit := (fun c : Z => modify (fun out : list Z => out ++ [c])).

Lemma put_all_emit cs out : put_all emit cs out = Ret (tt, out ++ cs).
Proof.
  revert out; induction cs as [|c cs IH]; intros out; cbn [put_all]; [by rewrite app_nil_r|].
  unfold mbind, cmd_bind, modify. by rewrite IH, <- app_assoc.
Qed.

Lemma put_dec_emit v out : 0 <= v ->
  if decide (v < 10 ^ 16) then exists ds, put_dec emit v out = Ret (tt, out ++ ds) /\ numeral 10 ds v
  else put_dec emit v out = Fault.
Proof.
  intros Hv. unfold put_dec. destruct (Z.eqb_spec v 0) as [->|Hne].
  { rewrite decide_True by lia. exists [ch_0]. split; [done|]. split; [done|]. split; [done|]. split; [|done]. by repeat constructor. }
  pose proof (dec_digits_spec BUFFER_SIZE v Hv) as HD. change (Z.of_nat BUFFER_SIZE) with 16 in HD.
  unfold mbind, cmd_bind, lift. destruct (decide (v < 10 ^ 16)); [|by rewrite HD].
  destruct HD as (ds & -> & Hds & _). exists (rev ds). split; [apply put_all_emit | by apply digits_numeral].
Qed.

Lemma put_hex_emit v out : is_uint 64 v -> exists ds, put_hex emit v out = Ret (tt, out ++ ds) /\ numeral 16 ds v.
Proof.
  intros [Hv Hv2]. unfold put_hex. destruct (Z.eqb_spec v 0) as [->|Hne].
  { exists [ch_0]. split; [done|]. split; [done|]. split; [done|]. split; [|done]. by repeat constructor. }
  pose proof (hex_digits_spec BUFFER_SIZE v Hv) as HD. change (Z.of_nat BUFFER_SIZE) with 16 in HD.
  rewrite decide_True in HD by (change (16 ^ 16) with (2 ^ 64); lia). destruct HD as (ds & E & Hds & _).
  exists (rev ds). split; [|by apply digits_numeral]. unfold mbind, cmd_bind, lift. rewrite E. apply put_all_emit.
Qed.

Lemma printf_plain t rest d d2 out fuel : plain t ->
  printf_loop emit (length t + fuel) (t ++ rest) d d2 out = printf_loop emit fuel rest d d2 (out ++ crlf t).
Proof.
  intros Ht. revert out; induction Ht as [|c t Hc Ht IH]; intros out; [cbn; by rewrite app_nil_r|].
  cbn [length app Nat.add printf_loop]. rewrite (proj2 (Z.eqb_neq _ _) Hc). unfold crlf. cbn [flat_map]. fold (crlf t).
  unfold mbind, cmd_bind, modify. destruct (c =? ch_lf); cbn [mret cmd_ret]; rewrite IH; f_equal; rewrite <- ?app_assoc; done.
Qed.

Lemma printf_end q d d2 out fuel : plain q -> (length q <= fuel)%nat -> printf_loop emit fuel q d d2 out = Ret (PAL_SUCCESS, out ++ crlf q).
Proof.
  intros Hq Hf. pose proof (printf_plain q [] d d2 out (fuel - length q) Hq) as E.
  rewrite app_nil_r in E. replace (length q + (fuel - length q))%nat with fuel in E by lia. rewrite E.
  by destruct (fuel - length q)%nat.
Qed.

(** pal_printf of text with one %x, %lx or %Lx prints the text with carriage returns
    and the hexadecimal digits of the 64-bit argument; with %d it prints the decimal
    digits of an argument below 10^16 and overruns its 16-byte buffer for every
    other. *)
Theorem printf_number p long q (d1 d2 : Z) (out : list Z) :
  plain p -> plain q -> long ∈ [[]; [ch_l]; [ch_L]] -> is_uint 64 d1 ->
  (exists ds, numeral 16 ds d1 /\
     pal_printf emit (p ++ [ch_percent] ++ long ++ [ch_x] ++ q) d1 d2 out = Ret (PAL_SUCCESS, out ++ crlf p ++ ds ++ crlf q)) /\
  (if decide (d1 < 10 ^ 16) then
     exists ds, numeral 10 ds d1 /\
       pal_printf emit (p ++ [ch_percent] ++ long ++ [ch_d] ++ q) d1 d2 out = Ret (PAL_SUCCESS, out ++ crlf p ++ ds ++ crlf q)
   else pal_printf emit (p ++ [ch_percent] ++ long ++ [ch_d] ++ q) d1 d2 out = Fault).
Proof.
  intros Hp Hq Hl Hd.
  assert (HS : forall f put, (f = ch_x /\ put = put_hex (S := list Z) emit) \/ (f = ch_d /\ put = put_dec emit) ->
    pal_printf emit (p ++ [ch_percent] ++ long ++ [f] ++ q) d1 d2 out =
      (_ ← put d1; printf_loop emit (length long + S (length q)) q d2 d2) (out ++ crlf p)).
  { intros f put Hf. unfold pal_printf. rewrite length_app, printf_plain by done. set (o := out ++ crlf p). clearbody o.
    rewrite !elem_of_cons in Hl. destruct Hl as [-> | [-> | [-> | Hl]]]; [| | |by apply not_elem_of_nil in Hl];
      destruct Hf as [[-> ->] | [-> ->]]; reflexivity. }
  split.
  - destruct (put_hex_emit d1 (out ++ crlf p) Hd) as (ds & E & Hn). exists ds. split; [exact Hn|].
    rewrite (HS ch_x (put_hex emit)) by auto. rewrite (cmd_bind_eq _ _ _ _ _ E), printf_end by (done || lia).
    by rewrite <- !app_assoc.
  - pose proof (put_dec_emit d1 (out ++ crlf p) (proj1 Hd)) as HD. rewrite !(HS ch_d (put_dec emit)) by auto.
    destruct (decide (d1 < 10 ^ 16)).
    + destruct HD as (ds & E & Hn). exists ds. split; [exact Hn|].
      rewrite (cmd_bind_eq _ _ _ _ _ E), printf_end by (done || lia). by rewrite <- !app_assoc.
    + unfold mbind, cmd_bind. by rewrite HD.
Qed.

Lemma printf_number_witness :
  exists ds, numeral 10 ds 4095 /\ pal_printf emit ([84; 10] ++ [ch_percent] ++ [ch_l] ++ [ch_d] ++ []) 4095 0 [] =
    Ret (PAL_SUCCESS, [] ++ [84; 13; 10] ++ ds ++ []).
Proof.
  destruct (printf_number [84; 10] [ch_l] [] 4095 0 []) as [_ HD].
  - repeat constructor; discriminate.
  - constructor.
  - right. left.
  - vm_compute. split; congruence.
  - exact HD.
Defined.

(** A percent sign at the end: the scan goes on past the end of the string. *)
Theorem printf_percent_at_end {S} (putc : Z -> cmd S unit) d1 d2 s : pal_printf putc [ch_percent] d1 d2 s = Fault.
Proof. reflexivity. Qed.
