(* ===== verification/Event.v ===== *)
(** * Events between CPUs

    val_shemaphore.c on top of pal_spinlock.S: CPUs run lists of calls to
    [val_send_event], [val_send_event_to], [val_send_event_to_all] and
    [val_wait_for_event] on one event.  The shared state is the event; a step is one
    memory access or one [wfe]/[sev] of one CPU, so the steps of different CPUs
    interleave freely.  Memory is sequentially consistent: the barriers and the
    cache maintenance of the code are what makes it so and are no steps. *)

From S2P Require Import Prelude Machine.

(** ** State *)
Record event_t := { cnt : Z; lock : Z }.

Definition val_init_event (event : event_t) : event_t := {| cnt := 0; lock := 0 |}.

(** The calls a CPU makes; [Send inc] is [send_event_common]. *)
Inductive op := Send (inc : Z) | Wait.
Definition val_send_event : op := Send 1.
Definition val_send_event_to_all : op := Send val_get_no_of_cpus.
Definition val_send_event_to (cpus_count : Z) : op := Send cpus_count.
Definition val_wait_for_event : op := Wait.

(** Where a CPU is in the call: the next access it makes.  [Sevl], [SpinWfe],
    [Ldaxr], [Stxr] are [pal_spin_lock]; [Stlr] is [pal_spin_unlock]. *)
Inductive point :=
| Begin
| Sevl | SpinWfe | Ldaxr | Stxr
| SendLoad | SendStore
| WaitTest | WaitWfe | WaitCheck | WaitLoad | WaitStore
| Stlr | Sev.

#[export] Instance point_eq_dec : EqDecision point.
Proof. solve_decision. Defined.

(** A CPU: the calls left (the first is running), the register that holds the count,
    [event_received], the event register of [wfe], the exclusive monitor. *)
Record cpu := { ops : list op; pc : point; reg : Z; event_received : bool; evreg : bool; monitor : bool }.

Record world := { event : event_t; cpus : list cpu }.

Definition idle_cpu (l : list op) : cpu :=
  {| ops := l; pc := Begin; reg := 0; event_received := false; evreg := false; monitor := false |}.
Definition initial (e : event_t) (progs : list (list op)) : world :=
  {| event := val_init_event e; cpus := idle_cpu <$> progs |}.

(** ** Steps *)
Definition goto (p : point) (c : cpu) : cpu :=
  {| ops := ops c; pc := p; reg := reg c; event_received := event_received c; evreg := evreg c; monitor := monitor c |}.
Definition load_reg (v : Z) (p : point) (c : cpu) : cpu :=
  {| ops := ops c; pc := p; reg := v; event_received := event_received c; evreg := evreg c; monitor := monitor c |}.
Definition receive (b : bool) (p : point) (c : cpu) : cpu :=
  {| ops := ops c; pc := p; reg := reg c; event_received := b; evreg := evreg c; monitor := monitor c |}.
Definition set_ev (b : bool) (c : cpu) : cpu :=
  {| ops := ops c; pc := pc c; reg := reg c; event_received := event_received c; evreg := b; monitor := monitor c |}.
Definition set_mon (b : bool) (c : cpu) : cpu :=
  {| ops := ops c; pc := pc c; reg := reg c; event_received := event_received c; evreg := evreg c; monitor := b |}.
Definition return_call (c : cpu) : cpu :=
  {| ops := tail (ops c); pc := Begin; reg := reg c; event_received := event_received c; evreg := evreg c; monitor := monitor c |}.

(** A store to the lock by another CPU takes the reservation away, which is an event. *)
Definition lose (c : cpu) : cpu := set_mon false (set_ev (evreg c || monitor c) c).

(** CPU [i] becomes [c], the others change by [f], the event becomes [e]. *)
Definition put (w : world) (i : nat) (e : event_t) (f : cpu -> cpu) (c : cpu) : world :=
  {| event := e; cpus := <[i := c]> (f <$> cpus w) |}.

Definition set_lock (v : Z) (e : event_t) : event_t := {| cnt := cnt e; lock := v |}.
Definition set_cnt (v : Z) (e : event_t) : event_t := {| cnt := v; lock := lock e |}.

(** What a step contributes to the event. *)
Inductive action := Sent (inc : Z) | Taken.

(** [wfe]: goes on and clears the event register when that is set; with [ok] it may
    wake for no reason. *)
Definition wfe (ok : bool) (next : point) (c : cpu) : option cpu :=
  if evreg c || ok then Some (set_ev false (goto next c)) else None.

(** The step of CPU [i]; [ok] resolves what the architecture leaves open: whether a
    store-exclusive with a reservation succeeds, whether [wfe] wakes early. *)
Definition exec (i : nat) (ok : bool) (w : world) : option (world * list action) :=
  c ← cpus w !! i;
  o ← head (ops c);
  let e := event w in
  let stay c' := Some (put w i e id c', []) in
  match pc c, o with
  | Begin, Send _ => stay (goto Sevl c)
  | Begin, Wait => stay (receive false WaitTest c)
  | Sevl, _ => stay (set_ev true (goto SpinWfe c))
  | SpinWfe, _ => c' ← wfe ok Ldaxr c; stay c'
  | Ldaxr, _ => stay (set_mon true (goto (if lock e =? 0 then Stxr else SpinWfe) c))
  | Stxr, _ =>
      if monitor c && ok then
        Some (put w i (set_lock 1 e) lose
                (set_mon false (goto (match o with Send _ => SendLoad | Wait => WaitCheck end) c)), [])
      else stay (set_mon false (goto Ldaxr c))
  | SendLoad, Send _ => stay (load_reg (cnt e) SendStore c)
  | SendStore, Send inc => Some (put w i (set_cnt (u32 (reg c + inc)) e) id (goto Stlr c), [Sent inc])
  | WaitTest, Wait => stay (goto (if cnt e =? 0 then WaitWfe else Sevl) c)
  | WaitWfe, Wait => c' ← wfe ok WaitTest c; stay c'
  | WaitCheck, Wait => stay (if cnt e =? 0 then goto Stlr c else receive true WaitLoad c)
  | WaitLoad, Wait => stay (load_reg (cnt e) WaitStore c)
  | WaitStore, Wait => Some (put w i (set_cnt (u32 (reg c - 1)) e) id (goto Stlr c), [Taken])
  | Stlr, Send _ => Some (put w i (set_lock 0 e) lose (goto Sev c), [])
  | Stlr, Wait =>
      Some (put w i (set_lock 0 e) lose (if event_received c then return_call c else goto WaitTest c), [])
  | Sev, Send _ => Some (put w i e (set_ev true) (set_ev true (return_call c)), [])
  | _, _ => None
  end.

Inductive step : world -> list action -> world -> Prop :=
| step_cpu i ok w w' a : exec i ok w = Some (w', a) -> step w a w'.

(** Executions and what they contributed. *)
Inductive runs (w0 : world) : list action -> world -> Prop :=
| runs_start : runs w0 [] w0
| runs_step tr w a w' : runs w0 tr w -> step w a w' -> runs w0 (tr ++ a) w'.

(** A schedule: which CPU steps, and how. *)
Fixpoint schedule (l : list (nat * bool)) (w : world) : option (world * list action) :=
  match l with
  | [] => Some (w, [])
  | (i, ok) :: l' =>
      '(w', a) ← exec i ok w;
      '(w'', a') ← schedule l' w';
      Some (w'', a ++ a')
  end.

(** ** What is claimed of it *)

(** Inside the region the lock protects. *)
Definition critical (p : point) : bool :=
  match p with SendLoad | SendStore | WaitCheck | WaitLoad | WaitStore | Stlr => true | _ => false end.

(** The count has been raised and the [sev] is still to come. *)
Definition waking (c : cpu) : bool :=
  match ops c, pc c with Send _ :: _, (Stlr | Sev) => true | _, _ => false end.

(** Blocked in the [wfe] of [val_wait_for_event]. *)
Definition asleep (c : cpu) : bool :=
  match ops c, pc c with Wait :: _, WaitWfe => negb (evreg c) | _, _ => false end.

Fixpoint sent (tr : list action) : Z :=
  match tr with [] => 0 | Sent inc :: tr' => inc + sent tr' | Taken :: tr' => sent tr' end.
Fixpoint taken (tr : list action) : Z :=
  match tr with [] => 0 | Sent _ :: tr' => taken tr' | Taken :: tr' => 1 + taken tr' end.

(** The waits of a program, of all programs; those that have not returned; those that
    have their event and are about to return. *)
Fixpoint waits (l : list op) : Z :=
  match l with [] => 0 | Wait :: l' => 1 + waits l' | Send _ :: l' => waits l' end.
Definition total {A} (f : A -> Z) (l : list A) : Z := foldr (fun x n => f x + n) 0 l.
Definition waits_left (w : world) : Z := total (fun c => waits (ops c)) (cpus w).
Definition waits_returned (progs : list (list op)) (w : world) : Z := total waits progs - waits_left w.
Definition returning (c : cpu) : Z :=
  match ops c, pc c with Wait :: _, Stlr => if event_received c then 1 else 0 | _, _ => 0 end.

Definition well_sized (o : op) : Prop := match o with Send inc => is_uint 32 inc | Wait => True end.

(** ** An example *)

(** A schedule of two CPUs, one waiting and one sending, up to the wait's return. *)
Definition demo_progs : list (list op) := [[val_send_event]; [val_wait_for_event]].
Definition demo_event : event_t := {| cnt := 7; lock := 7 |}.
Definition to_sleep : list (nat * bool) := repeat (1%nat, true) 2.
Definition sending : list (nat * bool) := repeat (0%nat, true) 7.
Definition finishing : list (nat * bool) := repeat (0%nat, true) 2 ++ repeat (1%nat, true) 10.
Definition reached (l : list (nat * bool)) : world * list action :=
  default (initial demo_event demo_progs, []) (schedule l (initial demo_event demo_progs)).

