(* ===== verification/EventProof.v ===== *)
(** * Correctness of the events

    An invariant of the interleaved executions of Event.v, proved by induction on the
    execution, and what follows from it: one CPU at a time in the locked region, no
    update of the count lost, no wake-up lost, no deadlock. *)

From S2P Require Import Prelude Machine Event.

(** ** The invariant *)
Definition typed (o : option op) (p : point) : bool :=
  match p, o with
  | Begin, _ => true
  | (Sevl | SpinWfe | Ldaxr | Stxr | Stlr), Some _ => true
  | (SendLoad | SendStore | Sev), Some (Send _) => true
  | (WaitTest | WaitWfe | WaitCheck | WaitLoad | WaitStore), Some Wait => true
  | _, _ => false
  end.

(** What a CPU relies on, of the event [e]. *)
Record local (e : event_t) (c : cpu) : Prop := {
  l_typed : typed (head (ops c)) (pc c) = true;
  l_sized : Forall well_sized (ops c);
  l_crit : critical (pc c) = true -> lock e = 1;
  l_stxr : pc c = Stxr -> monitor c = true -> lock e = 0;
  l_wfe : pc c = SpinWfe -> evreg c = false -> lock e = 1 /\ monitor c = true;
  l_reg : pc c = SendStore \/ pc c = WaitStore -> reg c = cnt e;
  l_pos : pc c = WaitLoad \/ pc c = WaitStore -> 0 < cnt e
}.

Record inv (w : world) : Prop := {
  i_local : forall i c, cpus w !! i = Some c -> local (event w) c;
  i_excl : forall i j c d, cpus w !! i = Some c -> cpus w !! j = Some d ->
    critical (pc c) = true -> critical (pc d) = true -> i = j;
  i_held : lock (event w) = 1 -> exists i c, cpus w !! i = Some c /\ critical (pc c) = true;
  i_lock : lock (event w) = 0 \/ lock (event w) = 1;
  i_cnt : is_uint 32 (cnt (event w));
  i_wake : forall i c, cpus w !! i = Some c -> asleep c = true ->
    cnt (event w) = 0 \/ exists j d, cpus w !! j = Some d /\ waking d = true
}.

(** The functions the other CPUs change by touch the monitor and the event register only. *)
Record bystander (f : cpu -> cpu) : Prop := {
  b_ops : forall d, ops (f d) = ops d;
  b_pc : forall d, pc (f d) = pc d;
  b_reg : forall d, reg (f d) = reg d;
  b_ev : forall d, evreg d = true -> evreg (f d) = true
}.

Lemma bystander_id : bystander id.
Proof. by split. Qed.
Lemma bystander_lose : bystander lose.
Proof. split; try done. intros d E. cbn. by rewrite E. Qed.
Lemma bystander_ev : bystander (set_ev true).
Proof. by split. Qed.
#[local] Hint Resolve bystander_id bystander_lose bystander_ev : core.

Lemma put_lookup w i e f c c' j d :
  cpus w !! i = Some c -> cpus (put w i e f c') !! j = Some d ->
  (j = i /\ d = c') \/ (j <> i /\ exists d0, cpus w !! j = Some d0 /\ d = f d0).
Proof.
  intros Hi. cbn. destruct (decide (j = i)) as [->|Hj].
  - rewrite list_lookup_insert_eq; [by intros [= ->]; left|].
    rewrite length_fmap. by eapply lookup_lt_Some.
  - rewrite list_lookup_insert_ne by done. rewrite list_lookup_fmap.
    destruct (cpus w !! j) as [d0|]; intros [= <-]; right; eauto.
Qed.

Lemma put_lookup_self w i e f c c' : cpus w !! i = Some c -> cpus (put w i e f c') !! i = Some c'.
Proof. intros Hi. cbn. apply list_lookup_insert_eq. rewrite length_fmap. by eapply lookup_lt_Some. Qed.

Lemma put_lookup_other w i e f c' j d : j <> i -> cpus w !! j = Some d -> cpus (put w i e f c') !! j = Some (f d).
Proof. intros Hj E. cbn. rewrite list_lookup_insert_ne by done. by rewrite list_lookup_fmap, E. Qed.

Lemma waking_bystander f d : bystander f -> waking (f d) = waking d.
Proof. intros [Ho Hp _ _]. unfold waking. by rewrite Ho, Hp. Qed.
Lemma asleep_bystander f d : bystander f -> asleep (f d) = true -> asleep d = true.
Proof.
  intros [Ho Hp _ He]. unfold asleep. rewrite Ho, Hp. destruct (ops d) as [|[n|] l]; try done. destruct (pc d); try done.
  specialize (He d). destruct (evreg d); [by rewrite He | done].
Qed.

(** A step of CPU [i] keeps the invariant when what it does to the lock, to the count
    and to the sleepers is accounted for. *)
Lemma put_inv w i c e f c' :
  inv w -> cpus w !! i = Some c -> bystander f -> local e c' ->
  (forall j d, j <> i -> cpus w !! j = Some d -> (critical (pc c) = true -> critical (pc d) = false) ->
     local (event w) d -> local e (f d)) ->
  (critical (pc c') = true -> critical (pc c) = true \/ lock (event w) = 0) ->
  (lock e = 1 -> critical (pc c') = true \/ (lock (event w) = 1 /\ critical (pc c) = false)) ->
  lock e = 0 \/ lock e = 1 -> is_uint 32 (cnt e) ->
  (asleep c' = true -> cnt e = 0) ->
  cnt e = 0 \/ waking c' = true \/ (forall d, asleep (f d) = false) \/ ((cnt (event w) = 0 -> cnt e = 0) /\ waking c = false) ->
  inv (put w i e f c').
Proof.
  intros Hw Hi Hf Hc' Hothers Hin Hheld Hlock Hcnt Hsleep Hwake.
  assert (Hne : forall j d, j <> i -> cpus w !! j = Some d -> critical (pc c) = true -> critical (pc d) = false).
  { intros j d Hj Hd Hcr. apply not_true_is_false. intros Hd'. apply Hj. symmetry. by eapply (i_excl _ Hw). }
  split; [| | | done | done |].
  - intros j d E. destruct (put_lookup _ _ _ _ _ _ _ _ Hi E) as [[-> ->]|(Hj & d0 & E0 & ->)]; [done|].
    apply (Hothers j); eauto. by eapply (i_local _ Hw).
  - assert (Hout : forall j d0, j <> i -> cpus w !! j = Some d0 -> critical (pc d0) = true -> critical (pc c') = true -> False).
    { intros j d0 Hj E0 Hcr Hcr'. destruct (Hin Hcr') as [Hc|Hl]; [by rewrite (Hne j d0) in Hcr|].
      pose proof (l_crit _ _ (i_local _ Hw _ _ E0) Hcr). lia. }
    intros j k d1 d2 E1 E2 C1 C2.
    destruct (put_lookup _ _ _ _ _ _ _ _ Hi E1) as [[-> ->]|(Hj & a & Ea & ->)],
             (put_lookup _ _ _ _ _ _ _ _ Hi E2) as [[-> ->]|(Hk & b & Eb & ->)]; [done| | |].
    + rewrite (b_pc _ Hf) in C2. by destruct (Hout k b).
    + rewrite (b_pc _ Hf) in C1. by destruct (Hout j a).
    + rewrite (b_pc _ Hf) in C1, C2. by eapply (i_excl _ Hw).
  - intros Hl. destruct (Hheld Hl) as [Hcr|[Hl0 Hcr]].
    + exists i, c'. split; [by eapply put_lookup_self | done].
    + destruct (i_held _ Hw Hl0) as (j & d & E & Hd). exists j, (f d).
      rewrite (b_pc _ Hf). split; [|done]. apply put_lookup_other; [|done]. intros ->. congruence.
  - intros j d E Hd. destruct (put_lookup _ _ _ _ _ _ _ _ Hi E) as [[-> ->]|(Hj & d0 & E0 & ->)]; [by left; apply Hsleep|].
    destruct Hwake as [H0|[Hc|[Hs|[H0 Hc]]]]; [by left | | by rewrite Hs in Hd |].
    + right. exists i, c'. split; [by eapply put_lookup_self | done].
    + destruct (i_wake _ Hw j d0 E0 (asleep_bystander _ _ Hf Hd)) as [Hz|(k & d & Ek & Hk)]; [by left; apply H0|].
      right. exists k, (f d). rewrite waking_bystander by done. split; [|done].
      apply put_lookup_other; [|done]. intros ->. congruence.
Qed.

(** ** The four kinds of step *)

Lemma stay_inv w i c c' :
  inv w -> cpus w !! i = Some c -> local (event w) c' -> critical (pc c') = critical (pc c) ->
  (asleep c' = true -> cnt (event w) = 0) -> waking c = false -> inv (put w i (event w) id c').
Proof.
  intros Hw Hi Hc Hcr Hs Hk. apply put_inv with (c := c); try done; try apply Hw.
  - rewrite Hcr. auto.
  - intros Hl. destruct (critical (pc c)) eqn:E; [left; congruence | by right].
  - by right; right; right.
Qed.

Lemma lock_taken_inv w i c c' :
  inv w -> cpus w !! i = Some c -> lock (event w) = 0 -> local (set_lock 1 (event w)) c' -> critical (pc c') = true ->
  asleep c' = false -> waking c = false -> inv (put w i (set_lock 1 (event w)) lose c').
Proof.
  intros Hw Hi H0 Hc Hcr Hs Hk. apply put_inv with (c := c); try done; try apply Hw; auto.
  - intros j d Hj Hd _ [Ht Hz Hl Hx Hf Hr Hp]. split; auto.
    + done.
    + cbn. intros Hpc He. destruct (evreg d) eqn:E1; [done|]. destruct (Hf Hpc eq_refl). lia.
  - congruence.
Qed.

Lemma lock_left_inv w i c c' :
  inv w -> cpus w !! i = Some c -> critical (pc c) = true -> local (set_lock 0 (event w)) c' -> critical (pc c') = false ->
  asleep c' = false -> waking c' = waking c -> inv (put w i (set_lock 0 (event w)) lose c').
Proof.
  intros Hw Hi H0 Hc Hcr Hs Hk. apply put_inv with (c := c); try done; try apply Hw; auto.
  - intros j d Hj Hd Hn [Ht Hz Hl Hx Hf Hr Hp]. specialize (Hn H0). split; auto.
    + cbn. rewrite Hn. done.
    + cbn. intros Hpc He. destruct (evreg d) eqn:E1; [done|]. destruct (Hf Hpc eq_refl) as [_ Hm]. by rewrite Hm in He.
  - congruence.
  - rewrite Hk. destruct (waking c) eqn:E; auto 6.
Qed.

Lemma count_inv w i c c' v :
  inv w -> cpus w !! i = Some c -> critical (pc c) = true -> critical (pc c') = true -> is_uint 32 v ->
  local (set_cnt v (event w)) c' -> asleep c' = false -> (waking c' = true \/ (0 < cnt (event w) /\ waking c = false)) ->
  inv (put w i (set_cnt v (event w)) id c').
Proof.
  intros Hw Hi Hcr Hcr' Hv Hc Hs Hk. apply put_inv with (c := c); try done; try apply Hw; auto.
  - intros j d Hj Hd Hn [Ht Hz Hl Hx Hf Hr Hp]. specialize (Hn Hcr). split; try done.
    + intros [E|E]; change (pc d = SendStore) in E || change (pc d = WaitStore) in E; by rewrite E in Hn.
    + intros [E|E]; change (pc d = WaitLoad) in E || change (pc d = WaitStore) in E; by rewrite E in Hn.
  - congruence.
  - destruct Hk as [Hk|[H0 Hk]]; [by right; left|]. do 3 right. split; [lia | done].
Qed.

Lemma sev_inv w i c c' :
  inv w -> cpus w !! i = Some c -> critical (pc c) = false -> critical (pc c') = false -> local (event w) c' ->
  asleep c' = false -> inv (put w i (event w) (set_ev true) c').
Proof.
  intros Hw Hi Hcr Hcr' Hc Hs. apply put_inv with (c := c); try done; try apply Hw; auto.
  - intros j d Hj Hd _ [Ht Hz Hl Hx Hf Hr Hp]. by split.
  - congruence.
  - congruence.
  - right; right; left. intros d. unfold asleep. cbn. destruct (ops d) as [|[]]; try done. by destruct (pc d).
Qed.

Lemma initial_inv e progs : Forall (Forall well_sized) progs -> inv (initial e progs).
Proof.
  intros Hp.
  assert (Hb : forall i c, cpus (initial e progs) !! i = Some c -> exists l, c = idle_cpu l /\ Forall well_sized l).
  { cbn. intros i c. rewrite list_lookup_fmap. destruct (progs !! i) as [l|] eqn:E; intros [= <-].
    exists l. split; [done|]. by eapply Forall_lookup_1. }
  split; cbn; try lia; try done.
  - intros i c E. destruct (Hb i c E) as (l & -> & Hl). by split; try (intros [|]).
  - intros i j c d E _ Hc. destruct (Hb i c E) as (l & -> & Hl). done.
Qed.

(** ** Every step keeps the invariant *)

Ltac local_tac :=
  split; cbn; try done;
  try match goal with H : Forall _ (_ :: ?l) |- Forall _ ?l => by inversion H end;
  try (by intros [|]); try (intros; ulia); try (intros [E|E]; ulia); auto.

(** The side conditions of the step lemmas. *)
Ltac side := first [done | intros; lia | match goal with o : op |- _ => by destruct o end | by left | right; split; [by match goal with H : _ -> 0 < _ |- _ => apply H; auto end | done]
  | match goal with l : list op |- _ => by destruct l as [|[]] end].

Lemma exec_inv i ok w w' a : inv w -> exec i ok w = Some (w', a) -> inv w'.
Proof.
  intros Hw. unfold exec. destruct (cpus w !! i) as [c|] eqn:Hi; [|done]. cbn [mbind option_bind].
  pose proof (i_local _ Hw _ _ Hi) as [Ht Hz Hl Hx Hf Hr Hp]. pose proof (i_cnt _ Hw) as Hcnt. pose proof (i_lock _ Hw) as Hlk.
  destruct c as [[|o l] p r g ev mon]; [done|]. cbn in * |-. cbn [list.head ops pc mbind option_bind].
  destruct p; [destruct o| | | | |destruct o ..]; try (discriminate Ht); cbn.
  all: unfold wfe; cbn; repeat match goal with
    |- context [if ?b then _ else _] => destruct b eqn:?; cbn
  end; try done.
  all: intros [= <- <-]; cbn in *.
  all: try (solve [eapply stay_inv; [done | exact Hi | local_tac | side ..]]).
  all: try (solve [eapply lock_taken_inv; [done | exact Hi | apply Hx; [done | by destruct mon] | local_tac | side ..]]).
  all: try (solve [eapply count_inv; [done | exact Hi | done | done | by apply uwrap_is_uint | local_tac | done | side]]).
  all: try (solve [eapply lock_left_inv; [done | exact Hi | done | local_tac | side ..]]).
  all: try (solve [eapply sev_inv; [done | exact Hi | done | done | local_tac | side]]).
Qed.

Lemma runs_inv w0 tr w : inv w0 -> runs w0 tr w -> inv w.
Proof. intros H0. induction 1 as [|tr w a w' _ IH Hs]; [done|]. destruct Hs. by eapply exec_inv. Qed.

(** ** What a step contributes *)
Definition balance (a : list action) : Z := sent a - taken a.

Lemma sent_app a b : sent (a ++ b) = sent a + sent b.
Proof. induction a as [|[]]; cbn; lia. Qed.
Lemma taken_app a b : taken (a ++ b) = taken a + taken b.
Proof. induction a as [|[]]; cbn; lia. Qed.

(** A step adds to the count what it says it sent and takes one away when it says it
    took one; it never takes from an empty count. *)
Lemma exec_count i ok w w' a :
  inv w -> exec i ok w = Some (w', a) ->
  cnt (event w') = u32 (cnt (event w) + balance a) /\ 0 <= sent a /\ (0 < taken a -> taken a = 1 /\ 0 < cnt (event w)) /\ 0 <= taken a.
Proof.
  intros Hw. unfold exec. destruct (cpus w !! i) as [c|] eqn:Hi; [|done]. cbn [mbind option_bind].
  pose proof (i_local _ Hw _ _ Hi) as [Ht Hz Hl Hx Hf Hr Hp]. pose proof (i_cnt _ Hw) as Hcnt.
  destruct c as [[|o l] p r g ev mon]; [done|]. cbn in * |-. cbn [list.head ops pc mbind option_bind].
  assert (Hstay : cnt (event w) = u32 (cnt (event w) + 0)) by (rewrite Z.add_0_r; symmetry; by apply uwrap_small).
  apply list.Forall_cons in Hz as [Ho _].
  destruct p; [destruct o| | | | |destruct o ..]; try (discriminate Ht); cbn.
  all: unfold wfe; cbn; repeat match goal with |- context [if ?b then _ else _] => destruct b; cbn end; try done.
  all: intros [= <- <-]; cbn in *; try (split; [done | lia]).
  - rewrite Hr by auto. unfold is_uint in Ho. split; [unfold balance; cbn; f_equal; lia | lia].
  - rewrite Hr by auto. split; [unfold balance; cbn; f_equal; lia|]. split; [lia|]. split; [intros _; split; [done | by apply Hp; auto] | lia].
Qed.

Lemma runs_app w0 tr w a w' : runs w0 tr w -> runs w a w' -> runs w0 (tr ++ a) w'.
Proof.
  intros H0. induction 1 as [|a w1 b w2 _ IH Hs]; [by rewrite app_nil_r|].
  rewrite app_assoc. by eapply runs_step.
Qed.

Lemma schedule_runs l w w' a : schedule l w = Some (w', a) -> runs w a w'.
Proof.
  revert w a. induction l as [|[i ok] l IH]; cbn; intros w a; [intros [= <- <-]; constructor|].
  destruct (exec i ok w) as [[w1 a1]|] eqn:E1; [|done]. cbn.
  destruct (schedule l w1) as [[w2 a2]|] eqn:E2; [|done]. intros [= <- <-].
  apply runs_app with w1; [|by apply IH]. apply (runs_step _ [] w); [constructor | by econstructor].
Qed.

(** The count through an execution: exact while the sum fits 32 bits. *)
Lemma runs_count e progs tr w :
  Forall (Forall well_sized) progs -> runs (initial e progs) tr w ->
  cnt (event w) = u32 (sent tr - taken tr) /\ 0 <= taken tr /\ 0 <= sent tr /\ (sent tr < 2 ^ 32 -> taken tr <= sent tr).
Proof.
  intros Hp. pose proof (initial_inv e progs Hp) as H0. induction 1 as [|tr w a w' Hr IH Hs]; [by cbn|].
  destruct Hs as [i ok w w' a E]. pose proof (runs_inv _ _ _ H0 Hr) as Hw.
  destruct (exec_count _ _ _ _ _ Hw E) as (Hc & Hs & Ht & Ht0). destruct IH as (IHc & IHt & IHs & IHle).
  rewrite sent_app, taken_app. unfold balance in Hc.
  assert (Hle : sent tr + sent a < 2 ^ 32 -> taken tr + taken a <= sent tr + sent a).
  { intros Hb. specialize (IHle ltac:(lia)). destruct (decide (0 < taken a)) as [Hpos|]; [|lia].
    destruct (Ht Hpos) as [-> Hcnt]. rewrite IHc, uwrap_small in Hcnt by lia. lia. }
  split; [|lia]. rewrite Hc, IHc. unfold uwrap. rewrite Zplus_mod_idemp_l. f_equal. lia.
Qed.

(** ** Which waits have taken an event *)

(** [event_received] is what the program counter says it is, until the lock is released. *)
Definition received (c : cpu) : Prop :=
  head (ops c) = Some Wait -> pc c <> Begin -> pc c <> Stlr ->
  event_received c = match pc c with WaitLoad | WaitStore => true | _ => false end.

Lemma total_insert {A} (f : A -> Z) (h : A -> A) l i c c' : l !! i = Some c -> (forall d, f (h d) = f d) ->
  total f (<[i := c']> (h <$> l)) = total f l - f c + f c'.
Proof.
  intros E Hh. assert (Hmap : total f (h <$> l) = total f l).
  { clear E. induction l as [|d l IH]; [done|]. change (f (h d) + total f (h <$> l) = f d + total f l). by rewrite Hh, IH. }
  rewrite <- Hmap. assert (E' : (h <$> l) !! i = Some (h c)) by (by rewrite list_lookup_fmap, E). rewrite <- (Hh c). clear E Hmap.
  revert i E'. generalize (h <$> l) as k. induction k as [|d k IH]; intros [|i] E'; try done.
  - injection E' as ->. change (f c' + total f k = f (h c) + total f k - f (h c) + f c'). lia.
  - change (f d + total f (<[i := c']> k) = f d + total f k - f (h c) + f c'). rewrite (IH i E'). lia.
Qed.

(** A step takes an event exactly when a wait gets to the point where it returns. *)
Lemma exec_receive i ok w w' a :
  inv w -> (forall j d, cpus w !! j = Some d -> received d) -> exec i ok w = Some (w', a) ->
  exists c c' f, cpus w !! i = Some c /\ w' = put w i (event w') f c' /\ received c' /\
    (forall d, ops (f d) = ops d /\ pc (f d) = pc d /\ event_received (f d) = event_received d) /\
    taken a = waits (ops c) - waits (ops c') + returning c' - returning c.
Proof.
  intros Hw Hrec. unfold exec. destruct (cpus w !! i) as [c|] eqn:Hi; [|done]. cbn [mbind option_bind].
  pose proof (l_typed _ _ (i_local _ Hw _ _ Hi)) as Ht. pose proof (Hrec _ _ Hi) as Hr. unfold received, returning in *.
  destruct c as [[|o l] p r g ev mon]; [done|]. cbn in * |-. cbn [list.head ops pc mbind option_bind].
  destruct p; destruct o; try (discriminate Ht); cbn; unfold wfe; cbn.
  all: repeat match goal with |- context [if ?b then _ else _] => destruct b eqn:?; cbn end; try done.
  all: intros [= <- <-]; do 3 eexists; (split; [reflexivity|]); (split; [reflexivity|]); split_and!; cbn; try done; try lia;
    try (intros _ _ _; by apply Hr).
  all: try (destruct g; [|try lia]; try lia; by specialize (Hr eq_refl ltac:(done) ltac:(done))).
  all: try (by destruct l as [|[] ?]); try (destruct l as [|[] ?]; cbn; lia).
Qed.

Lemma runs_received e progs tr w :
  Forall (Forall well_sized) progs -> runs (initial e progs) tr w ->
  (forall j d, cpus w !! j = Some d -> received d) /\ taken tr = waits_returned progs w + total returning (cpus w).
Proof.
  intros Hp. pose proof (initial_inv e progs Hp) as H0. induction 1 as [|tr w a w' Hr [IH1 IH2] Hs].
  - split.
    + cbn. intros j d. rewrite list_lookup_fmap. by destruct (progs !! j); intros [= <-].
    + unfold waits_returned, waits_left. cbn [initial cpus taken].
      assert (E : forall ps, total (fun c => waits (ops c)) (idle_cpu <$> ps) = total waits ps /\ total returning (idle_cpu <$> ps) = 0).
      { induction ps as [|l ls [IHa IHb]]; [done|].
        change (waits l + total (fun c => waits (ops c)) (idle_cpu <$> ls) = waits l + total waits ls /\
                returning (idle_cpu l) + total returning (idle_cpu <$> ls) = 0).
        rewrite IHa, IHb. split; [done|]. by destruct l as [|[]]. }
      destruct (E progs) as [-> ->]. lia.
  - destruct Hs as [i ok w w' a E].
    destruct (exec_receive _ _ _ _ _ (runs_inv _ _ _ H0 Hr) IH1 E) as (c & c' & f & Hc & Hw' & Hc' & Hf & Ht). split.
    + rewrite Hw'. intros j d Hd. destruct (put_lookup _ _ _ _ _ _ _ _ Hc Hd) as [[-> ->]|(_ & d0 & Hd0 & ->)]; [done|].
      destruct (Hf d0) as (E1 & E2 & E3). unfold received. rewrite E1, E2, E3. exact (IH1 _ _ Hd0).
    + rewrite taken_app, IH2, Ht. unfold waits_returned, waits_left. rewrite Hw'. cbn [put cpus].
      rewrite !(total_insert _ _ _ _ _ _ Hc); [lia | |]; intros d; destruct (Hf d) as (E1 & E2 & E3); unfold returning; by rewrite ?E1, ?E2, ?E3.
Qed.

Lemma returning_pos cs : 0 <= total returning cs.
Proof.
  induction cs as [|c cs IH]; [done|]. cbn. unfold total in IH.
  assert (0 <= returning c); [|lia]. unfold returning. destruct (ops c) as [|[]]; try lia. destruct (pc c); try lia. destruct (event_received c); lia.
Qed.

(** What a CPU waits for when it cannot step. *)
Lemma blocked i c w :
  inv w -> cpus w !! i = Some c -> exec i false w = None ->
  ops c = [] \/ asleep c = true \/ (pc c = SpinWfe /\ lock (event w) = 1).
Proof.
  intros Hw Hi. unfold exec. rewrite Hi. cbn [mbind option_bind].
  pose proof (i_local _ Hw _ _ Hi) as [Ht _ _ _ Hf _ _].
  destruct c as [[|o l] p r g ev mon]; [by left|]. cbn in * |-. cbn [list.head ops pc mbind option_bind].
  destruct p; [destruct o| | | | |destruct o ..]; try (discriminate Ht); cbn; unfold wfe; cbn; try done.
  - destruct ev; cbn; [done|]. intros _. right; right. split; [done | by apply Hf].
  - rewrite andb_false_r. done.
  - destruct ev; cbn; [done|]. auto.
Qed.

Lemma critical_unblocked i c w : inv w -> cpus w !! i = Some c -> critical (pc c) = true -> exec i false w <> None.
Proof.
  intros Hw Hi Hc E. destruct (i_local _ Hw _ _ Hi) as [Ht _ _ _ _ _ _].
  destruct (blocked _ _ _ Hw Hi E) as [Ho|[Ha|[Ho _]]]; [| |by rewrite Ho in Hc].
  - rewrite Ho in Ht. by destruct (pc c).
  - unfold asleep in Ha. destruct (ops c) as [|[]]; try done. by destruct (pc c).
Qed.

Lemma waking_unblocked i c w : inv w -> cpus w !! i = Some c -> waking c = true -> exec i false w <> None.
Proof.
  intros Hw Hi Hk E. destruct (blocked _ _ _ Hw Hi E) as [Ho|[Ha|[Ho _]]]; unfold waking, asleep in *;
    destruct (ops c) as [|[]]; try done; by destruct (pc c).
Qed.

(** ** The properties *)

(** Claim C24: In every interleaving of CPUs that send to and wait for an event, at
    most one CPU is between pal_spin_lock and pal_spin_unlock, and then the lock
    word is 1. *)
Theorem one_cpu_in_critical e progs tr w i j c d :
  Forall (Forall well_sized) progs -> runs (initial e progs) tr w ->
  cpus w !! i = Some c -> cpus w !! j = Some d -> critical (pc c) = true -> critical (pc d) = true ->
  i = j /\ lock (event w) = 1.
Proof.
  intros Hp Hr Hi Hj Hc Hd. pose proof (runs_inv _ _ _ (initial_inv e _ Hp) Hr) as Hw.
  split; [by eapply (i_excl _ Hw) | by eapply (l_crit _ _ (i_local _ Hw _ _ Hi))].
Qed.

(** Claim C23: In every interleaving of CPUs that send to and wait for an event, on
    sequentially consistent memory, the count of the event is what was sent less
    what was received, modulo 2^32; every wait that has returned has received one
    event of its own: the number received is the number of waits that have returned
    and of those that have taken their event and are on the way out. As long as less
    than 2^32 was sent no more is received than was sent and the count is exact. *)
Theorem events_conserved e progs tr w :
  Forall (Forall well_sized) progs -> runs (initial e progs) tr w ->
  cnt (event w) = u32 (sent tr - taken tr) /\
  taken tr = waits_returned progs w + total returning (cpus w) /\ waits_returned progs w <= taken tr /\
  (sent tr < 2 ^ 32 -> taken tr <= sent tr /\ cnt (event w) = sent tr - taken tr).
Proof.
  intros Hp Hr. destruct (runs_count _ _ _ _ Hp Hr) as (Hc & Ht & Hs & Hle). destruct (runs_received _ _ _ _ Hp Hr) as [_ Hrec].
  pose proof (returning_pos (cpus w)). split_and!; [done | done | lia |].
  intros Hb. specialize (Hle Hb). split; [done|]. rewrite Hc. apply uwrap_small. lia.
Qed.

(** Claim C22: In every reachable state, when a CPU sleeps in the wfe of
    val_wait_for_event while the count is not zero, another CPU is on its way to the
    sev that wakes it and can step; and when no CPU can step at all, every CPU has
    finished or sleeps on an event whose count is zero. *)
Theorem no_event_missed e progs tr w :
  Forall (Forall well_sized) progs -> runs (initial e progs) tr w ->
  (forall i c, cpus w !! i = Some c -> asleep c = true -> cnt (event w) <> 0 ->
     exists j d, cpus w !! j = Some d /\ waking d = true /\ exec j false w <> None) /\
  ((forall i, exec i false w = None) ->
     forall i c, cpus w !! i = Some c -> ops c = [] \/ (asleep c = true /\ cnt (event w) = 0)).
Proof.
  intros Hp Hr. pose proof (runs_inv _ _ _ (initial_inv e _ Hp) Hr) as Hw.
  split; [|intros Hstuck]; intros i c Hi.
  - intros Ha H0. destruct (i_wake _ Hw i c Hi Ha) as [?|(j & d & Hj & Hd)]; [done|].
    exists j, d. split_and!; [done | done | by eapply waking_unblocked].
  - destruct (blocked i c w Hw Hi (Hstuck i)) as [Ho|[Ha|[_ Hl]]]; [by left | |].
    + right. split; [done|]. destruct (i_wake _ Hw i c Hi Ha) as [?|(j & d & Hj & Hd)]; [done|].
      by destruct (waking_unblocked j d w Hw Hj Hd (Hstuck j)).
    + destruct (i_held _ Hw Hl) as (j & d & Hj & Hd). by destruct (critical_unblocked j d w Hw Hj Hd (Hstuck j)).
Qed.

(** ** Witnesses *)

Lemma demo_sized : Forall (Forall well_sized) demo_progs.
Proof. repeat constructor; cbn; unfold is_uint; lia. Qed.

(** Half-way: CPU 0 has raised the count and holds the lock, CPU 1 sleeps. *)
Definition halfway : world * list action := Eval vm_compute in reached (to_sleep ++ sending).
Lemma halfway_runs : runs (initial demo_event demo_progs) halfway.2 halfway.1.
Proof. apply (schedule_runs (to_sleep ++ sending)). by vm_compute. Qed.
(** The wait has returned. *)
Definition finished : world * list action := Eval vm_compute in reached (to_sleep ++ sending ++ finishing).
Lemma finished_runs : runs (initial demo_event demo_progs) finished.2 finished.1.
Proof. apply (schedule_runs (to_sleep ++ sending ++ finishing)). by vm_compute. Qed.

Lemma one_cpu_in_critical_witness :
  exists c, cpus halfway.1 !! 0%nat = Some c /\ 0%nat = 0%nat /\ lock (event halfway.1) = 1.
Proof.
  eexists. split; [reflexivity|].
  eapply (one_cpu_in_critical demo_event demo_progs _ _ 0 0 _ _ demo_sized halfway_runs); reflexivity.
Defined.

Lemma events_conserved_witness :
  finished.2 = [Sent 1; Taken] /\ waits_returned demo_progs finished.1 = 1 /\
  (sent finished.2 < 2 ^ 32 -> taken finished.2 <= sent finished.2 /\ cnt (event finished.1) = sent finished.2 - taken finished.2).
Proof.
  split; [reflexivity|]. split; [reflexivity|].
  exact (proj2 (proj2 (proj2 (events_conserved _ _ _ _ demo_sized finished_runs)))).
Defined.

Lemma no_event_missed_witness :
  exists j d, cpus halfway.1 !! j = Some d /\ waking d = true /\ exec j false halfway.1 <> None.
Proof. eapply (proj1 (no_event_missed _ _ _ _ demo_sized halfway_runs) 1%nat); [reflexivity | reflexivity | discriminate]. Defined.
