(* ===== verification/CMem.v ===== *)
(** * Byte-addressed memory

    The C code of the repository works on one flat address space: the heap
    buffer of [val_malloc.c], the CRB window of the TPM service, the RX/TX
    buffers and the translation tables are all reached through pointers.  Memory
    is a finite map from addresses to bytes; an address never written reads 0,
    as [.bss] does.  Multi-byte accesses are little-endian (AArch64).

    The file also translates [platform/.../pal_mmio.c]: on the target an MMIO
    access is a plain volatile load or store of that width. *)

From S2P Require Import Prelude.

Abbreviation mem := (gmap Z Z).

Definition ld8 (m : mem) (a : Z) : Z := uwrap 8 (default 0 (m !! a)).
Definition st8 (m : mem) (a v : Z) : mem := <[a := uwrap 8 v]> m.

Fixpoint ldn (n : nat) (m : mem) (a : Z) : Z :=
  match n with
  | O => 0
  | S n' => ld8 m a + 256 * ldn n' m (a + 1)
  end.

Fixpoint stn (n : nat) (m : mem) (a v : Z) : mem :=
  match n with
  | O => m
  | S n' => stn n' (st8 m a v) (a + 1) (v / 256)
  end.

(** ** MMIO accessors ([pal_mmio.c]) *)
Module Mmio.
Definition pal_mmio_read8 (m : mem) (addr : Z) : Z := ldn 1 m addr.
Definition pal_mmio_read16 (m : mem) (addr : Z) : Z := ldn 2 m addr.
Definition pal_mmio_read64 (m : mem) (addr : Z) : Z := ldn 8 m addr.
Definition pal_mmio_read32 (m : mem) (addr : Z) : Z := ldn 4 m addr.
Definition pal_mmio_write8 (m : mem) (addr data : Z) : mem := stn 1 m addr data.
Definition pal_mmio_write16 (m : mem) (addr data : Z) : mem := stn 2 m addr data.
Definition pal_mmio_write64 (m : mem) (addr data : Z) : mem := stn 8 m addr data.
Definition pal_mmio_write32 (m : mem) (addr data : Z) : mem := stn 4 m addr data.
End Mmio.

(** ** Laws of byte accesses *)

Lemma ld8_range m a : 0 <= ld8 m a < 256.
Proof. apply (uwrap_range 8); lia. Qed.

Lemma ld8_wrap m a : uwrap 8 (ld8 m a) = ld8 m a.
Proof. apply uwrap_small, ld8_range. Qed.

Lemma ld8_st8_eq m a v : ld8 (st8 m a v) a = uwrap 8 v.
Proof. unfold ld8, st8. rewrite lookup_insert_eq. apply uwrap_idem; lia. Qed.

Lemma ld8_st8_ne m a b v : a <> b -> ld8 (st8 m a v) b = ld8 m b.
Proof. intros. unfold ld8, st8. by rewrite lookup_insert_ne. Qed.

Lemma ld8_st8 m a b v : ld8 (st8 m a v) b = if decide (a = b) then uwrap 8 v else ld8 m b.
Proof. case_decide; subst; [apply ld8_st8_eq | by apply ld8_st8_ne]. Qed.

(** ** Laws of little-endian accesses *)

Lemma ldn_range n m a : 0 <= ldn n m a < 2 ^ (8 * Z.of_nat n).
Proof.
  revert a; induction n as [|n IH]; intros a; [simpl; lia|].
  cbn [ldn]. pose proof (ld8_range m a). specialize (IH (a + 1)).
  replace (8 * Z.of_nat (S n)) with (8 + 8 * Z.of_nat n) by lia.
  rewrite Z.pow_add_r by lia. change (2 ^ 8) with 256. lia.
Qed.

Lemma ld8_stn_out n m a v b :
  b < a \/ a + Z.of_nat n <= b -> ld8 (stn n m a v) b = ld8 m b.
Proof.
  revert m a v; induction n as [|n IH]; intros m a v H; [done|].
  cbn [stn]. rewrite IH by lia. apply ld8_st8_ne; lia.
Qed.

Lemma ldn_ext k m m' b :
  (forall i, 0 <= i < Z.of_nat k -> ld8 m' (b + i) = ld8 m (b + i)) ->
  ldn k m' b = ldn k m b.
Proof.
  revert b; induction k as [|k IH]; intros b H; [done|]. cbn [ldn].
  rewrite <- (Z.add_0_r b) at 1 3. rewrite H by lia. f_equal. f_equal.
  apply IH; intros i Hi. rewrite <- Z.add_assoc. apply H; lia.
Qed.

Lemma ldn_stn_out k n m a v b :
  b + Z.of_nat k <= a \/ a + Z.of_nat n <= b -> ldn k (stn n m a v) b = ldn k m b.
Proof. intros H. apply ldn_ext; intros i Hi. apply ld8_stn_out; lia. Qed.

Lemma ldn_stn_same n m a v : ldn n (stn n m a v) a = uwrap (8 * Z.of_nat n) v.
Proof.
  revert m a v; induction n as [|n IH]; intros m a v.
  { simpl. unfold uwrap. by rewrite Z.mod_1_r. }
  cbn [ldn stn]. rewrite IH, ld8_stn_out, ld8_st8_eq by lia. unfold uwrap.
  replace (8 * Z.of_nat (S n)) with (8 + 8 * Z.of_nat n) by lia.
  rewrite Z.pow_add_r by lia. change (2 ^ 8) with 256.
  rewrite Z.rem_mul_r by lia. lia.
Qed.

Lemma ldn_stn_same_small n m a v :
  0 <= v < 2 ^ (8 * Z.of_nat n) -> ldn n (stn n m a v) a = v.
Proof. intros. rewrite ldn_stn_same. by apply uwrap_small. Qed.

(** The byte at position [i] of a stored word. *)
Lemma ld8_stn_in n m a v i :
  0 <= i < Z.of_nat n -> ld8 (stn n m a v) (a + i) = uwrap 8 (v / 256 ^ i).
Proof.
  revert m a v i; induction n as [|n IH]; intros m a v i Hi; [lia|].
  cbn [stn]. destruct (decide (i = 0)) as [->|].
  - rewrite ld8_stn_out, Z.add_0_r, ld8_st8_eq, Z.pow_0_r, Z.div_1_r by lia. done.
  - replace (a + i) with (a + 1 + (i - 1)) by lia. rewrite IH by lia.
    rewrite Z.div_div by lia. f_equal. f_equal.
    rewrite <- (Z.pow_succ_r 256) by lia. f_equal; lia.
Qed.

Arguments ldn : simpl never.
Arguments stn : simpl never.

(** ** Frames

    [frame lo n m m']: [m'] differs from [m] at most on [n] bytes from [lo]. *)
Definition frame (lo n : Z) (m m' : mem) : Prop :=
  forall b, b < lo \/ lo + n <= b -> ld8 m' b = ld8 m b.

Lemma frame_refl lo n m : frame lo n m m.
Proof. by intros b Hb. Qed.

Lemma frame_trans lo n m1 m2 m3 : frame lo n m1 m2 -> frame lo n m2 m3 -> frame lo n m1 m3.
Proof. intros H1 H2 b Hb. rewrite H2 by done. by apply H1. Qed.

Lemma frame_widen lo n lo' n' m m' :
  frame lo n m m' -> lo' <= lo -> lo + n <= lo' + n' -> frame lo' n' m m'.
Proof. intros H ?? b Hb. apply H; lia. Qed.

Lemma frame_stn k m a v : frame a (Z.of_nat k) m (stn k m a v).
Proof. intros b Hb. by apply ld8_stn_out. Qed.

Lemma frame_ldn lo n m m' k b :
  frame lo n m m' -> b + Z.of_nat k <= lo \/ lo + n <= b -> ldn k m' b = ldn k m b.
Proof. intros H Hb. apply ldn_ext; intros i Hi. apply H; lia. Qed.

Create HintDb cmem.
#[export] Hint Resolve frame_refl frame_stn : cmem.

(** [memsimp] reads back what was just stored and skips the stores to disjoint
    ranges; the address arithmetic goes to [lia]. *)
Ltac memstep :=
  match goal with
  | |- context [ldn ?k (stn ?n ?m ?a ?v) ?b] =>
      first [ rewrite (ldn_stn_out k n m a v b) by lia
            | replace b with a by lia; rewrite (ldn_stn_same_small n m a v) by lia
            | replace b with a by lia; rewrite (ldn_stn_same n m a v) ]
  | |- context [ld8 (stn ?n ?m ?a ?v) ?b] => rewrite (ld8_stn_out n m a v b) by lia
  | |- context [ld8 (st8 ?m ?a ?v) ?b] =>
      first [ rewrite (ld8_st8_ne m a b v) by lia
            | replace b with a by lia; rewrite (ld8_st8_eq m a v) ]
  end.
Ltac memsimp := repeat memstep.
