(* ===== verification/Asm.v ===== *)
(** * The assembly sources

    The part of AArch64 the files [val/src/aarch64/*.S] and [pal_*.S] use: a program
    is the list of their instructions, labels included, and [run] executes it.  The
    registers are 64 bits wide; data accesses go to the byte memory of [CMem].
    Barriers and cache maintenance have no effect.  [world] is what lies behind the
    conduit instructions ([smc], [svc], [hvc]). *)

From S2P Require Import Prelude CMem.

(** ** State *)
(** By role in the procedure call standard: pointers, arguments and results, scratch
    and platform registers, temporaries, callee-saved. *)
Inductive reg :=
| SP | XZR | X29 | X30
| X0 | X1 | X2 | X3 | X4 | X5 | X6 | X7 | X8
| X16 | X17 | X18
| X9 | X10 | X11 | X12 | X13 | X14 | X15
| X19 | X20 | X21 | X22 | X23 | X24 | X25 | X26 | X27 | X28.

Definition reg_num (r : reg) : Z :=
  match r with
  | X0 => 0 | X1 => 1 | X2 => 2 | X3 => 3 | X4 => 4 | X5 => 5 | X6 => 6 | X7 => 7 | X8 => 8 | X9 => 9
  | X10 => 10 | X11 => 11 | X12 => 12 | X13 => 13 | X14 => 14 | X15 => 15 | X16 => 16 | X17 => 17
  | X18 => 18 | X19 => 19 | X20 => 20 | X21 => 21 | X22 => 22 | X23 => 23 | X24 => 24 | X25 => 25
  | X26 => 26 | X27 => 27 | X28 => 28 | X29 => 29 | X30 => 30 | SP => 31 | XZR => 32
  end.

#[export] Instance reg_eq_dec : EqDecision reg.
Proof. solve_decision. Defined.

Inductive sysr :=
| VBAR_EL1 | VBAR_EL2 | SCTLR_EL1 | SCTLR_EL2 | CPACR_EL1 | CTR_EL0
| ELR_EL1 | ELR_EL2 | SPSR_EL1 | SPSR_EL2 | ESR_EL1 | ESR_EL2 | FAR_EL1 | FAR_EL2
| MAIR_EL1 | MAIR_EL2 | TCR_EL1 | TCR_EL2 | TTBR0_EL1 | TTBR0_EL2
| SYS_MPIDR_EL1 | SYS_CurrentEL | ID_AA64MMFR0_EL1.

#[export] Instance sysr_eq_dec : EqDecision sysr.
Proof. solve_decision. Defined.

Record flags := Flags { f_n : bool; f_z : bool; f_c : bool; f_v : bool }.

Record astate (W : Type) := AState {
  rf : reg -> Z; sys : sysr -> Z; nzcv : flags; amem : mem; world : W }.
Arguments AState {W}. Arguments rf {W}. Arguments sys {W}. Arguments nzcv {W}.
Arguments amem {W}. Arguments world {W}.

Definition upd_reg (r : reg) (v : Z) (f : reg -> Z) : reg -> Z :=
  fun q => if reg_num q =? reg_num r then v else f q.
Definition upd_sys (r : sysr) (v : Z) (f : sysr -> Z) : sysr -> Z :=
  fun q => if decide (q = r) then v else f q.

Section State.
Context {W : Type}.
Definition get (r : reg) (s : astate W) : Z := match r with XZR => 0 | _ => rf s r end.
Definition set (r : reg) (v : Z) (s : astate W) : astate W :=
  match r with XZR => s | _ => AState (upd_reg r v (rf s)) (sys s) (nzcv s) (amem s) (world s) end.
Definition set_sys (r : sysr) (v : Z) (s : astate W) : astate W :=
  AState (rf s) (upd_sys r v (sys s)) (nzcv s) (amem s) (world s).
Definition set_flags (f : flags) (s : astate W) : astate W := AState (rf s) (sys s) f (amem s) (world s).
Definition set_amem (m : mem) (s : astate W) : astate W := AState (rf s) (sys s) (nzcv s) m (world s).
Definition set_world (w : W) (s : astate W) : astate W := AState (rf s) (sys s) (nzcv s) (amem s) w.
End State.

(** ** Flags and conditions *)
Definition add_flags (a b : Z) : flags :=
  Flags (Z.testbit (u64 (a + b)) 63) (u64 (a + b) =? 0) (2 ^ 64 <=? a + b)
    (negb (sint 64 (u64 (a + b)) =? sint 64 a + sint 64 b)).
Definition sub_flags (a b : Z) : flags :=
  Flags (Z.testbit (u64 (a - b)) 63) (u64 (a - b) =? 0) (b <=? a)
    (negb (sint 64 (u64 (a - b)) =? sint 64 a - sint 64 b)).
Definition and_flags (a b : Z) : flags := Flags (Z.testbit (Z.land a b) 63) (Z.land a b =? 0) false false.
(** [cmp] on two W registers. *)
Definition sub_flags_w (a b : Z) : flags :=
  Flags (Z.testbit (u32 (a - b)) 31) (u32 (a - b) =? 0) (u32 b <=? u32 a)
    (negb (sint 32 (u32 (a - b)) =? sint 32 (u32 a) - sint 32 (u32 b))).

Inductive cond := EQ | NE | LO | HI | CS | GE.
Definition holds (c : cond) (f : flags) : bool :=
  match c with
  | EQ => f_z f
  | NE => negb (f_z f)
  | LO => negb (f_c f)
  | HI => f_c f && negb (f_z f)
  | CS => f_c f
  | GE => eqb (f_n f) (f_v f)
  end.

(** ** Instructions

    [Adrp r a] and [AddImm r r (lo12 a)] form the run-time address [a]; [LdrLit r v] is
    [ldr r, =v].  A branch goes to a label of the same program; [Here] is [b .].
    [Bl f ra] calls the symbol [f] and leaves the return address [ra] in x30. *)
Inductive target := L (l : Z) | Here.
Inductive instr (Sym : Type) :=
| Label (l : Z)
| Mov (d n : reg) | MovImm (d : reg) (v : Z) | Movk16 (d : reg) (v : Z) | LdrLit (d : reg) (v : Z)
| Adr (d : reg) (a : Z) | Adrp (d : reg) (a : Z)
| Add (d n m : reg) | AddImm (d n : reg) (v : Z) | Adds (d n m : reg)
| Sub (d n m : reg) | SubImm (d n : reg) (v : Z) | Mul (d n m : reg)
| AndImm (d n : reg) (v : Z) | Bic (d n m : reg) | Orr (d n m : reg) | OrrImm (d n : reg) (v : Z)
| Ubfx (d n : reg) (lsb width : Z) | Lslv (d n m : reg) | Lsrv (d n m : reg)
| TstImm (n : reg) (v : Z) | Cmp (n m : reg) | CmpImm (n : reg) (v : Z) | CmpW (n m : reg)
| Ldr (d n : reg) (off : Z) | Str (d n : reg) (off : Z)
| StrPre (d n : reg) (off : Z) | LdrPost (d n : reg) (off : Z)
| Ldp (d1 d2 n : reg) (off : Z) | Stp (d1 d2 n : reg) (off : Z)
| StpPre (d1 d2 n : reg) (off : Z) | LdpPost (d1 d2 n : reg) (off : Z)
| Mrs (d : reg) (r : sysr) | Msr (r : sysr) (n : reg)
| B (t : target) | Bcond (c : cond) (t : target) | Cbz (n : reg) (t : target) | Cbnz (n : reg) (t : target)
| Bl (f : Sym) (ra : Z) | Tail (f : Sym) | Ret_ | Eret
| Smc | Svc | Hvc | Barrier | Dc (n : reg).
Arguments Label {Sym}. Arguments Mov {Sym}. Arguments MovImm {Sym}. Arguments Movk16 {Sym}.
Arguments LdrLit {Sym}. Arguments Adr {Sym}. Arguments Adrp {Sym}. Arguments Add {Sym}.
Arguments AddImm {Sym}. Arguments Adds {Sym}. Arguments Sub {Sym}. Arguments SubImm {Sym}.
Arguments Mul {Sym}. Arguments AndImm {Sym}. Arguments Bic {Sym}. Arguments Orr {Sym}.
Arguments OrrImm {Sym}. Arguments Ubfx {Sym}. Arguments Lslv {Sym}. Arguments Lsrv {Sym}.
Arguments TstImm {Sym}. Arguments Cmp {Sym}. Arguments CmpImm {Sym}. Arguments CmpW {Sym}.
Arguments Ldr {Sym}. Arguments Str {Sym}. Arguments StrPre {Sym}. Arguments LdrPost {Sym}.
Arguments Ldp {Sym}. Arguments Stp {Sym}. Arguments StpPre {Sym}. Arguments LdpPost {Sym}.
Arguments Mrs {Sym}. Arguments Msr {Sym}. Arguments B {Sym}. Arguments Bcond {Sym}.
Arguments Cbz {Sym}. Arguments Cbnz {Sym}. Arguments Bl {Sym}. Arguments Tail {Sym}.
Arguments Ret_ {Sym}. Arguments Eret {Sym}. Arguments Smc {Sym}. Arguments Svc {Sym}.
Arguments Hvc {Sym}. Arguments Barrier {Sym}. Arguments Dc {Sym}.

Definition page_of (a : Z) : Z := a - a mod 4096.
Definition lo12 (a : Z) : Z := a mod 4096.

(** Where a step goes: the next instruction, a label, or out of the program. *)
Inductive control := Next | Goto (l : Z) | Stop.

Section Exec.
Context {W Sym : Type}.
(** A call to code outside the program, and a conduit instruction. *)
Context (call : Sym -> astate W -> outcome (astate W)) (conduit : astate W -> outcome (astate W)).

Definition next (s : astate W) : outcome (control * astate W) := Ret (Next, s).
Definition jump (t : target) (s : astate W) : outcome (control * astate W) :=
  match t with L l => Ret (Goto l, s) | Here => Panic end.
Definition ld64 (s : astate W) (a : Z) : Z := ldn 8 (amem s) (u64 a).
Definition st64 (a v : Z) (s : astate W) : astate W := set_amem (stn 8 (amem s) (u64 a) v) s.

Definition exec (i : instr Sym) (s : astate W) : outcome (control * astate W) :=
  match i with
  | Label _ | Barrier | Dc _ => next s
  | Mov d n => next (set d (get n s) s)
  | MovImm d v | LdrLit d v => next (set d (u64 v) s)
  | Movk16 d v => next (set d (Z.lor (Z.land (get d s) (u64 (Z.lnot 0xffff0000))) (Z.shiftl v 16)) s)
  | Adr d a => next (set d (u64 a) s)
  | Adrp d a => next (set d (u64 (page_of a)) s)
  | Add d n m => next (set d (u64 (get n s + get m s)) s)
  | AddImm d n v => next (set d (u64 (get n s + v)) s)
  | Adds d n m => next (set_flags (add_flags (get n s) (get m s)) (set d (u64 (get n s + get m s)) s))
  | Sub d n m => next (set d (u64 (get n s - get m s)) s)
  | SubImm d n v => next (set d (u64 (get n s - v)) s)
  | Mul d n m => next (set d (u64 (get n s * get m s)) s)
  | AndImm d n v => next (set d (Z.land (get n s) (u64 v)) s)
  | Bic d n m => next (set d (Z.land (get n s) (u64 (Z.lnot (get m s)))) s)
  | Orr d n m => next (set d (Z.lor (get n s) (get m s)) s)
  | OrrImm d n v => next (set d (Z.lor (get n s) (u64 v)) s)
  | Ubfx d n lsb width => next (set d (Z.land (Z.shiftr (get n s) lsb) (Z.ones width)) s)
  | Lslv d n m => next (set d (u64 (Z.shiftl (get n s) (get m s mod 64))) s)
  | Lsrv d n m => next (set d (Z.shiftr (get n s) (get m s mod 64)) s)
  | TstImm n v => next (set_flags (and_flags (get n s) (u64 v)) s)
  | Cmp n m => next (set_flags (sub_flags (get n s) (get m s)) s)
  | CmpImm n v => next (set_flags (sub_flags (get n s) v) s)
  | CmpW n m => next (set_flags (sub_flags_w (get n s) (get m s)) s)
  | Ldr d n off => next (set d (ld64 s (get n s + off)) s)
  | Str d n off => next (st64 (get n s + off) (get d s) s)
  | StrPre d n off => next (set n (u64 (get n s + off)) (st64 (get n s + off) (get d s) s))
  | LdrPost d n off => next (set n (u64 (get n s + off)) (set d (ld64 s (get n s)) s))
  | Ldp d1 d2 n off => next (set d2 (ld64 s (get n s + off + 8)) (set d1 (ld64 s (get n s + off)) s))
  | Stp d1 d2 n off => next (st64 (get n s + off + 8) (get d2 s) (st64 (get n s + off) (get d1 s) s))
  | StpPre d1 d2 n off =>
      next (set n (u64 (get n s + off)) (st64 (get n s + off + 8) (get d2 s) (st64 (get n s + off) (get d1 s) s)))
  | LdpPost d1 d2 n off =>
      next (set n (u64 (get n s + off)) (set d2 (ld64 s (get n s + 8)) (set d1 (ld64 s (get n s)) s)))
  | Mrs d r => next (set d (sys s r) s)
  | Msr r n => next (set_sys r (get n s) s)
  | B t => jump t s
  | Bcond c t => if holds c (nzcv s) then jump t s else next s
  | Cbz n t => if get n s =? 0 then jump t s else next s
  | Cbnz n t => if negb (get n s =? 0) then jump t s else next s
  | Bl f ra => let! s := call f (set X30 (u64 ra) s) in next s
  | Tail f => let! s := call f s in Ret (Stop, s)
  | Ret_ | Eret => Ret (Stop, s)
  | Smc | Svc | Hvc => let! s := conduit s in next s
  end.

(** The position of a label. *)
Fixpoint find_label (l : Z) (p : list (instr Sym)) : option nat :=
  match p with
  | [] => None
  | Label k :: p' => if k =? l then Some O else S <$> find_label l p'
  | _ :: p' => S <$> find_label l p'
  end.

Fixpoint run (fuel : nat) (p : list (instr Sym)) (pc : nat) (s : astate W) : outcome (astate W) :=
  match fuel with
  | O => Diverge
  | S fuel' =>
      match p !! pc with
      | None => Fault
      | Some i =>
          let! (c, s) := exec i s in
          match c with
          | Next => run fuel' p (S pc) s
          | Goto l => match find_label l p with Some k => run fuel' p k s | None => Fault end
          | Stop => Ret s
          end
      end
  end.
End Exec.

(** ** Executions

    [reaches p pc s pc' s']: from instruction [pc] the program gets to [pc'];
    [ends p pc s o]: it leaves with the outcome [o].  Both hold with every larger fuel. *)
Section Reach.
Context {W Sym : Type}.
Context (call : Sym -> astate W -> outcome (astate W)) (conduit : astate W -> outcome (astate W)).
Context (p : list (instr Sym)).
Abbreviation runs := (run call conduit).
Abbreviation execs := (exec call conduit).

Definition reaches (pc : nat) (s : astate W) (pc' : nat) (s' : astate W) : Prop :=
  exists k, forall n, runs (k + n) p pc s = runs n p pc' s'.
Definition ends (pc : nat) (s : astate W) (o : outcome (astate W)) : Prop :=
  exists k, forall n, (k <= n)%nat -> runs n p pc s = o.

Lemma reaches_refl pc s : reaches pc s pc s.
Proof. by exists O. Qed.

Lemma reaches_trans pc1 s1 pc2 s2 pc3 s3 :
  reaches pc1 s1 pc2 s2 -> reaches pc2 s2 pc3 s3 -> reaches pc1 s1 pc3 s3.
Proof. intros [k H] [k' H']. exists (k + k')%nat. intros n. by rewrite <- Nat.add_assoc, H, H'. Qed.

Lemma ends_reaches pc s pc' s' o : reaches pc s pc' s' -> ends pc' s' o -> ends pc s o.
Proof.
  intros [k H] [k' H']. exists (k + k')%nat. intros n Hn. replace n with (k + (n - k))%nat by lia.
  rewrite H. apply H'. lia.
Qed.

Lemma reaches_one pc s i c s1 pc' :
  p !! pc = Some i -> execs i s = Ret (c, s1) ->
  match c with Next => pc' = S pc | Goto l => find_label l p = Some pc' | Stop => False end ->
  reaches pc s pc' s1.
Proof.
  intros Hi He Hc. exists 1%nat. intros n. cbn [Nat.add run]. rewrite Hi, He. cbn [obind].
  destruct c; [by rewrite Hc | by rewrite Hc | done].
Qed.

Lemma reaches_next pc s i s1 pc' s' :
  p !! pc = Some i -> execs i s = Ret (Next, s1) -> reaches (S pc) s1 pc' s' -> reaches pc s pc' s'.
Proof. intros Hi He. apply reaches_trans. by eapply reaches_one. Qed.
Lemma reaches_goto pc s i l s1 pc1 pc' s' :
  p !! pc = Some i -> execs i s = Ret (Goto l, s1) -> find_label l p = Some pc1 ->
  reaches pc1 s1 pc' s' -> reaches pc s pc' s'.
Proof. intros Hi He Hl. apply reaches_trans. by eapply reaches_one. Qed.

Lemma ends_next pc s i s1 o :
  p !! pc = Some i -> execs i s = Ret (Next, s1) -> ends (S pc) s1 o -> ends pc s o.
Proof. intros Hi He. apply ends_reaches. by eapply reaches_one. Qed.
Lemma ends_goto pc s i l s1 pc1 o :
  p !! pc = Some i -> execs i s = Ret (Goto l, s1) -> find_label l p = Some pc1 ->
  ends pc1 s1 o -> ends pc s o.
Proof. intros Hi He Hl. apply ends_reaches. by eapply reaches_one. Qed.
Lemma ends_stop pc s i s' : p !! pc = Some i -> execs i s = Ret (Stop, s') -> ends pc s (Ret s').
Proof. intros Hi He. exists 1%nat. intros [|n] Hn; [lia|]. cbn [run]. by rewrite Hi, He. Qed.
Lemma ends_hang pc s i : p !! pc = Some i -> execs i s = Panic -> ends pc s Panic.
Proof. intros Hi He. exists 1%nat. intros [|n] Hn; [lia|]. cbn [run]. by rewrite Hi, He. Qed.

Lemma ends_unique pc s o o' : ends pc s o -> ends pc s o' -> o = o'.
Proof. intros [k H] [k' H']. rewrite <- (H (k + k')%nat) by lia. apply H'. lia. Qed.

(** More fuel does not change an outcome. *)
Lemma run_mono n k pc s : runs n p pc s <> Diverge -> runs (n + k) p pc s = runs n p pc s.
Proof.
  revert pc s. induction n as [|n IH]; intros pc s; [done|]. cbn [Nat.add run].
  destruct (p !! pc) as [i|]; [|done]. destruct (execs i s) as [[c s1]| | |]; cbn [obind]; try done.
  destruct c; [apply IH | | done]. destruct (find_label l p); [apply IH | done].
Qed.

Lemma run_ends n pc s o : runs n p pc s = o -> o <> Diverge -> ends pc s o.
Proof.
  intros E Ho. exists n. intros k Hk. replace k with (n + (k - n))%nat by lia. rewrite run_mono by congruence. done.
Qed.

Lemma ends_run n pc s o o' : ends pc s o -> runs n p pc s = o' -> o' <> Diverge -> o' = o.
Proof. intros [k H] E Ho. rewrite <- (H (n + k)%nat) by lia. rewrite run_mono by congruence. done. Qed.

(** [P] holds of the state at the start, of every state in the first [n] instructions
    and of the one left behind, whether the program ends, hangs or goes on. *)
Fixpoint visits (P : astate W -> Prop) (n : nat) (pc : nat) (s : astate W) : Prop :=
  P s /\
  match n, p !! pc with
  | S n', Some i =>
      match execs i s with
      | Ret (Next, s1) => visits P n' (S pc) s1
      | Ret (Goto l, s1) => match find_label l p with Some pc1 => visits P n' pc1 s1 | None => P s1 end
      | Ret (Stop, s1) => P s1
      | _ => True
      end
  | _, _ => True
  end.

Lemma visits_less P n m pc s : (m <= n)%nat -> visits P n pc s -> visits P m pc s.
Proof.
  revert m pc s. induction n as [|n IH]; intros [|m] pc s Hm [HP Hn]; try lia; (split; [done|]); try done.
  destruct (p !! pc) as [i|]; [|done]. destruct (execs i s) as [[[] s1]| | |]; try done.
  - apply IH; [lia | done].
  - destruct (find_label _ _); [|done]. apply IH; [lia | done].
Qed.

Lemma visits_next P n pc s i s1 : p !! pc = Some i -> execs i s = Ret (Next, s1) -> P s -> visits P n (S pc) s1 -> visits P n pc s.
Proof. intros Hi He HP Hn. destruct n; split; try done. rewrite Hi, He. eapply visits_less; [|exact Hn]. lia. Qed.
Lemma visits_goto P n pc s i l s1 pc1 :
  p !! pc = Some i -> execs i s = Ret (Goto l, s1) -> find_label l p = Some pc1 -> P s ->
  (forall m, (m < n)%nat -> visits P m pc1 s1) -> visits P n pc s.
Proof. intros Hi He Hl HP Hn. destruct n; split; try done. rewrite Hi, He, Hl. apply Hn. lia. Qed.
Lemma visits_stop P n pc s i s1 : p !! pc = Some i -> execs i s = Ret (Stop, s1) -> P s -> P s1 -> visits P n pc s.
Proof. intros Hi He HP HP1. destruct n; split; try done. by rewrite Hi, He. Qed.
Lemma visits_hang P n pc s i : p !! pc = Some i -> execs i s = Panic -> P s -> visits P n pc s.
Proof. intros Hi He HP. destruct n; split; try done. by rewrite Hi, He. Qed.
Lemma visits_branch P n pc s c t :
  p !! pc = Some (Bcond c t) -> P s ->
  (holds c (nzcv s) = true -> match t with
                              | L l => exists pc1, find_label l p = Some pc1 /\ forall m, (m < n)%nat -> visits P m pc1 s
                              | Here => True
                              end) ->
  (holds c (nzcv s) = false -> visits P n (S pc) s) -> visits P n pc s.
Proof.
  intros Hi HP Ht Hf. destruct (holds c (nzcv s)) eqn:E.
  - specialize (Ht eq_refl). destruct n; split; try done. rewrite Hi. cbn [exec]. rewrite E. destruct t as [l|]; [|done].
    destruct Ht as (pc1 & El & Hv). cbn [jump]. rewrite El. apply Hv. lia.
  - eapply visits_next; [exact Hi | cbn [exec]; by rewrite E | done | by apply Hf].
Qed.

(** The state a program ends with is among them. *)
Lemma visits_run P n pc s s' : visits P n pc s -> runs n p pc s = Ret s' -> P s'.
Proof.
  revert pc s. induction n as [|n IH]; intros pc s [HP Hn]; [done|]. cbn [run].
  destruct (p !! pc) as [i|]; [|done]. destruct (execs i s) as [[[] s1]| | |]; cbn [obind]; try done.
  - by apply IH.
  - destruct (find_label _ _); [by apply IH | done].
  - by intros [= <-].
Qed.
End Reach.

(** ** Registers and conditions *)
Lemma reg_num_inj r q : reg_num r = reg_num q -> r = q.
Proof. by destruct r, q. Qed.

Lemma upd_reg_ne r v f q : q <> r -> upd_reg r v f q = f q.
Proof. intros H. unfold upd_reg. destruct (Z.eqb_spec (reg_num q) (reg_num r)) as [E|]; [by apply reg_num_inj in E | done]. Qed.

(** [s'] differs from [s] in memory, flags and the registers [l] at most. *)
Definition same_but {W} (l : list reg) (s s' : astate W) : Prop :=
  (forall r, ~ In r l -> rf s' r = rf s r) /\ sys s' = sys s /\ world s' = world s.

Lemma same_but_trans {W} l (s1 s2 s3 : astate W) : same_but l s1 s2 -> same_but l s2 s3 -> same_but l s1 s3.
Proof. intros (R1 & S1 & W1) (R2 & S2 & W2). split; [|split; congruence]. intros r Hr. by rewrite R2, R1. Qed.
Lemma same_but_weaken {W} l l' (s1 s2 : astate W) : same_but l s1 s2 -> (forall r, In r l -> In r l') -> same_but l' s1 s2.
Proof. intros (R1 & S1 & W1) Hl. split; [|done]. intros r Hr. apply R1. auto. Qed.

Lemma sint_uint w a : 0 < w -> is_uint w a -> - 2 ^ (w - 1) <= sint w a < 2 ^ (w - 1).
Proof.
  intros Hw Ha. unfold is_uint, sint in *. assert (2 ^ w = 2 * 2 ^ (w - 1)).
  { rewrite <- Z.pow_succ_r by lia. f_equal. lia. }
  destruct (Z.ltb_spec a (2 ^ (w - 1))); lia.
Qed.

Lemma testbit_top a : is_uint 64 a -> Z.testbit a 63 = (2 ^ 63 <=? a).
Proof.
  intros Ha. rewrite Z.testbit_odd, Z.shiftr_div_pow2 by lia. unfold is_uint in Ha.
  destruct (Z.leb_spec (2 ^ 63) a) as [H|H].
  - replace (a / 2 ^ 63) with 1; [done|]. apply (Z.div_unique_pos a (2 ^ 63) 1 (a - 2 ^ 63)); lia.
  - by rewrite Z.div_small by lia.
Qed.

Section Conditions.
Context (a b : Z) (Ha : is_uint 64 a) (Hb : is_uint 64 b).

Lemma holds_lo : holds LO (sub_flags a b) = (a <? b).
Proof. cbn. by rewrite <- Z.ltb_antisym. Qed.
Lemma holds_eq : holds EQ (sub_flags a b) = (a =? b).
Proof.
  cbn. unfold is_uint, uwrap in *. destruct (Z.eqb_spec a b) as [->|H]; [by rewrite Z.sub_diag|].
  apply Z.eqb_neq. intros E. destruct (Z.ltb_spec a b).
  - rewrite <- (Z.mod_add _ 1) in E by lia. rewrite Z.mod_small in E by lia. lia.
  - rewrite Z.mod_small in E by lia. lia.
Qed.
Lemma holds_ne : holds NE (sub_flags a b) = negb (a =? b).
Proof. rewrite <- holds_eq. done. Qed.
Lemma holds_hi : holds HI (sub_flags a b) = (b <? a).
Proof.
  change (holds HI (sub_flags a b)) with ((b <=? a) && negb (holds EQ (sub_flags a b))). rewrite holds_eq.
  destruct (Z.leb_spec b a), (Z.eqb_spec a b), (Z.ltb_spec b a); try done; lia.
Qed.
Lemma holds_ge : holds GE (sub_flags a b) = (sint 64 b <=? sint 64 a).
Proof.
  unfold holds, sub_flags. cbn [f_n f_v]. rewrite testbit_top by (apply uwrap_is_uint; lia). unfold is_uint in *.
  assert (E : u64 (a - b) = if a <? b then a - b + 2 ^ 64 else a - b).
  { unfold uwrap. destruct (Z.ltb_spec a b); [rewrite <- (Z.mod_add _ 1) by lia|]; rewrite Z.mod_small; lia. }
  rewrite E. unfold sint. change (64 - 1) with 63. clear E.
  destruct (Z.ltb_spec a b), (Z.ltb_spec a (2 ^ 63)), (Z.ltb_spec b (2 ^ 63));
    match goal with |- context [?x <? 2 ^ 63] => destruct (Z.ltb_spec x (2 ^ 63)) end;
    match goal with |- context [2 ^ 63 <=? ?x] => destruct (Z.leb_spec (2 ^ 63) x) end;
    match goal with |- context [?x =? ?y] => destruct (Z.eqb_spec x y) end;
    match goal with |- context [?x <=? ?y] => destruct (Z.leb_spec x y) end;
    try done; lia.
Qed.
Lemma holds_cs_add : holds CS (add_flags a b) = (2 ^ 64 <=? a + b).
Proof. done. Qed.
End Conditions.

(** Reads what symbolic steps left in the registers and the other parts of a state. *)
Ltac asimpl :=
  unfold ld64;
  cbn [get set rf sys nzcv amem world set_flags set_amem set_sys set_world upd_reg reg_num Z.eqb Pos.eqb st64 negb].
(** One instruction that goes on to the next one. *)
Ltac anext :=
  first [eapply ends_next | eapply reaches_next]; [reflexivity | reflexivity |]; asimpl.
(** A branch: [agoto tac] when it is taken, [askip tac] when not; [tac] rewrites its
    condition. *)
Ltac agoto tac :=
  first [eapply ends_goto | eapply reaches_goto];
    [reflexivity | cbn [exec jump]; asimpl; tac; reflexivity | reflexivity |]; asimpl.
Ltac askip tac :=
  first [eapply ends_next | eapply reaches_next]; [reflexivity | cbn [exec jump]; asimpl; tac; reflexivity |]; asimpl.
(** The end of the program, and [b .]. *)
Ltac astop := eapply ends_stop; [reflexivity | reflexivity].
Ltac ahang tac := eapply ends_hang; [reflexivity | cbn [exec jump]; asimpl; tac; reflexivity].
(** [same_but] of states that symbolic steps built. *)
Ltac akeep :=
  split; [intros ? ?; cbn [get set rf set_flags set_amem set_sys st64]; rewrite ?upd_reg_ne by (intros ->; cbn in *; tauto); done
         | split; reflexivity].
