(* ===== verification/Vectors.v ===== *)
(** * Exception vectors ([val_vtable.S], [val_exceptions.c])

    An exception from the current exception level, on SPx, pushes the volatile
    registers and the exception state, calls the C handler and restores what it
    pushed; the link register and the frame pointer count as volatile.  All other
    vectors are [b .].  The C handler is the parameter [call]: what is known of it is
    the procedure call standard, [aapcs64]. *)

From S2P Require Import Prelude CMem Asm.

(** ** val_vtable.S *)
Inductive handler := h_val_irq_current | h_val_sync_exception_current.
Inductive elx := el1 | el2.
Definition elr (e : elx) : sysr := match e with el1 => ELR_EL1 | el2 => ELR_EL2 end.
Definition spsr (e : elx) : sysr := match e with el1 => SPSR_EL1 | el2 => SPSR_EL2 end.

Abbreviation code := (list (instr handler)).

Definition save_volatile_to_stack (e : elx) : code :=
  [StpPre X0 X1 SP (-(8 * 24));
   Stp X2 X3 SP (8 * 2);
   Stp X4 X5 SP (8 * 4);
   Stp X6 X7 SP (8 * 6);
   Stp X8 X9 SP (8 * 8);
   Stp X10 X11 SP (8 * 10);
   Stp X12 X13 SP (8 * 12);
   Stp X14 X15 SP (8 * 14);
   Stp X16 X17 SP (8 * 16);
   Str X18 SP (8 * 18);
   Stp X29 X30 SP (8 * 20);
   Mrs X0 (elr e);
   Mrs X1 (spsr e);
   Stp X0 X1 SP (8 * 22)].

(** The labels [restore_from_stack_and_return] and [skip_elr]. *)
Definition L_restore : Z := 0.
Definition L_skip_elr : Z := 1.

Definition restore_from_stack_and_return : code :=
  [Label L_restore;
   Ldp X2 X3 SP (8 * 2);
   Ldp X4 X5 SP (8 * 4);
   Ldp X6 X7 SP (8 * 6);
   Ldp X8 X9 SP (8 * 8);
   Ldp X10 X11 SP (8 * 10);
   Ldp X12 X13 SP (8 * 12);
   Ldp X14 X15 SP (8 * 14);
   Ldp X16 X17 SP (8 * 16);
   Ldr X18 SP (8 * 18);
   Ldp X29 X30 SP (8 * 20);
   Cbnz X0 (L L_skip_elr);
   Ldr X1 SP (8 * 22);
   Msr ELR_EL1 X1;
   Label L_skip_elr;
   Ldr X1 SP (8 * 23);
   Msr SPSR_EL1 X1;
   LdpPost X0 X1 SP (8 * 24);
   Eret].

(** [ra]: the address of the instruction after the call. *)
Definition current_exception_spx (e : elx) (h : handler) (ra : Z) : code :=
  save_volatile_to_stack e ++ [Bl h ra; B (L L_restore)].

(** The vector table: the code at offset [128 * n], [None] for [b .].  [at_el2] is
    [defined(VM1_COMPILE) && (PLATFORM_NS_HYPERVISOR_PRESENT == 0)]. *)
Definition irq_el (at_el2 : bool) : elx := if at_el2 then el2 else el1.
Definition vector_table (at_el2 : bool) (ra : Z) (n : Z) : option code :=
  if n =? 4 then Some (current_exception_spx el1 h_val_sync_exception_current ra)
  else if n =? 5 then Some (current_exception_spx (irq_el at_el2) h_val_irq_current ra)
  else if n =? 6 then Some (current_exception_spx (irq_el at_el2) h_val_irq_current ra)
  else None.

(** A vector and the shared exit path it branches to. *)
Definition vector_code (v : option code) : code :=
  match v with Some c => c ++ restore_from_stack_and_return | None => [B Here] end.

(** ** val_exceptions.c *)
Definition EC_DATA_ABORT_SAME_EL : Z := 0x25.
Definition EC_INSTRUCTION_ABORT_SAME_EL : Z := 0x21.

(** What [default_sync_current_exception] prints before it loops for ever: the kind of
    the exception, pc, esr, ec and, for the aborts, the faulting address when the
    syndrome says it is valid. *)
Inductive abort_kind := DataAbort | InstructionAbort | UnknownSync.
Record sync_report := SyncReport { r_kind : abort_kind; r_pc : Z; r_esr : Z; r_ec : Z; r_far : option Z }.

Section Exceptions.
Context {W : Type}.

Definition val_read_current_el (s : astate W) : Z := sys s SYS_CurrentEL.

Definition default_sync_report (s : astate W) : sync_report :=
  let current_el := Z.shiftr (Z.land (val_read_current_el s) 0xc) 2 in
  let '(esr, pc, far) :=
    if current_el =? 2 then (sys s ESR_EL2, sys s ELR_EL2, sys s FAR_EL2)
    else if current_el =? 1 then (sys s ESR_EL1, sys s ELR_EL1, sys s FAR_EL1)
    else (0, 0, 0) in
  let ec := Z.shiftr esr 26 in
  let valid := Z.land esr (Z.shiftl 1 10) =? 0 in
  if ec =? EC_DATA_ABORT_SAME_EL then
    SyncReport DataAbort pc esr ec (if valid then Some (sys s FAR_EL1) else None)
  else if ec =? EC_INSTRUCTION_ABORT_SAME_EL then
    SyncReport InstructionAbort pc esr ec (if valid then Some far else None)
  else SyncReport UnknownSync pc esr ec None.

(** [for (;;)] after the report. *)
Definition default_sync_current_exception (s : astate W) : outcome (bool * astate W) :=
  let _ := default_sync_report s in Panic.

(** The static function pointers; 0 is NULL. *)
Record callbacks := Callbacks { irq_callback : Z; exception_callback : Z }.
Definition val_exception_setup (irq exception : Z) (c : callbacks) : callbacks := Callbacks irq exception.

(** [call_ptr]: a call through a function pointer. *)
Definition val_sync_exception_current (call_ptr : Z -> astate W -> outcome (bool * astate W)) (c : callbacks) (s : astate W)
    : outcome (bool * astate W) :=
  if negb (exception_callback c =? 0) then call_ptr (exception_callback c) s
  else default_sync_current_exception s.
End Exceptions.

(** ** What the procedure call standard promises *)
Definition frame_size : Z := 192.
Definition callee_saved : list reg := [X19; X20; X21; X22; X23; X24; X25; X26; X27; X28; X29; SP].

(** From a call in [s] to its return in [s']: the callee-saved registers and the stack
    pointer are kept, and so is the part of the stack the vector pushed. *)
Definition aapcs64 {W} (s s' : astate W) : Prop :=
  Forall (fun r => rf s' r = rf s r) callee_saved /\
  forall b, rf s SP <= b < rf s SP + frame_size -> ld8 (amem s') b = ld8 (amem s) b.

(** [call h] is the code a compiler makes of [f], a function of the world [W] that
    returns a [bool] in x0. *)
Definition compiled {W} (call : handler -> astate W -> outcome (astate W)) (h : handler) (f : cmd W bool) : Prop :=
  forall s b w, f (world s) = Ret (b, w) ->
    exists s', call h s = Ret s' /\ aapcs64 s s' /\ rf s' X0 = Z.b2z b /\ world s' = w.
