(* ===== verification/Entry.v ===== *)
(** * The entry code of an image ([val_entry.S])

    What runs before [val_main]: the vector table is installed, the addresses in the
    global offset table (and, in the TPM partition, the dynamic relocations) are moved
    from where the image was linked to where it was loaded, the stack is set up and
    .bss is cleared.

    The linker symbols are the fields of [image_symbols], at their link-time addresses;
    [load_offset] is what the loader added to them. *)

From S2P Require Import Prelude CMem Asm.

Definition IMAGE_SIZE : Z := 0x400000.
Definition STACK_SIZE : Z := 0x1000.
Definition SCTLR_I_BIT : Z := Z.shiftl 1 12.
Definition SCTLR_M_BIT : Z := Z.shiftl 1 0.
Definition R_AARCH64_RELATIVE : Z := 0x403.

Record image_symbols := ImageSymbols {
  vector_table_sym : Z; image_load_addr : Z; pie_fixup : Z;
  GOT_START : Z; GOT_END : Z; RELA_DYN_START : Z; RELA_DYN_END : Z;
  val_image_load_offset : Z; bss_start_addr : Z; bss_end_addr : Z; text_start_addr : Z;
  stacks_end : Z;
  ret_flush : Z; ret_fixup : Z; ret_rela : Z  (* the instructions after the three calls *)
}.

Inductive sym := flush_dcache_range_sym | fix_symbol_table_sym | fix_rela_dyn_sym | val_main_sym.

Section Entry.
(** The translation granule the platform is built for. *)
Context (PAGE_ALIGNMENT : Z).
Context (im : image_symbols) (load_offset : Z).

Abbreviation code := (list (instr sym)).
(** [adrp r, s] and [add r, r, :lo12:s]. *)
Definition adr_of (r : reg) (s : Z) : code := [Adrp r (s + load_offset); AddImm r r (lo12 (s + load_offset))].
Definition page_mask : Z := Z.lnot (PAGE_ALIGNMENT - 1).

(** x0, x1: the first address of the image and the limit, as linked. *)
Definition fix_symbol_table_head : code :=
  [Mov X6 X0;
   Mov X7 X1;
   Orr X0 X0 X1;
   TstImm X0 (PAGE_ALIGNMENT - 1);
   Bcond EQ (L 1);
   B Here;
   Label 1;
   AndImm X2 X30 page_mask;
   Sub X0 X2 X6] ++
  adr_of X1 (GOT_START im) ++
  adr_of X2 (GOT_END im) ++
  [Label 2;
   Ldr X3 X1 0;
   Cmp X3 X6;
   Bcond LO (L 3);
   Cmp X3 X7;
   Bcond GE (L 3);
   Add X3 X3 X0;
   Str X3 X1 0;
   Label 3;
   AddImm X1 X1 8;
   Cmp X1 X2;
   Bcond LO (L 2)].
(** The entry code of EL0 partitions reaches the variable with one [adr]. *)
Definition fix_symbol_table (el0 : bool) : code :=
  fix_symbol_table_head ++
  (if el0 then [Adr X1 (val_image_load_offset im + load_offset)] else adr_of X1 (val_image_load_offset im)) ++
  [Str X0 X1 0;
   Ret_].

Definition fix_rela_dyn : code :=
  [Mov X6 X0;
   Mov X8 X1;
   Orr X3 X0 X1;
   TstImm X3 (PAGE_ALIGNMENT - 1);
   Bcond EQ (L 1);
   B Here;
   Label 1;
   AndImm X2 X30 page_mask;
   Sub X7 X2 X6;
   Adds X9 X6 X7;
   Bcond CS Here;
   Adds X10 X8 X7;
   Bcond CS Here] ++
  adr_of X1 (RELA_DYN_START im) ++
  adr_of X2 (RELA_DYN_END im) ++
  [Label 2;
   Cmp X1 X2;
   Bcond EQ (L 4);
   AddImm X12 X1 24;
   Cmp X12 X2;
   Bcond HI Here;
   Ldr X3 X1 0;
   Ldr X4 X1 8;
   Ldr X5 X1 16;
   CmpImm X4 R_AARCH64_RELATIVE;
   Bcond NE (L 3);
   Cmp X3 X6;
   Bcond LO Here;
   SubImm X11 X8 8;
   Cmp X3 X11;
   Bcond HI Here;
   Adds X3 X3 X7;
   Bcond CS Here;
   Cmp X3 X9;
   Bcond LO Here;
   SubImm X11 X10 8;
   Cmp X3 X11;
   Bcond HI Here;
   Add X5 X5 X7;
   Str X5 X3 0;
   Label 3;
   Mov X1 X12;
   B (L 2);
   Label 4;
   Ret_].

(** [dcache_line_size x2, x3] and the loop of [do_dcache_maintenance_by_mva civac]. *)
Definition flush_dcache_range : code :=
  [Cbz X1 (L 2);
   Mrs X3 CTR_EL0;
   Ubfx X3 X3 16 4;
   MovImm X2 4;
   Lslv X2 X2 X3;
   Add X1 X0 X1;
   SubImm X3 X2 1;
   Bic X0 X0 X3;
   Label 1;
   Dc X0;
   Add X0 X0 X2;
   Cmp X0 X1;
   Bcond LO (L 1);
   Barrier;
   Label 2;
   Ret_].

(** The compile-time limits of the image, in x0 and x1. *)
Definition image_limits : code :=
  [LdrLit X0 (pie_fixup im);
   AndImm X0 X0 page_mask;
   MovImm X1 IMAGE_SIZE;
   Add X1 X1 X0].

Definition clear_bss_setup : code :=
  adr_of X2 (val_image_load_offset im) ++ [Ldr X2 X2 0] ++
  adr_of X0 (bss_start_addr im) ++ [Ldr X0 X0 0; Add X0 X0 X2] ++
  adr_of X1 (bss_end_addr im) ++ [Ldr X1 X1 0; Add X1 X1 X2; Sub X1 X1 X0].
Definition clear_bss_loop : code :=
  [Label 2;
   Stp XZR XZR X0 0;
   AddImm X0 X0 16;
   SubImm X1 X1 16;
   Cmp XZR X1;
   Bcond NE (L 2)].
(** The word pair stored after the loop. *)
Definition clear_bss_tail : code := [Stp XZR XZR X0 0].

(** [at_el2] is [defined(VM1_COMPILE) && (PLATFORM_NS_HYPERVISOR_PRESENT == 0)],
    [tpm_sp] is [defined(TPM_SP_COMPILE)]. *)
Definition start_head (at_el2 : bool) : code :=
  let vbar := if at_el2 then VBAR_EL2 else VBAR_EL1 in
  let sctlr := if at_el2 then SCTLR_EL2 else SCTLR_EL1 in
  [Adr X0 (vector_table_sym im + load_offset);
   Msr vbar X0;
   Mrs X0 sctlr;
   AndImm X1 X0 SCTLR_M_BIT;
   Cmp XZR X1;
   Bcond EQ (L 1);
   B Here;
   Label 1;
   OrrImm X0 X0 SCTLR_I_BIT;
   Msr sctlr X0;
   Barrier;
   Adr X0 (image_load_addr im + load_offset);
   AndImm X0 X0 page_mask] ++
  adr_of X1 (bss_end_addr im) ++ [Ldr X1 X1 0] ++
  adr_of X2 (text_start_addr im) ++
  [Ldr X2 X2 0;
   Sub X1 X1 X2;
   Bl flush_dcache_range_sym (ret_flush im + load_offset);
   MovImm X1 (Z.shiftl 3 20);
   Mrs X0 CPACR_EL1;
   Orr X0 X0 X1;
   Msr CPACR_EL1 X0;
   Barrier].
Definition start_fixup : code := image_limits ++ [Bl fix_symbol_table_sym (ret_fixup im + load_offset)].
Definition start_stack : code := adr_of X0 (stacks_end im) ++ [Mov SP X0].
Definition start_rela (tpm_sp : bool) : code :=
  if tpm_sp then image_limits ++ [Bl fix_rela_dyn_sym (ret_rela im + load_offset)] else [].

Definition _start (at_el2 tpm_sp : bool) : code :=
  start_head at_el2 ++ start_fixup ++ start_stack ++ clear_bss_setup ++ clear_bss_loop ++ clear_bss_tail ++
  start_rela tpm_sp ++ [Tail val_main_sym].

(** The calls of [_start]; control does not come back from [val_main], where the
    execution ends. *)
Definition start_calls {W} (fuel : nat) (f : sym) (s : astate W) : outcome (astate W) :=
  let sub p := run (fun (_ : sym) s => Ret s) (fun s => Ret s) fuel p 0 s in
  match f with
  | flush_dcache_range_sym => sub flush_dcache_range
  | fix_symbol_table_sym => sub (fix_symbol_table false)
  | fix_rela_dyn_sym => sub fix_rela_dyn
  | val_main_sym => Ret s
  end.
End Entry.

(** ** What the relocations do, as functions of the memory

    [base] and [limit] are the bounds of the image as linked, [off] the load offset. *)
Section Relocation.
Context (base limit off : Z).

(** An entry of the global offset table that is moved; the upper bound is compared
    as a signed number. *)
Definition got_moves (v : Z) : bool := (base <=? v) && (sint 64 v <? sint 64 limit).

(** The [n] entries from [a] on. *)
Fixpoint got_fix (n : nat) (m : mem) (a : Z) : mem :=
  match n with
  | O => m
  | S n' => let v := ldn 8 m a in
            got_fix n' (if got_moves v then stn 8 m a (u64 (v + off)) else m) (a + 8)
  end.

(** A dynamic relocation record at [a]; [None] is [b .]. *)
Definition rela_fix_one (m : mem) (a : Z) : option mem :=
  let r_offset := ldn 8 m a in
  let r_info := ldn 8 m (a + 8) in
  let r_addend := ldn 8 m (a + 16) in
  if negb (r_info =? R_AARCH64_RELATIVE) then Some m
  else if (r_offset <? base) || (limit - 8 <? r_offset) || (2 ^ 64 <=? r_offset + off)
          || (r_offset + off <? base + off) || (limit + off - 8 <? r_offset + off) then None
  else Some (stn 8 m (r_offset + off) (u64 (r_addend + off))).

Fixpoint rela_fix (n : nat) (m : mem) (a : Z) : option mem :=
  match n with
  | O => Some m
  | S n' => m' ← rela_fix_one m a; rela_fix n' m' (a + 24)
  end.
End Relocation.
