(* ===== verification/EntryProof.v ===== *)
(** * The entry code establishes what C relies on

    Each routine of [Entry] run instruction by instruction: what it leaves in memory is
    the reference function of the relocations or a cleared range, it ends, and nothing
    else changes.  [_start] then puts them together. *)

From S2P Require Import Prelude CMem Asm Entry.

Lemma ldn8_uint m a : is_uint 64 (ldn 8 m a).
Proof. exact (ldn_range 8 m a). Qed.
#[export] Hint Resolve ldn8_uint : cint.

Lemma adr_eq a : is_uint 64 a -> u64 (u64 (page_of a) + lo12 a) = a.
Proof.
  intros Ha. unfold page_of, lo12, is_uint in *. pose proof (Z.mod_pos_bound a 4096 ltac:(lia)).
  pose proof (Z.mod_le a 4096 ltac:(lia) ltac:(lia)). usmall. lia.
Qed.

(** Masks of a granule of [2 ^ k] bytes. *)
Section Granule.
Context (k : Z) (Hk : 12 <= k <= 16).

Lemma page_mask_land x : is_uint 64 x -> Z.land x (u64 (page_mask (2 ^ k))) = x - x mod 2 ^ k.
Proof. intros Hx. unfold page_mask. rewrite <- ones_pow2. apply land_lnot_ones; [lia | done]. Qed.

Lemma granule_size : 2 ^ 12 <= 2 ^ k <= 2 ^ 16.
Proof. split; apply Z.pow_le_mono_r; lia. Qed.

Lemma page_offset_land x : Z.land x (u64 (2 ^ k - 1)) = x mod 2 ^ k.
Proof.
  pose proof granule_size. rewrite uwrap_small by lia. rewrite <- ones_pow2. by rewrite Z.land_ones by lia.
Qed.

Lemma lor_aligned x y : (Z.lor x y mod 2 ^ k =? 0) = (x mod 2 ^ k =? 0) && (y mod 2 ^ k =? 0).
Proof.
  rewrite <- !Z.land_ones by lia. rewrite Z.land_lor_distr_l.
  destruct (Z.eqb_spec (Z.land x (Z.ones k)) 0) as [E|E], (Z.eqb_spec (Z.land y (Z.ones k)) 0) as [E'|E']; cbn [andb].
  - by rewrite E, E'.
  - apply Z.eqb_neq. intros F. apply Z.lor_eq_0_iff in F. tauto.
  - apply Z.eqb_neq. intros F. apply Z.lor_eq_0_iff in F. tauto.
  - apply Z.eqb_neq. intros F. apply Z.lor_eq_0_iff in F. tauto.
Qed.
End Granule.

(** ** The global offset table *)
Section Got.
Context {W : Type} (call : sym -> astate W -> outcome (astate W)) (conduit : astate W -> outcome (astate W)).
Context (PA : Z) (im : image_symbols) (lo : Z) (el0 : bool).
Context (base limit off : Z) (Hbase : is_uint 64 base) (Hlimit : is_uint 64 limit).
Abbreviation prog := (fix_symbol_table PA im lo el0).

(** From label 2 to label 3: the entry. *)
Lemma got_entry s a :
  rf s X0 = off -> rf s X1 = a -> rf s X6 = base -> rf s X7 = limit -> is_uint 64 a ->
  exists s', reaches call conduit prog 13 s 21 s' /\
    amem s' = (if got_moves base limit (ldn 8 (amem s) a) then stn 8 (amem s) a (u64 (ldn 8 (amem s) a + off)) else amem s) /\
    same_but [X3] s s'.
Proof.
  intros E0 E1 E6 E7 Ha. unfold got_moves. pose proof (ldn8_uint (amem s) a) as Hv.
  assert (Ea : ldn 8 (amem s) (u64 (rf s X1 + 0)) = ldn 8 (amem s) a).
  { rewrite E1, Z.add_0_r. by rewrite uwrap_small. }
  destruct (Z.leb_spec base (ldn 8 (amem s) a)) as [H1|H1]; cbn [andb];
    [destruct (Z.ltb_spec (sint 64 (ldn 8 (amem s) a)) (sint 64 limit)) as [H2|H2]|]; eexists; split.
  - do 3 anext. askip ltac:(rewrite ?Ea, ?E6, holds_lo, (proj2 (Z.ltb_ge _ _) H1)).
    anext. askip ltac:(rewrite ?Ea, ?E7, holds_ge, (proj2 (Z.leb_gt _ _) H2) by done). do 2 anext. apply reaches_refl.
  - asimpl. rewrite ?Ea, E0, E1, Z.add_0_r, (uwrap_small 64 a) by done. split; [done|]. akeep.
  - do 3 anext. askip ltac:(rewrite ?Ea, ?E6, holds_lo, (proj2 (Z.ltb_ge _ _) H1)).
    anext. agoto ltac:(rewrite ?Ea, ?E7, holds_ge, (proj2 (Z.leb_le _ _) H2) by done). apply reaches_refl.
  - split; [done|]. akeep.
  - do 3 anext. agoto ltac:(rewrite ?Ea, ?E6, holds_lo, (proj2 (Z.ltb_lt _ _) H1)). apply reaches_refl.
  - split; [done|]. akeep.
Qed.

(** The loop over [n + 1] entries. *)
Lemma got_loop n s a :
  rf s X0 = off -> rf s X1 = a -> rf s X2 = a + 8 * Z.of_nat (S n) -> rf s X6 = base -> rf s X7 = limit ->
  0 <= a -> a + 8 * Z.of_nat (S n) < 2 ^ 64 ->
  exists s', reaches call conduit prog 13 s 25 s' /\
    amem s' = got_fix base limit off (S n) (amem s) a /\ same_but [X1; X3] s s'.
Proof.
  revert s a. induction n as [|n IH]; intros s a E0 E1 E2 E6 E7 Ha Hn;
    (destruct (got_entry s a E0 E1 E6 E7) as (s1 & R1 & M1 & K1); [unfold is_uint; lia|]);
    pose proof (proj1 K1) as KR.
  - eexists. split.
    { eapply reaches_trans; [exact R1|]. do 3 anext.
      askip ltac:(rewrite !KR, E1, E2, holds_lo by (cbn; intuition congruence); rewrite (uwrap_small 64) by lia; rewrite Z.ltb_irrefl).
      apply reaches_refl. }
    asimpl. split; [exact M1|]. eapply same_but_trans; [eapply same_but_weaken; [exact K1 | cbn; tauto]|].
    akeep.
  - destruct (IH (set_flags (sub_flags (a + 8) (a + 8 * Z.of_nat (S (S n)))) (set X1 (a + 8) s1)) (a + 8)) as (s2 & R2 & M2 & K2);
      try (asimpl; rewrite ?KR by (cbn; intuition congruence); done || lia).
    exists s2. split.
    { eapply reaches_trans; [exact R1|]. do 3 anext.
      agoto ltac:(rewrite !KR, E1, E2, holds_lo by (cbn; intuition congruence); rewrite (uwrap_small 64) by lia;
                  rewrite (proj2 (Z.ltb_lt _ _)) by lia).
      exact R2. }
    rewrite M2. asimpl. rewrite M1. split; [done|].
    eapply same_but_trans; [eapply same_but_weaken; [exact K1 | cbn; tauto]|]. eapply same_but_trans; [|exact K2].
    akeep.
Qed.

Context (k : Z) (n : nat) (gs var : Z).
Context (Hpa : PA = 2 ^ k) (Hk : 12 <= k <= 16) (Ab : base mod PA = 0) (Al : limit mod PA = 0).
Context (Hgs : GOT_START im + lo = gs) (Hge : GOT_END im + lo = gs + 8 * Z.of_nat (S n)).
Context (Hg0 : 0 <= gs) (Hg1 : gs + 8 * Z.of_nat (S n) < 2 ^ 64).
Context (Hvar : val_image_load_offset im + lo = var) (Hvu : is_uint 64 var).

Lemma got_head s :
  rf s X0 = base -> rf s X1 = limit -> is_uint 64 (rf s X30) ->
  off = u64 (rf s X30 - rf s X30 mod PA - base) ->
  exists s1, reaches call conduit prog 0 s 13 s1 /\
    rf s1 X0 = off /\ rf s1 X1 = gs /\ rf s1 X2 = gs + 8 * Z.of_nat (S n) /\ rf s1 X6 = base /\ rf s1 X7 = limit /\
    amem s1 = amem s /\ same_but [X0; X1; X2; X6; X7] s s1.
Proof.
  intros E0 E1 H30 Hoff.
  assert (Hal : (Z.land (Z.lor base limit) (u64 (PA - 1)) =? 0) = true).
  { rewrite Hpa, page_offset_land, lor_aligned by done. rewrite <- Hpa, Ab, Al. done. }
  eexists. split.
  { do 4 anext. agoto ltac:(cbn [holds and_flags f_z]; rewrite E0, E1, Hal). do 7 anext. apply reaches_refl. }
  asimpl. rewrite ?E0, ?E1, Hgs, Hge, !adr_eq by (unfold is_uint; lia). split_and!; try done; [|akeep].
  rewrite Hoff, Hpa, page_mask_land by done. done.
Qed.

(** The whole routine. *)
Lemma fix_symbol_table_ends s :
  rf s X0 = base -> rf s X1 = limit -> is_uint 64 (rf s X30) ->
  off = u64 (rf s X30 - rf s X30 mod PA - base) ->
  exists s', ends call conduit prog 0 s (Ret s') /\
    amem s' = stn 8 (got_fix base limit off (S n) (amem s) gs) var off /\
    same_but [X0; X1; X2; X3; X6; X7] s s'.
Proof.
  intros E0 E1 H30 Hoff.
  destruct (got_head s E0 E1 H30 Hoff) as (s1 & R1 & F0 & F1 & F2 & F6 & F7 & M1 & K1).
  destruct (got_loop n s1 gs F0 F1 F2 F6 F7 Hg0 Hg1) as (s2 & R2 & M2 & K2).
  assert (K : same_but [X0; X1; X2; X3; X6; X7] s s2).
  { eapply same_but_trans; [eapply same_but_weaken; [exact K1 | cbn; tauto] | eapply same_but_weaken; [exact K2 | cbn; tauto]]. }
  assert (E : rf s2 X0 = off) by (rewrite (proj1 K2) by (cbn; intuition congruence); done).
  destruct el0; eexists; (split;
    [eapply ends_reaches; [exact R1|]; eapply ends_reaches; [exact R2|]; repeat first [astop | anext] |]);
    asimpl; rewrite E, Hvar, ?adr_eq, Z.add_0_r, ?(uwrap_small 64 var), M2, M1 by (rewrite ?(uwrap_small 64 var); done);
    (split; [done|]); (eapply same_but_trans; [exact K|]; akeep).
Qed.
End Got.

(** ** Dynamic relocations *)
Section Rela.
Context {W : Type} (call : sym -> astate W -> outcome (astate W)) (conduit : astate W -> outcome (astate W)).
Context (PA : Z) (im : image_symbols) (lo : Z).
Context (base limit off : Z) (Hbase : 0 <= base) (Hlimit : base + 8 <= limit) (Hoff : 0 <= off) (Htop : limit + off < 2 ^ 64).
Abbreviation prog := (fix_rela_dyn PA im lo).

(** The registers the loop relies on. *)
Definition rela_regs (s : astate W) (a e : Z) : Prop :=
  rf s X1 = a /\ rf s X2 = e /\ rf s X6 = base /\ rf s X7 = off /\ rf s X8 = limit /\
  rf s X9 = base + off /\ rf s X10 = limit + off.

(** Rewrites with the loaded words and the register values. *)
Local Ltac norm L0 L1 L2 E6 E7 E8 E9 E10 := rewrite ?L0, ?L1, ?L2, ?E6, ?E7, ?E8, ?E9, ?E10.

(** From the loads to label 3, or a hang. *)
Lemma rela_record s a e :
  rela_regs s a e -> 0 <= a -> a + 24 <= e -> e < 2 ^ 64 ->
  match rela_fix_one base limit off (amem s) a with
  | Some m => exists s', reaches call conduit prog 23 s 42 s' /\ amem s' = m /\ same_but [X3; X4; X5; X11] s s'
  | None => ends call conduit prog 23 s Panic
  end.
Proof.
  intros (E1 & E2 & E6 & E7 & E8 & E9 & E10) Ha Hae He. unfold rela_fix_one.
  assert (L0 : ldn 8 (amem s) (u64 (rf s X1 + 0)) = ldn 8 (amem s) a) by (rewrite E1, Z.add_0_r, uwrap_small; [done | lia]).
  assert (L1 : ldn 8 (amem s) (u64 (rf s X1 + 8)) = ldn 8 (amem s) (a + 8)) by (rewrite E1, uwrap_small; [done | lia]).
  assert (L2 : ldn 8 (amem s) (u64 (rf s X1 + 16)) = ldn 8 (amem s) (a + 16)) by (rewrite E1, uwrap_small; [done | lia]).
  pose proof (ldn8_uint (amem s) a) as Hv. pose proof (ldn8_uint (amem s) (a + 8)) as Hi.
  set (v := ldn 8 (amem s) a) in *. set (info := ldn 8 (amem s) (a + 8)) in *.
  assert (U : forall x, 0 <= x < 2 ^ 64 -> is_uint 64 x) by done.
  unfold is_uint in Hv.
  destruct (Z.eqb_spec info R_AARCH64_RELATIVE) as [Er|Er]; cbn [negb].
  2:{ eexists. split.
      { do 4 anext. agoto ltac:(rewrite ?L0, ?L1, ?L2, holds_ne, (proj2 (Z.eqb_neq _ _) Er) by (done || unfold R_AARCH64_RELATIVE, is_uint; lia)). apply reaches_refl. }
      split; [done | akeep]. }
  destruct (Z.ltb_spec v base) as [H1|H1]; cbn [orb];
    [|destruct (Z.ltb_spec (limit - 8) v) as [H2|H2]; cbn [orb];
      [|destruct (Z.leb_spec (2 ^ 64) (v + off)) as [H3|H3]; cbn [orb];
        [|rewrite (proj2 (Z.ltb_ge (v + off) (base + off))) by lia; cbn [orb];
          rewrite (proj2 (Z.ltb_ge (limit + off - 8) (v + off))) by lia]]].
  all: try (eexists; split).
  1-4: do 4 anext; askip ltac:(norm L0 L1 L2 E6 E7 E8 E9 E10; rewrite holds_ne, Er, Z.eqb_refl by done); anext.
  - ahang ltac:(norm L0 L1 L2 E6 E7 E8 E9 E10; rewrite holds_lo, (proj2 (Z.ltb_lt _ _) H1)).
  - askip ltac:(norm L0 L1 L2 E6 E7 E8 E9 E10; rewrite holds_lo, (proj2 (Z.ltb_ge _ _) H1)). do 2 anext.
    ahang ltac:(norm L0 L1 L2 E6 E7 E8 E9 E10; rewrite (uwrap_small 64 (limit - 8)), holds_hi, (proj2 (Z.ltb_lt _ _) H2) by (unfold is_uint; lia)).
  - askip ltac:(norm L0 L1 L2 E6 E7 E8 E9 E10; rewrite holds_lo, (proj2 (Z.ltb_ge _ _) H1)). do 2 anext.
    askip ltac:(norm L0 L1 L2 E6 E7 E8 E9 E10; rewrite (uwrap_small 64 (limit - 8)), holds_hi, (proj2 (Z.ltb_ge _ _) H2) by (unfold is_uint; lia)).
    anext. ahang ltac:(norm L0 L1 L2 E6 E7 E8 E9 E10; rewrite holds_cs_add, (proj2 (Z.leb_le _ _) H3)).
  - askip ltac:(norm L0 L1 L2 E6 E7 E8 E9 E10; rewrite holds_lo, (proj2 (Z.ltb_ge _ _) H1)). do 2 anext.
    askip ltac:(norm L0 L1 L2 E6 E7 E8 E9 E10; rewrite (uwrap_small 64 (limit - 8)), holds_hi, (proj2 (Z.ltb_ge _ _) H2) by (unfold is_uint; lia)).
    anext. askip ltac:(norm L0 L1 L2 E6 E7 E8 E9 E10; rewrite holds_cs_add, (proj2 (Z.leb_gt _ _) H3)).
    anext. askip ltac:(norm L0 L1 L2 E6 E7 E8 E9 E10; rewrite (uwrap_small 64 (v + off)), holds_lo, (proj2 (Z.ltb_ge _ _)) by lia).
    do 2 anext. askip ltac:(norm L0 L1 L2 E6 E7 E8 E9 E10; rewrite (uwrap_small 64 (limit + off - 8)), holds_hi, (proj2 (Z.ltb_ge _ _)) by (unfold is_uint; lia)).
    do 2 anext. apply reaches_refl.
  - asimpl. norm L0 L1 L2 E6 E7 E8 E9 E10. rewrite Z.add_0_r, !(uwrap_small 64 (v + off)) by lia. split; [done | akeep].
Qed.

Lemma rela_regs_same s s' a e : rela_regs s a e -> same_but [X3; X4; X5; X11; X12] s s' -> rela_regs s' a e.
Proof. intros H [K _]. unfold rela_regs in *. rewrite !K by (cbn; intuition congruence). done. Qed.

Lemma rela_next s a e :
  rela_regs s a e -> 0 <= a -> a + 24 <= e -> e < 2 ^ 64 ->
  exists s', reaches call conduit prog 17 s 23 s' /\ amem s' = amem s /\ rf s' X12 = a + 24 /\ same_but [X12] s s'.
Proof.
  intros (E1 & E2 & _) Ha Hae He. eexists. split.
  { do 2 anext. askip ltac:(rewrite ?E1, ?E2, holds_eq, (proj2 (Z.eqb_neq _ _)) by (unfold is_uint; lia)).
    do 2 anext. askip ltac:(rewrite ?E1, ?E2, (uwrap_small 64 (a + 24)), holds_hi, (proj2 (Z.ltb_ge _ _)) by (unfold is_uint; lia)).
    apply reaches_refl. }
  asimpl. rewrite ?E1, ?(uwrap_small 64 (a + 24)) by lia. split_and!; [done | done | akeep].
Qed.

Lemma rela_loop n s a :
  rela_regs s a (a + 24 * Z.of_nat n) -> 0 <= a -> a + 24 * Z.of_nat n < 2 ^ 64 ->
  match rela_fix base limit off n (amem s) a with
  | Some m => exists s', ends call conduit prog 17 s (Ret s') /\ amem s' = m /\ same_but [X1; X3; X4; X5; X11; X12] s s'
  | None => ends call conduit prog 17 s Panic
  end.
Proof.
  revert s a. induction n as [|n IH]; intros s a Hr Ha Hn; cbn [rela_fix].
  { destruct Hr as (E1 & E2 & _). eexists. split.
    { do 2 anext. agoto ltac:(rewrite ?E1, ?E2, Z.add_0_r, holds_eq, Z.eqb_refl by (unfold is_uint; lia)). anext. astop. }
    split; [done | akeep]. }
  destruct (rela_next s a _ Hr Ha ltac:(lia) Hn) as (s1 & R1 & M1 & E12 & K1).
  assert (K1' : same_but [X3; X4; X5; X11; X12] s s1) by (eapply same_but_weaken; [exact K1 | cbn; tauto]).
  pose proof (rela_record s1 a _ (rela_regs_same _ _ _ _ Hr K1') Ha ltac:(lia) Hn) as Hrec. rewrite M1 in Hrec.
  destruct (rela_fix_one base limit off (amem s) a) as [m|]; cbn [mbind option_bind].
  2:{ eapply ends_reaches; [exact R1 | exact Hrec]. }
  destruct Hrec as (s2 & R2 & M2 & K2).
  assert (K2' : same_but [X3; X4; X5; X11; X12] s s2) by (eapply same_but_trans; [exact K1' | eapply same_but_weaken; [exact K2 | cbn; tauto]]).
  pose proof (rela_regs_same _ _ _ _ Hr K2') as Hr2.
  assert (E12' : rf s2 X12 = a + 24) by (rewrite (proj1 K2) by (cbn; intuition congruence); done).
  set (s3 := set X1 (a + 24) s2).
  assert (R3 : reaches call conduit prog 17 s 17 s3).
  { eapply reaches_trans; [exact R1|]. eapply reaches_trans; [exact R2|]. do 2 anext. rewrite E12'. agoto idtac. apply reaches_refl. }
  assert (Hr3 : rela_regs s3 (a + 24) (a + 24 + 24 * Z.of_nat n)).
  { unfold rela_regs in *. unfold s3. asimpl. destruct Hr2 as (_ & ? & ?). split_and!; try tauto. lia. }
  specialize (IH s3 (a + 24) Hr3 ltac:(lia) ltac:(lia)). replace (amem s3) with m in IH by (unfold s3; by asimpl).
  destruct (rela_fix base limit off n m (a + 24)) as [m'|].
  - destruct IH as (s' & R & M & K). exists s'. split; [eapply ends_reaches; [exact R3 | exact R]|]. split; [exact M|].
    eapply same_but_trans; [|exact K]. eapply same_but_trans; [eapply same_but_weaken; [exact K2' | cbn; tauto] | unfold s3; akeep].
  - eapply ends_reaches; [exact R3 | exact IH].
Qed.

Context (k : Z) (n : nat) (rs : Z).
Context (Hpa : PA = 2 ^ k) (Hk : 12 <= k <= 16) (Ab : base mod PA = 0) (Al : limit mod PA = 0).
Context (Hrs : RELA_DYN_START im + lo = rs) (Hre : RELA_DYN_END im + lo = rs + 24 * Z.of_nat n).
Context (Hr0 : 0 <= rs) (Hr1 : rs + 24 * Z.of_nat n < 2 ^ 64).

(** The whole routine. *)
Lemma fix_rela_dyn_ends s :
  rf s X0 = base -> rf s X1 = limit -> is_uint 64 (rf s X30) -> off = u64 (rf s X30 - rf s X30 mod PA - base) ->
  match rela_fix base limit off n (amem s) rs with
  | Some m => exists s', ends call conduit prog 0 s (Ret s') /\ amem s' = m /\
      same_but [X1; X2; X3; X4; X5; X6; X7; X8; X9; X10; X11; X12] s s'
  | None => ends call conduit prog 0 s Panic
  end.
Proof.
  intros E0 E1 H30 Eoff.
  assert (Hal : (Z.land (Z.lor base limit) (u64 (PA - 1)) =? 0) = true).
  { rewrite Hpa, page_offset_land, lor_aligned by done. rewrite <- Hpa, Ab, Al. done. }
  assert (E7 : u64 (Z.land (rf s X30) (u64 (page_mask PA)) - base) = off).
  { rewrite Hpa, page_mask_land by done. by rewrite Eoff, Hpa. }
  assert (exists s1, reaches call conduit prog 0 s 17 s1 /\ amem s1 = amem s /\ rela_regs s1 rs (rs + 24 * Z.of_nat n) /\
            same_but [X1; X2; X3; X6; X7; X8; X9; X10] s s1) as (s1 & R1 & M1 & Hr & K1).
  { eexists. split.
    { do 4 anext. agoto ltac:(cbn [holds and_flags f_z]; rewrite ?E0, ?E1, Hal). do 4 anext.
      askip ltac:(rewrite ?E0, ?E1, ?E7, holds_cs_add, (proj2 (Z.leb_gt _ _)) by lia). anext.
      askip ltac:(rewrite ?E0, ?E1, ?E7, holds_cs_add, (proj2 (Z.leb_gt _ _)) by lia). do 4 anext. apply reaches_refl. }
    split; [done|]. split; [|akeep]. unfold rela_regs. asimpl. rewrite ?E0, ?E1, ?E7, Hrs, Hre, !adr_eq by (unfold is_uint; lia).
    rewrite !(uwrap_small 64) by lia. split_and!; done. }
  pose proof (rela_loop n s1 rs Hr Hr0 Hr1) as Hl. rewrite M1 in Hl.
  destruct (rela_fix base limit off n (amem s) rs) as [m|]; [|by eapply ends_reaches; [exact R1|]].
  destruct Hl as (s' & R & M & K). exists s'. split; [by eapply ends_reaches; [exact R1|]|]. split; [exact M|].
  eapply same_but_trans; [eapply same_but_weaken; [exact K1 | cbn; tauto] | eapply same_but_weaken; [exact K | cbn; tauto]].
Qed.
End Rela.

(** *** Every store of the routine

    Nothing is asked here of the table, of where it is, or of the load offset. *)
Section RelaStores.
Context {W : Type} (call : sym -> astate W -> outcome (astate W)) (conduit : astate W -> outcome (astate W)).
Context (PA : Z) (im : image_symbols) (lo : Z).
Context (base limit off : Z) (Hbase : 0 <= base) (Hlimit : base + 8 <= limit < 2 ^ 64) (Hoff : is_uint 64 off).
Context (m0 : mem).
Abbreviation prog := (fix_rela_dyn PA im lo).
Abbreviation confined := (fun s : astate W => frame (base + off) (limit - base) m0 (amem s)).
Abbreviation visited := (visits call conduit prog confined).

(** What every turn of the loop keeps. *)
Definition loop_regs (s : astate W) : Prop :=
  rf s X6 = base /\ rf s X7 = off /\ rf s X8 = limit /\ rf s X9 = base + off /\ rf s X10 = limit + off /\ limit + off < 2 ^ 64.
Definition rela_inv (s : astate W) : Prop := loop_regs s /\ confined s.

Local Ltac keeps := unfold rela_inv, loop_regs in *; asimpl; cbn [amem set set_flags]; tauto.
Local Ltac vnext := eapply visits_next; [reflexivity | reflexivity | assumption |]; asimpl.
Local Ltac vbranch := eapply visits_branch; [reflexivity | assumption | |].

Lemma rela_tail n s : rela_inv s -> (forall m s', (m < n)%nat -> rela_inv s' -> visited m 17 s') -> visited n 42 s.
Proof.
  intros [HJ HC] IH. do 2 vnext. eapply visits_goto; [reflexivity | reflexivity | reflexivity | assumption |].
  intros m Hm. apply IH; [done | keeps].
Qed.

Lemma rela_body n s : rela_inv s -> (forall m s', (m < n)%nat -> rela_inv s' -> visited m 17 s') -> visited n 23 s.
Proof.
  intros [HJ HC] IH. pose proof HJ as (E6 & E7 & E8 & E9 & E10 & Ht). do 4 vnext. vbranch.
  { intros _. exists 42%nat. split; [reflexivity|]. intros m Hm. apply rela_tail; [keeps|]. intros; apply IH; [lia | done]. }
  intros _. vnext. vbranch; [done|]. intros _. do 2 vnext. vbranch; [done|]. intros _. vnext. vbranch; [done|]. intros _.
  vnext. vbranch; [done|]. asimpl. set (x := u64 (_ + rf s X7)). assert (Hx : is_uint 64 x) by (apply uwrap_is_uint; lia).
  unfold is_uint in *. rewrite E9, holds_lo by (unfold is_uint; lia). intros H1%Z.ltb_ge.
  do 2 vnext. vbranch; [done|]. asimpl. fold x. rewrite E10, (uwrap_small 64 (limit + off - 8)), holds_hi by (unfold is_uint; lia).
  intros H2%Z.ltb_ge. do 2 vnext. fold x. apply rela_tail; [|exact IH]. split; [keeps|].
  unfold st64. cbn [amem set set_flags set_amem]. eapply frame_trans; [exact HC|]. rewrite Z.add_0_r, (uwrap_small 64 x) by lia.
  eapply frame_widen; [apply (frame_stn 8) | lia | lia].
Qed.

Lemma rela_loop_visits n s : rela_inv s -> visited n 17 s.
Proof.
  revert s. induction (lt_wf n) as [n _ IH]. intros s HI. pose proof HI as [HJ HC]. do 2 vnext. vbranch.
  { intros _. exists 45%nat. split; [reflexivity|]. intros m Hm. vnext. eapply visits_stop; [reflexivity | reflexivity | assumption | assumption]. }
  intros _. do 2 vnext. vbranch; [done|]. intros _. apply rela_body; [keeps|]. intros m s' Hm. by apply IH.
Qed.

Lemma fix_rela_dyn_visits n s :
  rf s X0 = base -> rf s X1 = limit -> off = u64 (Z.land (rf s X30) (u64 (page_mask PA)) - base) -> amem s = m0 ->
  visited n 0 s.
Proof.
  intros E0 E1 Eoff Em. assert (HC : confined s) by (rewrite Em; apply frame_refl). unfold is_uint in Hoff.
  do 4 vnext. vbranch; [|intros _; eapply visits_hang; [reflexivity | reflexivity | assumption]].
  intros _. exists 6%nat. split; [reflexivity|]. intros m _. do 4 vnext. vbranch; [done|].
  asimpl. rewrite E0, <- Eoff, holds_cs_add. intros H1%Z.leb_gt. vnext. vbranch; [done|].
  asimpl. rewrite E1, holds_cs_add. intros H2%Z.leb_gt. do 4 vnext.
  apply rela_loop_visits. split; [|assumption]. unfold loop_regs. asimpl. rewrite ?E0, ?E1, <- ?Eoff, !uwrap_small by lia.
  split_and!; done || lia.
Qed.
End RelaStores.

(** ** Clearing .bss and flushing the image *)

(** What the loop of [_start] does to the memory: [n] pairs of words from [a] on. *)
Fixpoint clear_pairs (n : nat) (m : mem) (a : Z) : mem :=
  match n with
  | O => m
  | S n' => clear_pairs n' (stn 8 (stn 8 m a 0) (a + 8) 0) (a + 16)
  end.

Lemma clear_pairs_frame n m a : frame a (16 * Z.of_nat n) m (clear_pairs n m a).
Proof.
  revert m a. induction n as [|n IH]; intros m a b Hb; [done|]. cbn [clear_pairs]. rewrite IH by lia. by memsimp.
Qed.

Lemma ld8_stn_zero k m a b : a <= b < a + Z.of_nat k -> ld8 (stn k m a 0) b = 0.
Proof.
  intros Hb. replace b with (a + (b - a)) by lia. rewrite ld8_stn_in by lia. by rewrite Z.div_0_l by (apply Z.pow_nonzero; lia).
Qed.

Lemma clear_pairs_zero n m a b : a <= b < a + 16 * Z.of_nat n -> ld8 (clear_pairs n m a) b = 0.
Proof.
  revert m a. induction n as [|n IH]; intros m a Hb; [lia|]. cbn [clear_pairs].
  destruct (Z.ltb_spec b (a + 16)); [|apply IH; lia]. rewrite clear_pairs_frame by lia.
  destruct (Z.ltb_spec b (a + 8)).
  - rewrite ld8_stn_out by lia. apply ld8_stn_zero. lia.
  - apply ld8_stn_zero. lia.
Qed.

Lemma land_below x y : 0 <= x -> 0 <= y -> 0 <= Z.land x y <= x.
Proof.
  intros Hx Hy. pose proof (proj2 (Z.land_nonneg x y) (or_introl Hx)) as H0. split; [done|].
  pose proof (Z.add_lor_land (Z.ldiff x y) (Z.land x y)) as E. rewrite Z.lor_ldiff_and in E.
  assert (Z.land (Z.ldiff x y) (Z.land x y) = 0) as F.
  { apply Z.bits_inj'. intros i Hi. rewrite !Z.land_spec, Z.ldiff_spec, Z.bits_0. by destruct (Z.testbit x i), (Z.testbit y i). }
  pose proof (proj2 (Z.ldiff_nonneg x y) (or_introl Hx)). lia.
Qed.

Section Flush.
Context {W : Type} (call : sym -> astate W -> outcome (astate W)) (conduit : astate W -> outcome (astate W)).

(** Each round goes on by one cache line. *)
Lemma flush_loop n s line e :
  rf s X1 = e -> rf s X2 = line -> 0 < line -> 0 <= rf s X0 -> rf s X0 + line < 2 ^ 64 -> e + line < 2 ^ 64 -> 0 <= e ->
  e - rf s X0 <= Z.of_nat n ->
  exists s', reaches call conduit flush_dcache_range 8 s 13 s' /\ amem s' = amem s /\ same_but [X0] s s'.
Proof.
  revert s. induction n as [|n IH]; intros s E1 E2 Hl H0 H64 He He0 Hn;
    (destruct (Z.ltb_spec (rf s X0 + line) e) as [Hc|Hc]; [try lia|]).
  1,3: eexists; split;
    [do 4 anext; askip ltac:(rewrite ?E1, ?E2, holds_lo, (uwrap_small 64), (proj2 (Z.ltb_ge _ _)) by lia); apply reaches_refl
    | split; [done | akeep]].
  set (s1 := set_flags (sub_flags (rf s X0 + line) e) (set X0 (rf s X0 + line) s)).
  destruct (IH s1) as (s2 & R2 & M2 & K2); try (unfold s1; asimpl; (done || lia)).
  exists s2. split.
  { do 4 anext. agoto ltac:(rewrite ?E1, ?E2, holds_lo, (uwrap_small 64), (proj2 (Z.ltb_lt _ _)) by lia). exact R2. }
  split; [by rewrite M2|]. eapply same_but_trans; [|exact K2]. unfold s1. akeep.
Qed.

Lemma flush_ends s :
  is_uint 64 (rf s X0) -> is_uint 64 (rf s X1) -> rf s X0 + rf s X1 + 2 ^ 17 < 2 ^ 64 ->
  exists s', ends call conduit flush_dcache_range 0 s (Ret s') /\ amem s' = amem s /\ same_but [X0; X1; X2; X3] s s'.
Proof.
  intros U0 U1 Hsum. unfold is_uint in U0, U1. destruct (Z.eqb_spec (rf s X1) 0) as [E|E].
  { eexists. split; [agoto ltac:(rewrite E); anext; astop|]. split; [done | akeep]. }
  set (c := Z.land (Z.shiftr (sys s CTR_EL0) 16) (Z.ones 4)).
  assert (Hc : 0 <= c <= 15).
  { unfold c. rewrite Z.land_ones by lia. pose proof (Z.mod_pos_bound (Z.shiftr (sys s CTR_EL0) 16) (2 ^ 4) ltac:(lia)). lia. }
  assert (Hline : 0 < Z.shiftl 4 c <= 2 ^ 17).
  { rewrite Z.shiftl_mul_pow2 by lia. pose proof (Z.pow_le_mono_r 2 c 15 ltac:(lia) ltac:(lia)).
    pose proof (Z.pow_pos_nonneg 2 c ltac:(lia) ltac:(lia)). lia. }
  set (line := Z.shiftl 4 c) in *.
  assert (exists s1, reaches call conduit flush_dcache_range 0 s 8 s1 /\ amem s1 = amem s /\ same_but [X0; X1; X2; X3] s s1 /\
            rf s1 X1 = rf s X0 + rf s X1 /\ rf s1 X2 = line /\ 0 <= rf s1 X0 <= rf s X0) as (s1 & R1 & M1 & K1 & E1 & E2 & H0).
  { eexists. split.
    { askip ltac:(rewrite (proj2 (Z.eqb_neq _ _) E)). do 7 anext. apply reaches_refl. }
    asimpl. fold c. rewrite (Z.mod_small c 64), (uwrap_small 64 4) by lia. fold line. rewrite (uwrap_small 64 line), (uwrap_small 64 (rf s X0 + rf s X1)) by lia.
    split_and!; try done; [akeep | |]; apply land_below; try lia; apply uwrap_range; lia. }
  destruct (flush_loop (Z.to_nat (rf s X0 + rf s X1)) s1 line (rf s X0 + rf s X1)) as (s2 & R2 & M2 & K2); try (done || lia).
  eexists. split.
  { eapply ends_reaches; [exact R1|]. eapply ends_reaches; [exact R2|]. do 2 anext. astop. }
  split; [congruence|]. eapply same_but_trans; [exact K1 | eapply same_but_weaken; [exact K2 | cbn; tauto]].
Qed.
End Flush.
