(* ===== verification/StartProof.v ===== *)
(** * From the loader to val_main

    [_start] run on an image as the loader leaves it: where it hands over to
    [val_main], the stack pointer, .bss, the global offset table and the system
    registers are what the C code relies on, and nothing else of the memory changed,
    the 16 bytes after .bss apart. *)

From S2P Require Import Prelude CMem Asm Entry EntryProof.

(** ** What the relocation of the offset table does *)
Section GotFix.
Context (base limit off : Z).

Lemma got_fix_frame n m a : frame a (8 * Z.of_nat n) m (got_fix base limit off n m a).
Proof.
  revert m a. induction n as [|n IH]; intros m a b Hb; [done|]. cbn [got_fix]. rewrite IH by lia.
  destruct (got_moves _ _ _); [|done]. by rewrite ld8_stn_out by lia.
Qed.

Lemma got_fix_entry n m a i : 0 <= i < Z.of_nat n ->
  ldn 8 (got_fix base limit off n m a) (a + 8 * i) =
    let v := ldn 8 m (a + 8 * i) in if got_moves base limit v then u64 (v + off) else v.
Proof.
  revert m a i. induction n as [|n IH]; intros m a i Hi; [lia|]. cbn [got_fix].
  destruct (decide (i = 0)) as [->|].
  - rewrite (frame_ldn _ _ _ _ 8 _ (got_fix_frame n _ (a + 8))) by lia. rewrite Z.mul_0_r, Z.add_0_r.
    cbn zeta. destruct (got_moves _ _ _); [|done]. rewrite ldn_stn_same. apply uwrap_idem. lia.
  - replace (a + 8 * i) with (a + 8 + 8 * (i - 1)) by lia. rewrite IH by lia. cbn zeta.
    replace (ldn 8 (if got_moves base limit (ldn 8 m a) then stn 8 m a (u64 (ldn 8 m a + off)) else m) (a + 8 + 8 * (i - 1)))
      with (ldn 8 m (a + 8 + 8 * (i - 1))); [done|].
    destruct (got_moves base limit (ldn 8 m a)); [|done]. by rewrite ldn_stn_out by lia.
Qed.
End GotFix.

(** ** A loaded image *)
Section Start.
Context (k : Z) (im : image_symbols) (lo : Z) (bss_start bss_end : Z) (n_got n_bss : nat).
Definition link_base : Z := pie_fixup im - pie_fixup im mod 2 ^ k.
Definition in_image (a len : Z) : Prop := link_base <= a /\ a + len <= link_base + IMAGE_SIZE.
Definition first_page (a : Z) : Prop := link_base <= a < link_base + 2 ^ k.
Definition separate (a la b lb : Z) : Prop := a + la <= b \/ b + lb <= a.
Abbreviation var := (val_image_load_offset im).
Definition got_size : Z := 8 * Z.of_nat (S n_got).
Definition bss_size : Z := 16 * Z.of_nat (S n_bss).

Record image_ok := ImageOk {
  ok_granule : 12 <= k <= 16;
  ok_lo : lo mod 2 ^ k = 0;
  ok_base : 0 <= link_base /\ link_base + IMAGE_SIZE < 2 ^ 40;
  ok_load : 0 <= link_base + lo /\ link_base + lo + IMAGE_SIZE < 2 ^ 40;
  ok_code : Forall first_page [image_load_addr im; ret_fixup im; ret_rela im];
  ok_symbols : Forall (fun a => in_image a 0) [vector_table_sym im; ret_flush im; stacks_end im];
  ok_vars : Forall (fun a => in_image a 8) [bss_start_addr im; bss_end_addr im; text_start_addr im; var];
  ok_got : in_image (GOT_START im) got_size /\ GOT_END im = GOT_START im + got_size;
  ok_bss : in_image bss_start bss_size /\ bss_end = bss_start + bss_size;
  ok_apart : Forall (fun a => separate a 8 (GOT_START im) got_size /\ separate a 8 bss_start (bss_size + 16))
               [bss_start_addr im; bss_end_addr im; var];
  ok_apart_var : separate (bss_start_addr im) 8 var 8 /\ separate (bss_end_addr im) 8 var 8;
  ok_apart_got : separate (GOT_START im) got_size bss_start (bss_size + 16)
}.

(** The variables that hold section bounds, as linked. *)
Definition loaded (m : mem) : Prop :=
  ldn 8 m (bss_start_addr im + lo) = bss_start /\ ldn 8 m (bss_end_addr im + lo) = bss_end /\
  0 <= ldn 8 m (text_start_addr im + lo) <= bss_end.

Definition relocated (m : mem) : mem :=
  stn 8 (got_fix link_base (link_base + IMAGE_SIZE) (u64 lo) (S n_got) m (GOT_START im + lo)) (var + lo) (u64 lo).
Definition cleared (m : mem) : mem :=
  stn 8 (stn 8 (clear_pairs (S n_bss) (relocated m) (bss_start + lo)) (bss_end + lo) 0) (bss_end + lo + 8) 0.

(** ** The segments of [_start] *)
Context {W : Type} (at_el2 tpm_sp : bool) (Hok : image_ok).
Abbreviation prog := (_start (2 ^ k) im lo at_el2 tpm_sp).
Abbreviation reach fuel := (reaches (start_calls (W := W) (2 ^ k) im lo fuel) (fun s => Ret s) prog).
Definition vbar : sysr := if at_el2 then VBAR_EL2 else VBAR_EL1.
Definition sctlr : sysr := if at_el2 then SCTLR_EL2 else SCTLR_EL1.

Lemma image_address a l : 0 <= l -> in_image a l -> is_uint 64 (a + lo).
Proof. intros Hl [H1 H2]. destruct Hok as [_ _ _ [H3 H4] _ _ _ _ _ _ _ _]. unfold is_uint. lia. Qed.

Lemma page_base a : first_page a -> a + lo - (a + lo) mod 2 ^ k = link_base + lo.
Proof.
  intros [H1 H2]. destruct Hok as [Hk Hlo _ _ _ _ _ _ _ _ _ _]. pose proof (granule_size k Hk).
  assert (Hb : (link_base + lo) mod 2 ^ k = 0).
  { unfold link_base. rewrite Z.add_mod, Hlo, Z.add_0_r, Z.mod_mod by lia.
    pose proof (Z.div_mod (pie_fixup im) (2 ^ k) ltac:(lia)).
    replace (pie_fixup im - pie_fixup im mod 2 ^ k) with ((pie_fixup im / 2 ^ k) * 2 ^ k) by lia. apply Z.mod_mul. lia. }
  replace (a + lo) with (a - link_base + (link_base + lo)) at 2 by lia.
  rewrite Z.add_mod, Hb, Z.add_0_r, Z.mod_mod by lia. rewrite Z.mod_small by lia. lia.
Qed.

Lemma symbol_uint a : In a [vector_table_sym im; ret_flush im; stacks_end im] -> is_uint 64 (a + lo).
Proof.
  intros Ha. apply (image_address a 0); [lia|]. pose proof (ok_symbols Hok) as H. rewrite List.Forall_forall in H. by apply H.
Qed.
Lemma var_uint a : In a [bss_start_addr im; bss_end_addr im; text_start_addr im; var] -> is_uint 64 (a + lo).
Proof.
  intros Ha. apply (image_address a 8); [lia|]. pose proof (ok_vars Hok) as H. rewrite List.Forall_forall in H. by apply H.
Qed.
Lemma code_uint a : first_page a -> is_uint 64 (a + lo).
Proof.
  intros [H1 H2]. pose proof (granule_size k (ok_granule Hok)). destruct (ok_load Hok). unfold IMAGE_SIZE, is_uint in *. lia.
Qed.

(** Up to the call of flush_dcache_range. *)
Lemma start_to_flush s :
  loaded (amem s) -> Z.land (sys s sctlr) 1 = 0 ->
  exists s1, (forall fuel, reach fuel 0 s 20 s1) /\ amem s1 = amem s /\ world s1 = world s /\
    rf s1 X0 = link_base + lo /\ rf s1 X1 = bss_end - ldn 8 (amem s) (text_start_addr im + lo) /\
    sys s1 = upd_sys sctlr (Z.lor (sys s sctlr) SCTLR_I_BIT) (upd_sys vbar (vector_table_sym im + lo) (sys s)).
Proof.
  intros (L1 & L2 & L3) Hm. pose proof (ok_code Hok) as Hc. rewrite !List.Forall_cons_iff in Hc. destruct Hc as (Hc & _).
  pose proof (symbol_uint (vector_table_sym im) ltac:(cbn; tauto)) as Uv.
  pose proof (var_uint (bss_end_addr im) ltac:(cbn; tauto)) as Ue. pose proof (var_uint (text_start_addr im) ltac:(cbn; tauto)) as Ut.
  pose proof (ok_bss Hok) as [[Hb1 Hb2] Hb3]. pose proof (ok_base Hok) as [_ Hb4].
  assert (Hflag : forall v, holds EQ (sub_flags 0 (Z.land (upd_sys vbar v (sys s) sctlr) (u64 SCTLR_M_BIT))) = true).
  { intros v. replace (upd_sys vbar v (sys s) sctlr) with (sys s sctlr) by (unfold vbar, sctlr; by destruct at_el2).
    change (u64 SCTLR_M_BIT) with 1. by rewrite Hm. }
  assert (Hpage : Z.land (u64 (image_load_addr im + lo)) (u64 (page_mask (2 ^ k))) = link_base + lo).
  { rewrite (uwrap_small 64) by (by apply code_uint). rewrite page_mask_land by (apply ok_granule || apply code_uint; done).
    by apply page_base. }
  unfold sctlr, vbar in *. destruct at_el2; (eexists; split;
    [intros fuel; do 5 anext; agoto ltac:(rewrite Hflag); do 13 anext; apply reaches_refl|]); asimpl;
    rewrite !Z.add_0_r, !adr_eq, !(uwrap_small 64 (bss_end_addr im + lo)), !(uwrap_small 64 (text_start_addr im + lo)), L2 by done.
  all: rewrite Hpage, (uwrap_small 64 (vector_table_sym im + lo)), (uwrap_small 64 (bss_end - _)) by (done || unfold bss_size in *; lia).
  all: by split_and!.
Qed.

(** From the return of flush_dcache_range to the call of fix_symbol_table. *)
Lemma start_to_fixup s : is_uint 64 (pie_fixup im) ->
  exists s1, (forall fuel, reach fuel 21 s 30 s1) /\ amem s1 = amem s /\ world s1 = world s /\
    rf s1 X0 = link_base /\ rf s1 X1 = link_base + IMAGE_SIZE /\
    sys s1 = upd_sys CPACR_EL1 (Z.lor (sys s CPACR_EL1) (Z.shiftl 3 20)) (sys s).
Proof.
  intros Up. pose proof (ok_base Hok) as [Hb1 Hb2].
  destruct at_el2; (eexists; split; [intros fuel; do 9 anext; apply reaches_refl|]); asimpl;
    rewrite (uwrap_small 64 (pie_fixup im)), page_mask_land by (apply (ok_granule Hok) || done); fold link_base;
    change (u64 IMAGE_SIZE) with IMAGE_SIZE; (split_and!; try done); rewrite uwrap_small; unfold IMAGE_SIZE in *; lia.
Qed.

(** From the return of fix_symbol_table to the loop that clears .bss. *)
Lemma start_to_bss s :
  ldn 8 (amem s) (var + lo) = u64 lo -> ldn 8 (amem s) (bss_start_addr im + lo) = bss_start ->
  ldn 8 (amem s) (bss_end_addr im + lo) = bss_end ->
  exists s1, (forall fuel, reach fuel 31 s 46 s1) /\ amem s1 = amem s /\ world s1 = world s /\ sys s1 = sys s /\
    rf s1 SP = stacks_end im + lo /\ rf s1 X0 = bss_start + lo /\ rf s1 X1 = bss_size.
Proof.
  intros L1 L2 L3. pose proof (symbol_uint (stacks_end im) ltac:(cbn; tauto)) as Us.
  pose proof (var_uint (bss_start_addr im) ltac:(cbn; tauto)) as Ub. pose proof (var_uint (bss_end_addr im) ltac:(cbn; tauto)) as Ue.
  pose proof (var_uint var ltac:(cbn; tauto)) as Uv. pose proof (ok_bss Hok) as [[Hb1 Hb2] Hb3].
  pose proof (ok_load Hok) as [Hl1 Hl2]. unfold bss_size in *.
  assert (Hoff : forall x, is_uint 64 (x + lo) -> u64 (x + u64 lo) = x + lo).
  { intros x Hx. unfold uwrap. rewrite Z.add_mod_idemp_r by lia. by apply Z.mod_small. }
  destruct at_el2; (eexists; split; [intros fuel; do 15 anext; apply reaches_refl|]); asimpl;
    rewrite !Z.add_0_r, !adr_eq, !(uwrap_small 64 (var + lo)), !(uwrap_small 64 (bss_start_addr im + lo)),
      !(uwrap_small 64 (bss_end_addr im + lo)), L1, L2, L3, !Hoff by (done || unfold is_uint; lia);
    (split_and!; try done); rewrite uwrap_small; lia.
Qed.

Lemma bss_loop n s a :
  rf s X0 = a -> rf s X1 = 16 * Z.of_nat (S n) -> 0 <= a -> a + 16 * Z.of_nat (S n) < 2 ^ 64 ->
  exists s', (forall fuel, reach fuel 46 s 52 s') /\ amem s' = clear_pairs (S n) (amem s) a /\
    rf s' X0 = a + 16 * Z.of_nat (S n) /\ same_but [X0; X1] s s'.
Proof.
  revert s a. induction n as [|n IH]; intros s a E0 E1 Ha Hn.
  - destruct at_el2; (eexists; split;
      [intros fuel; do 5 anext; askip ltac:(rewrite ?E0, ?E1, holds_ne by (first [apply uwrap_is_uint; lia | unfold is_uint; lia]); rewrite ?E0, ?E1);
       apply reaches_refl |]); asimpl; rewrite ?E0, Z.add_0_r, !(uwrap_small 64) by lia; (split_and!; [done | lia | akeep]).
  - set (s1 := AState (upd_reg X1 (16 * Z.of_nat (S n)) (upd_reg X0 (a + 16) (rf s))) (sys s)
                 (sub_flags 0 (16 * Z.of_nat (S n))) (stn 8 (stn 8 (amem s) a 0) (a + 8) 0) (world s)).
    destruct (IH s1 (a + 16)) as (s2 & R2 & M2 & X2' & K2); try (unfold s1; asimpl; (done || lia)).
    exists s2. split.
    { intros fuel. destruct at_el2; (do 5 anext; agoto ltac:(rewrite ?E0, ?E1, ?Z.add_0_r, ?(uwrap_small 64 a), ?(uwrap_small 64 (a + 8)),
          ?(uwrap_small 64 (a + 16)), ?(uwrap_small 64 (16 * Z.of_nat (S (S n)) - 16)), ?holds_ne by (unfold is_uint; lia);
          replace (16 * Z.of_nat (S (S n)) - 16) with (16 * Z.of_nat (S n)) by lia;
          rewrite (proj2 (Z.eqb_neq _ _)) by lia); exact (R2 fuel)). }
    rewrite M2. split; [done|]. split; [lia|]. eapply same_but_trans; [|exact K2]. unfold s1. akeep.
Qed.

Lemma relocated_vars m : loaded m ->
  ldn 8 (relocated m) (var + lo) = u64 lo /\ ldn 8 (relocated m) (bss_start_addr im + lo) = bss_start /\
  ldn 8 (relocated m) (bss_end_addr im + lo) = bss_end.
Proof.
  intros (L1 & L2 & _). pose proof (ok_apart Hok) as Hs. rewrite !List.Forall_cons_iff in Hs. destruct_and! Hs.
  destruct (ok_apart_var Hok) as [V1 V2]. unfold separate, got_size in *.
  assert (Hg : forall a, a + 8 <= GOT_START im \/ GOT_START im + 8 * Z.of_nat (S n_got) <= a ->
            a + 8 <= var \/ var + 8 <= a -> ldn 8 (relocated m) (a + lo) = ldn 8 m (a + lo)).
  { intros a Ha Hv. unfold relocated. rewrite ldn_stn_out by lia. apply (frame_ldn _ _ _ _ 8 _ (got_fix_frame _ _ _ _ _ _)). lia. }
  split_and!.
  - unfold relocated. rewrite ldn_stn_same. apply uwrap_idem. lia.
  - rewrite Hg by lia. done.
  - rewrite Hg by lia. done.
Qed.

Definition start_sys (s : astate W) : sysr -> Z :=
  upd_sys CPACR_EL1 (Z.lor (sys s CPACR_EL1) (Z.shiftl 3 20))
    (upd_sys sctlr (Z.lor (sys s sctlr) SCTLR_I_BIT) (upd_sys vbar (vector_table_sym im + lo) (sys s))).

Lemma image_aligned : link_base mod 2 ^ k = 0 /\ (link_base + IMAGE_SIZE) mod 2 ^ k = 0.
Proof.
  pose proof (granule_size k (ok_granule Hok)) as Hgr. pose proof (ok_granule Hok).
  assert (Ab : link_base mod 2 ^ k = 0).
  { unfold link_base. pose proof (Z.div_mod (pie_fixup im) (2 ^ k) ltac:(lia)).
    replace (pie_fixup im - pie_fixup im mod 2 ^ k) with ((pie_fixup im / 2 ^ k) * 2 ^ k) by lia. apply Z.mod_mul. lia. }
  split; [done|]. rewrite Z.add_mod, Ab by lia. replace IMAGE_SIZE with (2 ^ (22 - k) * 2 ^ k); [by rewrite Z.mod_mul by lia|].
  rewrite <- Z.pow_add_r by lia. by replace (22 - k + k) with 22 by lia.
Qed.

(** Up to the return of fix_symbol_table. *)
Lemma start_to_stack s :
  loaded (amem s) -> Z.land (sys s sctlr) 1 = 0 -> is_uint 64 (pie_fixup im) ->
  exists N s1, (forall fuel, (N <= fuel)%nat -> reach fuel 0 s 31 s1) /\
    amem s1 = relocated (amem s) /\ world s1 = world s /\ sys s1 = start_sys s.
Proof.
  intros HL Hm Up. pose proof HL as (_ & _ & HL3).
  pose proof (ok_code Hok) as Hc. rewrite !List.Forall_cons_iff in Hc. destruct Hc as (_ & Hc2 & _).
  pose proof (ok_base Hok) as [Hb1 Hb2]. pose proof (ok_load Hok) as [Hl1 Hl2]. destruct image_aligned as [Ab Al].
  pose proof (ok_bss Hok) as [[Hs1 Hs2] Hs3]. pose proof (ok_got Hok) as [[Hg1 Hg2] Hg3].
  destruct (start_to_flush s HL Hm) as (sa & Ra & Ma & Wa & A0 & A1 & Sa).
  destruct (flush_ends (fun _ s => Ret s) (fun s => Ret s) (set X30 (u64 (ret_flush im + lo)) sa)) as (sb & [N1 Eb] & Mb & Kb);
    [asimpl; rewrite ?A0, ?A1; unfold is_uint, bss_size, IMAGE_SIZE in *; lia..|].
  destruct (start_to_fixup sb Up) as (sc & Rc & Mc & Wc & C0 & C1 & Sc).
  set (sc' := set X30 (u64 (ret_fixup im + lo)) sc).
  destruct (fix_symbol_table_ends (W := W) (fun _ s => Ret s) (fun s => Ret s) (2 ^ k) im lo false link_base (link_base + IMAGE_SIZE) (u64 lo))
    with (k := k) (n := n_got) (gs := GOT_START im + lo) (var := var + lo) (s := sc') as (sd & [N2 Ed] & Md & Kd);
    try (done || (unfold is_uint, got_size, IMAGE_SIZE in *; lia)).
  { apply (ok_granule Hok). }
  { apply var_uint. cbn. tauto. }
  { unfold sc'. asimpl. apply uwrap_is_uint. lia. }
  { unfold sc'. asimpl. rewrite (uwrap_small 64 (ret_fixup im + lo)) by (by apply code_uint).
    rewrite page_base by done. f_equal. lia. }
  exists (N1 + N2)%nat, sd. split.
  { intros fuel Hf. eapply reaches_trans; [exact (Ra fuel)|].
    eapply reaches_next; [destruct at_el2; reflexivity | cbn [exec start_calls]; rewrite Eb by lia; reflexivity|].
    eapply reaches_trans; [exact (Rc fuel)|].
    eapply reaches_next; [destruct at_el2; reflexivity | cbn [exec start_calls]; fold sc'; rewrite Ed by lia; reflexivity | apply reaches_refl]. }
  destruct Kb as (_ & Sb & Wb), Kd as (_ & Sd & Wd). split_and!.
  - rewrite Md. unfold sc'. asimpl. rewrite Mc, Mb. asimpl. by rewrite Ma.
  - rewrite Wd. unfold sc'. asimpl. rewrite Wc, Wb. by asimpl.
  - rewrite Sd. unfold sc'. asimpl. rewrite Sc, Sb. asimpl. rewrite Sa. unfold start_sys, sctlr, vbar. by destruct at_el2.
Qed.

(** All of [_start] but what follows the clearing of .bss. *)
Lemma start_to_rela s :
  loaded (amem s) -> Z.land (sys s sctlr) 1 = 0 -> is_uint 64 (pie_fixup im) ->
  exists N s1, (forall fuel, (N <= fuel)%nat -> reach fuel 0 s 53 s1) /\
    amem s1 = cleared (amem s) /\ world s1 = world s /\ rf s1 SP = stacks_end im + lo /\ sys s1 = start_sys s.
Proof.
  intros HL Hm Up. pose proof (relocated_vars _ HL) as (V1 & V2 & V3).
  pose proof (ok_load Hok) as [Hl1 Hl2]. pose proof (ok_bss Hok) as [[Hs1 Hs2] Hs3].
  destruct (start_to_stack s HL Hm Up) as (N & sa & Ra & Ma & Wa & Sa). rewrite <- Ma in V1, V2, V3.
  destruct (start_to_bss sa V1 V2 V3) as (sb & Rb & Mb & Wb & Sb & Bsp & B0 & B1).
  destruct (bss_loop n_bss sb (bss_start + lo) B0 B1) as (sc & Rc & Mc & C0 & Kc);
    [lia | unfold bss_size, IMAGE_SIZE in *; lia |].
  pose proof Kc as (Kr & Ks & Kw). exists N. eexists. split.
  { intros fuel Hf. eapply reaches_trans; [exact (Ra fuel Hf)|]. eapply reaches_trans; [exact (Rb fuel)|].
    eapply reaches_trans; [exact (Rc fuel)|]. destruct at_el2; anext; rewrite C0; apply reaches_refl. }
  asimpl. split_and!.
  - unfold cleared. fold bss_size. rewrite Z.add_0_r, Mc, Mb, Ma. unfold bss_size, IMAGE_SIZE in *.
    rewrite !(uwrap_small 64) by lia. by replace (bss_end + lo) with (bss_start + lo + 16 * Z.of_nat (S n_bss)) by lia.
  - congruence.
  - rewrite Kr by (cbn; intuition congruence). done.
  - congruence.
Qed.
End Start.

(** ** Theorems *)
Section Cleared.
Context (k : Z) (im : image_symbols) (lo : Z) (bss_start bss_end : Z) (n_got n_bss : nat).
Context (Hok : image_ok k im lo bss_start bss_end n_got n_bss).
Abbreviation base := (link_base k im).
Abbreviation cleared m := (cleared k im lo bss_start bss_end n_got n_bss m).
Abbreviation relocated m := (relocated k im lo n_got m).

Lemma cleared_bss m b : bss_start + lo <= b < bss_end + lo + 16 -> ld8 (cleared m) b = 0.
Proof.
  intros Hb. destruct (ok_bss _ _ _ _ _ _ _ Hok) as [_ He]. unfold StartProof.cleared, bss_size in *.
  destruct (Z.leb_spec (bss_end + lo + 8) b); [apply ld8_stn_zero; lia|]. rewrite ld8_stn_out by lia.
  destruct (Z.leb_spec (bss_end + lo) b); [apply ld8_stn_zero; lia|]. rewrite ld8_stn_out by lia.
  apply clear_pairs_zero. lia.
Qed.

Lemma cleared_frame m : frame (bss_start + lo) (bss_size n_bss + 16) (relocated m) (cleared m).
Proof.
  intros b Hb. destruct (ok_bss _ _ _ _ _ _ _ Hok) as [_ He]. unfold StartProof.cleared, bss_size in *.
  rewrite !ld8_stn_out by lia. apply clear_pairs_frame. lia.
Qed.

Lemma cleared_got m i : 0 <= i <= Z.of_nat n_got ->
  let v := ldn 8 m (GOT_START im + lo + 8 * i) in v < 2 ^ 63 ->
  ldn 8 (cleared m) (GOT_START im + lo + 8 * i) = if (base <=? v) && (v <? base + IMAGE_SIZE) then v + lo else v.
Proof.
  intros Hi v Hv. pose proof (ok_apart _ _ _ _ _ _ _ Hok) as Ha. rewrite !List.Forall_cons_iff in Ha. destruct_and! Ha.
  pose proof (ok_apart_got _ _ _ _ _ _ _ Hok) as Hg. pose proof (ok_base _ _ _ _ _ _ _ Hok) as [Hb1 Hb2].
  pose proof (ok_load _ _ _ _ _ _ _ Hok) as [Hl1 Hl2]. unfold separate, got_size in *. fold base in Hb1, Hb2, Hl1, Hl2.
  rewrite (frame_ldn _ _ _ _ 8 _ (cleared_frame m)) by lia. unfold StartProof.relocated. rewrite ldn_stn_out by lia.
  rewrite got_fix_entry by lia. fold v. cbn zeta. pose proof (ldn8_uint m (GOT_START im + lo + 8 * i)) as Hu. fold v in Hu.
  unfold got_moves, sint, is_uint in *. change (64 - 1) with 63. rewrite (proj2 (Z.ltb_lt v _) Hv).
  rewrite (proj2 (Z.ltb_lt (base + IMAGE_SIZE) _)) by lia.
  destruct (Z.leb_spec base v), (Z.ltb_spec v (base + IMAGE_SIZE)); cbn [andb]; try done.
  unfold uwrap. rewrite Z.add_mod_idemp_r by lia. apply Z.mod_small. lia.
Qed.

Lemma cleared_var m : ldn 8 (cleared m) (val_image_load_offset im + lo) = u64 lo.
Proof.
  pose proof (ok_apart _ _ _ _ _ _ _ Hok) as Ha. rewrite !List.Forall_cons_iff in Ha. destruct_and! Ha. unfold separate in *.
  rewrite (frame_ldn _ _ _ _ 8 _ (cleared_frame m)) by lia. unfold StartProof.relocated. rewrite ldn_stn_same. by apply uwrap_idem.
Qed.

(** A byte outside the table, the variable and the cleared range. *)
Definition untouched (b : Z) : Prop :=
  (b < GOT_START im + lo \/ GOT_END im + lo <= b) /\
  (b < val_image_load_offset im + lo \/ val_image_load_offset im + lo + 8 <= b) /\
  (b < bss_start + lo \/ bss_end + lo + 16 <= b).

Lemma cleared_untouched m b : untouched b -> ld8 (cleared m) b = ld8 m b.
Proof.
  intros (Hg & Hv & Hb). destruct (ok_bss _ _ _ _ _ _ _ Hok) as [_ He]. destruct (ok_got _ _ _ _ _ _ _ Hok) as [_ Hge].
  rewrite cleared_frame by lia. unfold StartProof.relocated. rewrite ld8_stn_out by lia. apply got_fix_frame.
  unfold got_size in *. lia.
Qed.

(** Claim C11: _start of every image but that of the TPM service (whose variant also
    runs fix_rela_dyn), run on an image the loader placed at any page-aligned
    distance from its link address, with the MMU off and a 64-bit fix-up flag,
    reaches val_main with the stack pointer at the top of the stack, the vector
    table installed, the instruction cache on and the MMU still off, every word
    below 2^63 of the global offset table that points into the image moved by that
    distance, .bss zero, and every byte of memory but .bss, the 16 bytes after it,
    that table and the load offset variable unchanged. *)
Theorem start_establishes_c {W} at_el2 (s : astate W) :
  loaded im lo bss_start bss_end (amem s) -> Z.land (sys s (sctlr at_el2)) 1 = 0 -> is_uint 64 (pie_fixup im) ->
  exists s', (exists N, forall fuel, (N <= fuel)%nat ->
      ends (start_calls (2 ^ k) im lo fuel) (fun s => Ret s) (_start (2 ^ k) im lo at_el2 false) 0 s (Ret s')) /\
    rf s' SP = stacks_end im + lo /\
    (forall b, bss_start + lo <= b < bss_end + lo -> ld8 (amem s') b = 0) /\
    (forall i, 0 <= i <= Z.of_nat n_got -> let v := ldn 8 (amem s) (GOT_START im + lo + 8 * i) in v < 2 ^ 63 ->
      ldn 8 (amem s') (GOT_START im + lo + 8 * i) = if (base <=? v) && (v <? base + IMAGE_SIZE) then v + lo else v) /\
    ldn 8 (amem s') (val_image_load_offset im + lo) = u64 lo /\
    (forall b, untouched b -> ld8 (amem s') b = ld8 (amem s) b) /\
    sys s' (vbar at_el2) = vector_table_sym im + lo /\
    Z.testbit (sys s' (sctlr at_el2)) 12 = true /\ Z.testbit (sys s' (sctlr at_el2)) 0 = false.
Proof.
  intros HL Hm Up.
  destruct (start_to_rela k im lo bss_start bss_end n_got n_bss at_el2 false Hok s HL Hm Up) as (N & s' & R & M & Wd & Sp & Sy).
  exists s'. split.
  { exists N. intros fuel Hf. eapply ends_reaches; [exact (R fuel Hf)|]. destruct at_el2; astop. }
  rewrite M. split_and!; try done.
  - intros b Hb. apply cleared_bss. lia.
  - intros i Hi v Hv. by apply cleared_got.
  - apply cleared_var.
  - intros b Hb. by apply cleared_untouched.
  - rewrite Sy. unfold start_sys. by destruct at_el2.
  - rewrite Sy. replace (start_sys im lo at_el2 s (sctlr at_el2)) with (Z.lor (sys s (sctlr at_el2)) SCTLR_I_BIT)
      by (unfold start_sys; by destruct at_el2). rewrite Z.lor_spec. apply orb_true_r.
  - rewrite Sy. replace (start_sys im lo at_el2 s (sctlr at_el2)) with (Z.lor (sys s (sctlr at_el2)) SCTLR_I_BIT)
      by (unfold start_sys; by destruct at_el2). rewrite Z.lor_spec.
    replace (Z.testbit (sys s (sctlr at_el2)) 0) with (Z.testbit (Z.land (sys s (sctlr at_el2)) 1) 0)
      by (rewrite Z.land_spec; apply andb_true_r). by rewrite Hm.
Qed.

(** The loop that clears .bss is followed by one more store: the 16 bytes after .bss,
    which are outside the image when .bss ends it, are cleared as well. *)
Theorem start_clears_past_bss {W} at_el2 (s : astate W) :
  loaded im lo bss_start bss_end (amem s) -> Z.land (sys s (sctlr at_el2)) 1 = 0 -> is_uint 64 (pie_fixup im) ->
  exists s', (exists N, forall fuel, (N <= fuel)%nat ->
      ends (start_calls (2 ^ k) im lo fuel) (fun s => Ret s) (_start (2 ^ k) im lo at_el2 false) 0 s (Ret s')) /\
    forall b, bss_end + lo <= b < bss_end + lo + 16 -> ld8 (amem s') b = 0.
Proof.
  intros HL Hm Up.
  destruct (start_to_rela k im lo bss_start bss_end n_got n_bss at_el2 false Hok s HL Hm Up) as (N & s' & R & M & _).
  exists s'. split; [exists N; intros fuel Hf; eapply ends_reaches; [exact (R fuel Hf)|]; destruct at_el2; astop|].
  intros b Hb. rewrite M. apply cleared_bss. destruct (ok_bss _ _ _ _ _ _ _ Hok) as [_ He]. unfold bss_size in *. lia.
Qed.
End Cleared.

(** With the MMU on at entry the image hangs. *)
Theorem start_refuses_mmu {W} k im lo at_el2 tpm_sp fuel (s : astate W) :
  Z.testbit (sys s (sctlr at_el2)) 0 = true ->
  ends (start_calls (2 ^ k) im lo fuel) (fun s => Ret s) (_start (2 ^ k) im lo at_el2 tpm_sp) 0 s Panic.
Proof.
  intros Hm. assert (Hone : Z.land (sys s (sctlr at_el2)) 1 = 1).
  { change 1 with (Z.ones 1) at 1. rewrite Z.land_ones by lia. rewrite <- Z.bit0_mod. by rewrite Hm. }
  assert (Hflag : forall v, holds EQ (sub_flags 0 (Z.land (upd_sys (vbar at_el2) v (sys s) (sctlr at_el2)) (u64 SCTLR_M_BIT))) = false).
  { intros v. replace (upd_sys (vbar at_el2) v (sys s) (sctlr at_el2)) with (sys s (sctlr at_el2)) by (by destruct at_el2).
    change (u64 SCTLR_M_BIT) with 1. by rewrite Hone. }
  unfold vbar, sctlr in *. destruct at_el2; do 5 anext; askip ltac:(rewrite Hflag); ahang idtac.
Qed.

(** *** A small image, loaded 256 KiB above its link address *)
Definition demo_image : image_symbols :=
  ImageSymbols 0x10800 0x10040 0x100a0 0x12000 0x12010 0x11000 0x11030 0x12100 0x12108 0x12110 0x12118 0x13080
    0x10074 0x100b4 0x10100.
Definition demo_loaded : mem :=
  stn 8 (stn 8 (stn 8 (stn 8 (stn 8 (stn 8 ∅ 0x52000 0x10200) 0x52008 0x9000000) 0x52108 0x13000) 0x52110 0x13100) 0x52118 0x10000)
    0x53000 0x1234.
Definition demo_entry (m : mem) : astate unit :=
  AState (fun _ => 0) (fun r => if decide (r = CTR_EL0) then 0x84448004 else 0) (Flags false false false false) m tt.

Lemma demo_image_ok : image_ok 12 demo_image 0x40000 0x13000 0x13100 1 15.
Proof. constructor; unfold in_image, first_page, separate; repeat constructor; vm_compute; intuition congruence. Qed.

Lemma start_establishes_c_witness :
  exists s' N, (forall fuel, (N <= fuel)%nat ->
      ends (start_calls (2 ^ 12) demo_image 0x40000 fuel) (fun s => Ret s) (_start (2 ^ 12) demo_image 0x40000 false false) 0
        (demo_entry demo_loaded) (Ret s')) /\
    rf s' SP = 0x53080 /\ ldn 8 (amem s') 0x52000 = 0x50200 /\ ldn 8 (amem s') 0x52008 = 0x9000000 /\ ld8 (amem s') 0x53001 = 0.
Proof.
  destruct (start_establishes_c 12 demo_image 0x40000 0x13000 0x13100 1 15 demo_image_ok false (demo_entry demo_loaded))
    as (s' & [N H] & Hsp & Hb & Hg & _).
  - vm_compute. intuition congruence.
  - reflexivity.
  - vm_compute. intuition congruence.
  - exists s', N. split; [exact H|]. split; [exact Hsp|]. split; [|split].
    + exact (Hg 0 ltac:(lia) eq_refl).
    + exact (Hg 1 ltac:(lia) eq_refl).
    + apply Hb. lia.
Defined.

(** ** The relocations of the TPM partition *)
Section RelaFix.
Context (base limit off : Z).

(** The record at [a] in [m]: the address it relocates and the value it wants there. *)
Definition rela_target (m : mem) (a : Z) : Z := ldn 8 m a + off.
Definition rela_value (m : mem) (a : Z) : Z := u64 (ldn 8 m (a + 16) + off).
Definition is_relative (m : mem) (a : Z) : Prop := ldn 8 m (a + 8) = R_AARCH64_RELATIVE.

(** The words the records from [a] on relocate are apart from each other and from the
    records. *)
Definition rela_apart (n : nat) (m : mem) (a : Z) : Prop :=
  forall i, 0 <= i < Z.of_nat n -> is_relative m (a + 24 * i) ->
    (rela_target m (a + 24 * i) + 8 <= a \/ a + 24 * Z.of_nat n <= rela_target m (a + 24 * i)) /\
    forall j, 0 <= j < Z.of_nat n -> j <> i -> is_relative m (a + 24 * j) ->
      rela_target m (a + 24 * i) + 8 <= rela_target m (a + 24 * j) \/ rela_target m (a + 24 * j) + 8 <= rela_target m (a + 24 * i).

Lemma rela_fix_one_out m m' a x len :
  rela_fix_one base limit off m a = Some m' ->
  (is_relative m a -> x + Z.of_nat len <= rela_target m a \/ rela_target m a + 8 <= x) -> ldn len m' x = ldn len m x.
Proof.
  unfold rela_fix_one, is_relative, rela_target. destruct (Z.eqb_spec (ldn 8 m (a + 8)) R_AARCH64_RELATIVE) as [Er|]; cbn [negb]; [|by intros [= <-]].
  destruct (_ || _); [done|]. intros [= <-] H. specialize (H Er). apply ldn_stn_out. lia.
Qed.

(** The records after the first are not changed by it. *)
Lemma rela_fix_one_rest n m m1 a i f :
  rela_fix_one base limit off m a = Some m1 -> rela_apart (S n) m a -> 0 <= i < Z.of_nat n -> 0 <= f <= 16 ->
  ldn 8 m1 (a + 24 + 24 * i + f) = ldn 8 m (a + 24 + 24 * i + f).
Proof.
  intros H Ha Hi Hf. eapply rela_fix_one_out; [exact H|]. intros Hr.
  destruct (Ha 0 ltac:(lia)) as [H1 _]; rewrite Z.mul_0_r, Z.add_0_r in *; [done|]. lia.
Qed.

Lemma rela_rest n m m1 a i :
  rela_fix_one base limit off m a = Some m1 -> rela_apart (S n) m a -> 0 <= i < Z.of_nat n ->
  rela_target m1 (a + 24 + 24 * i) = rela_target m (a + 24 * (i + 1)) /\
  rela_value m1 (a + 24 + 24 * i) = rela_value m (a + 24 * (i + 1)) /\
  (is_relative m1 (a + 24 + 24 * i) <-> is_relative m (a + 24 * (i + 1))).
Proof.
  intros H Ha Hi. pose proof (fun f => rela_fix_one_rest n m m1 a i f H Ha Hi) as Hf.
  unfold rela_target, rela_value, is_relative. replace (a + 24 * (i + 1)) with (a + 24 + 24 * i) by lia.
  pose proof (Hf 0 ltac:(lia)) as H0. rewrite Z.add_0_r in H0. by rewrite H0, (Hf 8), (Hf 16) by lia.
Qed.

Lemma rela_apart_rest n m m1 a :
  rela_fix_one base limit off m a = Some m1 -> rela_apart (S n) m a -> rela_apart n m1 (a + 24).
Proof.
  intros H Ha i Hi. destruct (rela_rest n m m1 a i H Ha Hi) as (-> & _ & ->). intros Hr.
  destruct (Ha (i + 1) ltac:(lia) Hr) as [H1 H2]. split; [lia|]. intros j Hj Hne.
  destruct (rela_rest n m m1 a j H Ha Hj) as (-> & _ & ->). intros Hrj. apply (H2 (j + 1)); (lia || done).
Qed.

Lemma rela_fix_out n m m' a x :
  rela_fix base limit off n m a = Some m' -> rela_apart n m a ->
  (forall i, 0 <= i < Z.of_nat n -> is_relative m (a + 24 * i) -> x + 8 <= rela_target m (a + 24 * i) \/ rela_target m (a + 24 * i) + 8 <= x) ->
  ldn 8 m' x = ldn 8 m x.
Proof.
  revert m a. induction n as [|n IH]; intros m a; cbn [rela_fix]; [by intros [= <-]|].
  destruct (rela_fix_one base limit off m a) as [m1|] eqn:E; [|done]. cbn. intros H Ha Hx.
  rewrite (IH m1 (a + 24) H (rela_apart_rest n m m1 a E Ha)).
  - eapply rela_fix_one_out; [exact E|]. intros Hr. specialize (Hx 0 ltac:(lia)). rewrite Z.mul_0_r, Z.add_0_r in Hx. auto.
  - intros i Hi. destruct (rela_rest n m m1 a i E Ha Hi) as (-> & _ & ->). apply Hx. lia.
Qed.

(** Every relative record has been applied. *)
Lemma rela_fix_entry n m m' a i :
  rela_fix base limit off n m a = Some m' -> rela_apart n m a -> 0 <= i < Z.of_nat n -> is_relative m (a + 24 * i) ->
  ldn 8 m' (rela_target m (a + 24 * i)) = rela_value m (a + 24 * i).
Proof.
  revert m a i. induction n as [|n IH]; intros m a i; [lia|]. cbn [rela_fix].
  destruct (rela_fix_one base limit off m a) as [m1|] eqn:E; [|done]. cbn. intros H Ha Hi Hr.
  destruct (decide (i = 0)) as [->|].
  - rewrite (rela_fix_out n m1 m' (a + 24) _ H (rela_apart_rest n m m1 a E Ha)).
    + rewrite Z.mul_0_r, Z.add_0_r in *. revert E. unfold rela_fix_one, is_relative, rela_target, rela_value in *.
      rewrite Hr, Z.eqb_refl. cbn [negb]. destruct (_ || _); [done|]. intros [= <-].
      rewrite ldn_stn_same. apply uwrap_idem. lia.
    + intros j Hj. destruct (rela_rest n m m1 a j E Ha Hj) as (-> & _ & ->). intros Hrj.
      apply (proj2 (Ha 0 ltac:(lia) Hr) (j + 1)); (lia || done).
  - destruct (rela_rest n m m1 a (i - 1) E Ha ltac:(lia)) as (Et & Ev & Er).
    replace (i - 1 + 1) with i in Et, Ev, Er by lia. rewrite <- Et, <- Ev.
    apply (IH m1 (a + 24) (i - 1) H (rela_apart_rest n m m1 a E Ha)); [lia | by apply Er].
Qed.

(** The words to relocate lie in the image as loaded. *)
Definition rela_in_range (n : nat) (m : mem) (a : Z) : Prop :=
  forall i, 0 <= i < Z.of_nat n -> is_relative m (a + 24 * i) ->
    base + off <= rela_target m (a + 24 * i) <= limit + off - 8.

Lemma rela_fix_total n m a :
  limit + off < 2 ^ 64 -> rela_apart n m a -> rela_in_range n m a -> exists m', rela_fix base limit off n m a = Some m'.
Proof.
  intros Ht. revert m a. induction n as [|n IH]; intros m a Ha Hr; [by eexists|]. cbn [rela_fix].
  destruct (rela_fix_one base limit off m a) as [m1|] eqn:E; cbn.
  - apply IH; [by eapply rela_apart_rest|]. intros i Hi. destruct (rela_rest n m m1 a i E Ha Hi) as (-> & _ & ->). apply Hr. lia.
  - exfalso. revert E. unfold rela_fix_one. specialize (Hr 0 ltac:(lia)). rewrite Z.mul_0_r, Z.add_0_r in Hr.
    unfold is_relative, rela_target in Hr. destruct (Z.eqb_spec (ldn 8 m (a + 8)) R_AARCH64_RELATIVE) as [Er|]; cbn [negb]; [|done].
    specialize (Hr Er). rewrite (proj2 (Z.ltb_ge _ _)), (proj2 (Z.ltb_ge _ _)), (proj2 (Z.leb_gt _ _)), (proj2 (Z.ltb_ge _ _)), (proj2 (Z.ltb_ge _ _)) by lia.
    done.
Qed.
End RelaFix.

(** Claim C26: fix_rela_dyn, called for an image whose link addresses base and limit
    satisfy 0 <= base, base + 8 <= limit < 2^64, at a page of 4 to 64 KiB: whatever
    the relocation table holds and whatever the load offset is, in every state of
    the run, a run that hangs at a failed check included, only bytes of the loaded
    image differ from what they were. When the image is page aligned and does not
    wrap, the table consists of whole records, and the targets of the
    R_AARCH64_RELATIVE records lie in the image and overlap neither each other nor
    the table, it returns and the target of each such record holds its addend plus
    the load offset. *)
Theorem relocations_confined {W} (call : sym -> astate W -> outcome (astate W)) conduit k im lo base limit off (s : astate W) :
  12 <= k <= 16 -> 0 <= base -> base + 8 <= limit < 2 ^ 64 ->
  rf s X0 = base -> rf s X1 = limit -> is_uint 64 (rf s X30) -> off = u64 (rf s X30 - rf s X30 mod 2 ^ k - base) ->
  (forall steps, visits call conduit (fix_rela_dyn (2 ^ k) im lo)
                   (fun s' => frame (base + off) (limit - base) (amem s) (amem s')) steps 0 s) /\
  (forall n, let table := RELA_DYN_START im + lo in
   base mod 2 ^ k = 0 -> limit mod 2 ^ k = 0 -> limit + off < 2 ^ 64 ->
   RELA_DYN_END im + lo = table + 24 * Z.of_nat n -> 0 <= table -> table + 24 * Z.of_nat n < 2 ^ 64 ->
   rela_in_range base limit off n (amem s) table -> rela_apart off n (amem s) table ->
   exists s', ends call conduit (fix_rela_dyn (2 ^ k) im lo) 0 s (Ret s') /\
     forall i, 0 <= i < Z.of_nat n -> is_relative (amem s) (table + 24 * i) ->
       ldn 8 (amem s') (rela_target off (amem s) (table + 24 * i)) = rela_value off (amem s) (table + 24 * i)).
Proof.
  intros Hk Hb Hl E0 E1 H30 Eo. assert (Ho : is_uint 64 off) by (rewrite Eo; apply uwrap_is_uint; lia). split.
  - intros steps. apply fix_rela_dyn_visits with (off := off); try done. by rewrite page_mask_land.
  - intros n table Ab Al Ht He H0 H1 Hr Ha.
    pose proof (fix_rela_dyn_ends call conduit (2 ^ k) im lo base limit off Hb ltac:(lia) ltac:(unfold is_uint in Ho; lia) Ht k n table
      eq_refl Hk Ab Al eq_refl He H0 H1 s E0 E1 H30 Eo) as H.
    destruct (rela_fix_total base limit off n (amem s) table Ht Ha Hr) as [m E]. rewrite E in H.
    destruct H as (s' & R & M & _). exists s'. split; [done|]. rewrite M. intros i Hi Hi'. by eapply rela_fix_entry.
Qed.

(** One relative record and one of another kind. *)
Definition demo_rela : mem := stn 8 (stn 8 (stn 8 demo_loaded 0x51000 0x12200) 0x51008 0x403) 0x51010 0x10300.
Definition demo_rela_entry : astate unit :=
  AState (upd_reg X0 0x10000 (upd_reg X1 0x410000 (upd_reg X30 0x50100 (fun _ => 0)))) (fun _ => 0)
    (Flags false false false false) demo_rela tt.

Lemma demo_relative i : 0 <= i < 2 -> is_relative demo_rela (0x51000 + 24 * i) -> i = 0.
Proof. intros Hi. destruct (decide (i = 0)); [done|]. assert (i = 1) as -> by lia. by vm_compute. Qed.

Lemma relocations_confined_witness :
  exists s', ends (fun _ s => Ret s) (fun s => Ret s) (fix_rela_dyn (2 ^ 12) demo_image 0x40000) 0 demo_rela_entry (Ret s') /\
    ldn 8 (amem s') 0x52200 = 0x50300.
Proof.
  destruct (relocations_confined (fun _ s => Ret s) (fun s => Ret s) 12 demo_image 0x40000 0x10000 0x410000 0x40000 demo_rela_entry)
    as [_ H]; [vm_compute; intuition congruence..|].
  destruct (H 2%nat) as (s' & R & M); [vm_compute; intuition congruence..| | |].
  - intros i Hi Hr. apply demo_relative in Hr as ->; [|done]. vm_compute. intuition congruence.
  - intros i Hi Hr. apply demo_relative in Hr as ->; [|done]. split; [vm_compute; intuition congruence|].
    intros j Hj Hne Hrj. by apply demo_relative in Hrj.
  - exists s'. split; [exact R|]. exact (M 0 ltac:(lia) eq_refl).
Defined.

(** In the TPM partition the relocations are applied to the memory as it is after .bss
    has been cleared. *)
Theorem start_tpm_relocates {W} k im lo bss_start bss_end n_got n_bss n_rela at_el2 (s : astate W) :
  image_ok k im lo bss_start bss_end n_got n_bss -> loaded im lo bss_start bss_end (amem s) ->
  Z.land (sys s (sctlr at_el2)) 1 = 0 -> is_uint 64 (pie_fixup im) ->
  0 <= lo -> in_image k im (RELA_DYN_START im) (24 * Z.of_nat n_rela) ->
  RELA_DYN_END im = RELA_DYN_START im + 24 * Z.of_nat n_rela ->
  let m := cleared k im lo bss_start bss_end n_got n_bss (amem s) in
  match rela_fix (link_base k im) (link_base k im + IMAGE_SIZE) lo n_rela m (RELA_DYN_START im + lo) with
  | Some m' => exists s', (exists N, forall fuel, (N <= fuel)%nat ->
        ends (start_calls (2 ^ k) im lo fuel) (fun s => Ret s) (_start (2 ^ k) im lo at_el2 true) 0 s (Ret s')) /\
      amem s' = m' /\ rf s' SP = stacks_end im + lo
  | None => exists N, forall fuel, (N <= fuel)%nat ->
        ends (start_calls (2 ^ k) im lo fuel) (fun s => Ret s) (_start (2 ^ k) im lo at_el2 true) 0 s Panic
  end.
Proof.
  intros Hok HL Hm Up Hlo [Hr1 Hr2] Hre m.
  destruct (start_to_rela k im lo bss_start bss_end n_got n_bss at_el2 true Hok s HL Hm Up) as (N & sa & Ra & Ma & _ & Sp & _).
  pose proof (ok_code _ _ _ _ _ _ _ Hok) as Hc. rewrite !List.Forall_cons_iff in Hc. destruct Hc as (_ & _ & Hc3 & _).
  pose proof (ok_base _ _ _ _ _ _ _ Hok) as [Hb1 Hb2]. pose proof (ok_load _ _ _ _ _ _ _ Hok) as [Hl1 Hl2].
  destruct (image_aligned k im lo bss_start bss_end n_got n_bss Hok) as [Ab Al].
  pose proof (code_uint k im lo bss_start bss_end n_got n_bss Hok _ Hc3) as Ucode.
  assert (exists sb, (forall fuel, reaches (start_calls (2 ^ k) im lo fuel) (fun s => Ret s) (_start (2 ^ k) im lo at_el2 true) 53 sa 57 sb) /\
            amem sb = amem sa /\ rf sb X0 = link_base k im /\ rf sb X1 = link_base k im + IMAGE_SIZE /\ rf sb SP = rf sa SP)
    as (sb & Rb & Mb & B0 & B1 & Bs).
  { destruct at_el2; (eexists; split; [intros fuel; do 4 anext; apply reaches_refl|]); asimpl;
      rewrite (uwrap_small 64 (pie_fixup im)), page_mask_land by (apply (ok_granule _ _ _ _ _ _ _ Hok) || done); fold (link_base k im);
      change (u64 IMAGE_SIZE) with IMAGE_SIZE; (split_and!; try done); rewrite uwrap_small; unfold IMAGE_SIZE in *; lia. }
  set (sc := set X30 (u64 (ret_rela im + lo)) sb).
  assert (E30 : rf sc X30 = ret_rela im + lo) by (unfold sc; asimpl; by apply uwrap_small).
  pose proof (fix_rela_dyn_ends (fun _ s => Ret s) (fun s => Ret s) (2 ^ k) im lo (link_base k im) (link_base k im + IMAGE_SIZE) lo
    Hb1 ltac:(unfold IMAGE_SIZE; lia) Hlo ltac:(lia) k n_rela (RELA_DYN_START im + lo) eq_refl (ok_granule _ _ _ _ _ _ _ Hok) Ab Al
    eq_refl ltac:(lia) ltac:(lia) ltac:(lia) sc B0 B1) as H.
  rewrite E30 in H. specialize (H Ucode). rewrite (page_base k im lo bss_start bss_end n_got n_bss Hok _ Hc3) in H.
  specialize (H ltac:(rewrite uwrap_small; lia)). replace (amem sc) with m in H by (unfold sc, m; asimpl; congruence).
  destruct (rela_fix _ _ _ _ _ _) as [m'|].
  - destruct H as (sd & [N2 Rd] & Md & Kd). exists sd. split; [|split; [done|]].
    + exists (N + N2)%nat. intros fuel Hf. eapply ends_reaches; [exact (Ra fuel ltac:(lia))|]. eapply ends_reaches; [exact (Rb fuel)|].
      eapply ends_next; [destruct at_el2; reflexivity | cbn [exec start_calls]; fold sc; rewrite Rd by lia; reflexivity|].
      destruct at_el2; astop.
    + rewrite (proj1 Kd) by (cbn; intuition congruence). unfold sc. asimpl. congruence.
  - destruct H as [N2 Rd]. exists (N + N2)%nat. intros fuel Hf. eapply ends_reaches; [exact (Ra fuel ltac:(lia))|].
    eapply ends_reaches; [exact (Rb fuel)|].
    eapply ends_hang; [destruct at_el2; reflexivity | cbn [exec start_calls]; fold sc; rewrite Rd by lia; reflexivity].
Qed.

(** Loaded below its link address, an image whose offset table is moved hangs in
    fix_rela_dyn: the offset is added with a check for a carry. *)
Theorem rela_below_link_address_hangs {W} (call : sym -> astate W -> outcome (astate W)) conduit k im lo base limit off (s : astate W) :
  12 <= k <= 16 -> base mod 2 ^ k = 0 -> limit mod 2 ^ k = 0 -> rf s X0 = base -> rf s X1 = limit -> is_uint 64 (rf s X30) ->
  off = u64 (rf s X30 - rf s X30 mod 2 ^ k - base) -> 0 < base < 2 ^ 64 -> 0 <= rf s X30 - rf s X30 mod 2 ^ k < base ->
  ends call conduit (fix_rela_dyn (2 ^ k) im lo) 0 s Panic.
Proof.
  intros Hk Ab Al E0 E1 H30 Eo Hb Hlt.
  assert (Hal : (Z.land (Z.lor base limit) (u64 (2 ^ k - 1)) =? 0) = true).
  { rewrite page_offset_land, lor_aligned by done. by rewrite Ab, Al. }
  assert (E7 : u64 (Z.land (rf s X30) (u64 (page_mask (2 ^ k))) - base) = off) by (by rewrite page_mask_land).
  assert (Hc : (2 ^ 64 <=? base + off) = true).
  { apply Z.leb_le. rewrite Eo. set (p := rf s X30 - rf s X30 mod 2 ^ k) in *.
    replace (u64 (p - base)) with (p - base + 2 ^ 64); [lia|]. unfold uwrap. rewrite <- (Z.mod_add (p - base) 1) by lia.
    rewrite Z.mod_small; lia. }
  do 4 anext. agoto ltac:(cbn [holds and_flags f_z]; rewrite ?E0, ?E1, Hal). do 4 anext.
  ahang ltac:(rewrite ?E0, ?E1, ?E7, holds_cs_add, Hc).
Qed.
