(* ===== verification/Glue.v ===== *)
(** * The other assembly routines

    The conduit instructions behind the FF-A calls ([val_syscalls.S], [pal_asm_smc.S]),
    the system register accessors ([val_sysreg.S]), the entry of a secondary CPU and
    the PSCI call ([pal_misc_asm.S]), and the entry code of EL0 partitions
    ([val_entry_el0.S]). *)

From S2P Require Import Prelude CMem Asm Entry.

(** ** val_syscalls.S *)
Inductive no_sym := .

(** [use_svc] is [(PLATFORM_SP_EL == 0) && !defined(VM1_COMPILE)]. *)
Definition conduit_instr (use_svc : bool) : instr no_sym := if use_svc then Svc else Smc.

Definition val_call_conduit (use_svc : bool) : list (instr no_sym) :=
  [SubImm SP SP 0x20;
   Str X21 SP 0x10;
   Mov X21 X0;
   Ldr X0 X21 0;
   Ldr X1 X21 8;
   Ldr X2 X21 16;
   Ldr X3 X21 24;
   Ldr X4 X21 32;
   Ldr X5 X21 40;
   Ldr X6 X21 48;
   Ldr X7 X21 56;
   Ldr X8 X21 64;
   Ldr X9 X21 72;
   Ldr X10 X21 80;
   Ldr X11 X21 88;
   Ldr X12 X21 96;
   Ldr X13 X21 104;
   Ldr X14 X21 112;
   Ldr X15 X21 120;
   Ldr X16 X21 128;
   Ldr X17 X21 136;
   conduit_instr use_svc;
   Str X0 X21 0;
   Str X1 X21 8;
   Str X2 X21 16;
   Str X3 X21 24;
   Str X4 X21 32;
   Str X5 X21 40;
   Str X6 X21 48;
   Str X7 X21 56;
   Str X8 X21 64;
   Str X9 X21 72;
   Str X10 X21 80;
   Str X11 X21 88;
   Str X12 X21 96;
   Str X13 X21 104;
   Str X14 X21 112;
   Str X15 X21 120;
   Str X16 X21 128;
   Str X17 X21 136;
   Ldr X21 SP 0x10;
   AddImm SP SP 0x20;
   Ret_].

(** ** pal_asm_smc.S: the result structure is where x8 points *)
Definition smccc_conduit (conduit : instr no_sym) : list (instr no_sym) :=
  [StrPre X8 SP (-16);
   conduit;
   LdrPost X9 SP 16;
   Stp X0 X1 X9 0;
   Stp X2 X3 X9 16;
   Stp X4 X5 X9 32;
   Stp X6 X7 X9 48].
Definition asm_smc64 (use_svc : bool) : list (instr no_sym) := smccc_conduit (if use_svc then Svc else Smc) ++ [Ret_].
Definition asm_hvc64 (use_svc : bool) : list (instr no_sym) := smccc_conduit (if use_svc then Svc else Hvc) ++ [Ret_].

(** ** val_sysreg.S: x1 (x0 for a read) is the exception level *)
Definition val_mair_write : list (instr no_sym) :=
  [CmpImm X1 2; Bcond NE (L 1); Msr MAIR_EL2 X0; Ret_; Label 1; Msr MAIR_EL1 X0; Ret_].
Definition val_tcr_write : list (instr no_sym) :=
  [CmpImm X1 2; Bcond NE (L 1); Msr TCR_EL2 X0; Barrier; Barrier; Barrier; Ret_;
   Label 1; Msr TCR_EL1 X0; Barrier; Barrier; Barrier; Ret_].
Definition val_ttbr0_write : list (instr no_sym) :=
  [CmpImm X1 2; Bcond NE (L 1); Msr TTBR0_EL2 X0; Ret_; Label 1; Msr TTBR0_EL1 X0; Ret_].
Definition val_ttbr0_read : list (instr no_sym) :=
  [CmpImm X0 2; Bcond NE (L 1); Mrs X0 TTBR0_EL2; Ret_; Label 1; Mrs X0 TTBR0_EL1; Ret_].
Definition val_sctlr_read : list (instr no_sym) :=
  [CmpImm X0 2; Bcond NE (L 1); Mrs X0 SCTLR_EL2; Barrier; Ret_; Label 1; Mrs X0 SCTLR_EL1; Barrier; Ret_].
Definition val_sctlr_write : list (instr no_sym) :=
  [CmpImm X1 2; Bcond NE (L 1); Msr SCTLR_EL2 X0; Barrier; Ret_; Label 1; Msr SCTLR_EL1 X0; Barrier; Ret_].
Definition val_esr_el2_read : list (instr no_sym) := [Mrs X0 ESR_EL2; Ret_].
Definition val_esr_el1_read : list (instr no_sym) := [Mrs X0 ESR_EL1; Ret_].
Definition val_elr_el2_read : list (instr no_sym) := [Mrs X0 ELR_EL2; Ret_].
Definition val_elr_el1_read : list (instr no_sym) := [Mrs X0 ELR_EL1; Ret_].
Definition val_elr_el1_write : list (instr no_sym) := [Msr ELR_EL1 X0; Ret_].
Definition val_far_el2_read : list (instr no_sym) := [Mrs X0 FAR_EL2; Ret_].
Definition val_far_el1_read : list (instr no_sym) := [Mrs X0 FAR_EL1; Ret_].
Definition val_id_aa64mmfr0_el1_read : list (instr no_sym) := [Mrs X0 ID_AA64MMFR0_EL1; Ret_].
Definition val_read_mpidr : list (instr no_sym) := [Mrs X0 SYS_MPIDR_EL1; Ret_].
Definition val_read_current_el : list (instr no_sym) := [Mrs X0 SYS_CurrentEL; Ret_].

(** Cache maintenance of one address. *)
Definition val_dataCacheCleanInvalidateVA : list (instr no_sym) := [Dc X0; Barrier; Barrier; Ret_].
Definition val_dataCacheCleanVA : list (instr no_sym) := [Dc X0; Barrier; Barrier; Ret_].
Definition val_dataCacheInvalidateVA : list (instr no_sym) := [Dc X0; Barrier; Barrier; Ret_].

(** ** pal_misc_asm.S *)
Definition pal_uart_putc_hypcall (use_svc : bool) : list (instr no_sym) :=
  [Mov X2 X0; MovImm X1 1; MovImm X0 0x8A; Movk16 X0 0xC400; if use_svc then Svc else Hvc; Ret_].
Definition pal_syscall_for_psci : list (instr no_sym) := [Smc; Ret_].

Definition STACK_SPACE : Z := STACK_SIZE * 16.
Inductive sec_sym := pal_get_cpuid_sym | val_secondary_cpu_test_entry_sym.

Definition pal_secondary_cpu_boot_entry (stack_base ra1 ra2 : Z) : list (instr sec_sym) :=
  [Mov X0 XZR;
   Adrp X1 stack_base;
   AddImm X1 X1 (lo12 stack_base);
   AddImm X1 X1 STACK_SIZE;
   MovImm X2 STACK_SIZE;
   Mul X2 X0 X2;
   Add SP X1 X2;
   Mrs X0 SYS_MPIDR_EL1;
   Bl pal_get_cpuid_sym ra1;
   Adrp X1 stack_base;
   AddImm X1 X1 (lo12 stack_base);
   AddImm X1 X1 STACK_SIZE;
   MovImm X2 STACK_SIZE;
   Mul X2 X0 X2;
   Add SP X1 X2;
   Bl val_secondary_cpu_test_entry_sym ra2;
   Ret_].

(** ** val_entry_el0.S *)
Section El0.
Context (PAGE_ALIGNMENT : Z) (im : image_symbols) (load_offset RODATA_START RODATA_END BSS_END : Z).
Abbreviation adr_of := (Entry.adr_of load_offset).

(** The macro; [start] and [end_] are symbols. *)
Definition ffa_mem_perm_set (start end_ perm : Z) : list (instr sym) :=
  adr_of X29 start ++ adr_of X30 end_ ++
  [Sub X30 X30 X29;
   MovImm X28 12;
   Lsrv X28 X30 X28;
   MovImm X0 0x89;
   Movk16 X0 0x8400;
   Mov X1 X29;
   Mov X2 X28;
   MovImm X3 perm;
   Svc;
   MovImm X1 0x61;
   Movk16 X1 0x8400;
   CmpW X1 X0;
   Bcond NE Here].

Definition val_entry : list (instr sym) :=
  adr_of X0 (stacks_end im) ++ [Mov SP X0] ++
  ffa_mem_perm_set RODATA_START BSS_END 5 ++
  image_limits PAGE_ALIGNMENT im ++ [Bl fix_symbol_table_sym (ret_fixup im + load_offset)] ++
  [Adr X2 (val_image_load_offset im + load_offset); Ldr X2 X2 0;
   Adr X0 (bss_start_addr im + load_offset); Ldr X0 X0 0; Add X0 X0 X2;
   Adr X1 (bss_end_addr im + load_offset); Ldr X1 X1 0; Add X1 X1 X2;
   Sub X1 X1 X0] ++
  clear_bss_loop ++
  ffa_mem_perm_set RODATA_START RODATA_END 7 ++
  [Tail val_main_sym].
End El0.
