(* ===== verification/Libc.v ===== *)
(** * C library routines

    [platform/common/src/pal_libc.c] (memcpy, memset, memcmp and their [pal_]
    wrappers) and the string and buffer routines of [val/src/val_misc.c].
    Pointers are addresses of the shared memory of [CMem]; a loop on a [size_t]
    counter recurses on that count, a loop on a string terminator takes fuel. *)

From S2P Require Import Prelude CMem.

(** ** pal_libc.c *)

Fixpoint memcpy_loop (len : nat) (m : mem) (d s : Z) : mem :=
  match len with
  | O => m
  | S len' => memcpy_loop len' (st8 m d (ld8 m s)) (d + 1) (s + 1)
  end.

Definition memcpy (m : mem) (dst src len : Z) : Z * mem :=
  (dst, memcpy_loop (Z.to_nat len) m dst src).

Fixpoint memset_loop (count : nat) (m : mem) (ptr val : Z) : mem :=
  match count with
  | O => m
  | S count' => memset_loop count' (st8 m ptr (uwrap 8 val)) (ptr + 1) val
  end.

Definition memset (m : mem) (dst val count : Z) : Z * mem :=
  (dst, memset_loop (Z.to_nat count) m dst val).

Fixpoint memcmp_loop (len : nat) (m : mem) (s d : Z) : Z :=
  match len with
  | O => 0
  | S len' =>
      let sc := ld8 m s in
      let dc := ld8 m d in
      if negb (sc - dc =? 0) then sc - dc else memcmp_loop len' m (s + 1) (d + 1)
  end.

Definition memcmp (m : mem) (s1 s2 len : Z) : Z := memcmp_loop (Z.to_nat len) m s1 s2.

Definition pal_memcmp (m : mem) (src dest len : Z) : Z := memcmp m src dest len.
Definition pal_memset (m : mem) (dst val count : Z) : Z * mem := (dst, (memset m dst val count).2).
Definition pal_memcpy (m : mem) (dst src len : Z) : Z * mem := memcpy m dst src len.

(** ** val_misc.c *)

Definition val_memcmp (m : mem) (src dest len : Z) : Z := pal_memcmp m src dest len.
Definition val_memcpy (m : mem) (dst src len : Z) : Z * mem := pal_memcpy m dst src len.
Definition val_memset (m : mem) (dst val count : Z) : Z * mem :=
  (dst, (pal_memset m dst val count).2).

(** [while (str1[str1_len] != 0 && str1_len < output_buff_size - 1)]: the
    counter [n] is what is left of [output_buff_size - 1]. *)
Fixpoint strcat_scan (n : nat) (m : mem) (str1 str1_len : Z) : Z :=
  match n with
  | O => str1_len
  | S n' => if ld8 m (str1 + str1_len) =? 0 then str1_len
            else strcat_scan n' m str1 (str1_len + 1)
  end.

Fixpoint strcat_append (n : nat) (m : mem) (str1 str1_len str2 i : Z) : Z * mem :=
  match n with
  | O => (str1_len, m)
  | S n' =>
      if ld8 m (str2 + i) =? 0 then (str1_len, m)
      else strcat_append n' (st8 m (str1 + str1_len) (ld8 m (str2 + i)))
             str1 (str1_len + 1) str2 (i + 1)
  end.

Definition val_strcat (m : mem) (str1 str2 output_buff_size : Z) : Z * mem :=
  let lim := uwrap 64 (output_buff_size - 1) in
  let str1_len := strcat_scan (Z.to_nat lim) m str1 0 in
  if lim <=? str1_len then (str1, m)
  else
    let '(str1_len', m') := strcat_append (Z.to_nat (lim - str1_len)) m str1 str1_len str2 0 in
    (str1, st8 m' (str1 + str1_len') 0).

Fixpoint strcmp_loop (fuel : nat) (m : mem) (str1 str2 ctr : Z) : outcome Z :=
  match fuel with
  | O => Diverge
  | S fuel' =>
      if ld8 m (str1 + ctr) =? ld8 m (str2 + ctr) then
        if (ld8 m (str1 + ctr) =? 0) || (ld8 m (str2 + ctr) =? 0) then Ret ctr
        else strcmp_loop fuel' m str1 str2 (uwrap 32 (ctr + 1))
      else Ret ctr
  end.

Definition val_strcmp (fuel : nat) (m : mem) (str1 str2 : Z) : outcome Z :=
  let! ctr := strcmp_loop fuel m str1 str2 0 in
  if (ld8 m (str1 + ctr) =? 0) && (ld8 m (str2 + ctr) =? 0) then Ret 0 else Ret (-1).

Fixpoint strcpy_loop (fuel : nat) (m : mem) (dest src : Z) : outcome mem :=
  match fuel with
  | O => Diverge
  | S fuel' =>
      let c := ld8 m src in
      let m' := st8 m dest c in
      if c =? 0 then Ret m' else strcpy_loop fuel' m' (dest + 1) (src + 1)
  end.

Definition val_strcpy (fuel : nat) (m : mem) (dest src : Z) : outcome (Z * mem) :=
  let! m' := strcpy_loop fuel m dest src in Ret (dest, m').

Fixpoint memmove_backward (n : nat) (m : mem) (d s : Z) : mem :=
  match n with
  | O => m
  | S n' => memmove_backward n' (st8 m (d + Z.of_nat n') (ld8 m (s + Z.of_nat n'))) d s
  end.

Definition val_memmove (m : mem) (dest src n : Z) : Z * mem :=
  if (dest =? src) || (n =? 0) then (dest, m)
  else if dest <? src then (dest, memcpy_loop (Z.to_nat n) m dest src)
  else (dest, memmove_backward (Z.to_nat n) m dest src).

(** ** Copies *)

Lemma memcpy_loop_frame n m d s : frame d (Z.of_nat n) m (memcpy_loop n m d s).
Proof.
  revert m d s; induction n as [|n IH]; intros m d s b Hb; [done|]. cbn [memcpy_loop].
  rewrite IH by lia. apply ld8_st8_ne; lia.
Qed.

(** A forward copy is right when the destination does not run into the part of
    the source still to be read. *)
Lemma memcpy_loop_spec n m d s i :
  (d <= s \/ s + Z.of_nat n <= d) -> 0 <= i < Z.of_nat n ->
  ld8 (memcpy_loop n m d s) (d + i) = ld8 m (s + i).
Proof.
  revert m d s i; induction n as [|n IH]; intros m d s i Hov Hi; [lia|]. cbn [memcpy_loop].
  destruct (decide (i = 0)) as [->|].
  - rewrite memcpy_loop_frame by lia. rewrite !Z.add_0_r, ld8_st8_eq. apply ld8_wrap.
  - replace (d + i) with (d + 1 + (i - 1)) by lia. rewrite IH by lia.
    replace (s + 1 + (i - 1)) with (s + i) by lia. apply ld8_st8_ne; lia.
Qed.

Lemma memmove_backward_frame n m d s : frame d (Z.of_nat n) m (memmove_backward n m d s).
Proof.
  revert m; induction n as [|n IH]; intros m b Hb; [done|]. cbn [memmove_backward].
  rewrite IH by lia. apply ld8_st8_ne; lia.
Qed.

Lemma memmove_backward_spec n m d s i :
  s <= d -> 0 <= i < Z.of_nat n ->
  ld8 (memmove_backward n m d s) (d + i) = ld8 m (s + i).
Proof.
  revert m; induction n as [|n IH]; intros m Hov Hi; [lia|]. cbn [memmove_backward].
  destruct (decide (i = Z.of_nat n)) as [->|].
  - rewrite memmove_backward_frame by lia. rewrite ld8_st8_eq. apply ld8_wrap.
  - rewrite IH by lia. apply ld8_st8_ne; lia.
Qed.

Lemma memset_loop_frame n m d v : frame d (Z.of_nat n) m (memset_loop n m d v).
Proof.
  revert m d; induction n as [|n IH]; intros m d b Hb; [done|]. cbn [memset_loop].
  rewrite IH by lia. apply ld8_st8_ne; lia.
Qed.

Lemma memset_loop_spec n m d v i :
  0 <= i < Z.of_nat n -> ld8 (memset_loop n m d v) (d + i) = uwrap 8 v.
Proof.
  revert m d i; induction n as [|n IH]; intros m d i Hi; [lia|]. cbn [memset_loop].
  destruct (decide (i = 0)) as [->|].
  - rewrite memset_loop_frame, Z.add_0_r, ld8_st8_eq by lia. by apply uwrap_idem.
  - replace (d + i) with (d + 1 + (i - 1)) by lia. apply IH; lia.
Qed.

Lemma memcmp_loop_eq n m s d :
  memcmp_loop n m s d = 0 <-> forall i, 0 <= i < Z.of_nat n -> ld8 m (s + i) = ld8 m (d + i).
Proof.
  revert s d; induction n as [|n IH]; intros s d; cbn [memcmp_loop].
  { split; [lia | done]. }
  destruct (Z.eqb_spec (ld8 m s - ld8 m d) 0) as [E|E]; cbn [negb].
  - rewrite IH; split; intros H i Hi.
    + destruct (decide (i = 0)) as [->|]; [rewrite !Z.add_0_r; lia|].
      specialize (H (i - 1)). rewrite <- !Z.add_assoc in H.
      replace (1 + (i - 1)) with i in H by lia. apply H; lia.
    + rewrite <- !Z.add_assoc. apply H; lia.
  - split; [done|]. intros H. specialize (H 0). rewrite !Z.add_0_r in H. lia.
Qed.

(** ** C strings *)

(** The bytes [s] (none of them zero) stand at [a], followed by the terminator. *)
Fixpoint cstr (m : mem) (a : Z) (s : list Z) : Prop :=
  match s with
  | [] => ld8 m a = 0
  | c :: s' => ld8 m a = c /\ c <> 0 /\ cstr m (a + 1) s'
  end.

Lemma cstr_app m a s1 s2 :
  cstr m a (s1 ++ s2) <->
  (forall i c, s1 !! i = Some c -> ld8 m (a + Z.of_nat i) = c /\ c <> 0) /\
  cstr m (a + Z.of_nat (length s1)) s2.
Proof.
  revert a; induction s1 as [|c s1 IH]; intros a; simpl.
  { rewrite Z.add_0_r. split; [by intros; split | by intros [_ ?]]. }
  rewrite IH. replace (a + 1 + Z.of_nat (length s1)) with (a + Z.pos (Pos.of_succ_nat (length s1)))
    by lia.
  split.
  - intros (H0 & Hc & H1 & H2). split; [|done]. intros [|i] c' Hi; simpl in Hi.
    + simplify_eq. by rewrite Z.add_0_r.
    + specialize (H1 i c' Hi). by replace (a + Z.of_nat (S i)) with (a + 1 + Z.of_nat i) by lia.
  - intros [H1 H2]. destruct (H1 0%nat c eq_refl) as [H0 Hc]. rewrite Z.add_0_r in H0.
    split_and!; try done. intros i c' Hi. destruct (H1 (S i) c' Hi) as [H3 H4].
    split; [|done]. by replace (a + 1 + Z.of_nat i) with (a + Z.of_nat (S i)) by lia.
Qed.

Lemma cstr_inj m a s1 s2 : cstr m a s1 -> cstr m a s2 -> s1 = s2.
Proof.
  revert a s2; induction s1 as [|c s1 IH]; intros a [|c' s2]; cbn; [done | | |].
  - intros H (<- & H' & _). congruence.
  - intros (<- & H & _) H'. congruence.
  - intros (<- & _ & H1) (<- & _ & H2). f_equal. by eapply IH.
Qed.

Lemma cstr_ext m m' a s :
  (forall i, 0 <= i <= Z.of_nat (length s) -> ld8 m' (a + i) = ld8 m (a + i)) ->
  cstr m a s -> cstr m' a s.
Proof.
  revert a; induction s as [|c s IH]; intros a Hm; simpl.
  { specialize (Hm 0). rewrite Z.add_0_r in Hm. intros H. rewrite Hm by (simpl; lia). done. }
  intros (H0 & Hc & H1). split_and!; [|done|].
  - rewrite <- (Z.add_0_r a), Hm by (simpl; lia). by rewrite Z.add_0_r.
  - apply IH; [|done]. intros i Hi. rewrite <- Z.add_assoc. apply Hm. simpl. lia.
Qed.

Lemma strcat_scan_spec n m a s k :
  cstr m (a + k) s -> (length s <= n)%nat ->
  strcat_scan n m a k = k + Z.of_nat (length s).
Proof.
  revert k n; induction s as [|c s IH]; intros k n H Hn; simpl in *.
  - destruct n; simpl; [lia|]. rewrite H, Z.eqb_refl. lia.
  - destruct n as [|n]; [lia|]. destruct H as (H0 & Hc & H1). simpl.
    destruct (Z.eqb_spec (ld8 m (a + k)) 0); [congruence|].
    rewrite IH; [lia | by rewrite Z.add_assoc | lia].
Qed.

Lemma strcat_append_spec n m a k b i s :
  cstr m (b + i) s ->
  a + k + Z.of_nat n <= b + i \/ b + i + Z.of_nat (length s) < a + k ->
  exists m', strcat_append n m a k b i = (k + Z.of_nat (length (take n s)), m') /\
    frame (a + k) (Z.of_nat (length (take n s))) m m' /\
    (forall j c, take n s !! j = Some c -> ld8 m' (a + k + Z.of_nat j) = c).
Proof.
  revert m k i s; induction n as [|n IH]; intros m k i s Hs Hd; cbn [strcat_append].
  { exists m. rewrite take_0. simpl. rewrite Z.add_0_r.
    split_and!; [done | apply frame_refl | by intros j c; rewrite lookup_nil]. }
  destruct s as [|c s]; simpl in Hs.
  { exists m. rewrite Hs, Z.eqb_refl. simpl. rewrite Z.add_0_r.
    split_and!; [done | apply frame_refl | by intros j c; rewrite lookup_nil]. }
  destruct Hs as (H0 & Hc & H1).
  destruct (Z.eqb_spec (ld8 m (b + i)) 0) as [E|E]; [congruence|].
  simpl in Hd. pose proof (ld8_range m (b + i)) as Hr.
  destruct (IH (st8 m (a + k) (ld8 m (b + i))) (k + 1) (i + 1) s) as (m' & E' & Hf & Hj).
  - apply (cstr_ext m); [|by rewrite Z.add_assoc].
    intros j Hj. apply ld8_st8_ne. lia.
  - lia.
  - exists m'. rewrite E'. cbn [take length]. split_and!; [f_equal; lia | |].
    + intros x Hx. rewrite Hf by lia. apply ld8_st8_ne. lia.
    + intros [|j] c' Hj'; simpl in Hj'; simplify_eq.
      * rewrite Hf, Z.add_0_r, ld8_st8_eq by lia. apply ld8_wrap.
      * replace (a + k + Z.of_nat (S j)) with (a + (k + 1) + Z.of_nat j) by lia. by apply Hj.
Qed.

Lemma strcmp_loop_spec fuel m a b s1 s2 k :
  cstr m (a + k) s1 -> cstr m (b + k) s2 -> 0 <= k ->
  k + Z.of_nat (length s1) < 2 ^ 32 -> (length s1 < fuel)%nat ->
  exists r, strcmp_loop fuel m a b k = Ret r /\
    ((ld8 m (a + r) =? 0) && (ld8 m (b + r) =? 0) = true <-> s1 = s2).
Proof.
  revert fuel k s2; induction s1 as [|c s1 IH]; intros fuel k s2 H1 H2 Hk Hl Hf;
    (destruct fuel as [|fuel]; [simpl in Hf; lia|]); cbn [strcmp_loop]; simpl in H1.
  - exists k. rewrite H1. destruct s2 as [|c2 s2]; simpl in H2.
    + rewrite H2. by split.
    + destruct H2 as (H2 & Hc & _). rewrite H2. destruct (Z.eqb_spec 0 c2); [congruence|].
      destruct (Z.eqb_spec c2 0); [congruence|]. by split.
  - destruct H1 as (H1 & Hc & H1'). rewrite H1. destruct s2 as [|c2 s2]; simpl in H2.
    + exists k. rewrite H1, H2. destruct (Z.eqb_spec c 0); [congruence|]. by split.
    + destruct H2 as (H2 & Hc2 & H2'). rewrite H2.
      destruct (Z.eqb_spec c c2) as [->|Hne].
      * destruct (Z.eqb_spec c2 0); [congruence|]. simpl in Hl, Hf. usmall. cbn [orb].
        destruct (IH fuel (k + 1) s2) as (r & -> & Hr); rewrite ?Z.add_assoc; try done; try lia.
        exists r. split; [done|]. rewrite Hr. split; congruence.
      * exists k. rewrite H1, H2. destruct (Z.eqb_spec c 0); [congruence|]. split; [done|].
        simpl. split; [done | congruence].
Qed.

Lemma strcpy_loop_spec fuel m d s str :
  cstr m s str -> (length str < fuel)%nat ->
  (d + Z.of_nat (length str) < s \/ s + Z.of_nat (length str) < d) ->
  exists m', strcpy_loop fuel m d s = Ret m' /\ cstr m' d str /\
    frame d (Z.of_nat (length str) + 1) m m'.
Proof.
  revert fuel m d s; induction str as [|c str IH]; intros fuel m d s Hs Hf Hd;
    (destruct fuel as [|fuel]; [simpl in Hf; lia|]); cbn [strcpy_loop]; simpl in Hs.
  - rewrite Hs, Z.eqb_refl. eexists; split_and!; [done | by simpl; rewrite ld8_st8_eq |].
    intros b Hb. apply ld8_st8_ne. simpl in Hb. lia.
  - destruct Hs as (H0 & Hc & Hs). rewrite H0. destruct (Z.eqb_spec c 0); [congruence|].
    simpl in Hf, Hd.
    destruct (IH fuel (st8 m d c) (d + 1) (s + 1)) as (m' & -> & Hc' & Hfr); try lia.
    { apply (cstr_ext m); [|done]. intros j Hj. apply ld8_st8_ne. lia. }
    exists m'. split_and!; [done | | ].
    + simpl. split_and!; [|done|done]. rewrite Hfr, ld8_st8_eq by lia.
      rewrite <- H0. apply ld8_wrap.
    + intros b Hb. simpl in Hb. rewrite Hfr by lia. apply ld8_st8_ne. lia.
Qed.

(** ** Properties *)

(** For any two buffers, overlapping or not, val_memmove returns dest, leaves in
    dest the bytes src held before the call and changes nothing else. *)
Theorem val_memmove_correct m dest src n :
  0 <= n ->
  (val_memmove m dest src n).1 = dest /\
  (forall i, 0 <= i < n -> ld8 (val_memmove m dest src n).2 (dest + i) = ld8 m (src + i)) /\
  frame dest n m (val_memmove m dest src n).2.
Proof.
  intros Hn. unfold val_memmove.
  destruct (Z.eqb_spec dest src) as [->|]; [by auto with cmem|].
  destruct (Z.eqb_spec n 0) as [->|]; cbn [orb fst snd].
  { split_and!; [done | lia | apply frame_refl]. }
  destruct (Z.ltb_spec dest src); cbn [fst snd]; split_and!; try done.
  - intros i Hi. apply memcpy_loop_spec; lia.
  - rewrite <- (Z2Nat.id n) at 1 by lia. apply memcpy_loop_frame.
  - intros i Hi. apply memmove_backward_spec; lia.
  - rewrite <- (Z2Nat.id n) at 1 by lia. apply memmove_backward_frame.
Qed.

Lemma val_memmove_witness :
  ld8 (val_memmove (stn 4 ∅ 100 0x04030201) 101 100 4).2 (101 + 2) = 3.
Proof.
  destruct (val_memmove_correct (stn 4 ∅ 100 0x04030201) 101 100 4) as (_ & H & _); [lia|].
  rewrite (H 2) by lia. vm_compute. reflexivity.
Defined.

(** val_strcat writes the terminated prefix of the concatenation that fits the
    buffer of the given size, and no byte outside that buffer. *)
Theorem val_strcat_bounded m p1 p2 sz s1 s2 :
  cstr m p1 s1 -> cstr m p2 s2 ->
  Z.of_nat (length s1) < sz < 2 ^ 64 ->
  (p1 + sz <= p2 \/ p2 + Z.of_nat (length s2) < p1) ->
  (val_strcat m p1 p2 sz).1 = p1 /\
  cstr (val_strcat m p1 p2 sz).2 p1 (take (Z.to_nat (sz - 1)) (s1 ++ s2)) /\
  frame p1 sz m (val_strcat m p1 p2 sz).2.
Proof.
  intros H1 H2 Hsz Hd. unfold val_strcat. usmall.
  rewrite (strcat_scan_spec _ m p1 s1 0) by (rewrite ?Z.add_0_r; done || lia).
  rewrite Z.add_0_l. rewrite take_app_ge by lia.
  destruct (Z.leb_spec (sz - 1) (Z.of_nat (length s1))) as [Hle|Hlt]; cbn [fst snd].
  { replace (Z.to_nat (sz - 1) - length s1)%nat with 0%nat by lia.
    rewrite take_0, app_nil_r. auto with cmem. }
  set (n := Z.to_nat (sz - 1 - Z.of_nat (length s1))).
  destruct (strcat_append_spec n m p1 (Z.of_nat (length s1)) p2 0 s2) as (m' & E & Hf & Hj);
    [by rewrite Z.add_0_r | lia |].
  rewrite E. cbn [fst snd]. split; [done|].
  replace (Z.to_nat (sz - 1) - length s1)%nat with n by lia.
  assert (length (take n s2) <= n)%nat by (rewrite length_take; lia).
  split.
  - rewrite <- (app_nil_r s1) in H1. apply cstr_app in H1 as [H1 _].
    rewrite <- (app_nil_r (s1 ++ take n s2)). apply cstr_app. split.
    + intros i c Hi. pose proof (lookup_lt_Some _ _ _ Hi) as Hlt'. rewrite length_app in Hlt'.
      rewrite ld8_st8_ne by lia. apply lookup_app_Some in Hi as [Hi|[Hge Hi]].
      * specialize (H1 i c Hi). pose proof (lookup_lt_Some _ _ _ Hi).
        rewrite Hf by lia. done.
      * split.
        -- specialize (Hj _ _ Hi). rewrite <- Hj. f_equal. lia.
        -- rewrite lookup_take_Some in Hi. destruct Hi as [Hi _].
           rewrite <- (app_nil_r s2) in H2. apply cstr_app in H2 as [H2 _].
           by destruct (H2 _ _ Hi).
    + simpl. rewrite length_app. replace (p1 + Z.of_nat (length s1 + length (take n s2))) with
        (p1 + (Z.of_nat (length s1) + Z.of_nat (length (take n s2)))) by lia. by rewrite ld8_st8_eq.
  - intros b Hb. rewrite ld8_st8_ne by lia. apply Hf. lia.
Qed.

(** Memory holding the C strings "ab" at 10 and "cd" at 40. *)
Definition two_strings : mem := stn 3 (stn 3 ∅ 10 0x6261) 40 0x6463.

Lemma two_strings_at : cstr two_strings 10 [0x61; 0x62] /\ cstr two_strings 40 [0x63; 0x64].
Proof. vm_compute. repeat split; congruence. Qed.

Lemma val_strcat_witness :
  cstr (val_strcat two_strings 10 40 4).2 10 [0x61; 0x62; 0x63].
Proof.
  apply (val_strcat_bounded two_strings 10 40 4 [0x61; 0x62] [0x63; 0x64]);
    [apply two_strings_at | apply two_strings_at | simpl; lia | simpl; lia].
Defined.

(** On two terminated strings shorter than the 32-bit index, val_strcmp terminates
    and returns 0 exactly when they are equal and VAL_ERROR (-1) otherwise. *)
Theorem val_strcmp_correct fuel m a b s1 s2 :
  cstr m a s1 -> cstr m b s2 -> Z.of_nat (length s1) < 2 ^ 32 -> (length s1 < fuel)%nat ->
  val_strcmp fuel m a b = Ret (if decide (s1 = s2) then 0 else -1).
Proof.
  intros H1 H2 Hl Hf. unfold val_strcmp.
  destruct (strcmp_loop_spec fuel m a b s1 s2 0) as (r & -> & Hr);
    rewrite ?Z.add_0_r; try done.
  cbn [obind]. case_decide as E.
  - apply Hr in E. by rewrite E.
  - destruct (_ && _); [|done]. exfalso. by apply E, Hr.
Qed.

Lemma val_strcmp_witness : val_strcmp 3 two_strings 10 40 = Ret (-1).
Proof.
  rewrite (val_strcmp_correct 3 two_strings 10 40 [0x61; 0x62] [0x63; 0x64]);
    [done | apply two_strings_at | apply two_strings_at | simpl; lia | simpl; lia].
Defined.
