(* ===== verification/TpmShim.v ===== *)
(** * What the TPM binary calls ([pal_tpm_abi_shim.c])

    The reference TPM is linked as a binary against a shim: the memory functions of
    its base library, debug and serial stubs, its build-time constants, the compiler
    support functions [__ashlti3] and [__aarch64_ldadd4_relax].  The last is a loop of
    exclusive accesses: it is modelled as a step relation, CPUs interleaved. *)

From S2P Require Import Prelude CMem Libc.

(** ** Build-time constants *)
Definition _gPcd_FixedAtBuild_PcdTpmBaseAddress : Z := 0.
Definition _gPcd_FixedAtBuild_PcdTpmSecureCrbBase : Z := 0.
Definition _gPcd_FixedAtBuild_PcdControlFlowEnforcementPropertyMask : Z := 0.
Definition _gPcd_FixedAtBuild_PcdVerifyNodeInList : Z := 0.
Definition _gPcd_FixedAtBuild_PcdMaximumLinkedListLength : Z := 1000000.
Definition _gPcd_FixedAtBuild_PcdMaximumAsciiStringLength : Z := 1000000.
Definition _gPcd_FixedAtBuild_PcdMaximumUnicodeStringLength : Z := 1000000.
Definition _gPcd_FixedAtBuild_PcdSpeculationBarrierType : Z := 1.
Definition _gPcd_FixedAtBuild_PcdUartDefaultReceiveFifoDepth : Z := 1.
Definition _gPcd_FixedAtBuild_PcdSerialBaudRate : Z := 115200.
Definition _gPcd_FixedAtBuild_PL011UartInteger : Z := 0.
Definition _gPcd_FixedAtBuild_PL011UartFractional : Z := 0.
Definition _gPcd_FixedAtBuild_PL011UartRegOffsetVariant : Z := 0.
Definition _gPcd_FixedAtBuild_PL011UartClkInHz : Z := 24000000.
Definition _gPcd_FixedAtBuild_PcdDebugPrintErrorLevel : Z := 0x8000008F.
Definition _gPcd_FixedAtBuild_PcdSerialRegisterBase : Z := 0x1c090000.
Definition _gPcd_FixedAtBuild_PcdSerialUseHardwareFlowControl : Z := 0.
Definition _gPcd_FixedAtBuild_PcdUartDefaultBaudRate : Z := 115200.
Definition _gPcd_FixedAtBuild_PcdUartDefaultDataBits : Z := 8.
Definition _gPcd_FixedAtBuild_PcdUartDefaultParity : Z := 1.
Definition _gPcd_FixedAtBuild_PcdUartDefaultStopBits : Z := 1.
Definition _gPcd_FixedAtBuild_PcdDebugClearMemoryValue : Z := 0xAF.
Definition _gPcd_FixedAtBuild_PcdDebugPropertyMask : Z := 0x2F.
Definition _gPcd_FixedAtBuild_PcdFixedDebugPrintErrorLevel : Z := 0xFFFFFFFF.
Definition _gPcd_FixedAtBuild_PcdSpinLockTimeout : Z := 10000000.
Definition _gPcd_FixedAtBuild_PcdTpmNvMemoryBase : Z := 0x0FF80000.
Definition _gPcd_FixedAtBuild_PcdTpmNvMemorySize : Z := 0x4000.
Definition _gPcd_FixedAtBuild_PcdTpmEmuNvMemory : Z := 0.
Definition _gPcd_BinaryPatch_PcdTpmUniqueValue : Z := 0x12345678.
Definition _gPcd_BinaryPatch_Size_PcdTpmUniqueValue : Z := 8.
Definition __stack_chk_guard : Z := 0x41435354504d5350.

(** [for (;;)]. *)
Definition __stack_chk_fail {S} : cmd S unit := panic.
Definition CpuDeadLoop {S} : cmd S unit := panic.

(** ** Memory functions *)
Definition SetMem (m : mem) (buffer length value : Z) : Z * mem := memset m buffer value length.
Definition ZeroMem (m : mem) (buffer length : Z) : Z * mem := memset m buffer 0 length.
Definition CopyMem (m : mem) (destination source length : Z) : Z * mem := memcpy m destination source length.
Definition CompareMem (m : mem) (first second length : Z) : Z := memcmp m first second length.

Definition memmove (m : mem) (destination source length : Z) : Z * mem :=
  if (destination =? source) || (length =? 0) then (destination, m)
  else if destination <? source then (destination, memcpy_loop (Z.to_nat length) m destination source)
  else (destination, memmove_backward (Z.to_nat length) m destination source).

(** [n]: what is left of [length]. *)
Fixpoint scan_loop (n : nat) (m : mem) (buffer index value : Z) : Z :=
  match n with
  | O => 0
  | S n' => if ld8 m (buffer + index) =? value then buffer + index else scan_loop n' m buffer (index + 1) value
  end.
Definition ScanMem8 (m : mem) (buffer length value : Z) : Z := scan_loop (Z.to_nat length) m buffer 0 value.

(** ** Debug and serial stubs *)
Definition DebugPrintEnabled : Z := 0.
Definition DebugPrintLevelEnabled (error_level : Z) : Z := 0.
Definition DebugPrint {S} (error_level format : Z) : cmd S unit := mret tt.
Definition DebugAssertEnabled : Z := 0.
Definition DebugAssert {S} (file_name line_number description : Z) : cmd S unit := mret tt.
Definition SerialPortWrite (buffer number_of_bytes : Z) : Z := if buffer =? 0 then 0 else number_of_bytes.

(** ** [__int128] shift: [shift] is an [int] *)
Definition __ashlti3 (value shift : Z) : Z :=
  if (shift <? 0) || (128 <=? shift) then 0
  else sint 128 (uwrap 128 (Z.shiftl (uwrap 128 value) shift)).

(** ** [__aarch64_ldadd4_relax] *)

(** A call: the value to add, and whether the pointer is NULL.  All other pointers are
    to one word. *)
Inductive op := Ldadd (value : Z) | LdaddNull (value : Z).

(** What a CPU executes next: the test of the pointer, an instruction of the loop, the
    return. *)
Inductive point := Enter | Ldxr | Add | Stxr | Cbnz | Return.

(** A CPU: the calls left (the first is running), the three registers of the loop, the
    exclusive monitor. *)
Record cpu := Cpu { ops : list op; pc : point; old : Z; new_value : Z; status : Z; monitor : bool }.
Record world := World { word : Z; cpus : list cpu }.

Definition idle (l : list op) : cpu := Cpu l Enter 0 0 0 false.
Definition initial (x : Z) (progs : list (list op)) : world := World x (idle <$> progs).

(** What happens to a call: it is made, it reads and writes the word (one step: the
    store-exclusive that succeeds; a NULL pointer has nothing to write), it returns. *)
Inductive occurs := Called | Took (r : Z) | Returned (r : Z).
Record event := Event { e_cpu : nat; e_op : op; e_occurs : occurs }.

Definition goto (p : point) (c : cpu) : cpu := Cpu (ops c) p (old c) (new_value c) (status c) (monitor c).
Definition return_call (c : cpu) : cpu := Cpu (tail (ops c)) Enter (old c) (new_value c) (status c) (monitor c).
(** What [stxr] leaves: the status register, no reservation. *)
Definition stored (st : Z) (c : cpu) : cpu := Cpu (ops c) Cbnz (old c) (new_value c) st false.
(** The store of another CPU takes the reservation away. *)
Definition lose (c : cpu) : cpu := Cpu (ops c) (pc c) (old c) (new_value c) (status c) false.
Definition put (w : world) (i : nat) (x : Z) (f : cpu -> cpu) (c : cpu) : world := World x (<[i := c]> (f <$> cpus w)).

(** [return 0U], or [return old]. *)
Definition answer (c : cpu) (o : op) : Z := match o with Ldadd _ => old c | LdaddNull _ => 0 end.

(** The step of CPU [i], one instruction; [ok]: a store-exclusive with a reservation
    succeeds. *)
Definition __aarch64_ldadd4_relax (i : nat) (ok : bool) (w : world) : option (world * list event) :=
  c ← cpus w !! i;
  o ← head (ops c);
  match pc c, o with
  | Enter, LdaddNull _ => Some (put w i (word w) id (goto Return c), [Event i o Called; Event i o (Took 0)])
  | Enter, Ldadd _ => Some (put w i (word w) id (goto Ldxr c), [Event i o Called])
  | Ldxr, Ldadd _ => Some (put w i (word w) id (Cpu (ops c) Add (word w) (new_value c) (status c) true), [])
  | Add, Ldadd v => Some (put w i (word w) id (Cpu (ops c) Stxr (old c) (u32 (old c + v)) (status c) (monitor c)), [])
  | Stxr, Ldadd _ =>
      if monitor c && ok then Some (put w i (new_value c) lose (stored 0 c), [Event i o (Took (old c))])
      else Some (put w i (word w) id (stored 1 c), [])
  | Cbnz, Ldadd _ => Some (put w i (word w) id (goto (if status c =? 0 then Return else Ldxr) c), [])
  | Return, _ => Some (put w i (word w) id (return_call c), [Event i o (Returned (answer c o))])
  | _, _ => None
  end.

(** [n] steps with at most [k] store-exclusives that failed though the reservation
    stood; the history of what happened. *)
Inductive runs (w0 : world) : nat -> nat -> list event -> world -> Prop :=
| runs_start : runs w0 0 0 [] w0
| runs_step n k h w i ok w' a :
    runs w0 n k h w -> __aarch64_ldadd4_relax i ok w = Some (w', a) ->
    runs w0 (S n) (if ok then k else S k) (h ++ a) w'.

(** *** The reference: calls one after the other *)
Definition result (o : op) (x : Z) : Z := match o with Ldadd _ => x | LdaddNull _ => 0 end.
Definition effect (o : op) (x : Z) : Z := match o with Ldadd v => u32 (x + v) | LdaddNull _ => x end.
(** The calls that have taken effect, with what they got, made one after the other in
    the order in which they did. *)
Fixpoint sequential (x : Z) (h : list event) : option Z :=
  match h with
  | [] => Some x
  | Event _ o (Took r) :: h' => if r =? result o x then sequential (effect o x) h' else None
  | _ :: h' => sequential x h'
  end.

(** The part of CPU [i] in a history, and that of a program whose calls return [rs]. *)
Definition events_of (i : nat) (h : list event) : list (op * occurs) :=
  (fun e => (e_op e, e_occurs e)) <$> filter (fun e => e_cpu e = i) h.
Definition call_events (o : op) (r : Z) : list (op * occurs) := [(o, Called); (o, Took r); (o, Returned r)].
Definition program_events (l : list op) (rs : list Z) : list (op * occurs) := concat (zip_with call_events l rs).
