(* ===== verification/TpmShimProof.v ===== *)
(** * Correctness of the TPM shim

    The memory functions and the 128-bit shift are what the base library of the TPM
    specifies; the calls of [__aarch64_ldadd4_relax] on interleaved CPUs are atomic, and
    they all return. *)

From S2P Require Import Prelude CMem Libc TpmShim.

(** ** Memory functions *)

(** [memmove] leaves in the destination what the source held, whether or not the two
    overlap, and changes nothing else. *)
Lemma memmove_correct m d s n : 0 <= n ->
  (memmove m d s n).1 = d /\ (forall i, 0 <= i < n -> ld8 (memmove m d s n).2 (d + i) = ld8 m (s + i)) /\
  frame d n m (memmove m d s n).2.
Proof.
  intros Hn. unfold memmove. destruct (Z.eqb_spec d s) as [->|]; [by auto with cmem|].
  destruct (Z.eqb_spec n 0) as [->|]; cbn [orb fst snd]; [split_and!; [done | lia | apply frame_refl]|].
  destruct (Z.ltb_spec d s); cbn [fst snd]; split_and!; try done.
  - intros i Hi. apply memcpy_loop_spec; lia.
  - rewrite <- (Z2Nat.id n) at 1 by lia. apply memcpy_loop_frame.
  - intros i Hi. apply memmove_backward_spec; lia.
  - rewrite <- (Z2Nat.id n) at 1 by lia. apply memmove_backward_frame.
Qed.

Lemma scan_loop_spec n m b k v : b + k <> 0 \/ n = O -> 0 < b -> 0 <= k ->
  let r := scan_loop n m b k v in
  (r = 0 /\ forall i, k <= i < k + Z.of_nat n -> ld8 m (b + i) <> v) \/
  (exists j, k <= j < k + Z.of_nat n /\ r = b + j /\ ld8 m (b + j) = v /\ forall i, k <= i < j -> ld8 m (b + i) <> v).
Proof.
  revert k. induction n as [|n IH]; intros k Hz Hb Hk; cbn [scan_loop]; [left; split; [done | lia]|].
  destruct (Z.eqb_spec (ld8 m (b + k)) v) as [E|E].
  - right. exists k. split_and!; [lia | lia | done | done | lia].
  - destruct (IH (k + 1)) as [[E1 H1]|(j & H1 & E1 & E2 & H2)]; try lia.
    + left. split; [done|]. intros i Hi. destruct (decide (i = k)) as [->|]; [done | apply H1; lia].
    + right. exists j. split_and!; [lia | lia | done | done |]. intros i Hi.
      destruct (decide (i = k)) as [->|]; [done | apply H2; lia].
Qed.

(** [ScanMem8] is the address of the first byte with the value, NULL when there is none. *)
Lemma ScanMem8_first m b n v : 0 < b -> 0 <= n ->
  (ScanMem8 m b n v = 0 /\ forall i, 0 <= i < n -> ld8 m (b + i) <> v) \/
  (exists j, 0 <= j < n /\ ScanMem8 m b n v = b + j /\ ld8 m (b + j) = v /\ forall i, 0 <= i < j -> ld8 m (b + i) <> v).
Proof. intros Hb Hn. pose proof (scan_loop_spec (Z.to_nat n) m b 0 v) as H. rewrite Z2Nat.id in H by lia. apply H; lia. Qed.

(** ** The 128-bit shift *)

(** It multiplies by the power of two in two's complement; shifts add up, and one that
    is out of range, which the C operator leaves undefined, gives 0. *)
Lemma ashlti3_wrap v a : 0 <= a -> uwrap 128 (__ashlti3 v a) = uwrap 128 (v * 2 ^ a).
Proof.
  intros Ha. unfold __ashlti3. destruct (Z.ltb_spec a 0); [lia|]. destruct (Z.leb_spec 128 a); cbn [orb].
  - unfold uwrap. replace a with ((a - 128) + 128) by lia. rewrite Z.pow_add_r, Z.mul_assoc, Z.mod_mul by lia. done.
  - unfold sint. set (x := uwrap 128 (Z.shiftl (uwrap 128 v) a)).
    assert (E : uwrap 128 x = uwrap 128 (v * 2 ^ a)).
    { unfold x. rewrite uwrap_idem, Z.shiftl_mul_pow2 by lia. unfold uwrap. by rewrite Z.mul_mod_idemp_l by lia. }
    destruct (x <? _); [done|]. rewrite <- E. unfold uwrap. rewrite <- (Z.mod_add (x - 2 ^ 128) 1) by lia. f_equal. lia.
Qed.

Lemma ashlti3_int v a : - 2 ^ 127 <= __ashlti3 v a < 2 ^ 127.
Proof.
  unfold __ashlti3. destruct (_ || _); [lia|]. pose proof (uwrap_range 128 (Z.shiftl (uwrap 128 v) a)). unfold sint.
  destruct (Z.ltb_spec (uwrap 128 (Z.shiftl (uwrap 128 v) a)) (2 ^ (128 - 1))); lia.
Qed.

Lemma int128_eq x y : - 2 ^ 127 <= x < 2 ^ 127 -> - 2 ^ 127 <= y < 2 ^ 127 -> uwrap 128 x = uwrap 128 y -> x = y.
Proof.
  unfold uwrap. intros Hx Hy E. pose proof (Z.div_mod x (2 ^ 128) ltac:(lia)) as Ex. pose proof (Z.div_mod y (2 ^ 128) ltac:(lia)) as Ey.
  assert (x / 2 ^ 128 = y / 2 ^ 128); [|lia]. rewrite E in Ex. nia.
Qed.

Lemma ashlti3_compose v a b : 0 <= a -> 0 <= b -> __ashlti3 (__ashlti3 v a) b = __ashlti3 v (a + b).
Proof.
  intros Ha Hb. apply int128_eq; try apply ashlti3_int. rewrite !ashlti3_wrap by lia.
  unfold uwrap. rewrite <- Z.mul_mod_idemp_l by lia. fold (uwrap 128 (__ashlti3 v a)). rewrite ashlti3_wrap by lia.
  unfold uwrap. rewrite Z.mul_mod_idemp_l, Z.pow_add_r, Z.mul_assoc by lia. done.
Qed.

(** ** The calls of [__aarch64_ldadd4_relax] *)

(** What is known of a CPU between two instructions. *)
Record local (x : Z) (c : cpu) : Prop := {
  l_running : pc c <> Enter -> pc c <> Return -> exists v, head (ops c) = Some (Ldadd v);
  l_returning : pc c = Return -> ops c <> [];
  (** A reservation means that the value read is still there. *)
  l_old : (pc c = Add \/ pc c = Stxr) -> monitor c = true -> old c = x;
  l_new : forall v, pc c = Stxr -> head (ops c) = Some (Ldadd v) -> new_value c = u32 (old c + v)
}.

Definition inv (w : world) : Prop := forall i c, cpus w !! i = Some c -> local (word w) c.

Lemma cpus_put w i x f c c' j d : cpus w !! i = Some c -> cpus (put w i x f c') !! j = Some d ->
  (j = i /\ d = c') \/ (j <> i /\ exists d0, cpus w !! j = Some d0 /\ d = f d0).
Proof.
  intros Hi. cbn. destruct (decide (j = i)) as [->|Hj].
  - rewrite list_lookup_insert_eq; [by intros [= ->]; left|]. rewrite length_fmap. by eapply lookup_lt_Some.
  - rewrite list_lookup_insert_ne, list_lookup_fmap by done.
    destruct (cpus w !! j) as [d0|]; intros [= <-]; right; eauto.
Qed.

(** The steps a CPU can take, as a relation on the CPU: whether its store succeeded,
    the state it goes to, what happened. *)
Inductive cpu_step (x : Z) (c : cpu) (o : op) : bool -> bool -> cpu -> list occurs -> Prop :=
| step_enter_null v ok : pc c = Enter -> o = LdaddNull v -> cpu_step x c o ok false (goto Return c) [Called; Took 0]
| step_enter v ok : pc c = Enter -> o = Ldadd v -> cpu_step x c o ok false (goto Ldxr c) [Called]
| step_ldxr v ok : pc c = Ldxr -> o = Ldadd v -> cpu_step x c o ok false (Cpu (ops c) Add x (new_value c) (status c) true) []
| step_add v ok : pc c = Add -> o = Ldadd v ->
    cpu_step x c o ok false (Cpu (ops c) Stxr (old c) (u32 (old c + v)) (status c) (monitor c)) []
| step_stored v ok : pc c = Stxr -> o = Ldadd v -> monitor c = true -> ok = true -> cpu_step x c o ok true (stored 0 c) [Took (old c)]
| step_failed v ok : pc c = Stxr -> o = Ldadd v -> monitor c && ok = false -> cpu_step x c o ok false (stored 1 c) []
| step_leave v ok : pc c = Cbnz -> o = Ldadd v -> status c = 0 -> cpu_step x c o ok false (goto Return c) []
| step_again v ok : pc c = Cbnz -> o = Ldadd v -> status c <> 0 -> cpu_step x c o ok false (goto Ldxr c) []
| step_return ok : pc c = Return -> cpu_step x c o ok false (return_call c) [Returned (answer c o)].

Lemma step_inv i ok w w' a : __aarch64_ldadd4_relax i ok w = Some (w', a) ->
  exists c o st c' es, cpus w !! i = Some c /\ head (ops c) = Some o /\ cpu_step (word w) c o ok st c' es /\
    w' = (if st then put w i (new_value c) lose c' else put w i (word w) id c') /\ a = Event i o <$> es.
Proof.
  unfold __aarch64_ldadd4_relax. destruct (cpus w !! i) as [c|]; [|done]. cbn.
  destruct (head (ops c)) as [o|] eqn:Eo; [|done]. cbn. intros E. exists c, o.
  destruct (pc c) eqn:Ep; [| destruct o; [|done].. |]; cbn in E.
  - destruct o; simplify_eq; [exists false, (goto Ldxr c), [Called] | exists false, (goto Return c), [Called; Took 0]];
      split_and!; eauto using cpu_step.
  - simplify_eq. eexists false, _, []. split_and!; eauto using cpu_step.
  - simplify_eq. eexists false, _, []. split_and!; eauto using cpu_step.
  - destruct (monitor c && ok) eqn:Em; simplify_eq.
    + apply andb_true_iff in Em as [Em ->]. eexists true, _, [_]. split_and!; eauto using cpu_step.
    + eexists false, _, []. split_and!; eauto using cpu_step.
  - destruct (Z.eqb_spec (status c) 0); simplify_eq; eexists false, _, []; split_and!; eauto using cpu_step.
  - assert (E' : put w i (word w) id (return_call c) = w' /\ [Event i o (Returned (answer c o))] = a) by (by destruct o; simplify_eq).
    destruct E' as [<- <-]. eexists false, _, [_]. split_and!; eauto using cpu_step.
Qed.

Lemma local_lose x y c : local x c -> local y (lose c).
Proof. intros [H1 H2 H3 H4]. by split. Qed.

Lemma cpu_step_local x c o ok st c' es : local x c -> head (ops c) = Some o -> cpu_step x c o ok st c' es ->
  local (if st then new_value c else x) c'.
Proof.
  intros [H1 H2 H3 H4] Ho Hs.
  assert (Hne : ops c <> []) by (by destruct (ops c)).
  destruct Hs; subst; split; cbn; intros; try done; eauto; intuition congruence.
Qed.

Lemma inv_step i ok w w' a : inv w -> __aarch64_ldadd4_relax i ok w = Some (w', a) -> inv w'.
Proof.
  intros Hw E. apply step_inv in E as (c & o & st & c' & es & Hc & Ho & Hs & -> & _).
  pose proof (cpu_step_local _ _ _ _ _ _ _ (Hw i c Hc) Ho Hs) as Hl.
  intros j d Ed. destruct st; destruct (cpus_put _ _ _ _ _ _ _ _ Hc Ed) as [[-> ->]|(Hj & d0 & E0 & ->)]; try done.
  - exact (local_lose _ _ _ (Hw j d0 E0)).
  - exact (Hw j d0 E0).
Qed.

(** *** The word *)
Lemma sequential_app x h1 h2 : sequential x (h1 ++ h2) = sequential x h1 ≫= fun y => sequential y h2.
Proof. revert x. induction h1 as [|[j o [|r|r]] h1 IH]; intros x; [done | exact (IH x) | | exact (IH x)]. cbn. by destruct (_ =? _). Qed.

Lemma step_sequential i ok w w' a : inv w -> __aarch64_ldadd4_relax i ok w = Some (w', a) ->
  sequential (word w) a = Some (word w').
Proof.
  intros Hw E. apply step_inv in E as (c & o & st & c' & es & Hc & Ho & Hs & -> & ->).
  pose proof (Hw i c Hc) as Hl. destruct Hs; subst; try done. cbn.
  rewrite (l_new _ _ Hl v), (l_old _ _ Hl), Z.eqb_refl by auto. done.
Qed.

(** *** The history of one CPU *)

(** The events of the call that runs. *)
Definition begun (c : cpu) : list (op * occurs) :=
  match head (ops c) with
  | None => []
  | Some o =>
      match pc c with
      | Enter => []
      | Ldxr | Add | Stxr => [(o, Called)]
      | Cbnz => if status c =? 0 then [(o, Called); (o, Took (old c))] else [(o, Called)]
      | Return => [(o, Called); (o, Took (answer c o))]
      end
  end.

(** The events of a CPU that had the calls [l] to make: those of the calls that
    returned, those of the one that runs. *)
Definition history (l : list op) (c : cpu) (evs : list (op * occurs)) : Prop :=
  exists d rs, l = d ++ ops c /\ length rs = length d /\ evs = program_events d rs ++ begun c.

Lemma program_events_snoc d rs o r : length rs = length d -> program_events (d ++ [o]) (rs ++ [r]) = program_events d rs ++ call_events o r.
Proof.
  intros H. unfold program_events. by rewrite zip_with_app, concat_app by done.
Qed.

Lemma cpu_step_history x c o ok st c' es l evs : head (ops c) = Some o -> cpu_step x c o ok st c' es ->
  history l c evs -> history l c' (evs ++ ((fun e => (o, e)) <$> es)).
Proof.
  intros Ho Hs (d & rs & -> & Hlen & ->). unfold begun. rewrite Ho. rewrite <- app_assoc.
  assert (Hstay : forall c1, ops c1 = ops c -> begun c1 = begun c ++ ((fun e => (o, e)) <$> es) ->
    history (d ++ ops c) c1 (program_events d rs ++ begun c ++ ((fun e => (o, e)) <$> es))).
  { intros c1 E1 <-. exists d, rs. by rewrite E1. }
  unfold begun in Hstay. rewrite Ho in Hstay.
  destruct Hs; subst; try (apply Hstay; [done|]; cbn; rewrite ?Ho; rewrite H;
    first [done | rewrite H0; done | rewrite H1; done | destruct (Z.eqb_spec (status c) 0); done]).
  rewrite H. destruct (ops c) as [|o' l']  eqn:El; [done|]. injection Ho as ->.
  exists (d ++ [o]), (rs ++ [answer c o]). rewrite program_events_snoc, !length_app, Hlen by done. cbn [return_call ops]. rewrite El. cbn [tail length].
  split_and!; [by rewrite <- app_assoc | done |]. clear Hstay. unfold begun, return_call. cbn [ops pc]. rewrite El. cbn. rewrite <- app_assoc. by destruct l'.
Qed.

Lemma events_of_app j h1 h2 : events_of j (h1 ++ h2) = events_of j h1 ++ events_of j h2.
Proof. unfold events_of. by rewrite list.filter_app, fmap_app. Qed.

Lemma events_of_step i j o es : events_of j (Event i o <$> es) = if decide (i = j) then (fun e => (o, e)) <$> es else [].
Proof.
  unfold events_of. induction es as [|e es IH]; [by destruct (decide _)|]. cbn [fmap list_fmap]. rewrite filter_cons. cbn [e_cpu].
  destruct (decide (i = j)); [|exact IH]. cbn. f_equal. exact IH.
Qed.

Lemma begun_lose c : begun (lose c) = begun c.
Proof. by destruct c. Qed.

Section Runs.
Context (x0 : Z) (progs : list (list op)).

Lemma inv_initial : inv (initial x0 progs).
Proof.
  intros i c E. cbn in E. rewrite list_lookup_fmap in E. destruct (progs !! i) as [l|] eqn:El; [|done]. injection E as <-.
  split; cbn; intros; try done; try intuition congruence.
Qed.

Lemma inv_runs n k h w : runs (initial x0 progs) n k h w -> inv w /\ sequential x0 h = Some (word w).
Proof.
  induction 1 as [|n k h w i ok w' a _ [IH1 IH2] E]; [split; [apply inv_initial | done]|].
  split; [by eapply inv_step|]. rewrite sequential_app, IH2. by apply (step_sequential i ok).
Qed.

Lemma step_length i ok w w' a : __aarch64_ldadd4_relax i ok w = Some (w', a) -> length (cpus w') = length (cpus w).
Proof.
  intros E. apply step_inv in E as (c & o & st & c' & es & _ & _ & _ & -> & _).
  destruct st; cbn; by rewrite length_insert, length_fmap.
Qed.

Lemma runs_length n k h w : runs (initial x0 progs) n k h w -> length (cpus w) = length progs.
Proof. induction 1 as [|n k h w i ok w' a _ IH E]; [cbn; by rewrite length_fmap|]. by rewrite (step_length _ _ _ _ _ E). Qed.

Lemma runs_cpu n k h w j l : runs (initial x0 progs) n k h w -> progs !! j = Some l -> exists c, cpus w !! j = Some c.
Proof.
  intros H Hl. apply lookup_lt_is_Some. rewrite (runs_length _ _ _ _ H). by eapply lookup_lt_Some.
Qed.

Lemma runs_history n k h w j c l : runs (initial x0 progs) n k h w -> progs !! j = Some l -> cpus w !! j = Some c ->
  history l c (events_of j h).
Proof.
  intros H Hl. revert c. induction H as [|n k h w i ok w' a _ IH E]; intros c Hc.
  - cbn in Hc. rewrite list_lookup_fmap, Hl in Hc. injection Hc as <-. exists [], []. split_and!; try done. by destruct l.
  - apply step_inv in E as (c0 & o & st & c' & es & Hc0 & Ho & Hs & -> & ->). rewrite events_of_app, events_of_step.
    assert (Hother : forall d0 d, i <> j -> cpus w !! j = Some d0 -> ops d = ops d0 -> begun d = begun d0 ->
      history l d (events_of j h ++ if decide (i = j) then (fun e => (o, e)) <$> es else [])).
    { intros d0 d Hne Hd0 E1 E2. rewrite decide_False, app_nil_r by done. unfold history. rewrite E1, E2. exact (IH d0 Hd0). }
    destruct st; destruct (cpus_put _ _ _ _ _ _ _ _ Hc0 Hc) as [[-> ->]|(Hne & d0 & Hd0 & ->)];
      try (rewrite decide_True by done; exact (cpu_step_history _ _ _ _ _ _ _ _ _ Ho Hs (IH _ Hc0)));
      apply (Hother d0); auto using begun_lose.
Qed.

(** A history that can still be completed to that of the whole program. *)
Lemma history_prefix l c evs : history l c evs -> exists rs, length rs = length l /\ evs `prefix_of` program_events l rs.
Proof.
  intros (d & rs & -> & Hlen & ->). unfold begun. destruct (ops c) as [|o l'] eqn:El; cbn [head].
  - exists rs. rewrite !app_nil_r. done.
  - set (r := match pc c with Cbnz => old c | _ => answer c o end).
    exists (rs ++ r :: replicate (length l') 0). split; [rewrite !length_app; cbn; by rewrite length_replicate, Hlen|].
    unfold program_events. rewrite zip_with_app, concat_app by done. apply prefix_app. cbn.
    unfold r. destruct (pc c); try destruct (_ =? _); try (eexists; reflexivity).
Qed.

(** Claim C21: The calls of __aarch64_ldadd4_relax on one word are linearizable.
    CPUs each make the calls of a program, an instruction at a time, interleaved in
    any order on a sequentially consistent word, with store-exclusives failing when
    the reservation is lost and possibly when it is not. In every history so reached
    each call takes effect at one moment after it is made and before it returns: the
    word is what the calls that have taken effect make of it one after the other in
    the order of those moments, each gets what the word then held (0 for a NULL
    pointer, which changes nothing) and returns that; and the calls of a CPU are
    made, take effect and return in the order of its program. *)
Theorem ldadd_linearizable n k h w :
  runs (initial x0 progs) n k h w ->
  sequential x0 h = Some (word w) /\
  forall j l, progs !! j = Some l ->
    exists rs, length rs = length l /\ events_of j h `prefix_of` program_events l rs.
Proof.
  intros H. split; [by apply (inv_runs n k)|]. intros j l Hl. destruct (runs_cpu _ _ _ _ _ _ H Hl) as [c Hc].
  eapply history_prefix, runs_history; eauto.
Qed.

(** *** Progress *)

(** The steps to the end of the call when every store succeeds. *)
Definition phase (c : cpu) : nat :=
  match pc c with
  | Enter => 6
  | Ldxr => 5
  | Add => if monitor c then 4 else 8
  | Stxr => if monitor c then 3 else 7
  | Cbnz => if (status c =? 0)%Z then 2 else 6
  | Return => 1
  end%nat.
(** The call that runs has taken effect. *)
Definition took_effect (c : cpu) : bool :=
  match pc c with Cbnz => status c =? 0 | Return => true | _ => false end.
Definition waiting (c : cpu) : nat := (length (ops c) - if took_effect c then 1 else 0)%nat.
Definition weight (m : nat) (c : cpu) : nat := (m * waiting c + 6 * length (ops c) + phase c)%nat.
Definition measure (w : world) : nat := sum_list_with (weight (4 * length (cpus w))) (cpus w).

Lemma sum_insert (f : cpu -> nat) l i c c' : l !! i = Some c ->
  (sum_list_with f (<[i := c']> l) + f c = sum_list_with f l + f c')%nat.
Proof.
  revert i. induction l as [|d l IH]; intros [|i] E; [done | done | injection E as ->; cbn; lia |].
  change (<[S i := c']> (d :: l)) with (d :: <[i := c']> l). specialize (IH i E). cbn [sum_list_with]. lia.
Qed.
Lemma sum_fmap_le (f : cpu -> nat) (h : cpu -> cpu) b l : (forall d, f (h d) <= f d + b)%nat ->
  (sum_list_with f (h <$> l) <= sum_list_with f l + b * length l)%nat.
Proof. intros H. induction l as [|d l IH]; cbn; [lia|]. specialize (H d). lia. Qed.

Lemma weight_lose m c : (weight m (lose c) <= weight m c + 4)%nat.
Proof. unfold weight, waiting, took_effect, phase. cbn. destruct (pc c), (monitor c); lia. Qed.

Lemma cpu_step_weight m x c o ok st c' es : head (ops c) = Some o -> cpu_step x c o ok st c' es ->
  (weight m c' + (if st then m else 0) + 1 <= weight m c + if ok then 0 else 4)%nat.
Proof.
  intros Ho Hs. unfold weight, waiting, took_effect, phase. assert (Hl : length (ops c) = S (length (tail (ops c)))) by (by destruct (ops c)).
  destruct Hs; cbn [goto stored return_call ops pc status monitor]; subst; rewrite ?H; rewrite ?Hl; cbn [Nat.sub];
    repeat match goal with
    | E : monitor c = true |- _ => rewrite E
    | E : monitor c && _ = false |- _ => destruct (monitor c); cbn in E; subst
    | E : status c = 0 |- _ => rewrite E
    | E : status c <> 0 |- _ => apply Z.eqb_neq in E; rewrite E
    end; cbn; try destruct ok; try destruct (monitor c); nia.
Qed.

(** Every step makes the measure smaller, except for a store-exclusive that failed
    though the reservation stood, which makes it larger by three. *)
Lemma measure_step i ok w w' a : __aarch64_ldadd4_relax i ok w = Some (w', a) ->
  (measure w' + 1 <= measure w + if ok then 0 else 4)%nat.
Proof.
  intros E. pose proof (step_length _ _ _ _ _ E) as Hlen. apply step_inv in E as (c & o & st & c' & es & Hc & Ho & Hs & -> & _).
  unfold measure. rewrite Hlen. set (m := (4 * length (cpus w))%nat). apply (cpu_step_weight m) in Hs; [|done].
  destruct st; cbn [put cpus].
  - assert (Hi : (lose <$> cpus w) !! i = Some (lose c)) by (by rewrite list_lookup_fmap, Hc).
    pose proof (sum_insert (weight m) _ i _ c' Hi). pose proof (sum_fmap_le (weight m) lose 4 (cpus w) (weight_lose m)).
    assert (Hlc : (weight m c <= weight m (lose c))%nat); [|lia].
    unfold weight, waiting, took_effect, phase. cbn. destruct (pc c), (monitor c); lia.
  - rewrite list_fmap_id. pose proof (sum_insert (weight m) _ i _ c' Hc). lia.
Qed.

Lemma runs_measure n k h w : runs (initial x0 progs) n k h w -> (n + measure w <= measure (initial x0 progs) + 4 * k)%nat.
Proof.
  induction 1 as [|n k h w i ok w' a _ IH E]; [lia|]. apply measure_step in E. destruct ok; lia.
Qed.

Lemma step_possible i c w : inv w -> cpus w !! i = Some c -> ops c <> [] -> is_Some (__aarch64_ldadd4_relax i true w).
Proof.
  intros Hw Hc Hops. pose proof (l_running _ _ (Hw i c Hc)) as Ht. unfold __aarch64_ldadd4_relax. rewrite Hc. cbn.
  destruct (ops c) as [|o l]; [done|]. cbn in *.
  destruct (pc c); try (destruct o; by eauto); destruct Ht as [v Hv]; try done; injection Hv as ->; eauto.
  destruct (monitor c && true); eauto.
Qed.

(** All calls of all CPUs, and the number of steps that is enough for them. *)
Definition total : nat := sum_list_with length progs.
Definition step_bound : nat := ((4 * length progs + 6) * total + 6 * length progs)%nat.

Lemma measure_initial : measure (initial x0 progs) = step_bound.
Proof.
  unfold measure, step_bound, total. cbn [initial cpus]. rewrite length_fmap. generalize (4 * length progs)%nat as m. intros m.
  induction progs as [|l ls IH]; [cbn; lia|]. cbn [fmap list_fmap sum_list_with length].
  change (list_fmap _ _ idle ls) with (idle <$> ls). rewrite IH. unfold weight, waiting. cbn. lia.
Qed.

(** The loop of __aarch64_ldadd4_relax is lock-free: an execution with k spuriously
    failing store-exclusives has at most (4 N + 6) T + 6 N + 4 k steps for T calls
    on N CPUs, and in one that cannot go on every call has returned. *)
Theorem ldadd_lock_free n k h w :
  runs (initial x0 progs) n k h w ->
  (n <= step_bound + 4 * k)%nat /\
  ((forall i, __aarch64_ldadd4_relax i true w = None) -> forall j l, progs !! j = Some l ->
   exists rs, length rs = length l /\ events_of j h = program_events l rs).
Proof.
  intros H. split; [pose proof (runs_measure _ _ _ _ H); rewrite measure_initial in *; lia|].
  intros Hstuck j l Hl. destruct (runs_cpu _ _ _ _ _ _ H Hl) as [c Hc].
  destruct (runs_history _ _ _ _ _ _ _ H Hl Hc) as (d & rs & -> & Hlen & ->).
  destruct (decide (ops c = [])) as [E|Hne].
  - exists rs. unfold begun. rewrite E, !app_nil_r. done.
  - apply inv_runs in H as [H _]. destruct (step_possible j c w H Hc Hne) as [y Hy]. by rewrite Hstuck in Hy.
Qed.
End Runs.

(** *** An execution in which a reservation is lost *)
Fixpoint play (l : list (nat * bool)) (w : world) : option (world * list event) :=
  match l with
  | [] => Some (w, [])
  | (i, ok) :: l' =>
      '(w1, a) ← __aarch64_ldadd4_relax i ok w;
      '(w2, a') ← play l' w1;
      Some (w2, a ++ a')
  end.
Definition refused (l : list (nat * bool)) : nat := sum_list_with (fun p : nat * bool => if p.2 then 0 else 1)%nat l.

Lemma play_runs w0 l n k h w w' a : runs w0 n k h w -> play l w = Some (w', a) ->
  runs w0 (n + length l) (k + refused l) (h ++ a) w'.
Proof.
  revert n k h w a. induction l as [|[i ok] l IH]; intros n k h w a H E.
  - injection E as <- <-. by rewrite app_nil_r, !Nat.add_0_r.
  - cbn in E. destruct (__aarch64_ldadd4_relax i ok w) as [[w1 a1]|] eqn:E1; [|done]. cbn in E.
    destruct (play l w1) as [[w2 a2]|] eqn:E2; [|done]. injection E as <- <-.
    specialize (IH _ _ _ _ _ (runs_step _ _ _ _ _ _ _ _ _ H E1) E2). rewrite app_assoc.
    replace (n + length ((i, ok) :: l))%nat with (S n + length l)%nat by (cbn; lia).
    replace (k + refused ((i, ok) :: l))%nat with ((if ok then k else S k) + refused l)%nat; [done|].
    unfold refused. cbn. destruct ok; lia.
Qed.

Example demo_progs : list (list op) := [[Ldadd 1; LdaddNull 9]; [Ldadd 5]].
(** CPU 0 reads 7; CPU 1 adds 5 and does not return yet; the store of CPU 0 fails, then
    fails once more though the reservation stands, then succeeds, and CPU 0 returns
    before CPU 1 does. *)
Example demo_schedule : list (nat * bool) :=
  ((fun i => (i, true)) <$> [0; 0; 0; 1; 1; 1; 1; 0; 0; 0; 0])%nat ++ [(0, false)]%nat ++
  ((fun i => (i, true)) <$> [0; 0; 0; 0; 0; 0; 0; 0; 1; 1])%nat.
Example demo_history : list event :=
  [Event 0 (Ldadd 1) Called; Event 1 (Ldadd 5) Called; Event 1 (Ldadd 5) (Took 7);
   Event 0 (Ldadd 1) (Took 12); Event 0 (Ldadd 1) (Returned 12);
   Event 0 (LdaddNull 9) Called; Event 0 (LdaddNull 9) (Took 0); Event 0 (LdaddNull 9) (Returned 0);
   Event 1 (Ldadd 5) (Returned 7)].
Example demo_end : world := World 13 [Cpu [] Enter 12 13 0 false; Cpu [] Enter 7 12 0 false].

Lemma demo_runs : runs (initial 7 demo_progs) 22 1 demo_history demo_end.
Proof.
  assert (E : play demo_schedule (initial 7 demo_progs) = Some (demo_end, demo_history)) by (vm_compute; reflexivity).
  pose proof (play_runs _ _ _ _ _ _ _ _ (runs_start (initial 7 demo_progs)) E) as H.
  assert (E1 : length demo_schedule = 22%nat) by reflexivity. assert (E2 : refused demo_schedule = 1%nat) by reflexivity.
  rewrite E1, E2 in H. exact H.
Qed.

Lemma ldadd_linearizable_witness :
  sequential 7 demo_history = Some 13 /\
  exists rs, length rs = 2%nat /\ events_of 0 demo_history `prefix_of` program_events [Ldadd 1; LdaddNull 9] rs.
Proof.
  destruct (ldadd_linearizable 7 demo_progs 22 1 demo_history demo_end demo_runs) as [H1 H2].
  split; [exact H1 | exact (H2 0%nat _ eq_refl)].
Defined.

Lemma ldadd_lock_free_witness : (22 <= step_bound demo_progs + 4 * 1)%nat /\
  exists rs, length rs = 2%nat /\ events_of 0 demo_history = program_events [Ldadd 1; LdaddNull 9] rs.
Proof.
  destruct (ldadd_lock_free 7 demo_progs 22 1 demo_history demo_end demo_runs) as [H1 H2]. split; [exact H1|].
  exact (H2 ltac:(intros [|[|i]]; reflexivity) 0%nat [Ldadd 1; LdaddNull 9] eq_refl).
Defined.
