(* ===== verification/Bytes.v ===== *)
(** * Byte arrays

    Static arrays of the sources ([g_tpm_nv], [g_tpm_cmd], the NVM image) as
    lists of bytes: reading and overwriting a range, and the big-endian accessors
    of val_tpm_crb.h. *)

From S2P Require Import Prelude.

Definition is_bytes (l : list Z) : Prop := Forall (is_uint 8) l.

Lemma is_bytes_forallb l : forallb (fun b => (0 <=? b) && (b <? 256)) l = true -> is_bytes l.
Proof.
  intros H. apply List.Forall_forall. intros b Hb. apply (proj1 (forallb_forall _ l) H) in Hb.
  unfold is_uint. lia.
Qed.

Definition zlen (l : list Z) : Z := Z.of_nat (length l).

Definition byte_at (l : list Z) (i : Z) : Z := default 0 (l !! Z.to_nat i).

(** [size] bytes from [off]. *)
Definition slice (l : list Z) (off size : Z) : list Z := take (Z.to_nat size) (drop (Z.to_nat off) l).

(** Overwriting the bytes from [off] on with [d]. *)
Definition splice (l : list Z) (off : Z) (d : list Z) : list Z :=
  take (Z.to_nat off) l ++ d ++ drop (Z.to_nat off + length d) l.

Definition zeros (n : Z) : list Z := repeat 0 (Z.to_nat n).

Lemma zlen_zeros n : 0 <= n -> zlen (zeros n) = n.
Proof. intros. unfold zlen, zeros. rewrite repeat_length. lia. Qed.

Lemma zlen_slice l off size : 0 <= off -> 0 <= size -> off + size <= zlen l -> zlen (slice l off size) = size.
Proof. unfold zlen, slice. intros. rewrite length_take, length_drop. lia. Qed.

Lemma zlen_splice l off d : 0 <= off -> off + zlen d <= zlen l -> zlen (splice l off d) = zlen l.
Proof. unfold zlen, splice. intros. rewrite !length_app, length_take, length_drop. lia. Qed.

Lemma slice_splice_same l off d : 0 <= off -> off + zlen d <= zlen l -> slice (splice l off d) off (zlen d) = d.
Proof.
  unfold zlen, slice, splice. intros. rewrite drop_app_length'; [|rewrite length_take; lia].
  by rewrite take_app_length' by lia.
Qed.

Lemma byte_at_splice l off d i :
  0 <= off -> off + zlen d <= zlen l -> 0 <= i ->
  byte_at (splice l off d) i = if (off <=? i) && (i <? off + zlen d) then byte_at d (i - off) else byte_at l i.
Proof.
  unfold zlen, byte_at, splice. intros. destruct (Z.leb_spec off i); cbn [andb].
  - rewrite lookup_app_r by (rewrite length_take; lia). rewrite length_take.
    destruct (Z.ltb_spec i (off + Z.of_nat (length d))).
    + rewrite lookup_app_l by lia. do 2 f_equal. lia.
    + rewrite lookup_app_r, lookup_drop by lia. do 2 f_equal. lia.
  - rewrite lookup_app_l by (rewrite length_take; lia). by rewrite lookup_take_lt by lia.
Qed.

(** Two arrays of one length with the same bytes are equal. *)
Lemma bytes_ext l1 l2 : zlen l1 = zlen l2 -> (forall i, 0 <= i < zlen l1 -> byte_at l1 i = byte_at l2 i) -> l1 = l2.
Proof.
  unfold zlen, byte_at. intros Hlen Hb. apply list_eq. intros i.
  destruct (decide (i < length l1)%nat) as [Hi|Hi].
  - specialize (Hb (Z.of_nat i) ltac:(lia)). rewrite Nat2Z.id in Hb.
    destruct (lookup_lt_is_Some_2 l1 i Hi) as [x Hx]. destruct (lookup_lt_is_Some_2 l2 i ltac:(lia)) as [y Hy].
    rewrite Hx, Hy in *. by f_equal.
  - rewrite !lookup_ge_None_2 by lia. done.
Qed.

Lemma byte_at_slice l off size i :
  0 <= off -> 0 <= i < size -> byte_at (slice l off size) i = byte_at l (off + i).
Proof.
  intros. unfold byte_at, slice. rewrite lookup_take_lt, lookup_drop by lia. do 2 f_equal. lia.
Qed.

(** A range that does not meet the overwritten one reads as before. *)
Lemma slice_splice_other l off d off' size :
  0 <= off -> off + zlen d <= zlen l -> 0 <= off' -> 0 <= size -> off' + size <= zlen l ->
  off' + size <= off \/ off + zlen d <= off' ->
  slice (splice l off d) off' size = slice l off' size.
Proof.
  intros. apply bytes_ext.
  - rewrite !zlen_slice; rewrite ?zlen_splice; lia.
  - rewrite zlen_slice by (rewrite ?zlen_splice; lia). intros i Hi.
    rewrite !byte_at_slice, byte_at_splice by lia.
    destruct (Z.leb_spec off (off' + i)), (Z.ltb_spec (off' + i) (off + zlen d)); done || lia.
Qed.

(** ** Big-endian accessors (val_tpm_crb.h) *)

Definition val_tpm_be16_read (p : list Z) (i : Z) : Z :=
  u16 (Z.lor (u16 (Z.shiftl (byte_at p i) 8)) (byte_at p (i + 1))).
Definition val_tpm_be32_read (p : list Z) (i : Z) : Z :=
  Z.lor (Z.lor (Z.lor (u32 (Z.shiftl (byte_at p i) 24)) (Z.shiftl (byte_at p (i + 1)) 16))
           (Z.shiftl (byte_at p (i + 2)) 8)) (byte_at p (i + 3)).
Definition val_tpm_be16_write (p : list Z) (i v : Z) : list Z :=
  splice p i [u8 (Z.shiftr v 8); u8 v].
Definition val_tpm_be32_write (p : list Z) (i v : Z) : list Z :=
  splice p i [u8 (Z.shiftr v 24); u8 (Z.shiftr v 16); u8 (Z.shiftr v 8); u8 v].

Lemma be32_read_eq p i :
  is_uint 8 (byte_at p i) -> is_uint 8 (byte_at p (i + 1)) -> is_uint 8 (byte_at p (i + 2)) ->
  is_uint 8 (byte_at p (i + 3)) ->
  val_tpm_be32_read p i =
  byte_at p i * 2 ^ 24 + byte_at p (i + 1) * 2 ^ 16 + byte_at p (i + 2) * 2 ^ 8 + byte_at p (i + 3).
Proof.
  unfold is_uint, val_tpm_be32_read. intros. rewrite (uwrap_small 32) by (rewrite Z.shiftl_mul_pow2 by lia; lia).
  rewrite Z.lor_comm, (Z.lor_comm _ (Z.shiftl _ 8)), (Z.lor_comm _ (Z.shiftl _ 16)).
  set (a := byte_at p i) in *. set (b := byte_at p (i + 1)) in *.
  set (c := byte_at p (i + 2)) in *. set (d := byte_at p (i + 3)) in *.
  replace (Z.lor (Z.shiftl b 16) (Z.shiftl a 24)) with (Z.shiftl (b + a * 2 ^ 8) 16).
  2:{ rewrite <- (lor_shiftl 8 b a) by lia. rewrite Z.shiftl_lor, Z.shiftl_shiftl by lia. done. }
  replace (Z.lor (Z.shiftl c 8) (Z.shiftl (b + a * 2 ^ 8) 16)) with (Z.shiftl (c + (b + a * 2 ^ 8) * 2 ^ 8) 8).
  2:{ rewrite <- (lor_shiftl 8 c) by lia. rewrite Z.shiftl_lor, Z.shiftl_shiftl by lia. done. }
  rewrite lor_shiftl by lia. lia.
Qed.

(** What was written big-endian is read back. *)
Lemma be32_roundtrip p i v :
  is_uint 32 v -> 0 <= i -> i + 4 <= zlen p -> val_tpm_be32_read (val_tpm_be32_write p i v) i = v.
Proof.
  unfold is_uint. intros Hv Hi Hl. unfold val_tpm_be32_write.
  set (d := [u8 (Z.shiftr v 24); u8 (Z.shiftr v 16); u8 (Z.shiftr v 8); u8 v]).
  assert (Hz : zlen d = 4) by reflexivity.
  assert (Hb : forall j, 0 <= j < 4 -> byte_at (splice p i d) (i + j) = byte_at d j).
  { intros j Hj. rewrite byte_at_splice by lia. replace (i <=? i + j) with true by lia.
    replace (i + j <? i + zlen d) with true by lia. cbn [andb]. f_equal. lia. }
  pose proof (Hb 0 ltac:(lia)) as H0. rewrite Z.add_0_r in H0.
  rewrite be32_read_eq; rewrite ?H0, ?Hb by lia; [|apply uwrap_is_uint; lia..].
  change (byte_at d 0) with (u8 (Z.shiftr v 24)). change (byte_at d 1) with (u8 (Z.shiftr v 16)).
  change (byte_at d 2) with (u8 (Z.shiftr v 8)). change (byte_at d 3) with (u8 v).
  unfold uwrap. rewrite !Z.shiftr_div_pow2 by lia. Z.div_mod_to_equations; lia.
Qed.
