(* ===== verification/Malloc.v ===== *)
(** * The heap allocator of val_malloc.c

    One static buffer of 512 KiB holds a doubly linked list of blocks, each a
    32-byte header followed by its payload.  The model keeps the headers in the
    byte memory of [CMem], at the offsets the AArch64 ABI gives [struct Block],
    so that headers and payloads live in the same address space and a wrong
    pointer reads whatever bytes are there. *)

From S2P Require Import Prelude ValCommon CMem Libc.

Definition BLOCK_VALID_MAGIC : Z := 0xABCD.
Definition BLOCK_INVALID_MAGIC : Z := 0xFEFE.
Definition ALIGNMENT : Z := 8.
Definition PLATFORM_HEAP_BUF_SIZE : Z := 512 * 1024.

Definition ALIGN_TO (size alignment : Z) : Z :=
  Z.land (uwrap 64 (size + uwrap 64 (alignment - 1))) (uwrap 64 (Z.lnot (uwrap 64 (alignment - 1)))).
Definition ALIGN (size : Z) : Z := ALIGN_TO size ALIGNMENT.

(** [sizeof(Block)]: two [uint16_t], padding, a [size_t] and two pointers. *)
Definition BLOCK_SIZE : Z := ALIGN 32.

(** ** Fields of [struct Block] *)
Definition rd_magic (m : mem) (b : Z) : Z := ldn 2 m b.
Definition rd_free (m : mem) (b : Z) : Z := ldn 2 m (b + 2).
Definition rd_size (m : mem) (b : Z) : Z := ldn 8 m (b + 8).
Definition rd_next (m : mem) (b : Z) : Z := ldn 8 m (b + 16).
Definition rd_prev (m : mem) (b : Z) : Z := ldn 8 m (b + 24).
Definition wr_magic (m : mem) (b v : Z) : mem := stn 2 m b v.
Definition wr_free (m : mem) (b v : Z) : mem := stn 2 m (b + 2) v.
Definition wr_size (m : mem) (b v : Z) : mem := stn 8 m (b + 8) v.
Definition wr_next (m : mem) (b v : Z) : mem := stn 8 m (b + 16) v.
Definition wr_prev (m : mem) (b v : Z) : mem := stn 8 m (b + 24) v.

(** The static variables [free_list] and [initialized], and memory. *)
Record heap := Heap { hmem : mem; free_list : Z; initialized : Z }.

Definition set_hmem (h : heap) (m : mem) : heap := Heap m (free_list h) (initialized h).

(** Every block takes at least its header, so no chain is longer than this. *)
Definition heap_fuel : nat := Z.to_nat (PLATFORM_HEAP_BUF_SIZE / 32 + 1).

(** ** val_coalesce *)

Fixpoint coalesce_fwd (fuel : nat) (m : mem) (block : Z) : outcome mem :=
  match fuel with
  | O => Diverge
  | S fuel' =>
      if negb (rd_next m block =? 0) && negb (rd_free m (rd_next m block) =? 0) then
        let to_remove := rd_next m block in
        let m := wr_size m block
                   (uwrap 64 (rd_size m block + uwrap 64 (BLOCK_SIZE + rd_size m to_remove))) in
        let m := wr_next m block (rd_next m to_remove) in
        let m := wr_magic m to_remove BLOCK_INVALID_MAGIC in
        let m := if rd_next m block =? 0 then m else wr_prev m (rd_next m block) block in
        coalesce_fwd fuel' m block
      else Ret m
  end.

Fixpoint coalesce_bwd (fuel : nat) (m : mem) (block : Z) : outcome (Z * mem) :=
  match fuel with
  | O => Diverge
  | S fuel' =>
      if negb (rd_prev m block =? 0) && negb (rd_free m (rd_prev m block) =? 0) then
        let to_remove := block in
        let m := wr_size m (rd_prev m block)
                   (uwrap 64 (rd_size m (rd_prev m block)
                              + uwrap 64 (BLOCK_SIZE + rd_size m to_remove))) in
        let m := wr_next m (rd_prev m block) (rd_next m to_remove) in
        let m := wr_magic m to_remove BLOCK_INVALID_MAGIC in
        let m := if rd_next m to_remove =? 0 then m
                 else wr_prev m (rd_next m to_remove) (rd_prev m block) in
        coalesce_bwd fuel' m (rd_prev m block)
      else Ret (block, m)
  end.

(** [block] is [*block_ptr] on entry; the first component of the result is what
    the function stores back through [block_ptr]. *)
Definition val_coalesce (m : mem) (block : Z) : outcome (Z * mem) :=
  if block =? 0 then Fault
  else
    let! m := coalesce_fwd heap_fuel m block in
    coalesce_bwd heap_fuel m block.

(** ** val_split *)
Definition val_split (m : mem) (block size : Z) : mem :=
  if uwrap 64 (uwrap 64 (size + BLOCK_SIZE) + ALIGNMENT) <=? rd_size m block then
    let new_block := uwrap 64 (uwrap 64 (block + BLOCK_SIZE) + size) in
    let m := wr_magic m new_block BLOCK_VALID_MAGIC in
    let m := wr_free m new_block 1 in
    let m := wr_size m new_block (uwrap 64 (uwrap 64 (rd_size m block - size) - BLOCK_SIZE)) in
    let m := wr_next m new_block (rd_next m block) in
    let m := wr_prev m new_block block in
    let m := if rd_next m new_block =? 0 then m
             else wr_prev m (rd_next m new_block) new_block in
    let m := wr_next m block new_block in
    wr_size m block size
  else m.

Section Allocator.
(** [heap_base] is the address the linker gives [pal_heap_buffer]. *)
Context `{ValCommon} (heap_base : Z).

Definition pal_get_heap_buffer : Z := heap_base.

Definition val_init_heap (h : heap) : outcome heap :=
  let fl := pal_get_heap_buffer in
  if negb (fl mod 32 =? 0) then Panic
  else
    let m := wr_magic (hmem h) fl BLOCK_VALID_MAGIC in
    let m := wr_free m fl 1 in
    let m := wr_size m fl (uwrap 64 (PLATFORM_HEAP_BUF_SIZE - BLOCK_SIZE)) in
    let m := wr_next m fl 0 in
    let m := wr_prev m fl 0 in
    Ret (Heap m fl 1).

(** ** val_malloc *)

Fixpoint malloc_loop (fuel : nat) (m : mem) (block size : Z) : outcome (Z * mem) :=
  match fuel with
  | O => Diverge
  | S fuel' =>
      if block =? 0 then Ret (0, m)
      else if negb (rd_free m block =? 0) && (size <=? rd_size m block) then
        let m := val_split m block size in
        let m := wr_magic m block BLOCK_VALID_MAGIC in
        let m := wr_free m block 0 in
        Ret (uwrap 64 (block + BLOCK_SIZE), m)
      else malloc_loop fuel' m (rd_next m block) size
  end.

Definition ensure_init (h : heap) : outcome heap :=
  if initialized h =? 0 then val_init_heap h else Ret h.

Definition val_malloc (h : heap) (size : Z) : outcome (Z * heap) :=
  if size =? 0 then Ret (0, h)
  else
    let! h := ensure_init h in
    let size := ALIGN size in
    let! (p, m) := malloc_loop heap_fuel (hmem h) (free_list h) size in
    Ret (p, set_hmem h m).

(** ** val_free *)
Definition val_free (h : heap) (ptr : Z) : outcome (Z * heap) :=
  if ptr =? 0 then Ret (VAL_ERROR, h)
  else
    let block := uwrap 64 (ptr - BLOCK_SIZE) in
    if negb (rd_magic (hmem h) block =? BLOCK_VALID_MAGIC) then Ret (VAL_ERROR, h)
    else if negb (rd_free (hmem h) block =? 0) then Ret (VAL_ERROR, h)
    else
      let m := wr_free (hmem h) block 1 in
      let! (_, m) := val_coalesce m block in
      Ret (VAL_SUCCESS, set_hmem h m).

(** ** val_calloc *)
Definition val_calloc (h : heap) (nmemb size : Z) : outcome (Z * heap) :=
  if (size =? 0) || (nmemb =? 0) then Ret (0, h)
  else
    let total := uwrap 64 (nmemb * size) in
    let! (ptr, h) := val_malloc h total in
    if ptr =? 0 then Ret (ptr, h)
    else Ret (ptr, set_hmem h (val_memset (hmem h) ptr 0 total).2).

(** ** val_realloc *)
Definition val_realloc (h : heap) (ptr size : Z) : outcome (Z * heap) :=
  if ptr =? 0 then val_malloc h size
  else if size =? 0 then
    let! (_, h) := val_free h ptr in Ret (0, h)
  else
    let m := hmem h in
    let block := uwrap 64 (ptr - BLOCK_SIZE) in
    if negb (rd_magic m block =? BLOCK_VALID_MAGIC) then Ret (0, h)
    else
      let size := ALIGN size in
      let original_size := rd_size m block in
      if size <=? rd_size m block then
        let m := val_split m block size in
        let! (nx, m) := val_coalesce m (rd_next m block) in
        Ret (ptr, set_hmem h (wr_next m block nx))
      else if (negb (rd_next m block =? 0) && negb (rd_free m (rd_next m block) =? 0) &&
               (size <=? uwrap 64 (uwrap 64 (rd_size m block + BLOCK_SIZE)
                                   + rd_size m (rd_next m block))))
           || (negb (rd_prev m block =? 0) && negb (rd_free m (rd_prev m block) =? 0) &&
               (size <=? uwrap 64 (uwrap 64 (rd_size m block + BLOCK_SIZE)
                                   + rd_size m (rd_prev m block)))) then
        let! (block, m) := val_coalesce m block in
        let new_ptr := uwrap 64 (block + BLOCK_SIZE) in
        let m := if new_ptr =? ptr then m else (val_memmove m new_ptr ptr original_size).2 in
        let m := val_split m block size in
        let m := wr_free m block 0 in
        Ret (new_ptr, set_hmem h m)
      else
        let! (new_ptr, h) := val_malloc h size in
        if new_ptr =? 0 then Ret (0, h)
        else
          let h := set_hmem h (val_memcpy (hmem h) new_ptr ptr (rd_size (hmem h) block)).2 in
          let! (_, h) := val_free h ptr in
          Ret (new_ptr, h).

(** ** val_aligned_alloc *)
Fixpoint aligned_loop (fuel : nat) (m : mem) (block alignment size : Z) : outcome (Z * mem) :=
  match fuel with
  | O => Diverge
  | S fuel' =>
      if block =? 0 then Ret (0, m)
      else if rd_free m block =? 0 then aligned_loop fuel' m (rd_next m block) alignment size
      else
        let raw := block in
        let aligned := ALIGN_TO (uwrap 64 (raw + BLOCK_SIZE)) alignment in
        let header_addr := uwrap 64 (aligned - BLOCK_SIZE) in
        let total_needed := uwrap 64 (uwrap 64 (aligned + size) - raw) in
        if total_needed <=? uwrap 64 (rd_size m block + BLOCK_SIZE) then
          let diff := sint 64 header_addr - sint 64 raw in
          let leading_space := if 0 <? diff then diff else 0 in
          let '(block, m) :=
            if BLOCK_SIZE <=? leading_space then
              let m := val_split m block (uwrap 64 (leading_space - BLOCK_SIZE)) in
              (rd_next m block, m)
            else (block, m) in
          if block =? 0 then Fault
          else
            let m := if uwrap 64 (uwrap 64 (size + BLOCK_SIZE) + ALIGNMENT) <? rd_size m block
                     then val_split m block size else m in
            let m := wr_size m block size in
            let m := wr_free m block 0 in
            Ret (uwrap 64 (header_addr + BLOCK_SIZE), m)
        else aligned_loop fuel' m (rd_next m block) alignment size
  end.

Definition val_aligned_alloc (h : heap) (alignment size : Z) : outcome (Z * heap) :=
  if (alignment <? 8) || negb (Z.land alignment (uwrap 64 (alignment - 1)) =? 0) then Ret (0, h)
  else if negb (size mod alignment =? 0) then Ret (0, h)
  else
    let size := ALIGN size in
    let! h := ensure_init h in
    let! (p, m) := aligned_loop heap_fuel (hmem h) (free_list h) alignment size in
    Ret (p, set_hmem h m).

End Allocator.
