(* ===== verification/MallocSpec.v ===== *)
(** * Abstract heap

    What the allocator of [Malloc] promises, without memory: the heap is the list
    of its blocks in address order, [val_malloc] is first fit with splitting,
    [val_free] merges the freed block with its free neighbours.  The relation
    [heap_rep] says that the headers in memory are this list. *)

From S2P Require Import Prelude ValCommon CMem Libc Malloc.

Record ablk := ABlk { b_addr : Z; b_size : Z; b_used : bool }.

#[export] Instance ablk_eq_dec : EqDecision ablk.
Proof. solve_decision. Defined.

(** Payload of a block. *)
Definition b_ptr (b : ablk) : Z := b_addr b + 32.
Definition b_end (b : ablk) : Z := b_addr b + 32 + b_size b.

(** ** Abstract operations *)

Definition asplit (b : ablk) (size : Z) : list ablk :=
  if size + 40 <=? b_size b
  then [ABlk (b_addr b) size (b_used b); ABlk (b_addr b + 32 + size) (b_size b - size - 32) false]
  else [b].

Definition set_used (u : bool) (bs : list ablk) : list ablk :=
  match bs with
  | [] => []
  | b :: bs' => ABlk (b_addr b) (b_size b) u :: bs'
  end.

Definition fits (size : Z) (b : ablk) : bool := negb (b_used b) && (size <=? b_size b).

Fixpoint amalloc (size : Z) (bs : list ablk) : Z * list ablk :=
  match bs with
  | [] => (0, [])
  | b :: bs' =>
      if fits size b then (b_ptr b, set_used true (asplit b size) ++ bs')
      else let '(p, r) := amalloc size bs' in (p, b :: r)
  end.

Definition merge (x y : ablk) : ablk := ABlk (b_addr x) (b_size x + 32 + b_size y) (b_used x).

Fixpoint absorb_fwd (b : ablk) (r : list ablk) : ablk * list ablk :=
  match r with
  | n :: r' => if b_used n then (b, r) else absorb_fwd (merge b n) r'
  | [] => (b, [])
  end.

(** [l] is the list of the preceding blocks, nearest first. *)
Fixpoint absorb_bwd (l : list ablk) (b : ablk) : list ablk * ablk :=
  match l with
  | p :: l' => if b_used p then (l, b) else absorb_bwd l' (merge p b)
  | [] => ([], b)
  end.

Definition acoalesce (l : list ablk) (b : ablk) (r : list ablk) : list ablk * ablk * list ablk :=
  let '(b1, r1) := absorb_fwd b r in
  let '(l1, b2) := absorb_bwd (rev l) b1 in
  (rev l1, b2, r1).

(** ** Well-formed layouts

    Blocks come in address order, 8-aligned, and none reaches into the next one. *)
Fixpoint layout (lo : Z) (bs : list ablk) (hi : Z) : Prop :=
  match bs with
  | [] => lo <= hi
  | b :: bs' => lo <= b_addr b /\ b_addr b mod 8 = 0 /\ b_size b mod 8 = 0 /\ 0 <= b_size b /\
                layout (b_end b) bs' hi
  end.

Fixpoint lend (lo : Z) (bs : list ablk) : Z :=
  match bs with
  | [] => lo
  | b :: bs' => lend (b_end b) bs'
  end.

Lemma layout_le lo bs hi : layout lo bs hi -> lend lo bs <= hi /\ lo <= lend lo bs.
Proof.
  revert lo; induction bs as [|b bs IH]; intros lo; simpl; [lia|].
  intros (? & ? & ? & ? & H). apply IH in H. unfold b_end in *. lia.
Qed.

Lemma layout_weaken lo lo' bs hi : lo' <= lo -> layout lo bs hi -> layout lo' bs hi.
Proof. destruct bs; simpl; [lia|]. intros ? (? & ?); split; [lia | done]. Qed.

Lemma layout_app lo l1 l2 hi :
  layout lo (l1 ++ l2) hi <-> layout lo l1 (lend lo l1) /\ layout (lend lo l1) l2 hi.
Proof.
  revert lo; induction l1 as [|b l1 IH]; intros lo; simpl; [split; [split; [lia|done] | tauto]|].
  rewrite IH. tauto.
Qed.

Lemma layout_elem lo bs hi b :
  layout lo bs hi -> b ∈ bs ->
  lo <= b_addr b /\ b_end b <= hi /\ b_addr b mod 8 = 0 /\ b_size b mod 8 = 0 /\ 0 <= b_size b.
Proof.
  revert lo; induction bs as [|c bs IH]; intros lo H Hb; [by apply not_elem_of_nil in Hb|].
  destruct H as (? & ? & ? & ? & H). apply elem_of_cons in Hb as [->|Hb].
  - apply layout_le in H. lia.
  - apply IH in H; [|done]. unfold b_end in *. lia.
Qed.

(** Distinct blocks of a layout are apart. *)
Lemma layout_disjoint lo bs hi i j x y :
  layout lo bs hi -> bs !! i = Some x -> bs !! j = Some y -> (i < j)%nat -> b_end x <= b_addr y.
Proof.
  revert lo i j; induction bs as [|b bs IH]; intros lo i j H Hi Hj Hlt; [done|].
  destruct H as (? & ? & ? & ? & H). destruct i as [|i], j as [|j]; try lia; simpl in Hi, Hj.
  - simplify_eq. apply list_elem_of_lookup_2 in Hj. eapply layout_elem in H; [|exact Hj]. lia.
  - eapply IH; eauto; lia.
Qed.

Lemma layout_count lo bs hi : layout lo bs hi -> 32 * Z.of_nat (length bs) <= hi - lo.
Proof.
  revert lo; induction bs as [|b bs IH]; intros lo; cbn [layout length]; [lia|].
  intros (? & ? & ? & ? & H). apply IH in H. unfold b_end in *. lia.
Qed.

(** ** Tidy heaps

    The blocks tile the buffer without a gap, and no two neighbours are free. *)
Fixpoint tiled (lo : Z) (bs : list ablk) (hi : Z) : Prop :=
  match bs with
  | [] => lo = hi
  | b :: bs' => b_addr b = lo /\ 0 <= b_size b /\ tiled (b_end b) bs' hi
  end.

Definition free_hd (bs : list ablk) : bool :=
  match bs with [] => false | b :: _ => negb (b_used b) end.

Fixpoint compact (bs : list ablk) : bool :=
  match bs with
  | [] => true
  | b :: bs' => (b_used b || negb (free_hd bs')) && compact bs'
  end.

Lemma tiled_app lo l1 l2 hi : tiled lo (l1 ++ l2) hi <-> exists mid, tiled lo l1 mid /\ tiled mid l2 hi.
Proof.
  revert lo; induction l1 as [|b l1 IH]; intros lo; simpl.
  - split; [eauto|]. by intros (? & -> & ?).
  - rewrite IH. split.
    + intros (? & ? & mid & ? & ?). by exists mid.
    + intros (mid & (? & ? & ?) & ?). repeat split; auto. by exists mid.
Qed.

Lemma compact_app l1 l2 :
  compact (l1 ++ l2) = compact l1 && compact l2 && negb (free_hd (rev l1) && free_hd l2).
Proof.
  induction l1 as [|b l1 IH]; simpl; [by rewrite andb_true_r|].
  rewrite IH. destruct l1 as [|c l1]; simpl.
  - destruct (b_used b), (compact l2), (free_hd l2); reflexivity.
  - destruct (rev l1 ++ [c]) as [|d l'] eqn:E; [by destruct (rev l1)|].
    simpl. destruct (b_used b), (b_used c), (compact l1), (compact l2), (free_hd l2), (free_hd l1), (negb (b_used d)); reflexivity.
Qed.

Lemma compact_app_1 l1 l2 : compact (l1 ++ l2) = true -> compact l1 = true /\ compact l2 = true.
Proof. rewrite compact_app. destruct (compact l1), (compact l2); done. Qed.

Lemma tiled_asplit b size r hi u :
  0 <= size -> 0 <= b_size b -> tiled (b_end b) r hi -> tiled (b_addr b) (set_used u (asplit b size) ++ r) hi.
Proof.
  intros. unfold asplit. destruct (Z.leb_spec (size + 40) (b_size b)); simpl; unfold b_end in *; simpl.
  - repeat split; try lia. by replace (_ + 32 + (_ - _ - 32)) with (b_addr b + 32 + b_size b) by lia.
  - repeat split; done || lia.
Qed.

Lemma amalloc_tiled size bs lo hi :
  0 <= size -> tiled lo bs hi -> tiled lo (amalloc size bs).2 hi.
Proof.
  intros Hs. revert lo; induction bs as [|b bs IH]; intros lo; [done|].
  intros (<- & H0 & H). cbn [amalloc]. case_match.
  - by apply tiled_asplit.
  - specialize (IH _ H). destruct (amalloc size bs). done.
Qed.

Lemma amalloc_free_hd size bs : free_hd bs = false -> free_hd (amalloc size bs).2 = false.
Proof.
  destruct bs as [|b bs]; [done|]. cbn [amalloc free_hd]. unfold fits. intros Hu.
  rewrite Hu. cbn [andb]. by destruct (amalloc size bs).
Qed.

Lemma amalloc_compact size bs : compact bs = true -> compact (amalloc size bs).2 = true.
Proof.
  induction bs as [|b bs IH]; [done|]. cbn [compact]. intros [H1 H2]%andb_true_iff.
  cbn [amalloc]. case_match eqn:Hfit.
  - apply andb_true_iff in Hfit as [Hu _]. rewrite negb_true_iff in Hu. rewrite Hu in H1. simpl in H1.
    unfold asplit. destruct (size + 40 <=? b_size b); simpl; rewrite ?H1, H2; done.
  - specialize (IH H2). pose proof (amalloc_free_hd size bs) as Hhd.
    destruct (amalloc size bs). cbn [snd compact] in *. rewrite IH, andb_true_r.
    destruct (b_used b); [done|]. simpl in *. rewrite negb_true_iff in H1. by rewrite Hhd.
Qed.

Lemma absorb_fwd_tiled b r hi :
  0 <= b_size b -> tiled (b_end b) r hi ->
  tiled (b_addr b) ((absorb_fwd b r).1 :: (absorb_fwd b r).2) hi.
Proof.
  revert b; induction r as [|n r IH]; intros b Hb H; [done|].
  destruct H as (Hn & Hs & H). cbn [absorb_fwd]. case_match; [done|].
  apply (IH (merge b n)); unfold b_end in *; simpl; [lia|].
  by replace (_ + 32 + _) with (b_addr n + 32 + b_size n) by lia.
Qed.

Lemma absorb_bwd_tiled l b r lo hi :
  tiled lo (rev l ++ b :: r) hi ->
  tiled lo (rev (absorb_bwd l b).1 ++ (absorb_bwd l b).2 :: r) hi.
Proof.
  revert b; induction l as [|p l IH]; intros b H; [done|].
  cbn [absorb_bwd]. case_match; [done|]. apply IH.
  simpl in H. rewrite <- app_assoc in H. apply tiled_app in H as (mid & H1 & H2).
  apply tiled_app. exists mid. split; [done|]. unfold b_end in *. simpl in *. unfold b_end in *. simpl.
  destruct H2 as (<- & ? & ? & ? & H2). repeat split; [lia|].
  by replace (_ + 32 + (_ + 32 + _)) with (b_addr b + 32 + b_size b) by lia.
Qed.

Lemma absorb_fwd_compact b r :
  compact r = true -> free_hd (absorb_fwd b r).2 = false /\ compact (absorb_fwd b r).2 = true.
Proof.
  revert b; induction r as [|n r IH]; intros b H; [done|]. cbn [compact] in H.
  cbn [absorb_fwd]. destruct (b_used n) eqn:Hu; simpl in *; [by rewrite Hu|].
  apply andb_true_iff in H as [_ H]. auto.
Qed.

Lemma absorb_bwd_compact l b :
  compact (rev l) = true -> free_hd (absorb_bwd l b).1 = false /\ compact (rev (absorb_bwd l b).1) = true.
Proof.
  revert b; induction l as [|p l IH]; intros b H; [done|]. cbn [absorb_bwd].
  destruct (b_used p) eqn:Hu; [by simpl in *; rewrite Hu|].
  apply IH. simpl in H. by apply compact_app_1 in H as [? _].
Qed.

(** What [val_free] does to the list. *)
Definition afree (l : list ablk) (b : ablk) (r : list ablk) : list ablk :=
  let '(l1, b2, r1) := acoalesce l (ABlk (b_addr b) (b_size b) false) r in l1 ++ b2 :: r1.

Lemma absorb_fwd_used b r : b_used (absorb_fwd b r).1 = b_used b.
Proof. revert b; induction r as [|n r IH]; intros b; [done|]. cbn. case_match; [done|]. by rewrite IH. Qed.

Lemma afree_tiled l b r lo hi : tiled lo (l ++ b :: r) hi -> tiled lo (afree l b r) hi.
Proof.
  intros H. apply tiled_app in H as (mid & H1 & <- & H2 & H3).
  unfold afree, acoalesce. set (b0 := ABlk _ _ _).
  pose proof (absorb_fwd_tiled b0 r hi H2 H3) as HT. destruct (absorb_fwd b0 r) as [b1 r1].
  pose proof (absorb_bwd_tiled (rev l) b1 r1 lo hi) as HB. destruct (absorb_bwd (rev l) b1) as [l1 b2].
  apply HB. rewrite rev_involutive. apply tiled_app. eexists. split; [exact H1 | exact HT].
Qed.

Lemma afree_compact l b r : compact (l ++ b :: r) = true -> compact (afree l b r) = true.
Proof.
  intros H. apply compact_app_1 in H as [H1 H2]. cbn [compact] in H2. apply andb_true_iff in H2 as [_ H2].
  unfold afree, acoalesce. set (b0 := ABlk _ _ _).
  pose proof (absorb_fwd_compact b0 r H2) as HT. destruct (absorb_fwd b0 r) as [b1 r1].
  pose proof (absorb_bwd_compact (rev l) b1) as HB. rewrite rev_involutive in HB.
  destruct (absorb_bwd (rev l) b1) as [l1 b2]. specialize (HB H1) as [HB1 HB2].
  destruct HT as [HT1 HT2]. simpl in *.
  rewrite compact_app, rev_involutive. cbn [compact]. by rewrite HB1, HB2, HT1, HT2, orb_true_r.
Qed.

(** ** Headers in memory *)

Definition hd_addr (nxt : Z) (bs : list ablk) : Z :=
  match bs with [] => nxt | b :: _ => b_addr b end.

Fixpoint last_addr (prev : Z) (bs : list ablk) : Z :=
  match bs with [] => prev | b :: bs' => last_addr (b_addr b) bs' end.

Definition hdr_ok (m : mem) (b : ablk) (prev next : Z) : Prop :=
  rd_magic m (b_addr b) = BLOCK_VALID_MAGIC /\
  rd_free m (b_addr b) = (if b_used b then 0 else 1) /\
  rd_size m (b_addr b) = b_size b /\
  rd_next m (b_addr b) = next /\
  rd_prev m (b_addr b) = prev.

Fixpoint seg (m : mem) (prev : Z) (bs : list ablk) (nxt : Z) : Prop :=
  match bs with
  | [] => True
  | b :: bs' => hdr_ok m b prev (hd_addr nxt bs') /\ seg m (b_addr b) bs' nxt
  end.

Lemma hd_addr_app n l1 l2 : hd_addr n (l1 ++ l2) = hd_addr (hd_addr n l2) l1.
Proof. by destruct l1. Qed.

Lemma last_addr_app p l1 l2 : last_addr p (l1 ++ l2) = last_addr (last_addr p l1) l2.
Proof. revert p; induction l1; simpl; auto. Qed.

Lemma seg_app m p l1 l2 n :
  seg m p (l1 ++ l2) n <-> seg m p l1 (hd_addr n l2) /\ seg m (last_addr p l1) l2 n.
Proof.
  revert p; induction l1 as [|b l1 IH]; intros p; simpl; [tauto|].
  rewrite IH, hd_addr_app. tauto.
Qed.

(** [m'] agrees with [m] on the header of [b]. *)
Definition same_hdr (m m' : mem) (b : ablk) : Prop :=
  forall x, b_addr b <= x < b_addr b + 32 -> ld8 m' x = ld8 m x.

Lemma same_hdr_ldn m m' b k o :
  same_hdr m m' b -> 0 <= o -> o + Z.of_nat k <= 32 ->
  ldn k m' (b_addr b + o) = ldn k m (b_addr b + o).
Proof. intros H ??. apply ldn_ext. intros i Hi. apply H. lia. Qed.

Lemma hdr_ok_ext m m' b p n : same_hdr m m' b -> hdr_ok m b p n -> hdr_ok m' b p n.
Proof.
  intros H (H1 & H2 & H3 & H4 & H5). unfold hdr_ok, rd_magic, rd_free, rd_size, rd_next, rd_prev in *.
  rewrite <- (Z.add_0_r (b_addr b)) at 1.
  rewrite !(same_hdr_ldn m m') by (done || lia). rewrite Z.add_0_r. auto.
Qed.

Lemma seg_ext m m' p bs n :
  (forall b, b ∈ bs -> same_hdr m m' b) -> seg m p bs n -> seg m' p bs n.
Proof.
  revert p; induction bs as [|b bs IH]; intros p H; simpl; [done|].
  intros [H1 H2]. split.
  - apply (hdr_ok_ext m); [|done]. apply H, elem_of_cons; by left.
  - apply IH; [|done]. intros c Hc. apply H, elem_of_cons; by right.
Qed.

(** [m'] differs from [m] only inside the 32-byte headers at [hs]. *)
Definition only_hdrs (hs : list Z) (m m' : mem) : Prop :=
  forall x, (forall a, a ∈ hs -> x < a \/ a + 32 <= x) -> ld8 m' x = ld8 m x.

Lemma only_hdrs_refl hs m : only_hdrs hs m m.
Proof. by intros x Hx. Qed.

Lemma only_hdrs_trans hs m1 m2 m3 :
  only_hdrs hs m1 m2 -> only_hdrs hs m2 m3 -> only_hdrs hs m1 m3.
Proof. intros H1 H2 x Hx. rewrite H2 by done. by apply H1. Qed.

Lemma only_hdrs_mono hs hs' m m' : hs ⊆ hs' -> only_hdrs hs m m' -> only_hdrs hs' m m'.
Proof. intros Hs H x Hx. apply H. intros b Hb. apply Hx, Hs, Hb. Qed.

Lemma only_hdrs_frame a hs m m' : a ∈ hs -> frame a 32 m m' -> only_hdrs hs m m'.
Proof. intros Ha H x Hx. apply H, Hx, Ha. Qed.

Lemma absorb_bwd_hd l b r :
  hd_addr 0 (rev (absorb_bwd l b).1 ++ (absorb_bwd l b).2 :: r) = hd_addr 0 (rev l ++ b :: r).
Proof.
  revert b r; induction l as [|p l IH]; intros b r; [done|]. cbn [absorb_bwd].
  destruct (b_used p); [done|]. rewrite IH. cbn [rev]. rewrite <- app_assoc, !hd_addr_app. done.
Qed.

(** ** The representation relation *)

Section Rep.
Context (heap_base : Z).

Definition heap_limit : Z := heap_base + PLATFORM_HEAP_BUF_SIZE.

(** The heap buffer is a 4 KiB-aligned array below 2^63. *)
Definition heap_base_ok : Prop :=
  0 < heap_base /\ heap_base mod 4096 = 0 /\ heap_limit < 2 ^ 63.

Definition whole : ablk := ABlk heap_base (PLATFORM_HEAP_BUF_SIZE - 32) false.

Definition mem_rep (m : mem) (bs : list ablk) : Prop :=
  hd_addr 0 bs = heap_base /\ seg m 0 bs 0 /\ layout heap_base bs heap_limit.

(** An uninitialised heap stands for the single free block it becomes on the
    first allocation. *)
Definition heap_rep (h : heap) (bs : list ablk) : Prop :=
  (initialized h = 0 /\ bs = [whole]) \/
  (initialized h = 1 /\ free_list h = heap_base /\ mem_rep (hmem h) bs).

End Rep.
