(* ===== verification/MallocProof.v ===== *)
(** * The allocator implements the abstract heap

    The writes of [val_split] and of the two loops of [val_coalesce] carry a
    list of headers to the list the abstract operation gives; the loops finish
    within [heap_fuel] because every block takes 32 bytes of the buffer. *)

From S2P Require Import Prelude ValCommon CMem Libc Malloc MallocSpec.

Lemma BLOCK_SIZE_val : BLOCK_SIZE = 32.
Proof. reflexivity. Qed.

Ltac rdwr := unfold rd_magic, rd_free, rd_size, rd_next, rd_prev,
                    wr_magic, wr_free, wr_size, wr_next, wr_prev in *.

(** [next->prev = p] guarded by [next != NULL], the last store of both routines. *)
Definition fix_prev (m : mem) (p h : Z) : mem := if h =? 0 then m else wr_prev m h p.

Lemma fix_prev_frame m p h : frame h 32 m (fix_prev m p h).
Proof.
  unfold fix_prev, wr_prev. case_match; [apply frame_refl|].
  eapply frame_widen; [apply frame_stn | lia | lia].
Qed.

Lemma ldn_fix_prev m p h k a :
  a + Z.of_nat k <= h \/ h + 32 <= a -> ldn k (fix_prev m p h) a = ldn k m a.
Proof. apply frame_ldn, fix_prev_frame. Qed.

Lemma only_hdrs_fix_prev hs m p h : (h <> 0 -> h ∈ hs) -> only_hdrs hs m (fix_prev m p h).
Proof.
  intros H. destruct (decide (h = 0)) as [->|Hn]; [apply only_hdrs_refl|].
  eapply only_hdrs_frame; [by apply H | apply fix_prev_frame].
Qed.

Ltac hsimp := repeat first [memstep | rewrite ldn_fix_prev by lia].

(** Membership of a header in the list of headers of a chain. *)
Ltac in_hdrs :=
  rewrite ?map_app; cbn [map app b_addr]; rewrite ?elem_of_app, ?elem_of_cons; tauto.

Section Chain.
Context (lo hi : Z) (Hlo : 32 <= lo) (Hhi : hi < 2 ^ 63).

Definition chain (m : mem) (bs : list ablk) : Prop := seg m 0 bs 0 /\ layout lo bs hi.

Lemma layout_hd l r : layout l r hi -> hd_addr 0 r = 0 \/ l <= hd_addr 0 r < hi.
Proof.
  destruct r as [|c r]; [by left|]. intros (? & ? & ? & ? & H). right. simpl.
  apply layout_le in H. unfold b_end in *. lia.
Qed.

Lemma seg_frame m m' p bs n l h a k :
  layout l bs h -> seg m p bs n -> frame a k m m' -> a + k <= l \/ h <= a -> seg m' p bs n.
Proof.
  intros HL HS HF Ha. eapply seg_ext; [|done]. intros b Hb x Hx.
  eapply layout_elem in HL; [|done]. unfold b_end in HL. apply HF. lia.
Qed.

Lemma seg_fix_prev m p p' r l :
  lo <= l -> layout l r hi -> seg m p r 0 -> is_uint 64 p' -> seg (fix_prev m p' (hd_addr 0 r)) p' r 0.
Proof.
  intros Hl HL HS Hp. destruct r as [|c r]; [done|].
  destruct HL as (? & ? & ? & ? & HL). destruct HS as [HC HS]. cbn [hd_addr seg] in *.
  split.
  - unfold fix_prev. replace (b_addr c =? 0) with false by lia.
    destruct HC as (Hc1 & Hc2 & Hc3 & Hc4 & Hc5). unfold hdr_ok, is_uint in *. rdwr.
    hsimp. repeat split; assumption.
  - eapply seg_frame; [exact HL | exact HS | apply fix_prev_frame |]. unfold b_end; lia.
Qed.

Ltac solve_mod8 := Z.div_mod_to_equations; lia.

(** Taking a chain apart around one block, with the numeric facts proofs use. *)
Record around (m : mem) (l : list ablk) (b : ablk) (r : list ablk) : Prop := {
  ar_l : layout lo l (lend lo l);
  ar_r : layout (b_end b) r hi;
  ar_al : b_addr b mod 8 = 0;
  ar_sz : b_size b mod 8 = 0;
  ar_pos : 0 <= b_size b;
  ar_lo : lo <= lend lo l;
  ar_ge : lend lo l <= b_addr b;
  ar_hi : b_end b <= hi;
  ar_hd : hd_addr 0 r = 0 \/ b_end b <= hd_addr 0 r < hi;
  ar_sl : seg m 0 l (b_addr b);
  ar_h : hdr_ok m b (last_addr 0 l) (hd_addr 0 r);
  ar_sr : seg m (b_addr b) r 0
}.

Lemma chain_around m l b r : chain m (l ++ b :: r) <-> around m l b r.
Proof.
  split.
  - intros [HS HL]. apply layout_app in HL as [HL (? & ? & ? & ? & HR)].
    apply seg_app in HS as [HS [HH HSR]].
    pose proof (layout_le _ _ _ HL). pose proof (layout_le _ _ _ HR).
    constructor; auto; try lia. by apply layout_hd.
  - intros []. split; [apply seg_app; done|]. apply layout_app. split; [done|]. repeat split; auto.
Qed.

Lemma last_addr_bounds l : layout lo l (lend lo l) -> last_addr 0 l = 0 \/
  (lo <= last_addr 0 l /\ last_addr 0 l + 32 <= lend lo l).
Proof.
  destruct l as [|b l] using rev_ind; [by left|]. intros H. right.
  rewrite last_addr_app. cbn [last_addr].
  assert (Hb : b ∈ l ++ [b]) by set_solver.
  pose proof (layout_elem _ _ _ _ H Hb). unfold b_end in *. lia.
Qed.

(** ** Splitting a block *)

(** [val_split] with the reads of the old header replaced by the block. *)
Definition split_mem (m : mem) (b : ablk) (next size : Z) : mem :=
  let nb := b_addr b + 32 + size in
  let m := wr_prev (wr_next (wr_size (wr_free (wr_magic m nb BLOCK_VALID_MAGIC) nb 1)
                              nb (b_size b - size - 32)) nb next) nb (b_addr b) in
  wr_size (wr_next (fix_prev m nb next) (b_addr b) nb) (b_addr b) size.

Lemma val_split_mem m l b r size :
  around m l b r -> 0 <= size < 2 ^ 63 ->
  val_split m (b_addr b) size =
    if size + 40 <=? b_size b then split_mem m b (hd_addr 0 r) size else m.
Proof.
  intros [] Hs. destruct ar_h0 as (Hm & Hf & Hz & Hn & Hp). unfold b_end in *.
  unfold val_split. rewrite BLOCK_SIZE_val, Hz. unfold ALIGNMENT. usmall.
  replace (size + 32 + 8) with (size + 40) by lia.
  destruct (Z.leb_spec (size + 40) (b_size b)); [|done]. unfold split_mem, fix_prev.
  replace (rd_size _ (b_addr b)) with (b_size b); last (rdwr; hsimp; done).
  replace (rd_next _ (b_addr b)) with (hd_addr 0 r); last (rdwr; hsimp; done).
  replace (rd_next _ (b_addr b + 32 + size)) with (hd_addr 0 r); last (rdwr; hsimp; done).
  usmall. done.
Qed.

Lemma split_mem_around m l b r size :
  around m l b r -> 0 <= size -> size mod 8 = 0 -> size + 40 <= b_size b ->
  let m' := split_mem m b (hd_addr 0 r) size in
  chain m' (l ++ asplit b size ++ r) /\
  only_hdrs (map b_addr (l ++ asplit b size ++ r)) m m'.
Proof.
  intros [] H0 H8 Hsz m'. destruct ar_h0 as (Hm & Hf & Hz & Hn & Hp).
  unfold b_end in *. set (nb := b_addr b + 32 + size) in *.
  pose proof (last_addr_bounds _ ar_l0) as Hla.
  set (m5 := wr_prev (wr_next (wr_size (wr_free (wr_magic m nb BLOCK_VALID_MAGIC) nb 1)
                              nb (b_size b - size - 32)) nb (hd_addr 0 r)) nb (b_addr b)) in *.
  assert (F5 : frame nb 32 m m5).
  { intros x Hx. unfold m5. rdwr. memsimp. done. }
  set (m6 := fix_prev m5 nb (hd_addr 0 r)) in *.
  assert (F6 : frame (hd_addr 0 r) 32 m5 m6) by apply fix_prev_frame.
  assert (F8 : frame (b_addr b) 32 m6 m').
  { intros x Hx. unfold m', split_mem. fold nb m5 m6. rdwr. memsimp. done. }
  assert (Hr : asplit b size = [ABlk (b_addr b) size (b_used b); ABlk nb (b_size b - size - 32) false]).
  { unfold asplit. by replace (size + 40 <=? b_size b) with true by lia. }
  split.
  - rewrite Hr. apply chain_around. constructor; cbn [b_addr b_size b_used hd_addr app]; unfold b_end;
      cbn [b_addr b_size b_used hd_addr app]; try (done || lia).
    + cbn [layout]. unfold b_end. cbn [b_addr b_size]. fold nb. repeat split; try lia.
      * unfold nb. solve_mod8.
      * solve_mod8.
      * by replace (nb + 32 + (b_size b - size - 32)) with (b_addr b + 32 + b_size b) by lia.
    + eapply seg_ext; [|exact ar_sl0]. intros c Hc x Hx.
      pose proof (layout_elem _ _ _ _ ar_l0 Hc) as Hcl. unfold b_end in Hcl.
      rewrite F8, F6, F5; [done| |lia|lia]. lia.
    + unfold hdr_ok, m', split_mem; cbn [b_addr b_size b_used]. fold nb m5 m6. unfold m6, m5. rdwr. hsimp.
      repeat split; auto.
    + split.
      * unfold hdr_ok, m', split_mem; cbn [b_addr b_size b_used]. fold nb m5 m6. unfold m6, m5. rdwr. hsimp.
        repeat split; auto.
      * eapply seg_frame; [exact ar_r0| |exact F8|unfold b_end; lia].
        cbn [b_addr]. eapply (seg_fix_prev m5); [|exact ar_r0| |unfold is_uint; lia]; [lia|].
        eapply seg_frame; [exact ar_r0|exact ar_sr0|exact F5|unfold b_end; lia].
  - rewrite Hr. apply (only_hdrs_trans _ _ m5); [|apply (only_hdrs_trans _ _ m6)].
    + apply (only_hdrs_frame nb); [in_hdrs | done].
    + apply only_hdrs_fix_prev. destruct r; simpl; in_hdrs.
    + apply (only_hdrs_frame (b_addr b)); [in_hdrs | done].
Qed.

(** ** Merging two neighbours *)

Definition merge_mem (m : mem) (x y : ablk) (next : Z) : mem :=
  let m := wr_size m (b_addr x) (b_size x + (32 + b_size y)) in
  let m := wr_next m (b_addr x) next in
  let m := wr_magic m (b_addr y) BLOCK_INVALID_MAGIC in
  fix_prev m (b_addr x) next.

Lemma around_next m l x y r : around m l x (y :: r) -> around m (l ++ [x]) y r.
Proof. rewrite <- !chain_around, <- app_assoc. done. Qed.

Lemma merge_mem_chain m l x y r :
  chain m (l ++ x :: y :: r) ->
  let m' := merge_mem m x y (hd_addr 0 r) in
  chain m' (l ++ merge x y :: r) /\ only_hdrs (map b_addr (l ++ x :: y :: r)) m m'.
Proof.
  intros HC m'. apply chain_around in HC. pose proof (around_next _ _ _ _ _ HC) as HY.
  destruct HC as [A1 A2 A3 A4 A5 A6 A7 A8 A9 A10 (Hm & Hf & Hz & Hn & Hp) A12].
  destruct HY as [_ B2 B3 B4 B5 B6 _ B8 B9 _ _ B12].
  destruct A2 as (C1 & _). unfold b_end in *.
  pose proof (last_addr_bounds _ A1) as Hla.
  set (m2 := wr_next (wr_size m (b_addr x) (b_size x + (32 + b_size y))) (b_addr x) (hd_addr 0 r)) in *.
  assert (F2 : frame (b_addr x) 32 m m2).
  { intros a Ha. unfold m2. rdwr. memsimp. done. }
  set (m3 := wr_magic m2 (b_addr y) BLOCK_INVALID_MAGIC) in *.
  assert (F3 : frame (b_addr y) 32 m2 m3).
  { intros a Ha. unfold m3. rdwr. memsimp. done. }
  assert (F4 : frame (hd_addr 0 r) 32 m3 m') by apply fix_prev_frame.
  split.
  - apply chain_around. unfold merge.
    constructor; unfold b_end; cbn [b_addr b_size b_used]; try (done || lia || solve_mod8).
    + eapply layout_weaken; [|exact B2]. lia.
    + eapply seg_ext; [|exact A10]. intros c Hc a Ha.
      pose proof (layout_elem _ _ _ _ A1 Hc) as Hcl. unfold b_end in Hcl.
      rewrite F4, F3, F2; done || lia.
    + unfold hdr_ok, m', merge_mem; cbn [b_addr b_size b_used]. fold m2 m3. unfold m3, m2. rdwr. hsimp.
      repeat split; auto. lia.
    + eapply (seg_fix_prev m3); [|exact B2| |unfold is_uint; lia]; [lia|].
      eapply seg_frame; [exact B2| |exact F3|lia].
      eapply seg_frame; [exact B2|exact B12|exact F2|lia].
  - apply (only_hdrs_trans _ _ m2); [|apply (only_hdrs_trans _ _ m3)].
    + apply (only_hdrs_frame (b_addr x)); [in_hdrs | done].
    + apply (only_hdrs_frame (b_addr y)); [in_hdrs | done].
    + apply only_hdrs_fix_prev. destruct r; simpl; in_hdrs.
Qed.

(** ** The two loops of val_coalesce *)

Lemma chain_pair m l x y r :
  chain m (l ++ x :: y :: r) ->
  around m l x (y :: r) /\ around m (l ++ [x]) y r /\ last_addr 0 (l ++ [x]) = b_addr x /\
  b_end x <= b_addr y.
Proof.
  intros HC. apply chain_around in HC. split; [done|]. split; [by apply around_next|].
  split; [by rewrite last_addr_app | apply HC].
Qed.

(** The numeric facts of two neighbours, in a form the address arithmetic uses. *)
Ltac open_pair HC :=
  destruct (chain_pair _ _ _ _ _ HC) as
    ([A1 A2 A3 A4 A5 A6 A7 A8 A9 A10 (Hm & Hf & Hz & Hn & Hp) A12] &
     [B1 B2 B3 B4 B5 B6 B7 B8 B9 B10 (Km & Kf & Kz & Kn & Kp) B12] & Hlast & Hsep);
  rewrite Hlast in Kp; cbn [hd_addr] in Hn; unfold b_end in *.

Lemma coalesce_fwd_step fuel m l x y r :
  chain m (l ++ x :: y :: r) -> b_used y = false ->
  coalesce_fwd (S fuel) m (b_addr x) =
  coalesce_fwd fuel (merge_mem m x y (hd_addr 0 r)) (b_addr x).
Proof.
  intros HC Hu. open_pair HC. cbn [coalesce_fwd]. rewrite Hn, Kf, Hu.
  replace (b_addr y =? 0) with false by lia. cbn [negb andb Z.eqb].
  rewrite Hz, Kz, BLOCK_SIZE_val. usmall. unfold merge_mem, fix_prev.
  replace (rd_next (wr_size _ _ _) (b_addr y)) with (hd_addr 0 r); last (rdwr; hsimp; done).
  replace (rd_next (wr_magic _ _ _) (b_addr x)) with (hd_addr 0 r); last (rdwr; hsimp; done).
  done.
Qed.

Lemma coalesce_bwd_step fuel m l x y r :
  chain m (l ++ x :: y :: r) -> b_used x = false ->
  coalesce_bwd (S fuel) m (b_addr y) =
  coalesce_bwd fuel (merge_mem m x y (hd_addr 0 r)) (b_addr x).
Proof.
  intros HC Hu. open_pair HC. cbn [coalesce_bwd]. rewrite Kp, Hf, Hu.
  replace (b_addr x =? 0) with false by lia. cbn [negb andb Z.eqb].
  rewrite Hz, Kz, BLOCK_SIZE_val. usmall. unfold merge_mem, fix_prev.
  replace (rd_prev (wr_size _ _ _) (b_addr y)) with (b_addr x); last (rdwr; hsimp; done).
  replace (rd_next (wr_size _ _ _) (b_addr y)) with (hd_addr 0 r); last (rdwr; hsimp; done).
  replace (rd_next (wr_magic _ _ _) (b_addr y)) with (hd_addr 0 r); last (rdwr; hsimp; done).
  replace (rd_prev (wr_magic _ _ _) (b_addr y)) with (b_addr x); last (rdwr; hsimp; done).
  f_equal. destruct (Z.eqb_spec (hd_addr 0 r) 0); rdwr; hsimp; done.
Qed.

Lemma coalesce_fwd_chain l r b m fuel :
  (length r < fuel)%nat -> chain m (l ++ b :: r) ->
  exists m', coalesce_fwd fuel m (b_addr b) = Ret m' /\
             chain m' (l ++ (absorb_fwd b r).1 :: (absorb_fwd b r).2) /\
             only_hdrs (map b_addr (l ++ b :: r)) m m'.
Proof.
  revert b m fuel; induction r as [|n r IH]; intros b m fuel Hlen HC; (destruct fuel as [|fuel]; [simpl in *; lia|]).
  - exists m. split; [|split; [done | apply only_hdrs_refl]].
    apply chain_around in HC as []. destruct ar_h0 as (_ & _ & _ & Hn & _).
    cbn [coalesce_fwd]. by rewrite Hn.
  - cbn [absorb_fwd]. destruct (b_used n) eqn:Hu.
    + exists m. split; [|split; [done | apply only_hdrs_refl]].
      open_pair HC. cbn [coalesce_fwd]. rewrite Hn, Kf, Hu. cbn [Z.eqb negb andb]. by rewrite andb_false_r.
    + rewrite (coalesce_fwd_step _ _ l _ n r) by done.
      apply merge_mem_chain in HC as [HC HO].
      apply (IH _ _ fuel) in HC as (m' & E & HC' & HO'); [|simpl in *; lia].
      exists m'. split; [done|]. split; [done|]. eapply only_hdrs_trans; [done|].
      eapply only_hdrs_mono; [|done]. intros a. rewrite !map_app. cbn [map merge b_addr].
      rewrite !elem_of_app, !elem_of_cons. tauto.
Qed.

Lemma coalesce_bwd_chain l r b m fuel :
  (length l < fuel)%nat -> chain m (rev l ++ b :: r) ->
  exists m', coalesce_bwd fuel m (b_addr b) = Ret (b_addr (absorb_bwd l b).2, m') /\
             chain m' (rev (absorb_bwd l b).1 ++ (absorb_bwd l b).2 :: r) /\
             only_hdrs (map b_addr (rev l ++ b :: r)) m m'.
Proof.
  revert b m fuel; induction l as [|p l IH]; intros b m fuel Hlen HC; (destruct fuel as [|fuel]; [simpl in *; lia|]).
  - exists m. split; [|split; [done | apply only_hdrs_refl]].
    apply chain_around in HC as []. destruct ar_h0 as (_ & _ & _ & _ & Hp).
    cbn [coalesce_bwd]. by rewrite Hp.
  - cbn [rev] in HC. rewrite <- app_assoc in HC. cbn [app] in HC. cbn [absorb_bwd]. destruct (b_used p) eqn:Hu.
    + exists m. cbn [rev fst snd]. rewrite <- app_assoc. split; [|split; [done | apply only_hdrs_refl]].
      open_pair HC. cbn [coalesce_bwd]. rewrite Kp, Hf, Hu. cbn [Z.eqb negb andb]. by rewrite andb_false_r.
    + rewrite (coalesce_bwd_step _ _ (rev l) p b r) by done.
      apply merge_mem_chain in HC as [HC HO].
      apply (IH _ _ fuel) in HC as (m' & E & HC' & HO'); [|simpl in *; lia].
      exists m'. split; [done|]. split; [done|]. cbn [rev]. rewrite <- app_assoc. eapply only_hdrs_trans; [done|].
      eapply only_hdrs_mono; [|done]. intros a. rewrite !map_app. cbn [map merge b_addr app].
      rewrite !elem_of_app, !elem_of_cons. tauto.
Qed.

(** A header that was merged away no longer passes for an allocated block. *)
Definition stale (m : mem) (a : Z) : Prop :=
  rd_magic m a <> BLOCK_VALID_MAGIC \/ rd_free m a <> 0.

Lemma merge_mem_stale m l x y r m' :
  chain m (l ++ x :: y :: r) ->
  only_hdrs (map b_addr (l ++ merge x y :: r)) (merge_mem m x y (hd_addr 0 r)) m' ->
  stale m' (b_addr y).
Proof.
  intros HC HO. left. open_pair HC.
  assert (E : rd_magic m' (b_addr y) = rd_magic (merge_mem m x y (hd_addr 0 r)) (b_addr y)).
  { apply ldn_ext. intros i Hi. apply HO. intros a Ha. apply list_elem_of_fmap in Ha as (c & -> & Hc).
    apply elem_of_app in Hc as [Hc|Hc%elem_of_cons].
    - pose proof (layout_elem _ _ _ _ A1 Hc). unfold b_end in *. lia.
    - destruct Hc as [->|Hc]; [cbn; lia|].
      pose proof (layout_elem _ _ _ _ B2 Hc). unfold b_end in *. lia. }
  rewrite E. unfold merge_mem. rdwr. hsimp. done.
Qed.

Lemma coalesce_bwd_stale l r b m m' fuel x :
  (length l < fuel)%nat -> chain m (rev l ++ b :: r) -> b_used b = false ->
  coalesce_bwd fuel m (b_addr b) = Ret (x, m') -> stale m' (b_addr b).
Proof.
  intros Hlen HC Hu E. destruct fuel as [|fuel]; [lia|]. destruct l as [|p l].
  - apply chain_around in HC as []. destruct ar_h0 as (_ & Hf & _ & _ & Hp).
    cbn [coalesce_bwd] in E. rewrite Hp in E. simplify_eq/=. right. by rewrite Hf, Hu.
  - cbn [rev] in HC. rewrite <- app_assoc in HC. cbn [app] in HC. destruct (b_used p) eqn:Hup.
    + open_pair HC. cbn [coalesce_bwd] in E. rewrite Kp, Hf, Hup, andb_false_r in E.
      simplify_eq. right. by rewrite Kf, Hu.
    + rewrite (coalesce_bwd_step _ _ (rev l) p b r) in E by done.
      pose proof (merge_mem_chain _ _ _ _ _ HC) as [HC' _].
      destruct (coalesce_bwd_chain l r _ _ fuel ltac:(simpl in *; lia) HC') as (m2 & E2 & _ & O2).
      cbn [merge b_addr] in E2. rewrite E in E2. simplify_eq. by eapply merge_mem_stale.
Qed.

(** ** val_coalesce as a whole *)

Context (Hbuf : hi - lo <= PLATFORM_HEAP_BUF_SIZE).

Lemma chain_fuel m bs : chain m bs -> (length bs < heap_fuel)%nat.
Proof.
  intros [_ HL]. apply layout_count in HL. unfold heap_fuel.
  change (PLATFORM_HEAP_BUF_SIZE / 32 + 1) with 16385. unfold PLATFORM_HEAP_BUF_SIZE in *. lia.
Qed.

Lemma absorb_fwd_length b r : (length (absorb_fwd b r).2 <= length r)%nat.
Proof.
  revert b; induction r as [|n r IH]; intros b; [done|].
  cbn [absorb_fwd]. case_match; [done|]. cbn [length]. specialize (IH (merge b n)). lia.
Qed.

Lemma absorb_fwd_addr b r : b_addr (absorb_fwd b r).1 = b_addr b.
Proof. revert b; induction r as [|n r IH]; intros b; [done|]. cbn. case_match; [done|]. by rewrite IH. Qed.

Lemma absorb_fwd_addrs b r : map b_addr (absorb_fwd b r).2 ⊆ map b_addr r.
Proof.
  revert b; induction r as [|n r IH]; intros b; [done|].
  cbn [absorb_fwd]. case_match; [done|]. cbn [map]. by apply list_subseteq_cons.
Qed.

Lemma val_coalesce_chain m l b r :
  chain m (l ++ b :: r) ->
  let '(l1, b2, r1) := acoalesce l b r in
  exists m', val_coalesce m (b_addr b) = Ret (b_addr b2, m') /\
             chain m' (l1 ++ b2 :: r1) /\ only_hdrs (map b_addr (l ++ b :: r)) m m'.
Proof.
  intros HC. unfold acoalesce. destruct (absorb_fwd b r) as [b1 r1] eqn:Ef.
  destruct (absorb_bwd (rev l) b1) as [l1 b2] eqn:Eb.
  pose proof (absorb_fwd_addr b r) as Ha. pose proof (absorb_fwd_addrs b r) as Has.
  rewrite Ef in Ha, Has. cbn [fst snd] in Ha, Has.
  pose proof (chain_fuel _ _ HC) as Hfu. rewrite length_app in Hfu. cbn [length] in Hfu.
  assert (Hpos : lo <= b_addr b) by (apply chain_around in HC as []; lia).
  destruct (coalesce_fwd_chain l r b m heap_fuel) as (m1 & E1 & C1 & O1); [lia|done|].
  rewrite Ef in C1. cbn [fst snd] in C1.
  destruct (coalesce_bwd_chain (rev l) r1 b1 m1 heap_fuel) as (m2 & E2 & C2 & O2).
  { rewrite length_rev. lia. }
  { by rewrite rev_involutive. }
  rewrite Eb in E2, C2. cbn [fst snd] in E2, C2. rewrite rev_involutive in O2.
  exists m2. unfold val_coalesce. replace (b_addr b =? 0) with false by lia.
  rewrite E1. cbn [obind]. rewrite Ha in E2. rewrite E2. split; [done|]. split; [done|].
  eapply only_hdrs_trans; [done|]. eapply only_hdrs_mono; [|done].
  rewrite !map_app. cbn [map]. rewrite Ha.
  apply list_subseteq_app_iff_l. split; [by apply list_subseteq_app_l |].
  by apply list_subseteq_app_r, list_subseteq_skip.
Qed.

Lemma val_coalesce_stale m l b r x m' :
  chain m (l ++ b :: r) -> b_used b = false ->
  val_coalesce m (b_addr b) = Ret (x, m') -> stale m' (b_addr b).
Proof.
  intros HC Hu E. pose proof (chain_fuel _ _ HC) as Hfu. rewrite length_app in Hfu. cbn [length] in Hfu.
  destruct (coalesce_fwd_chain l r b m heap_fuel) as (m1 & E1 & C1 & _); [lia|done|].
  assert (Hpos : lo <= b_addr b) by (apply chain_around in HC as []; lia).
  unfold val_coalesce in E. replace (b_addr b =? 0) with false in E by lia.
  rewrite E1 in E. cbn [obind] in E. rewrite <- (absorb_fwd_addr b r) in *.
  eapply (coalesce_bwd_stale (rev l)); [| |by rewrite absorb_fwd_used|exact E].
  - rewrite length_rev. lia.
  - rewrite rev_involutive. exact C1.
Qed.

(** ** Rewriting one header *)

Lemma chain_update m m' l b b' r :
  chain m (l ++ b :: r) -> frame (b_addr b) 32 m m' ->
  b_addr b' = b_addr b -> b_size b' = b_size b ->
  (hdr_ok m b (last_addr 0 l) (hd_addr 0 r) -> hdr_ok m' b' (last_addr 0 l) (hd_addr 0 r)) ->
  chain m' (l ++ b' :: r).
Proof.
  intros HC HF Ea Es Hh. apply chain_around in HC as [].
  apply chain_around. constructor; unfold b_end in *; rewrite ?Ea, ?Es; auto.
  - eapply seg_frame; [exact ar_l0|done|exact HF|lia].
  - eapply seg_frame; [exact ar_r0|done|exact HF|lia].
Qed.

Lemma wr_free_frame m a v : frame a 32 m (wr_free m a v).
Proof. intros x Hx. rdwr. memsimp. done. Qed.

Lemma wr_magic_frame m a v : frame a 32 m (wr_magic m a v).
Proof. intros x Hx. rdwr. memsimp. done. Qed.

Lemma chain_set_free m l b r (u : bool) :
  chain m (l ++ b :: r) ->
  chain (wr_free m (b_addr b) (if u then 0 else 1)) (l ++ ABlk (b_addr b) (b_size b) u :: r).
Proof.
  intros HC. eapply chain_update; [exact HC | apply wr_free_frame | done | done |].
  intros (Hm & Hf & Hz & Hn & Hp). unfold hdr_ok. cbn [b_addr b_size b_used]. rdwr.
  assert (0 <= (if u then 0 else 1) < 2 ^ (8 * Z.of_nat 2)) by (destruct u; lia).
  memsimp. repeat split; auto.
Qed.

Lemma chain_set_magic m l b r :
  chain m (l ++ b :: r) -> chain (wr_magic m (b_addr b) BLOCK_VALID_MAGIC) (l ++ b :: r).
Proof.
  intros HC. eapply chain_update; [exact HC | apply wr_magic_frame | done | done |].
  intros (Hm & Hf & Hz & Hn & Hp). unfold hdr_ok. rdwr. memsimp. repeat split; auto.
Qed.

(** ** The search of val_malloc *)

Lemma asplit_chain m l b r size :
  chain m (l ++ b :: r) -> 0 <= size < 2 ^ 63 -> size mod 8 = 0 ->
  let m' := val_split m (b_addr b) size in
  chain m' (l ++ asplit b size ++ r) /\ only_hdrs (map b_addr (l ++ asplit b size ++ r)) m m'.
Proof.
  intros HC Hs H8. apply chain_around in HC as HA. cbn zeta. rewrite (val_split_mem _ l _ r) by done.
  destruct (Z.leb_spec (size + 40) (b_size b)).
  - apply split_mem_around; done || lia.
  - unfold asplit. replace (size + 40 <=? b_size b) with false by lia.
    split; [done | apply only_hdrs_refl].
Qed.

Lemma asplit_hd b size : exists k tl, asplit b size = ABlk (b_addr b) k (b_used b) :: tl.
Proof. unfold asplit. case_match; [eauto|]. exists (b_size b), []. by destruct b. Qed.

Lemma malloc_loop_chain r l m size fuel :
  (length r < fuel)%nat -> chain m (l ++ r) -> 0 <= size < 2 ^ 63 -> size mod 8 = 0 ->
  let '(p, r') := amalloc size r in
  exists m', malloc_loop fuel m (hd_addr 0 r) size = Ret (p, m') /\
             chain m' (l ++ r') /\ only_hdrs (map b_addr (l ++ r')) m m'.
Proof.
  revert l m fuel; induction r as [|b r IH]; intros l m fuel Hf HC Hs H8;
    (destruct fuel as [|fuel]; [simpl in *; lia|]).
  { exists m. split; [done|]. split; [done | apply only_hdrs_refl]. }
  pose proof HC as HA. apply chain_around in HA as [].
  destruct ar_h0 as (_ & Hfr & Hz & Hn & _). unfold b_end in *.
  cbn [malloc_loop amalloc hd_addr]. replace (b_addr b =? 0) with false by lia.
  rewrite Hfr, Hz. unfold fits.
  replace (negb ((if b_used b then 0 else 1) =? 0)) with (negb (b_used b)) by (by destruct (b_used b)).
  destruct (negb (b_used b) && (size <=? b_size b)) eqn:Hfit.
  - destruct (asplit_chain m l b r size) as [C1 O1]; [done..|].
    destruct (asplit_hd b size) as (k & tl & Esp). rewrite Esp in *. cbn [app set_used b_addr b_size] in *.
    apply chain_set_magic, (chain_set_free _ _ _ _ true) in C1. cbn [b_addr b_size] in *.
    eexists. split.
    { rewrite BLOCK_SIZE_val. usmall. reflexivity. }
    split; [exact C1|]. rewrite !map_app in *. cbn [map b_addr] in *.
    eapply only_hdrs_trans; [exact O1|]. apply (only_hdrs_frame (b_addr b)); [in_hdrs|].
    eapply frame_trans; [apply wr_magic_frame | apply wr_free_frame].
  - specialize (IH (l ++ [b]) m fuel). rewrite Hn. destruct (amalloc size r) as [p r'].
    rewrite <- app_assoc in IH. destruct IH as (m' & E & C & O); [simpl in *; lia|done..|].
    rewrite <- app_assoc in C, O. eauto.
Qed.

End Chain.
