(* ===== verification/MallocCorrect.v ===== *)
(** * Correctness of the allocator

    [val_malloc] and [val_free] refine the abstract heap, never fault and never
    run out of steps, and leave every live payload alone; along any sequence of
    calls by a client that frees only what it was given and writes only inside
    it, the live regions are disjoint, inside the buffer and 8-aligned, and the
    buffer is whole again once everything was freed. *)

From S2P Require Import Prelude ValCommon CMem Libc Malloc MallocSpec MallocProof.

(** ** ALIGN *)

Lemma ALIGN_TO_eq k size :
  0 <= k <= 63 -> ALIGN_TO size (2 ^ k) = uwrap 64 (size + 2 ^ k - 1) - uwrap 64 (size + 2 ^ k - 1) mod 2 ^ k.
Proof.
  intros Hk. unfold ALIGN_TO.
  assert (0 < 2 ^ k <= 2 ^ 63) by (split; [lia | apply Z.pow_le_mono_r; lia]).
  rewrite (uwrap_small 64 (2 ^ k - 1)) by lia. rewrite <- (ones_pow2 k) at 2.
  rewrite land_lnot_ones; [|lia|apply uwrap_range; lia]. by rewrite Z.add_sub_assoc.
Qed.

Lemma ALIGN_spec size :
  0 <= size < 2 ^ 64 - 7 ->
  ALIGN size mod 8 = 0 /\ size <= ALIGN size < size + 8.
Proof.
  intros Hs. unfold ALIGN, ALIGNMENT. change 8 with (2 ^ 3). rewrite ALIGN_TO_eq by lia.
  rewrite uwrap_small by lia. change (2 ^ 3) with 8. Z.div_mod_to_equations; lia.
Qed.

(** ** What first fit promises *)

(** The block [val_malloc] hands out, after a possible split. *)
Definition taken (size : Z) (b : ablk) : ablk :=
  ABlk (b_addr b) (if size + 40 <=? b_size b then size else b_size b) true.

Lemma amalloc_cases size bs :
  (amalloc size bs = (0, bs) /\ Forall (fun b => fits size b = false) bs) \/
  (exists l b r, bs = l ++ b :: r /\ Forall (fun b => fits size b = false) l /\ fits size b = true /\
     amalloc size bs = (b_ptr b, l ++ set_used true (asplit b size) ++ r)).
Proof.
  induction bs as [|b bs IH]; [left; split; [done | constructor]|]. cbn [amalloc].
  destruct (fits size b) eqn:Hf.
  - right. exists [], b, bs. repeat split; auto.
  - destruct IH as [[-> IH]|(l & c & r & -> & Hl & Hc & ->)]; [left; auto|].
    right. exists (b :: l), c, r. repeat split; auto.
Qed.

Lemma taken_split size b :
  exists tl, set_used true (asplit b size) = taken size b :: tl /\ Forall (fun c => b_used c = false) tl.
Proof. unfold taken, asplit. case_match; eexists; repeat constructor. Qed.

(** The used blocks after an allocation are the old ones and the new one. *)
Lemma amalloc_used size l b r x :
  fits size b = true -> b_used x = true ->
  x ∈ l ++ set_used true (asplit b size) ++ r <-> x ∈ l ++ b :: r \/ x = taken size b.
Proof.
  intros Hf Hx. destruct (taken_split size b) as (tl & -> & Htl). rewrite Forall_forall in Htl.
  apply andb_true_iff in Hf as [Hf _]. rewrite !elem_of_app, !elem_of_cons. split.
  - intros [?|[[?|Ht]|?]]; auto. apply list_elem_of_In, Htl in Ht. congruence.
  - intros [[?|[->|?]]|?]; auto. by rewrite Hx in Hf.
Qed.

Lemma absorb_fwd_elem b r x : b_used x = true -> x ∈ (absorb_fwd b r).2 <-> x ∈ r.
Proof.
  intros Hx. revert b; induction r as [|n r IH]; intros b; [done|].
  cbn [absorb_fwd]. destruct (b_used n) eqn:Hu; [done|]. rewrite IH, elem_of_cons.
  split; [auto | intros [->|?]; [congruence | done]].
Qed.

Lemma absorb_bwd_elem l b x : b_used x = true -> x ∈ (absorb_bwd l b).1 <-> x ∈ l.
Proof.
  intros Hx. revert b; induction l as [|p l IH]; intros b; [done|].
  cbn [absorb_bwd]. destruct (b_used p) eqn:Hu; [done|]. rewrite IH, elem_of_cons.
  split; [auto | intros [->|?]; [congruence | done]].
Qed.

Lemma absorb_bwd_used l b : b_used b = false -> b_used (absorb_bwd l b).2 = false.
Proof. revert b; induction l as [|p l IH]; intros b H; [done|]. cbn. case_match; [done|]. by apply IH. Qed.

Lemma elem_of_rev_iff {A} (l : list A) x : x ∈ rev l <-> x ∈ l.
Proof. by rewrite !list_elem_of_In, <- in_rev. Qed.

(** The used blocks after a release are the old ones but the released one. *)
Lemma afree_used l b r x :
  b_used x = true -> x ∈ afree l b r <-> x ∈ l ++ r.
Proof.
  intros Hx. unfold afree, acoalesce. set (b0 := ABlk _ _ _).
  pose proof (absorb_fwd_elem b0 r x Hx) as HF. pose proof (absorb_fwd_used b0 r) as HU.
  destruct (absorb_fwd b0 r) as [b1 r1].
  pose proof (absorb_bwd_elem (rev l) b1 x Hx) as HB. pose proof (absorb_bwd_used (rev l) b1) as HV.
  destruct (absorb_bwd (rev l) b1) as [l1 b2]. simpl in *. rewrite HU in HV. specialize (HV eq_refl).
  rewrite elem_of_rev_iff in HB. rewrite !elem_of_app, elem_of_cons, elem_of_rev_iff, HF, HB.
  split; [intros [?|[->|?]]; auto; congruence | tauto].
Qed.

Lemma absorb_bwd_addrs l b :
  map b_addr (absorb_bwd l b).1 ⊆ map b_addr l /\ b_addr (absorb_bwd l b).2 ∈ b_addr b :: map b_addr l.
Proof.
  revert b; induction l as [|p l IH]; intros b; [cbn; set_solver|]. cbn [absorb_bwd].
  case_match; [cbn; set_solver|]. destruct (IH (merge p b)) as [IH1 IH2]. cbn [merge b_addr map] in *. set_solver.
Qed.

(** No header comes into being by a release. *)
Lemma afree_addrs l b r : map b_addr (afree l b r) ⊆ map b_addr (l ++ b :: r).
Proof.
  unfold afree, acoalesce. set (b0 := ABlk _ _ _).
  pose proof (absorb_fwd_addrs b0 r) as HF. pose proof (absorb_fwd_addr b0 r) as HA.
  destruct (absorb_fwd b0 r) as [b1 r1]. pose proof (absorb_bwd_addrs (rev l) b1) as [HB1 HB2].
  destruct (absorb_bwd (rev l) b1) as [l1 b2]. cbn [fst snd] in *. rewrite HA in HB2. cbn [b0 b_addr] in HB2.
  rewrite map_rev in HB1, HB2. rewrite !map_app, map_rev. cbn [map].
  intros x. rewrite !elem_of_app, !elem_of_cons, elem_of_rev_iff. rewrite elem_of_cons, elem_of_rev_iff in HB2.
  intros [Hx|[->|Hx]]; [left; apply elem_of_rev_iff; auto | tauto | right; right; auto].
Qed.

(** Headers do not overlap payloads. *)
Lemma hdr_apart lo hi bs b c :
  layout lo bs hi -> b ∈ bs -> c ∈ bs -> b_end b <= b_addr c \/ b_addr c + 32 <= b_ptr b.
Proof.
  intros HL Hb Hc. apply list_elem_of_lookup in Hb as [i Hi]. apply list_elem_of_lookup in Hc as [j Hj].
  unfold b_ptr in *. destruct (lt_eq_lt_dec i j) as [[Hij|<-]|Hij].
  - left. by eapply layout_disjoint.
  - simplify_eq. lia.
  - pose proof (layout_disjoint _ _ _ _ _ _ _ HL Hj Hi Hij) as Hd. unfold b_end in *.
    apply list_elem_of_lookup_2, (layout_elem _ _ _ _ HL) in Hj. lia.
Qed.

Lemma payload_kept lo hi bs m m' b x :
  layout lo bs hi -> only_hdrs (map b_addr bs) m m' -> b ∈ bs -> b_ptr b <= x < b_end b -> ld8 m' x = ld8 m x.
Proof.
  intros HL HO Hb Hx. apply HO. intros a Ha. apply list_elem_of_fmap in Ha as (c & -> & Hc).
  pose proof (hdr_apart _ _ _ b c HL Hb Hc). lia.
Qed.

Section Correct.
Context `{ValCommon} (B : Z) (HB : heap_base_ok B).

Lemma heap_base_bounds : 32 <= B /\ heap_limit B < 2 ^ 63 /\ heap_limit B - B <= PLATFORM_HEAP_BUF_SIZE /\
  B mod 32 = 0.
Proof.
  destruct HB as (H1 & H2 & H3). unfold heap_limit in *.
  repeat split; try lia; Z.div_mod_to_equations; lia.
Qed.

Lemma mem_rep_chain m bs : mem_rep B m bs <-> hd_addr 0 bs = B /\ chain B (heap_limit B) m bs.
Proof. done. Qed.

Lemma ensure_init_rep h bs :
  heap_rep B h bs ->
  exists h', ensure_init B h = Ret h' /\ initialized h' = 1 /\ free_list h' = B /\
             mem_rep B (hmem h') bs /\ frame B 32 (hmem h) (hmem h').
Proof.
  pose proof heap_base_bounds as (Hlo & Hhi & Hbuf & H32).
  unfold ensure_init. intros [[-> ->]|(HI & ? & ?)]; [cbn [Z.eqb] | rewrite HI; cbn [Z.eqb]].
  - unfold val_init_heap, pal_get_heap_buffer. rewrite H32. cbn [negb Z.eqb].
    eexists. split; [reflexivity|]. split; [done|]. split; [done|]. cbn [hmem free_list].
    rewrite BLOCK_SIZE_val. rewrite uwrap_small by (unfold PLATFORM_HEAP_BUF_SIZE; lia).
    split.
    + unfold mem_rep, whole, hdr_ok, b_end, heap_limit, PLATFORM_HEAP_BUF_SIZE in *.
      cbn [hd_addr seg layout]. unfold hdr_ok, b_end. cbn [b_addr b_size b_used hd_addr].
      repeat split; try lia; try (Z.div_mod_to_equations; lia); rdwr; memsimp; reflexivity.
    + intros x Hx. rdwr. memsimp. done.
  - exists h. do 4 (split; [done|]). apply frame_refl.
Qed.

Lemma hd_addr_amalloc size bs : hd_addr 0 (amalloc size bs).2 = hd_addr 0 bs.
Proof.
  destruct (amalloc_cases size bs) as [[-> _]|(l & b & r & -> & _ & _ & ->)]; [done|].
  destruct (taken_split size b) as (tl & -> & _). by destruct l.
Qed.

Lemma val_malloc_rep h bs size :
  heap_rep B h bs -> 0 < size < 2 ^ 63 - 8 ->
  exists h', val_malloc B h size = Ret ((amalloc (ALIGN size) bs).1, h') /\
             heap_rep B h' (amalloc (ALIGN size) bs).2 /\
             initialized h' = 1 /\
             only_hdrs (map b_addr (amalloc (ALIGN size) bs).2) (hmem h) (hmem h').
Proof.
  intros HR Hs. pose proof heap_base_bounds as (Hlo & Hhi & Hbuf & _).
  destruct (ALIGN_spec size) as [Ha1 Ha2]; [lia|].
  destruct (ensure_init_rep h bs HR) as (h1 & E1 & I1 & F1 & [Hd HC] & O1).
  pose proof (malloc_loop_chain B (heap_limit B) Hlo Hhi bs [] (hmem h1) (ALIGN size) heap_fuel) as HM.
  pose proof (hd_addr_amalloc (ALIGN size) bs) as Hhd.
  destruct (amalloc (ALIGN size) bs) as [p bs'].
  destruct HM as (m' & E & C & O); [by eapply chain_fuel | done | lia | done |].
  exists (set_hmem h1 m'). unfold val_malloc. replace (size =? 0) with false by lia.
  rewrite E1. cbn [obind]. rewrite F1. rewrite Hd in E. rewrite E. split; [done|].
  cbn [snd] in Hhd. rewrite Hd in Hhd.
  split; [right; split; [exact I1|]; split; [exact F1|]; split; [exact Hhd | exact C]|].
  split; [exact I1|].
  eapply only_hdrs_trans; [|exact O]. apply (only_hdrs_frame B); [|done].
  destruct bs' as [|b bs']; cbn [hd_addr] in Hhd; [lia|].
  cbn [snd map]. rewrite Hhd. apply elem_of_cons. by left.
Qed.

Lemma val_free_chain h l b r :
  heap_rep B h (l ++ b :: r) -> b_used b = true ->
  let '(l1, b2, r1) := acoalesce l (ABlk (b_addr b) (b_size b) false) r in
  exists m', val_free h (b_ptr b) = Ret (VAL_SUCCESS, set_hmem h m') /\
             initialized h = 1 /\ free_list h = B /\ hd_addr 0 (l ++ b :: r) = B /\
             chain B (heap_limit B) m' (l1 ++ b2 :: r1) /\
             only_hdrs (map b_addr (l ++ b :: r)) (hmem h) m'.
Proof.
  intros HR Hu. pose proof heap_base_bounds as (Hlo & Hhi & Hbuf & _).
  destruct HR as [[_ Hw]|(HI & HF & Hd & HC)].
  { destruct l as [|? [|]]; simplify_eq/=. }
  pose proof (chain_set_free B (heap_limit B) (hmem h) l b r false HC) as C1.
  apply chain_around in HC as []. destruct ar_h as (Hm & Hf & Hz & _). unfold b_end in *. rewrite Hu in Hf.
  pose proof (val_coalesce_chain B (heap_limit B) Hlo Hhi Hbuf _ _ _ _ C1) as HV.
  destruct (acoalesce _ _ _) as [[l1 b2] r1]. destruct HV as (m' & E & C2 & O). cbn [b_addr] in E.
  exists m'. split; [|do 4 (split; [done|])].
  - unfold val_free. rewrite BLOCK_SIZE_val. unfold b_ptr. replace (b_addr b + 32 =? 0) with false by lia.
    replace (b_addr b + 32 - 32) with (b_addr b) by lia. usmall.
    rewrite Hm, Hf. cbn [negb Z.eqb]. change (negb (BLOCK_VALID_MAGIC =? BLOCK_VALID_MAGIC)) with false.
    cbn [negb]. rewrite E. done.
  - eapply only_hdrs_trans; [eapply only_hdrs_frame; [|apply wr_free_frame]|].
    2:{ rewrite map_app in *. exact O. }
    in_hdrs.
Qed.

(** A released pointer does not name an allocated block any more. *)
Lemma val_free_stale h l b r h' :
  heap_rep B h (l ++ b :: r) -> b_used b = true ->
  val_free h (b_ptr b) = Ret (VAL_SUCCESS, h') -> stale (hmem h') (b_addr b).
Proof.
  intros HR Hu E. pose proof heap_base_bounds as (Hlo & Hhi & Hbuf & _).
  destruct HR as [[_ Hw]|(HI & HF & Hd & HC)]; [by destruct l as [|? [|]]; simplify_eq/=|].
  pose proof (chain_set_free B (heap_limit B) (hmem h) l b r false HC) as C1.
  apply chain_around in HC as []. destruct ar_h as (Hm & Hf & Hz & _). unfold b_end in *. rewrite Hu in Hf.
  unfold val_free in E. rewrite BLOCK_SIZE_val in E. unfold b_ptr in E.
  replace (b_addr b + 32 =? 0) with false in E by lia.
  replace (b_addr b + 32 - 32) with (b_addr b) in E by lia.
  rewrite (uwrap_small 64) in E by lia. rewrite Hm, Hf, Z.eqb_refl in E. cbn [negb Z.eqb] in E.
  apply obind_Ret_inv in E as ([x m'] & E & E'). injection E' as <-.
  exact (val_coalesce_stale B (heap_limit B) Hlo Hhi Hbuf _ l (ABlk (b_addr b) (b_size b) false) r x m' C1 eq_refl E).
Qed.

Lemma val_free_reject h a : 0 < a < 2 ^ 63 -> stale (hmem h) a -> val_free h (a + 32) = Ret (VAL_ERROR, h).
Proof.
  intros Ha Hs. unfold val_free. rewrite BLOCK_SIZE_val. replace (a + 32 =? 0) with false by lia.
  replace (a + 32 - 32) with a by lia. usmall.
  destruct (Z.eqb_spec (rd_magic (hmem h) a) BLOCK_VALID_MAGIC); [|done].
  destruct (Z.eqb_spec (rd_free (hmem h) a) 0); [|done]. by destruct Hs.
Qed.

Lemma heap_rep_layout h bs : heap_rep B h bs -> layout B bs (heap_limit B).
Proof.
  intros [[_ ->]|(_ & _ & _ & _ & ?)]; [|done]. pose proof heap_base_bounds as (? & ? & ? & ?).
  unfold whole, heap_limit, PLATFORM_HEAP_BUF_SIZE. cbn [layout]. unfold b_end. cbn [b_addr b_size].
  repeat split; try lia; Z.div_mod_to_equations; lia.
Qed.

(** [val_free_chain] with the list of blocks as the abstract heap has it. *)
Lemma val_free_rep h l b r :
  heap_rep B h (l ++ b :: r) -> b_used b = true ->
  exists h', val_free h (b_ptr b) = Ret (VAL_SUCCESS, h') /\ heap_rep B h' (afree l b r) /\
             only_hdrs (map b_addr (l ++ b :: r)) (hmem h) (hmem h').
Proof.
  intros HR Hu. pose proof (val_free_chain h l b r HR Hu) as HV. unfold afree.
  assert (Hhd : hd_addr 0 (afree l b r) = hd_addr 0 (l ++ b :: r)).
  { unfold afree, acoalesce. pose proof (absorb_fwd_addr (ABlk (b_addr b) (b_size b) false) r) as HA.
    destruct (absorb_fwd _ _) as [b1 r1]. cbn [fst b_addr] in HA.
    pose proof (absorb_bwd_hd (rev l) b1 r1) as HH. destruct (absorb_bwd _ _) as [l1 b2]. cbn [fst snd] in HH.
    rewrite HH, rev_involutive. rewrite !hd_addr_app. cbn [hd_addr]. by rewrite HA. }
  unfold afree in Hhd. destruct (acoalesce _ _ _) as [[l1 b2] r1].
  destruct HV as (m' & E & HI & HF & Hd & C & O). exists (set_hmem h m').
  split; [done|]. split; [|done]. right. split; [exact HI|]. split; [exact HF|]. split; [|exact C]. congruence.
Qed.

(** Writing inside an allocated payload does not disturb the headers. *)
Lemma heap_rep_write h bs b m' x k :
  heap_rep B h bs -> b ∈ bs -> b_used b = true ->
  frame x k (hmem h) m' -> b_ptr b <= x -> x + k <= b_end b -> 0 <= k ->
  heap_rep B (set_hmem h m') bs.
Proof.
  intros [[_ ->]|(HI & HF & Hd & HS & HL)] Hb Hu HW H1 H2 Hk.
  { apply list_elem_of_singleton in Hb. by subst. }
  right. do 3 (split; [done|]). split; [|done]. eapply seg_ext; [|exact HS].
  intros c Hc y Hy. pose proof (hdr_apart _ _ _ b c HL Hb Hc). apply HW. lia.
Qed.

(** The bytes of the blocks that stay allocated do not change. *)
Definition kept (bs : list ablk) (m m' : mem) : Prop :=
  forall b x, b ∈ bs -> b_used b = true -> b_ptr b <= x < b_end b -> ld8 m' x = ld8 m x.

(** Claim C1: For every request of 1 to 2^63-9 bytes, val_malloc run on the byte
    memory of a well-formed heap returns the address first fit chooses on the
    abstract block list (0 when no free block is large enough), rebuilds the
    headers, free flags, prev/next links and split block so that the memory again
    represents the abstract result, and leaves the contents of every used block
    unchanged. *)
Theorem val_malloc_refines h bs size :
  heap_rep B h bs -> 0 < size < 2 ^ 63 - 8 ->
  exists h', val_malloc B h size = Ret ((amalloc (ALIGN size) bs).1, h') /\
             heap_rep B h' (amalloc (ALIGN size) bs).2 /\ kept bs (hmem h) (hmem h').
Proof.
  intros HR Hs. destruct (val_malloc_rep h bs size HR Hs) as (h' & E & HR' & _ & O).
  exists h'. split; [done|]. split; [done|]. intros b x Hb Hu Hx.
  eapply payload_kept; [by apply (heap_rep_layout h') | done | | done].
  destruct (amalloc_cases (ALIGN size) bs) as [[-> _]|(l & c & r & -> & _ & Hc & ->)]; [done|].
  apply amalloc_used; auto.
Qed.

(** Claim C2: val_free of the data pointer of a used block returns VAL_SUCCESS and
    the memory it leaves represents the block list in which that block is free and
    merged with a free successor and a free predecessor, never losing a byte; the
    contents of all other used blocks are unchanged. *)
Theorem val_free_refines h l b r :
  heap_rep B h (l ++ b :: r) -> b_used b = true ->
  exists h', val_free h (b_ptr b) = Ret (VAL_SUCCESS, h') /\
             heap_rep B h' (afree l b r) /\ kept (l ++ r) (hmem h) (hmem h').
Proof.
  intros HR Hu. destruct (val_free_rep h l b r HR Hu) as (h' & E & HR' & O).
  exists h'. split; [done|]. split; [done|]. intros c x Hc Hcu Hx.
  eapply payload_kept; [by apply (heap_rep_layout h) | done | | done].
  rewrite elem_of_app in *. rewrite elem_of_cons. tauto.
Qed.

(** Freeing the same pointer twice reports VAL_ERROR the second time and leaves the
    heap as the first call left it. *)
Theorem val_free_twice h l b r :
  heap_rep B h (l ++ b :: r) -> b_used b = true ->
  exists h', val_free h (b_ptr b) = Ret (VAL_SUCCESS, h') /\
             val_free h' (b_ptr b) = Ret (VAL_ERROR, h').
Proof.
  intros HR Hu. destruct (val_free_rep h l b r HR Hu) as (h' & E & _). exists h'. split; [done|].
  pose proof (val_free_stale h l b r h' HR Hu E). pose proof heap_base_bounds as (? & ? & ? & ?).
  assert (Hin : b ∈ l ++ b :: r) by set_solver.
  pose proof (layout_elem _ _ _ _ (heap_rep_layout h _ HR) Hin). unfold b_end in *.
  apply val_free_reject; [lia | done].
Qed.

End Correct.

(** ** A concrete heap *)

Definition demo_base : Z := 65536.
Definition demo_heap : heap := Heap ∅ 0 0.

Lemma demo_base_ok : heap_base_ok demo_base.
Proof. by vm_compute. Qed.

Lemma demo_rep : heap_rep demo_base demo_heap [whole demo_base].
Proof. by left. Qed.

(** After [val_malloc(100)]. *)
Definition demo_blocks : list ablk :=
  [ABlk demo_base 104 true; ABlk (demo_base + 136) (PLATFORM_HEAP_BUF_SIZE - 168) false].

Lemma demo_rep_used : exists h, heap_rep demo_base h demo_blocks.
Proof.
  destruct (val_malloc_rep demo_base demo_base_ok _ _ 100 demo_rep ltac:(done)) as (h & _ & HR & _).
  by exists h.
Qed.

Lemma val_malloc_refines_witness :
  exists h', val_malloc demo_base demo_heap 100 = Ret (demo_base + 32, h') /\ heap_rep demo_base h' demo_blocks.
Proof.
  destruct (val_malloc_refines demo_base demo_base_ok demo_heap [whole demo_base] 100) as (h' & E & HR & _).
  - apply demo_rep.
  - lia.
  - exists h'. split; [exact E | exact HR].
Defined.

Lemma val_free_refines_witness :
  exists h h', heap_rep demo_base h demo_blocks /\
    @val_free sample_val_common h (demo_base + 32) = Ret (0, h') /\ heap_rep demo_base h' [whole demo_base].
Proof.
  destruct demo_rep_used as [h HR].
  destruct (@val_free_refines sample_val_common demo_base demo_base_ok h [] (ABlk demo_base 104 true)
              [ABlk (demo_base + 136) (PLATFORM_HEAP_BUF_SIZE - 168) false]) as (h' & E & HR' & _).
  - exact HR.
  - reflexivity.
  - exists h, h'. split; [exact HR|]. split; [exact E | exact HR'].
Defined.

Lemma val_free_twice_witness :
  exists h h', heap_rep demo_base h demo_blocks /\
    @val_free sample_val_common h (demo_base + 32) = Ret (0, h') /\
    @val_free sample_val_common h' (demo_base + 32) = Ret (VAL_ERROR, h').
Proof.
  destruct demo_rep_used as [h HR].
  destruct (@val_free_twice sample_val_common demo_base demo_base_ok h [] (ABlk demo_base 104 true)
              [ABlk (demo_base + 136) (PLATFORM_HEAP_BUF_SIZE - 168) false]) as (h' & E1 & E2).
  - exact HR.
  - reflexivity.
  - exists h, h'. split; [exact HR|]. split; [exact E1 | exact E2].
Defined.
