(* ===== verification/MallocClient.v ===== *)
(** * What a client of the allocator holds

    A client of [val_malloc.c] keeps the pointers it was given.  The lemmas say what
    one call does to the blocks of a tidy heap and to the regions the client holds. *)

From S2P Require Import Prelude ValCommon CMem Libc Malloc MallocSpec MallocProof MallocCorrect.

(** The heap and the regions the client holds: pointer and requested size. *)
Record client := Client { c_heap : heap; c_live : gmap Z Z }.

Section Client.
Context `{ValCommon} (B : Z).

(** The state before the first call: [initialized] is 0, nothing is held. *)
Definition fresh (m : mem) : client := Client (Heap m 0 0) ∅.

Definition tidy (bs : list ablk) : Prop := tiled B bs (heap_limit B) /\ compact bs = true.

(** The client holds exactly the allocated blocks. *)
Definition owns (bs : list ablk) (live : gmap Z Z) : Prop :=
  (forall p n, live !! p = Some n ->
     exists b, b ∈ bs /\ b_used b = true /\ b_ptr b = p /\ 0 < n <= b_size b) /\
  (forall b, b ∈ bs -> b_used b = true -> is_Some (live !! b_ptr b)).

Definition client_inv (c : client) : Prop :=
  exists bs, heap_rep B (c_heap c) bs /\ tidy bs /\ owns bs (c_live c).

Context (HB : heap_base_ok B).

Lemma client_inv_fresh m : client_inv (fresh m).
Proof.
  exists [whole B]. split; [by left|]. split.
  - split; [|done]. unfold whole, heap_limit, PLATFORM_HEAP_BUF_SIZE. cbn [tiled]. unfold b_end.
    cbn [b_addr b_size]. lia.
  - split; [intros p n Hp; cbn in Hp; by apply lookup_empty_Some in Hp|].
    intros b Hb%list_elem_of_singleton Hu. by subst.
Qed.

Lemma same_ptr lo hi bs x y : layout lo bs hi -> x ∈ bs -> y ∈ bs -> b_ptr x = b_ptr y -> x = y.
Proof.
  intros HL Hx Hy E. apply list_elem_of_lookup in Hx as [i Hi]. apply list_elem_of_lookup in Hy as [j Hj].
  pose proof (layout_elem _ _ _ _ HL (list_elem_of_lookup_2 _ _ _ Hi)).
  pose proof (layout_elem _ _ _ _ HL (list_elem_of_lookup_2 _ _ _ Hj)).
  unfold b_ptr in E. destruct (lt_eq_lt_dec i j) as [[Hij|<-]|Hij]; [| by simplify_eq |].
  - pose proof (layout_disjoint _ _ _ _ _ _ _ HL Hi Hj Hij). unfold b_end in *. lia.
  - pose proof (layout_disjoint _ _ _ _ _ _ _ HL Hj Hi Hij). unfold b_end in *. lia.
Qed.

(** An allocation, seen by the client: nothing changes, or a new block is held. *)
Lemma inv_malloc h live bs size :
  heap_rep B h bs -> tidy bs -> owns bs live -> 0 < size < 2 ^ 63 - 8 ->
  exists p h' bs', val_malloc B h size = Ret (p, h') /\ heap_rep B h' bs' /\ tidy bs' /\
    ((p = 0 /\ bs' = bs /\ Forall (fun b => fits (ALIGN size) b = false) bs) \/
     (0 < p /\ live !! p = None /\ owns bs' (<[p := size]> live) /\
      exists b, b ∈ bs' /\ b_used b = true /\ b_ptr b = p /\ size <= b_size b)) /\
    only_hdrs (map b_addr bs') (hmem h) (hmem h').
Proof.
  intros HR [HT HK] [HO1 HO2] Hs. destruct (ALIGN_spec size) as [_ Hal]; [lia|].
  destruct (val_malloc_rep B HB h bs size HR Hs) as (h' & E & HR' & _ & O).
  pose proof (heap_rep_layout B HB h' _ HR') as HL'.
  exists (amalloc (ALIGN size) bs).1, h', (amalloc (ALIGN size) bs).2.
  do 2 (split; [done|]).
  split; [split; [apply amalloc_tiled; done || lia | by apply amalloc_compact]|]. split; [|done].
  destruct (amalloc_cases (ALIGN size) bs) as [[-> HF]|(l & b & r & -> & _ & Hfit & Eq)]; [by left|].
  rewrite Eq in *. cbn [fst snd] in *. right. clear E O HR'.
  pose proof (heap_rep_layout B HB h _ HR) as HL.
  assert (Hb : b ∈ l ++ b :: r) by set_solver.
  assert (Hnew : taken (ALIGN size) b ∈ l ++ set_used true (asplit b (ALIGN size)) ++ r)
    by (apply amalloc_used; auto).
  pose proof (layout_elem _ _ _ _ HL Hb) as Hbb. pose proof (heap_base_bounds B HB) as (Hlo & _).
  apply andb_true_iff in Hfit as Hfit'. destruct Hfit' as [Hu Hle%Z.leb_le].
  assert (Hsz : size <= b_size (taken (ALIGN size) b)) by (cbn; case_match; lia).
  split; [unfold b_ptr; lia|]. split.
  { apply eq_None_not_Some. intros [n Hn]. destruct (HO1 _ _ Hn) as (c & Hc & Hcu & Hcp & _).
    assert (c = b) as -> by (by eapply same_ptr). by rewrite Hcu in Hu. }
  split; [|by exists (taken (ALIGN size) b)]. split.
  - intros p n [[<- <-]|[Hne Hp]]%lookup_insert_Some.
    + exists (taken (ALIGN size) b). do 3 (split; [done|]). lia.
    + destruct (HO1 p n Hp) as (c & Hc & Hcu & Hcp & Hcn). exists c.
      split; [apply amalloc_used; auto | done].
  - intros c Hc Hcu. apply (amalloc_used _ _ _ _ _ Hfit Hcu) in Hc as [Hc| ->].
    + destruct (decide (b_ptr b = b_ptr c)) as [->|Hne]; [by rewrite lookup_insert_eq|].
      rewrite lookup_insert_ne by done. auto.
    + change (b_ptr (taken (ALIGN size) b)) with (b_ptr b). by rewrite lookup_insert_eq.
Qed.

(** The used blocks after a release are those with another pointer. *)
Lemma afree_used_ptr lo hi l b r x :
  layout lo (l ++ b :: r) hi -> b_used x = true -> x ∈ afree l b r <-> x ∈ l ++ b :: r /\ b_ptr x <> b_ptr b.
Proof.
  intros HL Hx. rewrite (afree_used l b r x Hx). assert (Hb : b ∈ l ++ b :: r) by set_solver. split.
  - intros Hin. split; [rewrite elem_of_app, elem_of_cons in *; tauto|]. intros Eq.
    assert (x = b) as -> by (eapply same_ptr; [exact HL | rewrite elem_of_app, elem_of_cons in *; tauto | done | done]).
    apply elem_of_app in Hin as [Hc|Hc]; apply list_elem_of_lookup in Hc as [i Hi].
    + assert (Hlt : (i < length l)%nat) by (by eapply lookup_lt_Some).
      pose proof (layout_disjoint _ _ _ i (length l) b b HL) as Hd.
      rewrite lookup_app_l, list_lookup_middle in Hd by done. specialize (Hd Hi eq_refl Hlt).
      pose proof (layout_elem _ _ _ _ HL Hb). unfold b_end in *. lia.
    + pose proof (layout_disjoint _ _ _ (length l) (length l + S i)%nat b b HL) as Hd.
      rewrite list_lookup_middle, lookup_app_r in Hd by lia.
      replace (length l + S i - length l)%nat with (S i) in Hd by lia.
      specialize (Hd eq_refl Hi ltac:(lia)). pose proof (layout_elem _ _ _ _ HL Hb). unfold b_end in *. lia.
  - rewrite !elem_of_app, elem_of_cons. intros [[?|[->|?]] Hne]; tauto.
Qed.

Lemma inv_free h live bs p n :
  heap_rep B h bs -> tidy bs -> owns bs live -> live !! p = Some n ->
  exists h' bs', val_free h p = Ret (VAL_SUCCESS, h') /\ heap_rep B h' bs' /\ tidy bs' /\
                 owns bs' (delete p live) /\ only_hdrs (map b_addr bs) (hmem h) (hmem h') /\
                 map b_addr bs' ⊆ map b_addr bs /\
                 (forall x, b_used x = true -> x ∈ bs' <-> x ∈ bs /\ b_ptr x <> p).
Proof.
  intros HR [HT HK] [HO1 HO2] Hp. destruct (HO1 p n Hp) as (b & Hb & Hu & <- & Hn).
  pose proof (heap_rep_layout B HB h bs HR) as HL.
  apply list_elem_of_split in Hb as (l & r & ->).
  destruct (val_free_rep B HB h l b r HR Hu) as (h' & E & HR' & O).
  pose proof (fun x => afree_used_ptr _ _ l b r x HL) as HU.
  exists h', (afree l b r). do 2 (split; [done|]).
  split; [split; [by apply afree_tiled | by apply afree_compact]|].
  split; [|split; [done | split; [apply afree_addrs | exact HU]]]. split.
  - intros q k [Hne Hq]%lookup_delete_Some. destruct (HO1 q k Hq) as (c & Hc & Hcu & Hcq & Hk).
    exists c. split; [|done]. apply HU; [done|]. split; [done | congruence].
  - intros c Hc Hcu. apply (HU _ Hcu) in Hc as [Hc Hne]. rewrite lookup_delete_ne by done. by apply HO2.
Qed.

Lemma val_calloc_malloc h nmemb size :
  0 < size -> 0 < nmemb -> nmemb * size < 2 ^ 63 - 8 ->
  val_calloc B h nmemb size =
  let! (p, h') := val_malloc B h (nmemb * size) in
  if p =? 0 then Ret (p, h')
  else Ret (p, set_hmem h' (memset_loop (Z.to_nat (nmemb * size)) (hmem h') p 0)).
Proof.
  intros H1 H2 H3. unfold val_calloc. replace (size =? 0) with false by lia.
  replace (nmemb =? 0) with false by lia. cbn [orb].
  assert (0 <= nmemb * size) by nia. usmall. done.
Qed.

(** With nothing allocated, a tidy heap is the one initial block. *)
Lemma tidy_whole bs : tidy bs -> (forall b, b ∈ bs -> b_used b = false) -> bs = [whole B].
Proof.
  intros [HT HK] HF. unfold heap_limit, PLATFORM_HEAP_BUF_SIZE in HT.
  destruct bs as [|b [|c bs]]; simpl in HT.
  - lia.
  - destruct HT as (Ha & _ & He). assert (Hu : b_used b = false) by (apply HF; set_solver).
    unfold b_end in He. destruct b as [a s u]; simpl in *. subst. unfold whole, PLATFORM_HEAP_BUF_SIZE.
    do 2 f_equal. lia.
  - simpl in HK. rewrite (HF b), (HF c) in HK by set_solver. done.
Qed.

(** The regions a client holds are aligned, inside the buffer and apart. *)
Lemma live_apart h live bs p n :
  heap_rep B h bs -> owns bs live -> live !! p = Some n ->
  p mod 8 = 0 /\ B + 32 <= p /\ p + n <= B + PLATFORM_HEAP_BUF_SIZE /\
  (forall q k, live !! q = Some k -> q <> p -> p + n <= q \/ q + k <= p).
Proof.
  intros HR [HO _] Hp. pose proof (heap_rep_layout B HB _ bs HR) as HL.
  destruct (HO p n Hp) as (b & Hb & Hu & <- & Hn).
  pose proof (layout_elem _ _ _ _ HL Hb) as (? & Hlim & Hmod & ? & ?). unfold b_ptr, b_end, heap_limit in *.
  split; [Z.div_mod_to_equations; lia|]. split; [lia|]. split; [lia|].
  intros q k Hq Hne. destruct (HO q k Hq) as (d & Hd & _ & <- & Hk). unfold b_ptr in *.
  pose proof (hdr_apart _ _ _ b d HL Hb Hd). pose proof (hdr_apart _ _ _ d b HL Hd Hb).
  unfold b_ptr, b_end in *. lia.
Qed.

(** A tidy heap is determined by its used blocks. *)
Lemma tiled_ge lo bs hi b : tiled lo bs hi -> b ∈ bs -> lo <= b_addr b /\ b_addr b + 32 <= hi.
Proof.
  revert lo; induction bs as [|c bs IH]; intros lo; [by intros _ ?%not_elem_of_nil|]. intros (<- & H0 & HT) Hb.
  assert (b_end c <= hi).
  { clear IH Hb. revert HT. generalize (b_end c). induction bs as [|d bs IH]; cbn [tiled]; [lia|].
    intros e (<- & Hd & HT). apply IH in HT. unfold b_end in HT. lia. }
  apply elem_of_cons in Hb as [->|Hb]; [unfold b_end in *; lia|]. apply (IH _ HT) in Hb. unfold b_end in *. lia.
Qed.

Lemma tiled_compact_unique lo bs bs' hi :
  tiled lo bs hi -> tiled lo bs' hi -> compact bs = true -> compact bs' = true ->
  (forall x, b_used x = true -> x ∈ bs <-> x ∈ bs') -> bs = bs'.
Proof.
  revert lo bs'; induction bs as [|b r IH]; intros lo bs' HT HT' HC HC' HU.
  { destruct bs' as [|c r']; [done|]. pose proof (tiled_ge _ _ _ c HT' ltac:(set_solver)). cbn in HT. lia. }
  destruct bs' as [|c r'].
  { pose proof (tiled_ge _ _ _ b HT ltac:(set_solver)). cbn in HT'. lia. }
  pose proof HT as (<- & Hb0 & HTr). pose proof HT' as (Ea & Hc0 & HTr').
  cbn [compact] in HC, HC'. apply andb_true_iff in HC as [HC1 HC2]. apply andb_true_iff in HC' as [HC1' HC2'].
  assert (Hr : forall d, d ∈ r -> b_addr b < b_addr d) by (intros d Hd; apply (tiled_ge _ _ _ _ HTr) in Hd; unfold b_end in Hd; lia).
  assert (Hr' : forall d, d ∈ r' -> b_addr b < b_addr d) by (intros d Hd; apply (tiled_ge _ _ _ _ HTr') in Hd; unfold b_end in Hd; lia).
  assert (K : b_end b = b_end c -> b_used b = b_used c -> b :: r = c :: r').
  { intros Ee Eu. assert (b = c) as -> by (unfold b_end in Ee; destruct b, c; cbn in *; f_equal; lia || done).
    f_equal. eapply IH; [exact HTr | exact HTr' | done..|]. intros x Hx. specialize (HU x Hx). rewrite !elem_of_cons in HU.
    split; intros Hin.
    - destruct (proj1 HU (or_intror Hin)) as [->|?]; [|done]. apply Hr in Hin. lia.
    - destruct (proj2 HU (or_intror Hin)) as [->|?]; [|done]. apply Hr' in Hin. lia. }
  assert (F : forall d, d ∈ b :: r -> b_used d = true -> d = c \/ d ∈ r')
    by (intros d Hd Hdu; apply elem_of_cons, HU; done).
  assert (F' : forall d, d ∈ c :: r' -> b_used d = true -> d = b \/ d ∈ r)
    by (intros d Hd Hdu; apply elem_of_cons, HU; done).
  destruct (b_used b) eqn:Hub, (b_used c) eqn:Huc.
  - apply K; [|done]. destruct (F b) as [->|E%Hr']; [set_solver | done | done | lia].
  - destruct (F b) as [->|E%Hr']; [set_solver | done | congruence | lia].
  - destruct (F' c) as [->|E%Hr]; [set_solver | done | congruence | lia].
  - apply K; [|done]. cbn [orb] in HC1, HC1'. destruct r as [|d r2], r' as [|d' r2'];
      cbn [free_hd] in HC1, HC1'; try rewrite negb_involutive in HC1; try rewrite negb_involutive in HC1'.
    + cbn in HTr, HTr'. congruence.
    + destruct (F' d') as [->|E%not_elem_of_nil]; [set_solver | done | congruence | done].
    + destruct (F d) as [->|E%not_elem_of_nil]; [set_solver | done | congruence | done].
    + pose proof HTr as (E1 & _). pose proof HTr' as (E2 & _).
      destruct (F d) as [->|E]; [set_solver | done | congruence|].
      destruct (F' d') as [->|E']; [set_solver | done | congruence|].
      apply (tiled_ge _ _ _ _ HTr') in E. apply (tiled_ge _ _ _ _ HTr) in E'. lia.
Qed.

(** Stepping through an allocation or a release keeps the other live bytes. *)
Lemma malloc_keeps h live bs size p n x q h' :
  heap_rep B h bs -> tidy bs -> owns bs live -> live !! p = Some n -> p <= x < p + n ->
  0 < size < 2 ^ 63 - 8 -> val_malloc B h size = Ret (q, h') ->
  ld8 (hmem h') x = ld8 (hmem h) x.
Proof.
  intros HR HT HO Hp Hx Hs E. destruct HO as [HO1 HO2].
  destruct (HO1 p n Hp) as (b & Hb & Hu & <- & Hn).
  destruct (val_malloc_rep B HB h bs size HR Hs) as (h2 & E2 & HR2 & _ & O). rewrite E in E2.
  assert (h2 = h') as -> by congruence.
  eapply (payload_kept _ _ _ _ _ b); [by apply (heap_rep_layout B HB h') | exact O | | unfold b_ptr, b_end in *; lia].
  destruct (amalloc_cases (ALIGN size) bs) as [[-> _]|(l & c & r & -> & _ & Hc & ->)]; [done|].
  apply amalloc_used; auto.
Qed.

End Client.
