(* ===== verification/MallocRealloc.v ===== *)
(** * Reallocation

    [val_realloc] shrinks a block in place, grows it into its free neighbours, or moves
    it.  In every case the client keeps the bytes it had, up to the new size, and no
    other region is touched.  The one request that faults is told apart by
    [realloc_safe]. *)

From S2P Require Import Prelude ValCommon CMem Libc Malloc MallocSpec MallocProof MallocCorrect MallocClient.

(** The block has room for [size] but not for a split, and there is no block behind
    it: [val_coalesce(&block->next)] would read through a null pointer. *)
Definition realloc_safe (h : heap) (ptr size : Z) : bool :=
  let block := ptr - BLOCK_SIZE in
  negb ((ALIGN size <=? rd_size (hmem h) block) && (rd_size (hmem h) block <? ALIGN size + 40) &&
        (rd_next (hmem h) block =? 0)).

(** A neighbour is free and large enough; [r] are the blocks in its direction. *)
Definition room_at (size : Z) (b : ablk) (r : list ablk) : bool :=
  match r with
  | n :: _ => negb (b_used n) && (size <=? b_size b + 32 + b_size n)
  | [] => false
  end.

(** ** Growing into the neighbours, on the list of blocks *)

Lemma absorb_fwd_end b r hi :
  0 <= b_size b -> tiled (b_end b) r hi ->
  b_end b <= b_end (absorb_fwd b r).1 /\ b_size b <= b_size (absorb_fwd b r).1.
Proof.
  revert b; induction r as [|n r IH]; intros b Hb HT; [cbn; lia|]. cbn [absorb_fwd]. case_match; [cbn; lia|].
  destruct HT as (Ea & Hn & HT). destruct (IH (merge b n)) as [I1 I2].
  - cbn. lia.
  - replace (b_end (merge b n)) with (b_end n) by (unfold merge, b_end in *; cbn; lia). done.
  - unfold merge, b_end in *. cbn [b_addr b_size] in *. lia.
Qed.

Lemma absorb_bwd_end l b lo r hi :
  tiled lo (rev l ++ b :: r) hi -> b_end (absorb_bwd l b).2 = b_end b /\ b_addr (absorb_bwd l b).2 <= b_addr b.
Proof.
  revert b; induction l as [|p l IH]; intros b HT; [cbn; lia|]. cbn [absorb_bwd]. case_match; [cbn; lia|].
  cbn [rev] in HT. rewrite <- app_assoc in HT. cbn [app] in HT.
  apply tiled_app in HT as (mid & H1 & Hp & H2 & Hb & H3 & H4).
  assert (Ee : b_end (merge p b) = b_end b) by (unfold merge, b_end in *; cbn [b_addr b_size] in *; lia).
  destruct (IH (merge p b)) as [I1 I2].
  - apply tiled_app. exists mid. split; [done|]. cbn [tiled]. rewrite Ee.
    split; [done|]. split; [cbn; lia | done].
  - rewrite I1, Ee. split; [done|]. cbn [merge b_addr] in I2. unfold b_end in *. lia.
Qed.

(** What [acoalesce] makes of a block whose neighbour has room. *)
Lemma acoalesce_grows l b r lo hi size l1 b2 r1 :
  tiled lo (l ++ b :: r) hi -> acoalesce l b r = (l1, b2, r1) ->
  b_addr b2 <= b_addr b /\ b_end b <= b_end b2 /\
  (room_at size b r || room_at size b (rev l) = true -> size <= b_size b2).
Proof.
  intros HT E. unfold acoalesce in E. pose proof HT as HT0. apply tiled_app in HT as (mid & H1 & <- & H2 & H3).
  pose proof (absorb_fwd_tiled b r hi H2 H3) as HF. pose proof (absorb_fwd_addr b r) as HA.
  destruct (absorb_fwd_end b r hi H2 H3) as [HE HS].
  assert (HN : room_at size b r = true -> size <= b_size (absorb_fwd b r).1).
  { destruct r as [|n r]; [done|]. cbn [room_at absorb_fwd]. intros [Hu%negb_true_iff Hs%Z.leb_le]%andb_prop.
    rewrite Hu. destruct H3 as (Ea & Hn & H3). destruct (absorb_fwd_end (merge b n) r hi) as [_ HS'].
    - cbn. lia.
    - replace (b_end (merge b n)) with (b_end n) by (unfold merge, b_end in *; cbn; lia). done.
    - cbn [merge b_size] in HS'. lia. }
  destruct (absorb_fwd b r) as [b1 r1']. cbn [fst snd] in *.
  assert (HT1 : tiled lo (rev (rev l) ++ b1 :: r1') hi).
  { rewrite rev_involutive. apply tiled_app. exists (b_addr b). split; [done | exact HF]. }
  destruct (absorb_bwd_end (rev l) b1 lo r1' hi HT1) as [HB1 HB2].
  assert (HP : room_at size b (rev l) = true -> size <= b_size (absorb_bwd (rev l) b1).2).
  { destruct (rev l) as [|p l'] eqn:El; [done|]. cbn [room_at absorb_bwd]. intros [Hu%negb_true_iff Hs%Z.leb_le]%andb_prop.
    rewrite Hu. cbn [rev] in HT1. rewrite <- app_assoc in HT1. cbn [app] in HT1.
    apply tiled_app in HT1 as (mid & G1 & Gp & G2 & Gb & G3 & G4).
    assert (Ee : b_end (merge p b1) = b_end b1) by (unfold merge, b_end in *; cbn [b_addr b_size] in *; lia).
    destruct (absorb_bwd_end l' (merge p b1) lo r1' hi) as [K1 K2].
    - apply tiled_app. exists mid. split; [done|]. cbn [tiled]. rewrite Ee. split; [done|]. split; [cbn; lia | done].
    - rewrite Ee in K1. cbn [merge b_addr] in K2. unfold b_end in *. lia. }
  destruct (absorb_bwd (rev l) b1) as [l1' b2']. cbn [fst snd] in *. injection E as <- <- <-.
  split; [lia|]. split; [lia|]. intros [Hr|Hl]%orb_prop; [|auto].
  specialize (HN Hr). unfold b_end in *. lia.
Qed.

(** A used block keeps the backward merge of its successor from going further. *)
Lemma acoalesce_after_used l b c r :
  b_used b = true -> acoalesce (l ++ [b]) c r = (l ++ [b], (absorb_fwd c r).1, (absorb_fwd c r).2).
Proof.
  intros Hu. unfold acoalesce. destruct (absorb_fwd c r) as [c1 r1]. rewrite rev_app_distr. cbn [rev app absorb_bwd].
  rewrite Hu. cbn [rev]. by rewrite rev_involutive.
Qed.

(** ** The same on memory *)

Section Chain.
Context (lo hi : Z) (Hlo : 32 <= lo) (Hhi : hi < 2 ^ 63) (Hbuf : hi - lo <= PLATFORM_HEAP_BUF_SIZE).
Abbreviation chain := (chain lo hi).

(** The numeric facts of one block, with its header. *)
Ltac open_block HC :=
  pose proof HC as [A1 A2 A3 A4 A5 A6 A7 A8 A9 A10 (Hm & Hf & Hz & Hn & Hp) A12]%chain_around; unfold b_end in *.

(** The test of [val_realloc] on the following block. *)
Lemma room_next m l b r size :
  chain m (l ++ b :: r) ->
  negb (rd_next m (b_addr b) =? 0) && negb (rd_free m (rd_next m (b_addr b)) =? 0) &&
    (size <=? uwrap 64 (uwrap 64 (rd_size m (b_addr b) + BLOCK_SIZE) + rd_size m (rd_next m (b_addr b)))) = room_at size b r.
Proof.
  intros HC. open_block HC. rewrite Hn, Hz, BLOCK_SIZE_val. destruct r as [|n r]; cbn [hd_addr room_at]; [done|].
  destruct A2 as (B1 & B2 & B3 & B4 & B5). destruct A12 as [(_ & Nf & Nz & _) _]. apply layout_le in B5. unfold b_end in *.
  rewrite Nf, Nz. replace (b_addr n =? 0) with false by lia.
  replace (negb ((if b_used n then 0 else 1) =? 0)) with (negb (b_used n)) by (by destruct (b_used n)).
  usmall. done.
Qed.

(** ... and on the preceding one. *)
Lemma room_prev m l b r size :
  chain m (l ++ b :: r) ->
  negb (rd_prev m (b_addr b) =? 0) && negb (rd_free m (rd_prev m (b_addr b)) =? 0) &&
    (size <=? uwrap 64 (uwrap 64 (rd_size m (b_addr b) + BLOCK_SIZE) + rd_size m (rd_prev m (b_addr b)))) =
  room_at size b (rev l).
Proof.
  intros HC. open_block HC. rewrite Hp, Hz, BLOCK_SIZE_val. destruct l as [|q l _] using rev_ind; [done|].
  rewrite rev_app_distr, last_addr_app. cbn [rev app room_at last_addr].
  rewrite <- app_assoc in HC. cbn [app] in HC.
  pose proof HC as [_ C2 _ _ C5 C6 C7 _ _ _ (_ & Nf & Nz & _) _]%chain_around.
  destruct C2 as (D1 & _). unfold b_end in *. rewrite Nf, Nz. replace (b_addr q =? 0) with false by lia.
  replace (negb ((if b_used q then 0 else 1) =? 0)) with (negb (b_used q)) by (by destruct (b_used q)).
  usmall. done.
Qed.

(** [val_coalesce(&block->next)] of a used block. *)
Lemma coalesce_next m l b c r :
  chain m (l ++ b :: c :: r) -> b_used b = true ->
  let bs' := l ++ b :: (absorb_fwd c r).1 :: (absorb_fwd c r).2 in
  exists m', val_coalesce m (rd_next m (b_addr b)) = Ret (b_addr c, m') /\
    chain (wr_next m' (b_addr b) (b_addr c)) bs' /\
    only_hdrs (map b_addr (l ++ b :: c :: r)) m (wr_next m' (b_addr b) (b_addr c)).
Proof.
  intros HC Hu bs'. open_block HC. rewrite Hn. cbn [hd_addr].
  replace (l ++ b :: c :: r) with ((l ++ [b]) ++ c :: r) in * by (by rewrite <- app_assoc).
  pose proof (val_coalesce_chain lo hi Hlo Hhi Hbuf m (l ++ [b]) c r HC) as HV.
  rewrite acoalesce_after_used in HV by done. destruct HV as (m' & E & C & O).
  rewrite absorb_fwd_addr in E. exists m'. split; [exact E|]. rewrite <- app_assoc in C. cbn [app] in C. fold bs' in C.
  assert (F : frame (b_addr b) 32 m' (wr_next m' (b_addr b) (b_addr c))) by (intros x Hx; rdwr; memsimp; done).
  split.
  - eapply chain_update; [exact C | exact F | done | done |]. cbn [hd_addr]. rewrite absorb_fwd_addr.
    intros (Km & Kf & Kz & Kn & Kp). unfold hdr_ok. destruct A2 as (D1 & _ & _ & D4 & D5). apply layout_le in D5. unfold b_end in *.
    rdwr. memsimp. repeat split; auto.
  - eapply only_hdrs_trans; [exact O|]. apply (only_hdrs_frame (b_addr b)); [|exact F]. rewrite !map_app. cbn [map]. set_solver.
Qed.
End Chain.

(** ** What a reallocation leaves *)

Section Realloc.
Context `{ValCommon} (B : Z) (HB : heap_base_ok B).

(** The block of [p] became one of [size] bytes or more at [q]; the other used blocks
    are where they were and no smaller. *)
Record carried (p q size : Z) (bs bs' : list ablk) : Prop := Carried {
  ca_new : exists t, t ∈ bs' /\ b_used t = true /\ b_ptr t = q /\ size <= b_size t;
  ca_old : forall x, x ∈ bs -> b_used x = true -> b_ptr x <> p ->
    exists x', x' ∈ bs' /\ b_used x' = true /\ b_ptr x' = b_ptr x /\ b_size x <= b_size x';
  ca_only : forall x', x' ∈ bs' -> b_used x' = true ->
    b_ptr x' = q \/ exists x, x ∈ bs /\ b_used x = true /\ b_ptr x = b_ptr x' /\ b_ptr x <> p
}.

(** A successful reallocation of [p] to [q]. *)
Record moved (h h' : heap) (bs bs' : list ablk) (p q size : Z) : Prop := Moved {
  mo_rep : heap_rep B h' bs';
  mo_tidy : tidy B bs';
  mo_carried : carried p q size bs bs';
  mo_others : forall x a, x ∈ bs -> b_used x = true -> b_ptr x <> p -> b_ptr x <= a < b_end x ->
    ld8 (hmem h') a = ld8 (hmem h) a;
  mo_bytes : forall x i, x ∈ bs -> b_used x = true -> b_ptr x = p -> 0 <= i < size -> i < b_size x ->
    ld8 (hmem h') (q + i) = ld8 (hmem h) (p + i)
}.

Lemma owns_carried bs bs' live p q n size :
  owns bs live -> live !! p = Some n -> 0 < size -> carried p q size bs bs' -> owns bs' (<[q := size]> (delete p live)).
Proof.
  intros [HO1 HO2] Hp Hs [Hnew Hold Honly]. split.
  - intros a k [[<- <-]|[Hne [Hap Ha]%lookup_delete_Some]]%lookup_insert_Some.
    + destruct Hnew as (t & Ht & Hu & Et & Hk). by exists t.
    + destruct (HO1 a k Ha) as (x & Hx & Hu & <- & Hk). destruct (Hold x Hx Hu ltac:(congruence)) as (x' & Hx' & Hu' & Ex & Hk').
      exists x'. repeat split; done || lia.
  - intros x' Hx' Hu'. destruct (decide (b_ptr x' = q)) as [->|Hne]; [by rewrite lookup_insert_eq|].
    destruct (Honly x' Hx' Hu') as [?|(x & Hx & Hu & Ex & Hxp)]; [done|].
    rewrite lookup_insert_ne by done. rewrite <- Ex, lookup_delete_ne by done. auto.
Qed.

(** A used block is part of an initialised heap. *)
Lemma used_rep h l b r :
  heap_rep B h (l ++ b :: r) -> b_used b = true ->
  initialized h = 1 /\ free_list h = B /\ hd_addr 0 (l ++ b :: r) = B /\ chain B (heap_limit B) (hmem h) (l ++ b :: r).
Proof. intros [[_ Hw]|HR] Hu; [by destruct l as [|? [|]]; simplify_eq/= | exact HR]. Qed.

Lemma rep_of h m bs : initialized h = 1 -> free_list h = B -> hd_addr 0 bs = B -> chain B (heap_limit B) m bs ->
  heap_rep B (set_hmem h m) bs.
Proof. intros. by right. Qed.

(** The pointer names its block. *)
Lemma block_of b lo : 32 <= lo -> lo <= b_addr b -> b_ptr b - BLOCK_SIZE = b_addr b /\ (b_ptr b =? 0) = false.
Proof. intros. rewrite BLOCK_SIZE_val. unfold b_ptr. lia. Qed.

(** Splitting and merging behind a used block keeps a heap tidy. *)
Lemma shrink_tidy l b r size b' c r' :
  tidy B (l ++ b :: r) -> b_used b = true -> 0 <= size -> asplit b size ++ r = b' :: c :: r' ->
  tidy B (l ++ b' :: (absorb_fwd c r').1 :: (absorb_fwd c r').2).
Proof.
  intros [HT HK] Hu Hs E. apply tiled_app in HT as (mid & H1 & <- & H2 & H3).
  assert (Hb' : b_used b' = true /\ b_addr b' = b_addr b).
  { unfold asplit in E. case_match; simplify_eq/=; done. }
  destruct Hb' as [Hu' Ha'].
  assert (HT' : tiled (b_addr b) (b' :: c :: r') (heap_limit B)).
  { rewrite <- E. pose proof (tiled_asplit b size r _ true Hs H2 H3) as HT'. unfold asplit in *.
    case_match; cbn [set_used app] in HT'; [by rewrite Hu in * | by destruct b; cbn in *; subst]. }
  destruct HT' as (_ & G1 & Ec & G2 & G3). split.
  - apply tiled_app. exists (b_addr b). split; [done|]. split; [done|]. split; [done|]. rewrite <- Ec. by apply absorb_fwd_tiled.
  - assert (HK2 : compact l = true /\ compact r' = true).
    { rewrite compact_app in HK. cbn [compact] in HK. unfold asplit in E. case_match; simplify_eq/=;
        destruct (compact l), (compact r'); cbn in *; try done; rewrite ?andb_false_r, ?andb_false_l in *; done. }
    destruct HK2 as [K1 K2]. destruct (absorb_fwd_compact c r' K2) as [K3 K4].
    rewrite compact_app. cbn [compact free_hd]. by rewrite K1, Hu', K3, K4, orb_true_r, andb_false_r.
Qed.

(** The head of [asplit] and the rest. *)
Lemma asplit_parts b size r :
  b_used b = true -> size <= b_size b ->
  exists b' s, asplit b size ++ r = b' :: s /\ b_used b' = true /\ b_addr b' = b_addr b /\ size <= b_size b' /\
    (forall x, b_used x = true -> x ∈ s <-> x ∈ r) /\ (s = [] -> r = [] /\ b_size b < size + 40).
Proof.
  intros Hu Hs. unfold asplit. destruct (Z.leb_spec (size + 40) (b_size b)).
  - eexists _, _. split; [reflexivity|]. cbn [app b_used b_addr b_size]. repeat split; try done.
    + intros Hx%elem_of_cons. destruct Hx as [->|Hx]; done.
    + intros Hx. apply elem_of_cons. by right.
  - exists b, r. repeat split; done || lia.
Qed.

Lemma absorb_fwd_grows b r lo hi : layout lo r hi -> b_size b <= b_size (absorb_fwd b r).1.
Proof.
  revert b lo; induction r as [|n r IH]; intros b lo HL; [cbn; lia|]. cbn [absorb_fwd]. case_match; [cbn; lia|].
  destruct HL as (_ & _ & _ & Hn & HL). pose proof (IH (merge b n) _ HL) as Hg. cbn [merge b_size] in Hg. lia.
Qed.

Lemma shrink_carried l b r size b' c r' hi :
  layout B (l ++ b' :: c :: r') hi -> b_used b' = true -> b_addr b' = b_addr b -> size <= b_size b' ->
  (forall x, b_used x = true -> x ∈ c :: r' <-> x ∈ r) ->
  carried (b_ptr b) (b_ptr b) size (l ++ b :: r) (l ++ b' :: (absorb_fwd c r').1 :: (absorb_fwd c r').2).
Proof.
  intros HL Hu' Ha' Hs HE. apply layout_app in HL as [_ (_ & _ & _ & _ & _ & _ & _ & _ & HL)].
  pose proof (absorb_fwd_grows c r' _ _ HL) as Hg. pose proof (absorb_fwd_addr c r') as Ha. pose proof (absorb_fwd_used c r') as Hcu.
  pose proof (absorb_fwd_elem c r') as He. destruct (absorb_fwd c r') as [c1 r1]. cbn [fst snd] in *.
  assert (Ec : b_ptr c1 = b_ptr c) by (unfold b_ptr; lia). split.
  - exists b'. split; [set_solver|]. split; [done|]. split; [unfold b_ptr; lia | done].
  - intros x Hx Hxu Hne. apply elem_of_app in Hx as [Hx|[->|Hx]%elem_of_cons]; [exists x; split; [set_solver | done] | done|].
    apply (HE x Hxu), elem_of_cons in Hx as [->|Hx].
    + exists c1. split; [set_solver|]. by rewrite Hcu.
    + apply (He x Hxu) in Hx. exists x. split; [set_solver | done].
  - intros x' Hx' Hxu'. destruct (decide (b_ptr x' = b_ptr b)) as [Eq|Hne]; [by left|]. right.
    apply elem_of_app in Hx' as [Hx|[->|[->|Hx]%elem_of_cons]%elem_of_cons].
    + exists x'. split; [set_solver | done].
    + by unfold b_ptr in *; rewrite Ha' in Hne.
    + rewrite Hcu in Hxu'. exists c. split; [|by rewrite Ec in *]. rewrite elem_of_app, elem_of_cons. right. right.
      apply HE; [done | set_solver].
    + exists x'. split; [|done]. rewrite elem_of_app, elem_of_cons. right. right.
      apply HE; [done|]. apply elem_of_cons. right. by apply He.
Qed.

Lemma realloc_shrinks h l b r size :
  heap_rep B h (l ++ b :: r) -> tidy B (l ++ b :: r) -> b_used b = true -> 0 < size < 2 ^ 63 - 16 ->
  ALIGN size <= b_size b -> realloc_safe h (b_ptr b) size = true ->
  exists h' bs', val_realloc B h (b_ptr b) size = Ret (b_ptr b, h') /\
    moved h h' (l ++ b :: r) bs' (b_ptr b) (b_ptr b) size.
Proof.
  intros HR HT Hu Hs HA Hsafe. destruct (ALIGN_spec size) as [Ha8 Hal]; [lia|].
  destruct (heap_base_bounds B HB) as (Hlo & Hhi & Hbuf & _).
  destruct (used_rep h l b r HR Hu) as (HI & HF & Hd & HC). pose proof (heap_rep_layout B HB h _ HR) as HL.
  destruct (asplit_chain B _ Hlo Hhi _ l b r (ALIGN size) HC) as [C1 O1]; [lia | done|].
  destruct (asplit_parts b (ALIGN size) r Hu HA) as (b' & s & Es & Hu' & Ha' & Hs' & HE & Hnil).
  pose proof HC as [A1 A2 A3 A4 A5 A6 A7 A8 A9 A10 (Hm & Hf & Hz & Hn & Hp) A12]%chain_around. unfold b_end in *.
  destruct (block_of b B Hlo ltac:(lia)) as [Eb Ep].
  destruct s as [|c r'].
  { destruct (Hnil eq_refl) as [-> Hlt]. unfold realloc_safe in Hsafe. rewrite Eb, Hz, Hn in Hsafe. cbn [hd_addr] in Hsafe.
    replace (ALIGN size <=? b_size b) with true in Hsafe by lia. by replace (b_size b <? ALIGN size + 40) with true in Hsafe by lia. }
  rewrite Es in C1, O1. destruct (coalesce_next B _ Hlo Hhi Hbuf _ l b' c r' C1 Hu') as (m' & E & C2 & O2).
  rewrite Ha' in E, C2, O2. set (m2 := wr_next m' (b_addr b) (b_addr c)) in *.
  assert (HR' : heap_rep B (set_hmem h m2) (l ++ b' :: (absorb_fwd c r').1 :: (absorb_fwd c r').2)).
  { apply rep_of; [done | done | | exact C2]. rewrite <- Hd, !hd_addr_app. cbn [hd_addr]. by rewrite Ha'. }
  pose proof (only_hdrs_trans _ _ _ _ O1 O2) as O. pose proof (proj2 C1) as L1.
  exists (set_hmem h m2). eexists. split; [|constructor].
  - unfold val_realloc. rewrite Ep. replace (size =? 0) with false by lia. rewrite Eb, uwrap_small by lia.
    rewrite Hm, Z.eqb_refl, Hz. replace (ALIGN size <=? b_size b) with true by lia. cbn [negb]. rewrite E. done.
  - exact HR'.
  - eapply shrink_tidy; [exact HT | done | | exact Es]. lia.
  - eapply shrink_carried; [exact L1 | done..| lia | exact HE].
  - intros x a Hx Hxu Hne Hxa. eapply payload_kept; [exact L1 | exact O | | exact Hxa].
    apply elem_of_app in Hx as [Hx|[->|Hx]%elem_of_cons]; [apply elem_of_app; by left | done|].
    rewrite elem_of_app, elem_of_cons. right. right. by apply HE.
  - intros x i Hx Hxu Exp Hi _. eapply (payload_kept _ _ _ _ _ b'); [exact L1 | exact O | set_solver |].
    unfold b_ptr, b_end. lia.
Qed.

(** Writing inside a payload leaves the chain of headers alone. *)
Lemma chain_write lo hi m m' bs b x k :
  chain lo hi m bs -> b ∈ bs -> frame x k m m' -> b_ptr b <= x -> x + k <= b_end b -> chain lo hi m' bs.
Proof.
  intros [HS HL] Hb HW H1 H2. split; [|done]. eapply seg_ext; [|exact HS].
  intros c Hc y Hy. pose proof (hdr_apart _ _ _ b c HL Hb Hc). apply HW. lia.
Qed.

(** The blocks after a reallocation that takes in free neighbours. *)
Lemma grow_tidy l b r size l1 b2 r1 :
  tidy B (l ++ b :: r) -> 0 <= size -> acoalesce l b r = (l1, b2, r1) -> tidy B (l1 ++ set_used true (asplit b2 size) ++ r1).
Proof.
  intros [HT HK] Hs E. unfold acoalesce in E. apply tiled_app in HT as (mid & T1 & <- & T2 & T3).
  pose proof (absorb_fwd_tiled b r _ T2 T3) as HF. destruct (absorb_fwd b r) as [b1 r1'] eqn:Ef.
  pose proof (absorb_bwd_tiled (rev l) b1 r1' B (heap_limit B)) as HBt. rewrite rev_involutive in HBt.
  pose proof (absorb_bwd_compact (rev l) b1) as HBc. rewrite rev_involutive in HBc.
  destruct (absorb_bwd (rev l) b1) as [l1' b2']. injection E as <- <- <-. cbn [fst snd] in *.
  apply compact_app_1 in HK as [K1 K2]. cbn [compact] in K2. apply andb_prop in K2 as [_ K2].
  destruct (absorb_fwd_compact b r K2) as [K3 K4]. rewrite Ef in K3, K4. cbn [snd] in K3, K4.
  destruct (HBc K1) as [K5 K6]. split.
  - assert (HT' : tiled B (rev l1' ++ b2' :: r1') (heap_limit B)) by (apply HBt, tiled_app; exists (b_addr b); done).
    apply tiled_app in HT' as (mid & U1 & <- & U2 & U3). apply tiled_app. exists (b_addr b2'). split; [done|]. by apply tiled_asplit.
  - rewrite compact_app, rev_involutive, K5, K6. destruct (taken_split size b2') as (tl & Et & Htl).
    unfold asplit in *. case_match; cbn [set_used app compact free_hd b_used orb negb andb]; by rewrite ?K3, K4, ?andb_false_l.
Qed.

Lemma acoalesce_used l b r l1 b2 r1 x :
  acoalesce l b r = (l1, b2, r1) -> b_used x = true -> x ∈ l1 ++ r1 <-> x ∈ l ++ r.
Proof.
  intros E Hx. unfold acoalesce in E. pose proof (absorb_fwd_elem b r x Hx) as HF. destruct (absorb_fwd b r) as [b1 r1'].
  pose proof (absorb_bwd_elem (rev l) b1 x Hx) as HBe. destruct (absorb_bwd (rev l) b1) as [l1' b2']. injection E as <- <- <-.
  cbn [fst snd] in *. rewrite elem_of_rev_iff in HBe. by rewrite !elem_of_app, elem_of_rev_iff, HBe, HF.
Qed.

Lemma acoalesce_hd l b r l1 b2 r1 : acoalesce l b r = (l1, b2, r1) -> hd_addr 0 (l1 ++ b2 :: r1) = hd_addr 0 (l ++ b :: r).
Proof.
  intros E. unfold acoalesce in E. pose proof (absorb_fwd_addr b r) as HA. destruct (absorb_fwd b r) as [b1 r1'].
  pose proof (absorb_bwd_hd (rev l) b1 r1') as HH. destruct (absorb_bwd (rev l) b1) as [l1' b2']. injection E as <- <- <-.
  cbn [fst snd] in *. rewrite HH, rev_involutive, !hd_addr_app. cbn [hd_addr]. by rewrite HA.
Qed.

(** The used blocks after a block was taken from the place of [b2]. *)
Lemma taken_used size l1 b2 r1 x :
  b_used x = true -> x ∈ l1 ++ set_used true (asplit b2 size) ++ r1 <-> x ∈ l1 ++ r1 \/ x = taken size b2.
Proof.
  intros Hx. destruct (taken_split size b2) as (tl & -> & Htl). rewrite Forall_forall in Htl.
  rewrite !elem_of_app, elem_of_cons. split.
  - intros [?|[[?|Ht]|?]]; auto. apply list_elem_of_In, Htl in Ht. congruence.
  - tauto.
Qed.

(** The used blocks beside [b] are those with another pointer. *)
Lemma beside_used lo hi l b r x :
  layout lo (l ++ b :: r) hi -> b_used x = true -> x ∈ l ++ r <-> x ∈ l ++ b :: r /\ b_ptr x <> b_ptr b.
Proof. intros HL Hx. rewrite <- (afree_used l b r x Hx). by eapply afree_used_ptr. Qed.

Lemma grow_carried l b r size n l1 b2 r1 lo hi :
  layout lo (l ++ b :: r) hi -> acoalesce l b r = (l1, b2, r1) -> size <= n -> n <= b_size b2 ->
  carried (b_ptr b) (b_ptr b2) size (l ++ b :: r) (l1 ++ set_used true (asplit b2 n) ++ r1).
Proof.
  intros HL E Hs Hn. split.
  - exists (taken n b2). split; [apply taken_used; auto|]. do 2 (split; [done|]). cbn. case_match; lia.
  - intros x Hx Hu Hne. exists x. split; [|done]. apply taken_used; [done|]. left.
    apply (acoalesce_used l b r l1 b2 r1 x E Hu). by apply (beside_used _ _ _ _ _ _ HL Hu).
  - intros x Hx Hu. apply taken_used in Hx as [Hx| ->]; [|by left|done]. right. exists x.
    apply (acoalesce_used l b r l1 b2 r1 x E Hu), (beside_used _ _ _ _ _ _ HL Hu) in Hx. tauto.
Qed.

(** Taking the grown block: the data is moved to its start, it is split and marked as
    used.  [m1] is the memory after [val_coalesce]. *)
Lemma grown_block m1 l1 b2 r1 size from len m2 :
  chain B (heap_limit B) m1 (l1 ++ b2 :: r1) -> 0 <= size < 2 ^ 63 -> size mod 8 = 0 ->
  0 <= len <= b_size b2 -> b_ptr b2 <= from ->
  m2 = (if b_ptr b2 =? from then m1 else (val_memmove m1 (b_ptr b2) from len).2) ->
  let m4 := wr_free (val_split m2 (b_addr b2) size) (b_addr b2) 0 in
  let bs' := l1 ++ set_used true (asplit b2 size) ++ r1 in
  chain B (heap_limit B) m4 bs' /\
  (forall x a, x ∈ bs' -> b_ptr x <= a < b_end x -> ld8 m4 a = ld8 m2 a) /\
  (forall i, 0 <= i < len -> ld8 m2 (b_ptr b2 + i) = ld8 m1 (from + i)) /\
  frame (b_ptr b2) len m1 m2.
Proof.
  intros HC Hs H8 Hlen Hfrom E2 m4 bs'.
  destruct (heap_base_bounds B HB) as (Hlo & Hhi & Hbuf & _).
  destruct (val_memmove_correct m1 (b_ptr b2) from len) as (_ & Hmv & Hfr); [lia|].
  assert (F : frame (b_ptr b2) len m1 m2) by (subst m2; case_match; [apply frame_refl | exact Hfr]).
  assert (C2 : chain B (heap_limit B) m2 (l1 ++ b2 :: r1)).
  { eapply chain_write; [exact HC | apply elem_of_app; right; by left | exact F | lia|]. unfold b_ptr, b_end. lia. }
  destruct (asplit_chain B _ Hlo Hhi _ l1 b2 r1 size C2 Hs H8) as [C3 O3].
  destruct (asplit_hd b2 size) as (k & tl & Esp). unfold bs' in *. rewrite Esp in *. cbn [app set_used b_addr b_size] in *.
  apply (chain_set_free _ _ _ _ _ _ true) in C3. cbn [b_addr b_size] in C3.
  split; [exact C3|]. split; [|split; [|exact F]].
  - intros x a Hx Ha. eapply payload_kept; [exact (proj2 C3) | | exact Hx | exact Ha].
    rewrite !map_app in *. cbn [map b_addr] in *. eapply only_hdrs_trans; [exact O3|].
    apply (only_hdrs_frame (b_addr b2)); [in_hdrs | apply wr_free_frame].
  - intros i Hi. rewrite E2. destruct (Z.eqb_spec (b_ptr b2) from) as [->|]; [done | by apply Hmv].
Qed.

Lemma realloc_grows h l b r size :
  heap_rep B h (l ++ b :: r) -> tidy B (l ++ b :: r) -> b_used b = true -> 0 < size < 2 ^ 63 - 16 ->
  b_size b < ALIGN size -> room_at (ALIGN size) b r || room_at (ALIGN size) b (rev l) = true ->
  exists q h' bs', val_realloc B h (b_ptr b) size = Ret (q, h') /\ 0 < q /\
    moved h h' (l ++ b :: r) bs' (b_ptr b) q size.
Proof.
  intros HR HT Hu Hs HA Hroom. destruct (ALIGN_spec size) as [Ha8 Hal]; [lia|].
  destruct (heap_base_bounds B HB) as (Hlo & Hhi & Hbuf & _).
  destruct (used_rep h l b r HR Hu) as (HI & HF & Hd & HC). pose proof (proj2 HC) as HL.
  pose proof (val_coalesce_chain B _ Hlo Hhi Hbuf _ l b r HC) as HV.
  destruct (acoalesce l b r) as [[l1 b2] r1] eqn:Eac. destruct HV as (m1 & E1 & C1 & O1).
  destruct (acoalesce_grows l b r B _ (ALIGN size) l1 b2 r1 (proj1 HT) Eac) as (G1 & G2 & G3). specialize (G3 Hroom).
  pose proof HC as [A1 A2 A3 A4 A5 A6 A7 A8 A9 A10 (Hm & Hf & Hz & Hn & Hp) A12]%chain_around.
  pose proof C1 as [D1 D2 D3 D4 D5 D6 D7 D8 D9 _ _ _]%chain_around. unfold b_end in *.
  destruct (block_of b B Hlo ltac:(lia)) as [Eb Ep].
  assert (Hq : uwrap 64 (b_addr b2 + 32) = b_ptr b2) by (rewrite uwrap_small by lia; done).
  destruct (grown_block m1 l1 b2 r1 (ALIGN size) (b_ptr b) (b_size b)
    (if b_ptr b2 =? b_ptr b then m1 else (val_memmove m1 (b_ptr b2) (b_ptr b) (b_size b)).2) C1 ltac:(lia) Ha8 ltac:(lia) ltac:(unfold b_ptr; lia) eq_refl)
    as (C4 & K4 & K2 & F2).
  set (m2 := if b_ptr b2 =? b_ptr b then m1 else _) in *. set (m4 := wr_free _ _ _) in *. set (bs' := l1 ++ _ ++ r1) in *.
  exists (b_ptr b2), (set_hmem h m4), bs'. split; [|split; [unfold b_ptr; lia|constructor]].
  - unfold val_realloc. rewrite Ep. replace (size =? 0) with false by lia. rewrite Eb, uwrap_small by lia.
    rewrite Hm, Z.eqb_refl, (room_next B _ Hlo Hhi _ l b r _ HC), (room_prev B _ Hlo Hhi _ l b r _ HC), Hroom, Hz.
    replace (ALIGN size <=? b_size b) with false by lia. cbn [negb]. rewrite E1. cbn [obind]. rewrite BLOCK_SIZE_val, Hq. done.
  - apply rep_of; [done | done | | exact C4].
    rewrite <- Hd, <- (acoalesce_hd l b r l1 b2 r1 Eac). unfold bs'. destruct (taken_split (ALIGN size) b2) as (tl & -> & _).
    by rewrite !hd_addr_app.
  - eapply grow_tidy; [exact HT | lia | exact Eac].
  - eapply grow_carried; [exact HL | exact Eac | lia | exact G3].
  - intros x a Hx Hxu Hne Hxa. assert (Hin : x ∈ l1 ++ r1).
    { apply (acoalesce_used l b r l1 b2 r1 x Eac Hxu). by apply (beside_used _ _ _ _ _ _ HL Hxu). }
    cbn [hmem set_hmem]. rewrite (K4 x a) by (done || apply taken_used; auto). rewrite F2.
    + by eapply payload_kept; [exact HL | exact O1 | |].
    + apply elem_of_app in Hin as [Hin|Hin]; [pose proof (layout_elem _ _ _ _ D1 Hin)|pose proof (layout_elem _ _ _ _ D2 Hin)];
        unfold b_ptr, b_end in *; lia.
  - intros x i Hx Hxu Exp Hi Hib.
    assert (x = b) as -> by (eapply same_ptr; [exact HL | exact Hx | set_solver | exact Exp]).
    assert (Ht : taken (ALIGN size) b2 ∈ bs') by (apply taken_used; auto).
    assert (Hts : ALIGN size <= b_size (taken (ALIGN size) b2)) by (cbn [taken b_size]; destruct (_ <=? b_size b2); lia).
    cbn [hmem set_hmem]. rewrite (K4 _ _ Ht), K2; [|lia|unfold b_ptr, b_end in *; cbn [taken b_addr] in *; lia].
    eapply payload_kept; [exact HL | exact O1 | exact Hx |]. unfold b_ptr, b_end. lia.
Qed.

Lemma ALIGN_idem size : 0 < size < 2 ^ 63 - 16 -> ALIGN (ALIGN size) = ALIGN size.
Proof.
  intros Hs. destruct (ALIGN_spec size) as [H1 H2]; [lia|]. destruct (ALIGN_spec (ALIGN size)) as [H3 H4]; [lia|].
  Z.div_mod_to_equations; lia.
Qed.

(** The payloads of two blocks. *)
Lemma payloads_apart lo hi bs x y :
  layout lo bs hi -> x ∈ bs -> y ∈ bs -> b_ptr x <> b_ptr y -> b_end x <= b_addr y \/ b_end y <= b_addr x.
Proof.
  intros HL Hx Hy Hne. pose proof (hdr_apart _ _ _ x y HL Hx Hy). pose proof (hdr_apart _ _ _ y x HL Hy Hx).
  unfold b_ptr in *. lia.
Qed.

(** Copying a block into a larger new one and releasing it. *)
Lemma copy_and_free h1 bs b t :
  heap_rep B h1 bs -> b ∈ bs -> b_used b = true -> t ∈ bs -> b_used t = true -> b_ptr t <> b_ptr b -> b_size b <= b_size t ->
  let h2 := set_hmem h1 (val_memcpy (hmem h1) (b_ptr t) (b_ptr b) (rd_size (hmem h1) (b_addr b))).2 in
  exists l r h3, bs = l ++ b :: r /\ val_free h2 (b_ptr b) = Ret (VAL_SUCCESS, h3) /\ heap_rep B h3 (afree l b r) /\
    (forall x a, x ∈ bs -> b_ptr x <> b_ptr t -> b_ptr x <= a < b_end x -> ld8 (hmem h3) a = ld8 (hmem h1) a) /\
    (forall i, 0 <= i < b_size b -> ld8 (hmem h3) (b_ptr t + i) = ld8 (hmem h1) (b_ptr b + i)).
Proof.
  intros HR Hb Hu Ht Hut Hne Hsz h2. pose proof (heap_rep_layout B HB h1 bs HR) as HL.
  destruct (layout_elem _ _ _ _ HL Hb) as (_ & _ & _ & _ & Hb0).
  destruct (list_elem_of_split _ _ Hb) as (l & r & Ebs).
  assert (Hz : rd_size (hmem h1) (b_addr b) = b_size b).
  { rewrite Ebs in HR. destruct (used_rep h1 l b r HR Hu) as (_ & _ & _ & HC). apply chain_around in HC as [].
    by destruct ar_h as (_ & _ & ? & _). }
  assert (F : frame (b_ptr t) (b_size b) (hmem h1) (hmem h2)).
  { unfold h2. rewrite Hz. cbn [hmem set_hmem]. intros x Hx. apply memcpy_loop_frame. lia. }
  assert (HR2 : heap_rep B h2 bs).
  { eapply (heap_rep_write B h1 bs t _ (b_ptr t) (b_size b)); [done..| |lia|unfold b_ptr, b_end; lia|lia]. exact F. }
  rewrite Ebs in HR2. destruct (val_free_rep B HB h2 l b r HR2 Hu) as (h3 & E & HR3 & O). rewrite <- Ebs in O.
  exists l, r, h3. do 3 (split; [done|]). split.
  - intros x a Hx Hxt Ha. rewrite (payload_kept _ _ _ _ _ x a HL O Hx Ha). apply F.
    pose proof (payloads_apart _ _ _ x t HL Hx Ht Hxt). unfold b_ptr, b_end in *. lia.
  - intros i Hi. rewrite (payload_kept _ _ _ _ _ t _ HL O Ht) by (unfold b_ptr, b_end; lia).
    unfold h2. rewrite Hz. cbn [hmem set_hmem]. apply memcpy_loop_spec; [|lia].
    pose proof (payloads_apart _ _ _ t b HL Ht Hb Hne). unfold b_ptr, b_end in *. lia.
Qed.

(** A reallocation that fails: the heap stands for the same blocks, with the same data. *)
Definition refused_realloc (h h' : heap) (bs : list ablk) : Prop :=
  heap_rep B h' bs /\ forall x a, x ∈ bs -> b_ptr x <= a < b_end x -> ld8 (hmem h') a = ld8 (hmem h) a.

Lemma realloc_calls h l b r size q h1 :
  heap_rep B h (l ++ b :: r) -> b_used b = true -> 0 < size < 2 ^ 63 - 16 -> b_size b < ALIGN size ->
  room_at (ALIGN size) b r || room_at (ALIGN size) b (rev l) = false ->
  val_malloc B h (ALIGN size) = Ret (q, h1) ->
  val_realloc B h (b_ptr b) size =
  if q =? 0 then Ret (0, h1)
  else let h2 := set_hmem h1 (val_memcpy (hmem h1) q (b_ptr b) (rd_size (hmem h1) (b_addr b))).2 in
       let! (_, h3) := val_free h2 (b_ptr b) in Ret (q, h3).
Proof.
  intros HR Hu Hs HA Hroom E. destruct (heap_base_bounds B HB) as (Hlo & Hhi & Hbuf & _).
  destruct (used_rep h l b r HR Hu) as (HI & HF & Hd & HC).
  pose proof HC as [A1 A2 A3 A4 A5 A6 A7 A8 A9 A10 (Hm & Hf & Hz & Hn & Hp) A12]%chain_around. unfold b_end in *.
  destruct (block_of b B Hlo ltac:(lia)) as [Eb Ep].
  unfold val_realloc. rewrite Ep. replace (size =? 0) with false by lia. rewrite Eb, uwrap_small by lia.
  rewrite Hm, Z.eqb_refl, (room_next B _ Hlo Hhi _ l b r _ HC), (room_prev B _ Hlo Hhi _ l b r _ HC), Hroom, Hz.
  replace (ALIGN size <=? b_size b) with false by lia. cbn [negb]. rewrite E. done.
Qed.

(** The new block [t] of a move: [h1] is the heap after [val_malloc]. *)
Lemma copy_moved h h1 bs bs1 b t size :
  layout B bs (heap_limit B) -> b ∈ bs -> b_used b = true -> heap_rep B h1 bs1 -> tidy B bs1 ->
  only_hdrs (map b_addr bs1) (hmem h) (hmem h1) -> (forall x, b_used x = true -> x ∈ bs1 <-> x ∈ bs \/ x = t) ->
  b_used t = true -> (forall x, x ∈ bs -> b_used x = true -> b_ptr x <> b_ptr t) ->
  size <= b_size t -> b_size b <= b_size t ->
  let h2 := set_hmem h1 (val_memcpy (hmem h1) (b_ptr t) (b_ptr b) (rd_size (hmem h1) (b_addr b))).2 in
  exists h3 bs', val_free h2 (b_ptr b) = Ret (VAL_SUCCESS, h3) /\ moved h h3 bs bs' (b_ptr b) (b_ptr t) size.
Proof.
  intros HL Hb Hu HR1 HT1 O1 HU Hut Hpt Hs1 Hs2. assert (Ht1 : t ∈ bs1) by (apply HU; auto).
  assert (Hb1 : b ∈ bs1) by (apply HU; auto). pose proof (heap_rep_layout B HB h1 _ HR1) as HL1.
  destruct (copy_and_free h1 bs1 b t HR1 Hb1 Hu Ht1 Hut) as (l' & r' & h3 & E1 & EF & HR3 & K & KB);
    [apply not_eq_sym; auto | lia|].
  assert (HUF : forall x, b_used x = true -> x ∈ afree l' b r' <-> x ∈ bs1 /\ b_ptr x <> b_ptr b).
  { intros x Hx. rewrite E1 in HL1 |- *. by eapply afree_used_ptr. }
  exists h3, (afree l' b r'). split; [exact EF|]. rewrite E1 in HT1. destruct HT1 as [HT1 HK1]. constructor.
  - exact HR3.
  - split; [by apply afree_tiled | by apply afree_compact].
  - split.
    + exists t. split; [apply (HUF t Hut); split; [done | apply not_eq_sym; by apply Hpt]|]. done.
    + intros x Hx Hxu Hne. exists x. split; [|done]. apply HUF; [done|]. split; [apply HU; auto | done].
    + intros x Hx Hxu. apply HUF in Hx as [Hx Hne]; [|done]. apply HU in Hx as [Hx| ->]; [|by left|done]. right. eauto.
  - intros x a Hx Hxu Hne Hxa. assert (Hx1 : x ∈ bs1) by (apply HU; auto).
    rewrite (K x a) by auto. by eapply payload_kept; [exact HL1 | exact O1 | |].
  - intros x i Hx Hxu Exp Hi Hib.
    assert (x = b) as -> by (eapply same_ptr; [exact HL | exact Hx | exact Hb | exact Exp]). rewrite KB by lia.
    eapply payload_kept; [exact HL1 | exact O1 | done |]. unfold b_ptr, b_end. lia.
Qed.

Lemma realloc_moves h l b r size :
  heap_rep B h (l ++ b :: r) -> tidy B (l ++ b :: r) -> b_used b = true -> 0 < size < 2 ^ 63 - 16 ->
  b_size b < ALIGN size -> room_at (ALIGN size) b r || room_at (ALIGN size) b (rev l) = false ->
  exists q h', val_realloc B h (b_ptr b) size = Ret (q, h') /\
    ((q = 0 /\ refused_realloc h h' (l ++ b :: r)) \/
     (0 < q /\ exists bs', moved h h' (l ++ b :: r) bs' (b_ptr b) q size)).
Proof.
  intros HR HT Hu Hs HA Hroom. destruct (ALIGN_spec size) as [Ha8 Hal]; [lia|].
  pose proof (heap_rep_layout B HB h _ HR) as HL. destruct (heap_base_bounds B HB) as (Hlo & _).
  assert (Hb : b ∈ l ++ b :: r) by set_solver. destruct (layout_elem _ _ _ _ HL Hb) as (_ & _ & _ & _ & Hb0).
  destruct (val_malloc_rep B HB h _ (ALIGN size) HR) as (h1 & E & HR1 & _ & O1); [lia|].
  rewrite ALIGN_idem in * by done. pose proof (realloc_calls h l b r size _ h1 HR Hu Hs HA Hroom E) as EC.
  assert (HT1 : tidy B (amalloc (ALIGN size) (l ++ b :: r)).2).
  { destruct HT. split; [apply amalloc_tiled; done || lia | by apply amalloc_compact]. }
  destruct (amalloc_cases (ALIGN size) (l ++ b :: r)) as [[Ea _]|(l0 & c & r0 & Ebs & _ & Hfit & Ea)];
    rewrite Ea in *; cbn [fst snd] in *.
  { exists 0, h1. split; [exact EC|]. left. split; [done|]. split; [done|].
    intros x a Hx Hxa. by eapply payload_kept; [exact HL | exact O1 | |]. }
  set (bs1 := l0 ++ _ ++ r0) in *. set (t := taken (ALIGN size) c).
  pose proof (fun x => amalloc_used (ALIGN size) l0 c r0 x Hfit) as HU. rewrite <- Ebs in HU. fold bs1 t in HU.
  apply andb_prop in Hfit as [Hcu%negb_true_iff Hcs%Z.leb_le].
  assert (Hc : c ∈ l ++ b :: r) by (rewrite Ebs; set_solver). destruct (layout_elem _ _ _ _ HL Hc) as (Hc0 & _).
  destruct (copy_moved h h1 _ bs1 b t size HL Hb Hu HR1 HT1 O1 HU eq_refl) as (h3 & bs' & EF & HM).
  - intros x Hx Hxu Eq. assert (x = c) as -> by (eapply same_ptr; [exact HL | exact Hx | exact Hc | exact Eq]). congruence.
  - cbn [t taken b_size]; destruct (_ <=? b_size c); lia.
  - cbn [t taken b_size]; destruct (_ <=? b_size c); lia.
  - change (b_ptr t) with (b_ptr c) in *. exists (b_ptr c), h3. assert (Hq : 0 < b_ptr c) by (unfold b_ptr; lia).
    rewrite (proj2 (Z.eqb_neq (b_ptr c) 0)) in EC by lia. cbn zeta in EC. rewrite EF in EC. split; [exact EC|]. right. eauto.
Qed.

(** ** Every reallocation of a region the client holds *)

Lemma realloc_cases h l b r size :
  heap_rep B h (l ++ b :: r) -> tidy B (l ++ b :: r) -> b_used b = true -> 0 < size < 2 ^ 63 - 16 ->
  realloc_safe h (b_ptr b) size = true ->
  exists q h', val_realloc B h (b_ptr b) size = Ret (q, h') /\
    ((q = 0 /\ refused_realloc h h' (l ++ b :: r)) \/
     (0 < q /\ exists bs', moved h h' (l ++ b :: r) bs' (b_ptr b) q size)).
Proof.
  intros HR HT Hu Hs Hsafe. destruct (Z.le_gt_cases (ALIGN size) (b_size b)) as [HA|HA].
  - destruct (realloc_shrinks h l b r size HR HT Hu Hs HA Hsafe) as (h' & bs' & E & HM).
    exists (b_ptr b), h'. split; [exact E|]. right. split; [|by exists bs'].
    assert (Hb : b ∈ l ++ b :: r) by set_solver. destruct (heap_base_bounds B HB) as (Hlo & _).
    destruct (layout_elem _ _ _ _ (heap_rep_layout B HB h _ HR) Hb) as (Hb0 & _). unfold b_ptr. lia.
  - destruct (room_at (ALIGN size) b r || room_at (ALIGN size) b (rev l)) eqn:Hroom; [|by apply realloc_moves].
    destruct (realloc_grows h l b r size HR HT Hu Hs HA Hroom) as (q & h' & bs' & E & Hq & HM). eauto 10.
Qed.

Lemma realloc_faults h l b r size :
  heap_rep B h (l ++ b :: r) -> b_used b = true -> 0 < size < 2 ^ 63 - 16 ->
  realloc_safe h (b_ptr b) size = false -> val_realloc B h (b_ptr b) size = Fault.
Proof.
  intros HR Hu Hs Hsafe. destruct (ALIGN_spec size) as [Ha8 Hal]; [lia|]. destruct (heap_base_bounds B HB) as (Hlo & Hhi & Hbuf & _).
  destruct (used_rep h l b r HR Hu) as (HI & HF & Hd & HC).
  pose proof HC as HAr%chain_around. pose proof HAr as [A1 A2 A3 A4 A5 A6 A7 A8 A9 A10 (Hm & Hf & Hz & Hn & Hp) A12]. unfold b_end in *.
  destruct (block_of b B Hlo ltac:(lia)) as [Eb Ep].
  unfold realloc_safe in Hsafe. rewrite Eb, Hz in Hsafe. apply negb_false_iff in Hsafe.
  apply andb_prop in Hsafe as [[S1 S2]%andb_prop S3%Z.eqb_eq].
  unfold val_realloc. rewrite Ep. replace (size =? 0) with false by lia. rewrite Eb, uwrap_small by lia.
  rewrite Hm, Z.eqb_refl, Hz, S1. cbn [negb]. rewrite (val_split_mem B _ Hlo Hhi _ l b r _ HAr) by lia.
  replace (ALIGN size + 40 <=? b_size b) with false by lia. by rewrite S3.
Qed.

Lemma inv_realloc h live bs p n size :
  heap_rep B h bs -> tidy B bs -> owns bs live -> live !! p = Some n -> 0 < size < 2 ^ 63 - 16 ->
  realloc_safe h p size = true ->
  exists q h' bs', val_realloc B h p size = Ret (q, h') /\ heap_rep B h' bs' /\ tidy B bs' /\
    owns bs' (if q =? 0 then live else <[q := size]> (delete p live)) /\
    (q <> 0 -> forall i, 0 <= i < Z.min n size -> ld8 (hmem h') (q + i) = ld8 (hmem h) (p + i)) /\
    (forall p' n' x, live !! p' = Some n' -> p' <> p \/ q = 0 -> p' <= x < p' + n' -> ld8 (hmem h') x = ld8 (hmem h) x).
Proof.
  intros HR HT HO Hp Hs Hsafe. pose proof HO as [HO1 HO2]. destruct (HO1 p n Hp) as (b & Hb & Hu & <- & Hn).
  destruct (list_elem_of_split _ _ Hb) as (l & r & ->).
  destruct (realloc_cases h l b r size HR HT Hu Hs Hsafe) as (q & h' & E & [[-> [HR' HK]]|(Hq & bs' & [M1 M2 M3 M4 M5])]).
  - exists 0, h', (l ++ b :: r). do 4 (split; [done|]). split; [done|]. intros p' n' x Hp' _ Hx.
    destruct (HO1 p' n' Hp') as (c & Hc & Hcu & <- & Hcn). apply (HK c); [done|]. unfold b_ptr, b_end in *. lia.
  - exists q, h', bs'. do 3 (split; [done|]). rewrite (proj2 (Z.eqb_neq q 0)) by lia.
    split; [eapply owns_carried; [exact HO | exact Hp | lia | exact M3]|]. split.
    + intros _ i Hi. apply (M5 b i); try done; lia.
    + intros p' n' x Hp' [Hne|Hq0] Hx; [|lia]. destruct (HO1 p' n' Hp') as (c & Hc & Hcu & <- & Hcn).
      apply (M4 c); try done. unfold b_ptr, b_end in *. lia.
Qed.
End Realloc.
