(* ===== verification/MallocTrace.v ===== *)
(** * Sequences of calls of the allocator

    [heap_step] is one call, or one store of a client through a pointer it holds; the
    invariant of every reachable state says that the client's regions never touch. *)

From S2P Require Import Prelude ValCommon CMem Libc Malloc MallocSpec MallocProof MallocCorrect MallocClient MallocRealloc.

Section Trace.
Context `{ValCommon} (B : Z).

Inductive heap_step : client -> client -> Prop :=
| step_malloc c size p h' :
    0 <= size < 2 ^ 63 - 8 -> val_malloc B (c_heap c) size = Ret (p, h') ->
    heap_step c (Client h' (if p =? 0 then c_live c else <[p := size]> (c_live c)))
| step_calloc c nmemb size p h' :
    0 <= size -> 0 <= nmemb -> nmemb * size < 2 ^ 63 - 8 ->
    val_calloc B (c_heap c) nmemb size = Ret (p, h') ->
    heap_step c (Client h' (if p =? 0 then c_live c else <[p := nmemb * size]> (c_live c)))
| step_realloc c p n size q h' :
    c_live c !! p = Some n -> 0 < size < 2 ^ 63 - 16 -> val_realloc B (c_heap c) p size = Ret (q, h') ->
    heap_step c (Client h' (if q =? 0 then c_live c else <[q := size]> (delete p (c_live c))))
| step_realloc_null c size p h' :
    0 <= size < 2 ^ 63 - 8 -> val_realloc B (c_heap c) 0 size = Ret (p, h') ->
    heap_step c (Client h' (if p =? 0 then c_live c else <[p := size]> (c_live c)))
| step_realloc_zero c p n q h' :
    c_live c !! p = Some n -> val_realloc B (c_heap c) p 0 = Ret (q, h') ->
    heap_step c (Client h' (delete p (c_live c)))
| step_free c p n s h' :
    c_live c !! p = Some n -> val_free (c_heap c) p = Ret (s, h') ->
    heap_step c (Client h' (delete p (c_live c)))
| step_store c p n x v :
    c_live c !! p = Some n -> p <= x < p + n ->
    heap_step c (Client (set_hmem (c_heap c) (st8 (hmem (c_heap c)) x v)) (c_live c)).

Context (HB : heap_base_ok B).

Lemma client_realloc_faults h live bs p n size :
  heap_rep B h bs -> owns bs live -> live !! p = Some n -> 0 < size < 2 ^ 63 - 16 ->
  realloc_safe h p size = false -> val_realloc B h p size = Fault.
Proof.
  intros HR [HO _] Hp Hs Hsafe. destruct (HO p n Hp) as (b & Hb & Hu & <- & _).
  destruct (list_elem_of_split _ _ Hb) as (l & r & ->). by eapply realloc_faults.
Qed.

(** A pointer a client holds is not null. *)
Lemma live_not_null h live bs p n : heap_rep B h bs -> owns bs live -> live !! p = Some n -> p <> 0.
Proof.
  intros HR HO Hp. destruct (live_apart B HB h live bs p n HR HO Hp) as (_ & Hlo & _). unfold heap_base_ok in HB. lia.
Qed.

(** Resizing to nothing frees. *)
Lemma realloc_zero h p : p <> 0 -> val_realloc B h p 0 = (let! (_, h) := val_free h p in Ret (0, h)).
Proof. intros Hp. unfold val_realloc. by rewrite (proj2 (Z.eqb_neq _ _) Hp). Qed.

Lemma client_inv_step c c' : client_inv B c -> heap_step c c' -> client_inv B c'.
Proof.
  intros Hi Hst. destruct Hst as [c size p h' Hs E | c nm size p h' H1 H2 H3 E | c p n size q h' Hp Hs E | c size p h' Hs E | c p n q h' Hp E | c p n s h' Hp E | c p n x v Hp Hx];
    destruct Hi as (bs & HR & HT & HO).
  - destruct (decide (size = 0)) as [->|]; [injection E as <- <-; by exists bs|].
    destruct (inv_malloc B HB _ _ bs size HR HT HO ltac:(lia)) as (p' & h2 & bs' & E2 & HR' & HT' & HC & _).
    rewrite E in E2. simplify_eq. exists bs'. do 2 (split; [done|]). cbn [c_live].
    destruct HC as [(-> & -> & _)|(Hp & _ & HO' & _)]; [done|]. by replace (p' =? 0) with false by lia.
  - destruct (decide (size = 0 \/ nm = 0)) as [H0|].
    { unfold val_calloc in E. replace ((size =? 0) || (nm =? 0)) with true in E by lia. injection E as <- <-. by exists bs. }
    rewrite val_calloc_malloc in E by lia. apply obind_Ret_inv in E as ([p1 h1] & E1 & E).
    destruct (inv_malloc B HB _ _ bs (nm * size) HR HT HO ltac:(nia)) as (p' & h2 & bs' & E2 & HR' & HT' & HC & _).
    rewrite E1 in E2. simplify_eq. exists bs'. cbn [c_heap c_live].
    destruct HC as [(-> & -> & _)|(Hp & _ & HO' & b & Hb & Hu & <- & Hsz)]; [by simplify_eq/=|].
    replace (b_ptr b =? 0) with false in E by lia. injection E as <- <-.
    replace (b_ptr b =? 0) with false by lia. split; [|done].
    eapply heap_rep_write; [done|done|done|apply memset_loop_frame|lia| |lia].
    unfold b_ptr, b_end in *. lia.
  - destruct (realloc_safe (c_heap c) p size) eqn:Hsafe.
    + destruct (inv_realloc B HB _ _ bs p n size HR HT HO Hp Hs Hsafe) as (q' & h2 & bs' & E2 & HR' & HT' & HO' & _).
      rewrite E in E2. simplify_eq. by exists bs'.
    + by rewrite (client_realloc_faults _ _ bs p n size HR HO Hp Hs Hsafe) in E.
  - change (val_malloc B (c_heap c) size = Ret (p, h')) in E.
    destruct (decide (size = 0)) as [->|]; [injection E as <- <-; by exists bs|].
    destruct (inv_malloc B HB _ _ bs size HR HT HO ltac:(lia)) as (p' & h2 & bs' & E2 & HR' & HT' & HC & _).
    rewrite E in E2. simplify_eq. exists bs'. do 2 (split; [done|]). cbn [c_live].
    destruct HC as [(-> & -> & _)|(Hp & _ & HO' & _)]; [done|]. by replace (p' =? 0) with false by lia.
  - rewrite realloc_zero in E by (by eapply live_not_null).
    destruct (inv_free B HB _ _ bs p n HR HT HO Hp) as (h2 & bs' & E2 & HR' & HT' & HO' & _).
    rewrite E2 in E. cbn [obind] in E. injection E as _ <-. by exists bs'.
  - destruct (inv_free B HB _ _ bs p n HR HT HO Hp) as (h2 & bs' & E2 & HR' & HT' & HO' & _).
    rewrite E in E2. simplify_eq. by exists bs'.
  - exists bs. split; [|done]. cbn [c_heap]. destruct HO as [HO1 _].
    destruct (HO1 p n Hp) as (b & Hb & Hu & <- & Hn).
    eapply (heap_rep_write B _ bs b _ x 1); [done..| |lia| |lia].
    + intros y Hy. apply ld8_st8_ne. lia.
    + unfold b_ptr, b_end in *. lia.
Qed.

Lemma client_inv_reach m c : rtc heap_step (fresh m) c -> client_inv B c.
Proof.
  intros Hr. remember (fresh m) as c0. assert (Hi : client_inv B c0) by (subst; apply (client_inv_fresh B)).
  clear Heqc0. induction Hr; [done|]. eauto using client_inv_step.
Qed.

(** Freeing writes to headers only. *)
Lemma free_keeps h live bs h' p n x :
  heap_rep B h bs -> owns bs live -> only_hdrs (map b_addr bs) (hmem h) (hmem h') -> live !! p = Some n -> p <= x < p + n ->
  ld8 (hmem h') x = ld8 (hmem h) x.
Proof.
  intros HR [HO1 _] O Hp Hx. destruct (HO1 p n Hp) as (b & Hb & Hu & <- & Hn).
  eapply payload_kept; [by apply (heap_rep_layout B HB h) | exact O | done |]. unfold b_ptr, b_end in *. lia.
Qed.

(** Claim C3: After any sequence of calls of val_malloc, val_calloc, val_realloc and
    val_free, with stores of the holders into their regions in between, from an
    uninitialised heap, every live allocation is 8-byte aligned, lies behind a
    header inside the heap buffer and is disjoint from every other live allocation.
    The sizes are those that do not wrap (MallocLimits has the others): up to 2^63-9
    bytes for val_malloc and for val_realloc of a null pointer, products up to
    2^63-9 for val_calloc, up to 2^63-17 for val_realloc of a live region; val_free
    and val_realloc get live pointers; val_aligned_alloc is not among the calls; the
    buffer starts at a multiple of 4096 and ends below 2^63. *)
Theorem live_regions_apart m c p n :
  rtc heap_step (fresh m) c -> c_live c !! p = Some n ->
  p mod 8 = 0 /\ B + 32 <= p /\ p + n <= B + PLATFORM_HEAP_BUF_SIZE /\
  (forall q k, c_live c !! q = Some k -> q <> p -> p + n <= q \/ q + k <= p).
Proof.
  intros Hr Hp. destruct (client_inv_reach m c Hr) as (bs & HR & _ & HO). by apply (live_apart B HB (c_heap c) (c_live c) bs).
Qed.

(** Claim C38: In every heap reached by calls of val_malloc, val_calloc, val_realloc
    and val_free, with sizes that do not wrap, val_malloc returns (no loop in the
    free list, no fault) for every size of 1 to 2^63-9, and val_free returns
    VAL_SUCCESS for every pointer these calls gave that is still live.
    (val_aligned_alloc is not among the calls: val_aligned_alloc_unfreeable.) *)
Theorem calls_return m c :
  rtc heap_step (fresh m) c ->
  (forall size, 0 < size < 2 ^ 63 - 8 -> exists p h', val_malloc B (c_heap c) size = Ret (p, h')) /\
  (forall p n, c_live c !! p = Some n -> exists h', val_free (c_heap c) p = Ret (VAL_SUCCESS, h')).
Proof.
  intros Hr. destruct (client_inv_reach m c Hr) as (bs & HR & HT & HO). split.
  - intros size Hs. destruct (inv_malloc B HB _ _ bs size HR HT HO Hs) as (p & h' & _ & E & _). eauto.
  - intros p n Hp. destruct (inv_free B HB _ _ bs p n HR HT HO Hp) as (h' & _ & E & _). eauto.
Qed.

(** Claim C37: When every allocation made by val_malloc, val_calloc and val_realloc,
    with sizes that do not wrap, has been freed by val_free or val_realloc to size
    0, in whatever order, the heap has coalesced back into one block: a request for
    the whole buffer less one header succeeds at the first address.
    (val_aligned_alloc, which can leak, is not among the calls:
    val_aligned_alloc_leaks.) *)
Theorem heap_no_leak m c :
  rtc heap_step (fresh m) c -> c_live c = ∅ ->
  exists h', val_malloc B (c_heap c) (PLATFORM_HEAP_BUF_SIZE - 32) = Ret (B + 32, h').
Proof.
  intros Hr He. destruct (client_inv_reach m c Hr) as (bs & HR & HT & HO).
  assert (bs = [whole B]) as ->.
  { apply (tidy_whole B HB); [done|]. intros b Hb. destruct (b_used b) eqn:Hu; [|done].
    destruct HO as [_ HO]. destruct (HO b Hb Hu) as [n Hn]. rewrite He in Hn.
    by apply lookup_empty_Some in Hn. }
  destruct (val_malloc_rep B HB _ _ (PLATFORM_HEAP_BUF_SIZE - 32) HR ltac:(done)) as (h' & E & _).
  exists h'. exact E.
Qed.

(** Claim C36: In every heap reached by calls of val_malloc, val_calloc, val_realloc
    and val_free, with sizes that do not wrap: val_realloc of a live region to a
    size of 1 to 2^63-17, in place, into its free neighbours or to another block,
    returns; when the result is not null the first bytes, up to the smaller size,
    are those the region held; when it is null the region keeps its own; no other
    live region changes. It faults exactly when the block is the last one, has room
    for the new size, and is too small to be split. To size 0 it frees the region
    and returns null, no other live region changing; of a null pointer it is
    val_malloc. *)
Theorem val_realloc_correct m c p n :
  rtc heap_step (fresh m) c -> c_live c !! p = Some n ->
  (forall size, 0 < size < 2 ^ 63 - 16 ->
   (realloc_safe (c_heap c) p size = true ->
    exists q h', val_realloc B (c_heap c) p size = Ret (q, h') /\
     (q <> 0 -> forall i, 0 <= i < Z.min n size -> ld8 (hmem h') (q + i) = ld8 (hmem (c_heap c)) (p + i)) /\
     (forall p' n' x, c_live c !! p' = Some n' -> p' <> p \/ q = 0 -> p' <= x < p' + n' ->
        ld8 (hmem h') x = ld8 (hmem (c_heap c)) x)) /\
   (realloc_safe (c_heap c) p size = false -> val_realloc B (c_heap c) p size = Fault)) /\
  (exists h', val_realloc B (c_heap c) p 0 = Ret (0, h') /\ val_free (c_heap c) p = Ret (VAL_SUCCESS, h') /\
     (forall p' n' x, c_live c !! p' = Some n' -> p' <> p -> p' <= x < p' + n' ->
        ld8 (hmem h') x = ld8 (hmem (c_heap c)) x)) /\
  (forall size, val_realloc B (c_heap c) 0 size = val_malloc B (c_heap c) size).
Proof.
  intros Hr Hp. destruct (client_inv_reach m c Hr) as (bs & HR & HT & HO). split; [|split; [|done]].
  - intros size Hs. split; intros Hsafe; [|by eapply client_realloc_faults].
    destruct (inv_realloc B HB _ _ bs p n size HR HT HO Hp Hs Hsafe) as (q & h' & bs' & E & _ & _ & _ & K). eauto.
  - destruct (inv_free B HB _ _ bs p n HR HT HO Hp) as (h' & bs' & E & _ & _ & _ & O & _).
    exists h'. rewrite realloc_zero, E by (by eapply live_not_null). do 2 (split; [done|]).
    intros p' n' x Hp' Hne Hx. by apply (free_keeps (c_heap c) (c_live c) bs h' p' n').
Qed.

(** In every reachable heap, no byte of a live allocation is changed by a later
    val_malloc, nor by a val_free of a different allocation. *)
Theorem live_data_kept m c p n x :
  rtc heap_step (fresh m) c -> c_live c !! p = Some n -> p <= x < p + n ->
  (forall size q h', 0 < size < 2 ^ 63 - 8 -> val_malloc B (c_heap c) size = Ret (q, h') ->
     ld8 (hmem h') x = ld8 (hmem (c_heap c)) x) /\
  (forall q k s h', c_live c !! q = Some k -> q <> p -> val_free (c_heap c) q = Ret (s, h') ->
     ld8 (hmem h') x = ld8 (hmem (c_heap c)) x).
Proof.
  intros Hr Hp Hx. destruct (client_inv_reach m c Hr) as (bs & HR & HT & HO). split.
  - intros size q h' Hs E. by eapply (malloc_keeps B HB).
  - intros q k s h' Hq Hne E. destruct (inv_free B HB _ _ bs q k HR HT HO Hq) as (h2 & bs' & E2 & _ & _ & _ & O & _).
    rewrite E in E2. assert (h2 = h') as -> by congruence.
    by apply (free_keeps (c_heap c) (c_live c) bs h' p n).
Qed.

(** When the product does not overflow, val_calloc returns; a non-null result points
    to nmemb*size zero bytes and no live allocation has changed. *)
Theorem val_calloc_zeroed m c nmemb size :
  rtc heap_step (fresh m) c -> 0 < size -> 0 < nmemb -> nmemb * size < 2 ^ 63 - 8 ->
  exists p h', val_calloc B (c_heap c) nmemb size = Ret (p, h') /\
    (p <> 0 -> forall x, p <= x < p + nmemb * size -> ld8 (hmem h') x = 0) /\
    (forall q n x, c_live c !! q = Some n -> q <= x < q + n ->
       ld8 (hmem h') x = ld8 (hmem (c_heap c)) x).
Proof.
  intros Hr H1 H2 H3. destruct (client_inv_reach m c Hr) as (bs & HR & HT & HO).
  rewrite val_calloc_malloc by done.
  destruct (inv_malloc B HB _ _ bs (nmemb * size) HR HT HO ltac:(nia))
    as (p & h' & bs' & E & HR' & HT' & HC & _).
  rewrite E. cbn [obind]. assert (Hk : forall q n x, c_live c !! q = Some n -> q <= x < q + n ->
    ld8 (hmem h') x = ld8 (hmem (c_heap c)) x).
  { intros q n x Hq Hx. eapply (malloc_keeps B HB); eauto; nia. }
  destruct HC as [(-> & _)|(Hp & Hfr & HO' & b & Hb & Hu & <- & Hsz)].
  { exists 0, h'. cbn [Z.eqb]. repeat split; auto. by intros []. }
  replace (b_ptr b =? 0) with false by lia. eexists _, _. split; [reflexivity|]. cbn [hmem set_hmem].
  split.
  - intros _ x Hx. replace x with (b_ptr b + (x - b_ptr b)) by lia. rewrite memset_loop_spec by lia. done.
  - intros q n x Hq Hx. rewrite <- (Hk q n x) by done. apply memset_loop_frame.
    destruct HO' as [HO' _]. assert (Hne : q <> b_ptr b) by congruence.
    destruct (HO' q n) as (d & Hd & Hdu & <- & Hn); [by rewrite lookup_insert_ne|].
    pose proof (heap_rep_layout B HB _ _ HR') as HL.
    pose proof (hdr_apart _ _ _ b d HL Hb Hd). pose proof (hdr_apart _ _ _ d b HL Hd Hb).
    unfold b_ptr, b_end in *. lia.
Qed.
End Trace.

(** ** Concrete runs *)

Lemma demo_run : exists c, rtc (heap_step (H := sample_val_common) demo_base) (fresh ∅) c /\
  c_live c = {[ demo_base + 32 := 100 ]}.
Proof.
  eexists. split; [eapply rtc_l; [|apply rtc_refl]|].
  - eapply (step_malloc demo_base _ 100); [lia | vm_compute; reflexivity].
  - vm_compute. reflexivity.
Qed.

(** The first region cannot grow in place. *)
Lemma demo_run2_safe : exists c, rtc (heap_step (H := sample_val_common) demo_base) (fresh ∅) c /\
  c_live c = {[ demo_base + 32 := 100; demo_base + 168 := 24 ]} /\ realloc_safe (c_heap c) (demo_base + 32) 200 = true.
Proof.
  eexists. split; [eapply rtc_l; [|eapply rtc_l; [|apply rtc_refl]]|].
  - eapply (step_malloc demo_base _ 100); [lia | vm_compute; reflexivity].
  - eapply (step_malloc demo_base _ 24); [lia | vm_compute; reflexivity].
  - split; vm_compute; reflexivity.
Qed.

Lemma demo_run2 : exists c, rtc (heap_step (H := sample_val_common) demo_base) (fresh ∅) c /\
  c_live c = {[ demo_base + 32 := 100; demo_base + 168 := 24 ]}.
Proof. destruct demo_run2_safe as (c & Hr & Hl & _). by exists c. Qed.

Lemma demo_run_empty : exists c, rtc (heap_step (H := sample_val_common) demo_base) (fresh ∅) c /\ c_live c = ∅.
Proof.
  eexists. split; [eapply rtc_l; [|eapply rtc_l; [|apply rtc_refl]]|].
  - eapply (step_malloc demo_base _ 100); [lia | vm_compute; reflexivity].
  - eapply (step_free demo_base _ (demo_base + 32) 100); [vm_compute; reflexivity | vm_compute; reflexivity].
  - vm_compute. reflexivity.
Qed.

(** A region in front of a used block has to move to grow. *)
Lemma val_realloc_correct_witness :
  exists c q h', rtc (heap_step (H := sample_val_common) demo_base) (fresh ∅) c /\
    c_live c = {[ demo_base + 32 := 100; demo_base + 168 := 24 ]} /\
    @val_realloc sample_val_common demo_base (c_heap c) (demo_base + 32) 200 = Ret (q, h') /\
    (q <> 0 -> ld8 (hmem h') (q + 99) = ld8 (hmem (c_heap c)) (demo_base + 131)).
Proof.
  destruct demo_run2_safe as (c & Hr & Hl & Hs).
  destruct (val_realloc_correct demo_base demo_base_ok ∅ c (demo_base + 32) 100 Hr) as [K _].
  - rewrite Hl. reflexivity.
  - destruct (K 200 ltac:(lia)) as [K' _]. destruct (K' Hs) as (q & h' & E & Hb & _). exists c, q, h'. split; [exact Hr|]. split; [exact Hl|]. split; [exact E|].
    intros Hq. apply (Hb Hq 99). lia.
Defined.

Lemma live_regions_apart_witness :
  exists c, rtc (heap_step (H := sample_val_common) demo_base) (fresh ∅) c /\
    c_live c !! (demo_base + 32) = Some 100 /\ (demo_base + 32) mod 8 = 0 /\
    (demo_base + 32 + 100 <= demo_base + 168 \/ demo_base + 168 + 24 <= demo_base + 32).
Proof.
  destruct demo_run2 as (c & Hr & Hl). exists c. split; [exact Hr|].
  assert (H1 : c_live c !! (demo_base + 32) = Some 100) by (rewrite Hl; reflexivity).
  destruct (live_regions_apart demo_base demo_base_ok ∅ c (demo_base + 32) 100 Hr H1) as (Hm & _ & _ & Hd).
  split; [exact H1|]. split; [exact Hm|]. apply Hd; [rewrite Hl; reflexivity | done].
Defined.

Lemma calls_return_witness :
  exists c, rtc (heap_step (H := sample_val_common) demo_base) (fresh ∅) c /\
    (exists p h', val_malloc demo_base (c_heap c) 4096 = Ret (p, h')) /\
    (exists h', @val_free sample_val_common (c_heap c) (demo_base + 32) = Ret (0, h')).
Proof.
  destruct demo_run as (c & Hr & Hl). exists c. split; [exact Hr|].
  destruct (calls_return demo_base demo_base_ok ∅ c Hr) as [Hm Hf]. split; [apply Hm; lia|].
  apply (Hf (demo_base + 32) 100). rewrite Hl. reflexivity.
Defined.

Lemma heap_no_leak_witness :
  exists c, rtc (heap_step (H := sample_val_common) demo_base) (fresh ∅) c /\ c_live c = ∅ /\
    exists h', val_malloc demo_base (c_heap c) (PLATFORM_HEAP_BUF_SIZE - 32) = Ret (demo_base + 32, h').
Proof.
  destruct demo_run_empty as (c & Hr & Hl). exists c. split; [exact Hr|]. split; [exact Hl|].
  exact (heap_no_leak demo_base demo_base_ok ∅ c Hr Hl).
Defined.

Lemma live_data_kept_witness :
  exists c, rtc (heap_step (H := sample_val_common) demo_base) (fresh ∅) c /\
    forall s h', @val_free sample_val_common (c_heap c) (demo_base + 168) = Ret (s, h') ->
      ld8 (hmem h') (demo_base + 40) = ld8 (hmem (c_heap c)) (demo_base + 40).
Proof.
  destruct demo_run2 as (c & Hr & Hl). exists c. split; [exact Hr|]. intros s h' E.
  destruct (live_data_kept demo_base demo_base_ok ∅ c (demo_base + 32) 100 (demo_base + 40) Hr) as [_ Hf].
  - rewrite Hl. reflexivity.
  - vm_compute. split; [discriminate | reflexivity].
  - apply (Hf (demo_base + 168) 24 s h'); [rewrite Hl; reflexivity | done | exact E].
Defined.

Lemma val_calloc_zeroed_witness :
  exists c p h', rtc (heap_step (H := sample_val_common) demo_base) (fresh ∅) c /\
    val_calloc demo_base (c_heap c) 4 16 = Ret (p, h').
Proof.
  destruct demo_run as (c & Hr & Hl).
  destruct (val_calloc_zeroed demo_base demo_base_ok ∅ c 4 16 Hr) as (p & h' & E & _); [lia..|].
  exists c, p, h'. split; [exact Hr | exact E].
Defined.
