(* ===== verification/MallocReport.v ===== *)
(** * The heap report ([val_malloclib_visualize] of val_malloc.c)

    The report walks the buffer by address, from each header to the place where
    the next one must be, while the allocator follows the links in the headers.
    On every heap a client can reach the two agree: the report is complete, and it
    names as used exactly what the client holds. *)

From S2P Require Import Prelude ValCommon CMem Libc Malloc MallocSpec MallocProof MallocCorrect MallocClient MallocRealloc MallocTrace.

(** One line of the report: the arguments of the [LOG] in the loop. *)
Record block_line := BlockLine { bl_index : Z; bl_block : Z; bl_size : Z; bl_free : bool; bl_magic : Z }.

Fixpoint visualize_loop (fuel : nat) (m : mem) (heap_end block index : Z) : outcome (list block_line) :=
  if negb (block <? heap_end) then Ret []
  else match fuel with
  | O => Diverge
  | S fuel' =>
      let line := BlockLine index block (rd_size m block) (negb (rd_free m block =? 0)) (rd_magic m block) in
      let next := u64 (u64 (block + BLOCK_SIZE) + rd_size m block) in
      if heap_end <=? next then Ret [line]
      else let! lines := visualize_loop fuel' m heap_end next (index + 1) in Ret (line :: lines)
  end.

(** No lines when the heap is not initialised. *)
Definition val_malloclib_visualize (heap_base : Z) (h : heap) : outcome (list block_line) :=
  let heap := pal_get_heap_buffer heap_base in
  if initialized h =? 0 then Ret []
  else visualize_loop heap_fuel (hmem h) (u64 (heap + PLATFORM_HEAP_BUF_SIZE)) heap 0.

(** The line of a block of the abstract heap. *)
Definition line_of (i : Z) (b : ablk) : block_line :=
  BlockLine i (b_addr b) (b_size b) (negb (b_used b)) BLOCK_VALID_MAGIC.

Lemma tiled_nonempty lo bs hi : tiled lo bs hi -> lo < hi -> exists b r, bs = b :: r.
Proof. destruct bs as [|b r]; [cbn; lia|]. eauto. Qed.

Lemma tiled_le lo bs hi : tiled lo bs hi -> lo + 32 * Z.of_nat (length bs) <= hi.
Proof.
  revert lo; induction bs as [|b bs IH]; intros lo; cbn [tiled length]; [lia|].
  intros (<- & H0 & HT%IH). unfold b_end in HT. lia.
Qed.

(** The walk visits the blocks that tile the rest of the buffer. *)
Lemma visualize_loop_tiled hi m : hi < 2 ^ 63 -> forall bs fuel lo p i,
  (length bs <= fuel)%nat -> 0 < lo -> seg m p bs 0 -> tiled lo bs hi -> lo < hi ->
  visualize_loop fuel m hi lo i = Ret (imap (fun k b => line_of (i + Z.of_nat k) b) bs).
Proof.
  intros Hhi. induction bs as [|b bs IH]; intros fuel lo p i Hf Hlo HS HT Hlt; [cbn in HT; lia|].
  destruct fuel as [|fuel]; [cbn in Hf; lia|]. destruct HT as (<- & H0 & HT).
  destruct HS as [(Hm & Hfr & Hz & Hn & _) HS]. cbn [visualize_loop].
  pose proof (tiled_le _ _ _ HT) as Hle. rewrite (proj2 (Z.ltb_lt _ _) Hlt). cbn [negb].
  rewrite Hm, Hfr, Hz, BLOCK_SIZE_val. unfold b_end in *.
  rewrite (uwrap_small 64 (b_addr b + 32)), (uwrap_small 64 (_ + b_size b)) by lia.
  replace (negb ((if b_used b then 0 else 1) =? 0)) with (negb (b_used b)) by (by destruct (b_used b)).
  cbn [imap]. rewrite Z.add_0_r. fold (line_of i b).
  destruct (Z.leb_spec hi (b_addr b + 32 + b_size b)) as [Hend|Hend].
  - destruct bs as [|c bs]; [done|]. cbn [tiled] in HT. destruct HT as (Hc & Hc0 & HT%tiled_le).
    unfold b_end in HT. lia.
  - erewrite IH; [|cbn in Hf; lia|lia|exact HS|exact HT|lia]. cbn [obind]. do 2 f_equal.
    apply imap_ext. intros k c _. unfold compose. f_equal. lia.
Qed.

(** In every state a client of the allocator reaches, the heap report of
    val_malloclib_visualize is complete: its lines tile the buffer from the first
    byte to the last, all carry the valid magic number, no two neighbours are free,
    and the lines of used blocks are those in front of the regions the client holds. *)
Theorem report_complete `{ValCommon} B m c :
  heap_base_ok B -> rtc (heap_step B) (fresh m) c -> initialized (c_heap c) <> 0 ->
  exists bs, val_malloclib_visualize B (c_heap c) = Ret (imap (fun k b => line_of (Z.of_nat k) b) bs) /\
    tiled B bs (B + PLATFORM_HEAP_BUF_SIZE) /\ compact bs = true /\
    (forall p, is_Some (c_live c !! p) <-> exists b, b ∈ bs /\ b_used b = true /\ b_ptr b = p).
Proof.
  intros HB Hr Hi. destruct (client_inv_reach B HB m c Hr) as (bs & HR & [HT HK] & HO1 & HO2).
  exists bs. destruct HR as [[HR _]|(_ & _ & HM)]; [done|].
  destruct (heap_base_bounds B HB) as (Hlo & Hhi & _). split; [|split; [exact HT | split; [exact HK|]]].
  - unfold val_malloclib_visualize, pal_get_heap_buffer. rewrite (proj2 (Z.eqb_neq _ _) Hi).
    fold (heap_limit B). unfold heap_limit, PLATFORM_HEAP_BUF_SIZE in *.
    rewrite uwrap_small by lia. apply (visualize_loop_tiled _ _ Hhi bs _ _ 0 0).
    + apply (mem_rep_chain B) in HM as [_ HC]. pose proof (chain_fuel B (heap_limit B)) as HF.
      unfold heap_limit, PLATFORM_HEAP_BUF_SIZE in HF. specialize (HF ltac:(lia)). 
      apply Nat.lt_le_incl. eapply HF. exact HC.
    + lia.
    + apply HM.
    + exact HT.
    + lia.
  - intros p. split.
    + intros [n Hn]. destruct (HO1 p n Hn) as (b & Hb & Hu & Hp & _). eauto.
    + intros (b & Hb & Hu & <-). by apply HO2.
Qed.

(** One region of 100 bytes: a used block of 104 and the free rest. *)
Lemma report_complete_witness :
  exists c bs, rtc (heap_step (H := sample_val_common) demo_base) (fresh ∅) c /\
    val_malloclib_visualize demo_base (c_heap c) = Ret (imap (fun k b => line_of (Z.of_nat k) b) bs) /\
    bs = [ABlk 65536 104 true; ABlk 65672 524120 false].
Proof.
  assert (E : exists p h, val_malloc demo_base (c_heap (fresh ∅)) 100 = Ret (p, h) /\
                initialized h = 1 /\ val_malloclib_visualize demo_base h =
                  Ret [line_of 0 (ABlk 65536 104 true); line_of 1 (ABlk 65672 524120 false)]).
  { do 2 eexists. split; [vm_compute; reflexivity|]. split; vm_compute; reflexivity. }
  destruct E as (p & h & E & Ei & EV).
  pose (c := Client h (if p =? 0 then ∅ else <[p := 100]> ∅)).
  assert (Hr : rtc (heap_step (H := sample_val_common) demo_base) (fresh ∅) c).
  { eapply rtc_l; [|apply rtc_refl]. unfold c. apply (step_malloc demo_base (fresh ∅) 100 p h); [lia | exact E]. }
  destruct (report_complete demo_base ∅ c demo_base_ok Hr) as (bs & EB & _); [cbn; lia|].
  exists c, bs. split; [exact Hr|]. split; [exact EB|].
  cbn [c c_heap] in EB. rewrite EV in EB. injection EB as EB.
  destruct bs as [|[a1 s1 u1] [|[a2 s2 u2] [|]]]; try discriminate EB. cbn in EB.
  injection EB as -> -> E1 -> -> E2. by destruct u1, u2.
Defined.
