(* ===== verification/MallocAligned.v ===== *)
(** * Aligned allocation ([val_aligned_alloc] of val_malloc.c)

    The tests take their page buffers from [val_aligned_alloc].  It is first fit
    like [val_malloc], with the space in front of the aligned pointer split off.
    When the space in front of the pointer is empty or has room for a header, the
    call refines the abstract heap; a client that asks for pages only never meets
    the other case. *)

From S2P Require Import Prelude ValCommon CMem Libc Malloc MallocSpec MallocProof MallocCorrect MallocClient MallocRealloc MallocTrace.

(** ** The abstract operation *)

(** The distance of the first aligned payload from the payload of the block. *)
Definition lead (al : Z) (b : ablk) : Z := (- b_ptr b) mod al.

Definition fits_al (al size : Z) (b : ablk) : bool := negb (b_used b) && (lead al b + size <=? b_size b).

(** The free block [b] is taken for [size] bytes.  Up to 40 bytes behind them are
    given up. *)
Definition take_front (size : Z) (b : ablk) : list ablk :=
  ABlk (b_addr b) size true ::
  if size + 40 <? b_size b then [ABlk (b_addr b + 32 + size) (b_size b - size - 32) false] else [].

(** Without the first [n] bytes, which become the payload of a block of their own. *)
Definition drop_front (n : Z) (b : ablk) : ablk := ABlk (b_addr b + n) (b_size b - n) (b_used b).

Definition place (al size : Z) (b : ablk) : list ablk :=
  if 32 <=? lead al b
  then ABlk (b_addr b) (lead al b - 32) false :: take_front size (drop_front (lead al b) b)
  else take_front size b.

Fixpoint aaligned (al size : Z) (bs : list ablk) : Z * list ablk :=
  match bs with
  | [] => (0, [])
  | b :: bs' =>
      if fits_al al size b then (b_ptr b + lead al b, place al size b ++ bs')
      else let '(p, r) := aaligned al size bs' in (p, b :: r)
  end.

(** The block is used, or a header fits in front of its aligned payload, or the two
    payloads are the same. *)
Definition clean (al : Z) (b : ablk) : Prop := b_used b = true \/ lead al b = 0 \/ 32 <= lead al b.

Lemma aaligned_cases al size bs :
  (aaligned al size bs = (0, bs) /\ Forall (fun b => fits_al al size b = false) bs) \/
  (exists l b r, bs = l ++ b :: r /\ fits_al al size b = true /\
     aaligned al size bs = (b_ptr b + lead al b, l ++ place al size b ++ r)).
Proof.
  induction bs as [|b bs IH]; [left; split; [done | constructor]|]. cbn [aaligned].
  destruct (fits_al al size b) eqn:Hf.
  - right. exists [], b, bs. repeat split; auto.
  - destruct IH as [[-> IH]|(l & c & r & -> & Hc & ->)]; [left; auto|].
    right. exists (b :: l), c, r. repeat split; auto.
Qed.

(** ** Headers *)

Section Chain.
Context (lo hi : Z) (Hlo : 32 <= lo) (Hhi : hi < 2 ^ 63).
Abbreviation chain := (chain lo hi).

(** Giving up the end of a block. *)
Lemma chain_shrink m l b r size :
  chain m (l ++ b :: r) -> 0 <= size <= b_size b -> size mod 8 = 0 ->
  chain (wr_size m (b_addr b) size) (l ++ ABlk (b_addr b) size (b_used b) :: r).
Proof.
  intros HC Hs H8. apply (chain_around lo hi) in HC as []. destruct ar_h as (Hm & Hf & Hz & Hn & Hp).
  unfold b_end in *. assert (F : frame (b_addr b) 32 m (wr_size m (b_addr b) size)) by (intros x Hx; rdwr; memsimp; done).
  apply (chain_around lo hi). constructor; unfold b_end; cbn [b_addr b_size b_used]; auto; try lia.
  - eapply layout_weaken; [|exact ar_r]. lia.
  - eapply (seg_frame m); [exact ar_l | done | exact F | lia].
  - unfold hdr_ok. cbn [b_addr b_size b_used]. rdwr. hsimp. repeat split; auto.
  - eapply (seg_frame m); [exact ar_r | done | exact F | lia].
Qed.

(** The stores behind the search, on the block that is handed out. *)
Definition take_mem (m : mem) (b size : Z) : mem :=
  wr_free (wr_size (if uwrap 64 (uwrap 64 (size + BLOCK_SIZE) + ALIGNMENT) <? rd_size m b then val_split m b size else m)
             b size) b 0.

Lemma take_front_chain m l b r size :
  chain m (l ++ b :: r) -> 0 <= size <= b_size b -> size mod 8 = 0 ->
  chain (take_mem m (b_addr b) size) (l ++ take_front size b ++ r) /\
  only_hdrs (map b_addr (l ++ take_front size b ++ r)) m (take_mem m (b_addr b) size).
Proof.
  intros HC Hs H8. pose proof HC as HA. apply (chain_around lo hi) in HA as []. destruct ar_h as (_ & _ & Hz & _).
  unfold b_end in *. unfold take_mem, take_front. rewrite Hz, BLOCK_SIZE_val. unfold ALIGNMENT. usmall.
  replace (size + 32 + 8) with (size + 40) by lia.
  assert (K : forall m1 c r1, chain m1 (l ++ c :: r1) -> b_addr c = b_addr b -> size <= b_size c ->
            chain (wr_free (wr_size m1 (b_addr b) size) (b_addr b) 0) (l ++ ABlk (b_addr b) size true :: r1) /\
            only_hdrs (map b_addr (l ++ ABlk (b_addr b) size true :: r1)) m1
              (wr_free (wr_size m1 (b_addr b) size) (b_addr b) 0)).
  { intros m1 c r1 C1 E1 S1. rewrite <- E1. split.
    - apply (chain_shrink _ _ _ _ size) in C1; [|lia|done].
      exact (chain_set_free lo hi _ _ (ABlk (b_addr c) size (b_used c)) _ true C1).
    - apply (only_hdrs_frame (b_addr c)); [in_hdrs|]. intros x Hx. rdwr. memsimp. done. }
  destruct (Z.ltb_spec (size + 40) (b_size b)) as [Hlt|Hge]; [|by apply (K m b r HC eq_refl); lia].
  destruct (asplit_chain lo hi Hlo Hhi m l b r size) as [C1 O1]; [done | lia | done|].
  unfold asplit in C1, O1. rewrite (proj2 (Z.leb_le _ _)) in C1, O1 by lia. cbn [app] in *.
  destruct (K _ _ _ C1 eq_refl (Z.le_refl _)) as [C2 O2]. split; [exact C2|].
  eapply only_hdrs_trans; [|exact O2]. rewrite !map_app in *. exact O1.
Qed.

Context (k : Z) (Hk : 3 <= k <= 62).
Abbreviation al := (2 ^ k).

Lemma al_bounds : 8 <= al <= 2 ^ 62 /\ al mod 8 = 0.
Proof.
  split; [split; [change 8 with (2 ^ 3) | ]; apply Z.pow_le_mono_r; lia|].
  replace k with (3 + (k - 3)) by lia. rewrite Z.pow_add_r by lia. change (2 ^ 3) with 8.
  rewrite Z.mul_comm. by apply Z.mod_mul.
Qed.

Lemma lead_bounds b : 0 <= lead al b < al.
Proof. pose proof al_bounds. apply Z.mod_pos_bound. lia. Qed.
Lemma lead_mod8 b : b_addr b mod 8 = 0 -> lead al b mod 8 = 0.
Proof.
  intros Hb. unfold lead, b_ptr. pose proof al_bounds as [? H8].
  apply Z.mod_divide in H8 as [q Hq]; [|lia]. apply Z.mod_divide in Hb as [p Hp]; [|lia].
  rewrite (Z.mod_eq _ al) by lia. set (d := _ / al). apply Z.mod_divide; [lia|].
  exists (- p - 4 - q * d). lia.
Qed.
Lemma lead_aligned b : (b_ptr b + lead al b) mod al = 0.
Proof.
  pose proof al_bounds. unfold lead. rewrite Z.add_mod_idemp_r by lia. by rewrite Z.add_opp_diag_r.
Qed.

(** [ALIGN_TO] rounds up. *)
Lemma ALIGN_TO_lead b : 0 <= b_addr b < 2 ^ 63 -> ALIGN_TO (b_ptr b) al = b_ptr b + lead al b.
Proof.
  intros Hb. pose proof al_bounds as [Ha _]. pose proof (lead_bounds b). pose proof (lead_aligned b) as HA.
  unfold b_ptr in *. rewrite ALIGN_TO_eq by lia. rewrite uwrap_small by lia.
  set (x := b_addr b + 32) in *. set (y := lead al b) in *.
  assert (E : (x + al - 1) mod al = al - 1 - y).
  { replace (x + al - 1) with ((x + y) + (al - 1 - y)) by lia. rewrite Z.add_mod, HA, Z.add_0_l by lia.
    rewrite Z.mod_mod by lia. apply Z.mod_small. lia. }
  rewrite E. lia.
Qed.

Lemma aligned_loop_chain r l m size fuel :
  (length r < fuel)%nat -> chain m (l ++ r) -> 0 < size < 2 ^ 62 -> size mod 8 = 0 -> Forall (clean al) r ->
  let '(p, r') := aaligned al size r in
  exists m', aligned_loop fuel m (hd_addr 0 r) al size = Ret (p, m') /\
             chain m' (l ++ r') /\ only_hdrs (map b_addr (l ++ r')) m m'.
Proof.
  revert l m fuel; induction r as [|b r IH]; intros l m fuel Hf HC Hs H8 Hcl;
    (destruct fuel as [|fuel]; [simpl in *; lia|]).
  { exists m. split; [done|]. split; [done | apply only_hdrs_refl]. }
  pose proof HC as HA. apply (chain_around lo hi) in HA as [].
  destruct ar_h as (_ & Hfr & Hz & Hn & _). unfold b_end in *. apply List.Forall_cons_iff in Hcl as [Hb Hcl].
  cbn [aligned_loop aaligned hd_addr]. replace (b_addr b =? 0) with false by lia. rewrite Hfr, Hz.
  pose proof (lead_bounds b) as HL. pose proof al_bounds as [Hal _].
  replace ((if b_used b then 0 else 1) =? 0) with (b_used b) by (by destruct (b_used b)). unfold fits_al.
  assert (HN : exists p r', aaligned al size r = (p, r') /\ exists m', aligned_loop fuel m (rd_next m (b_addr b)) al size = Ret (p, m') /\
             chain m' (l ++ b :: r') /\ only_hdrs (map b_addr (l ++ b :: r')) m m').
  { specialize (IH (l ++ [b]) m fuel). rewrite Hn. destruct (aaligned al size r) as [p r'].
    rewrite <- app_assoc in IH. destruct IH as (m' & E & C & O); [simpl in *; lia|done..|].
    rewrite <- app_assoc in C, O. exists p, r'. split; [done|]. exists m'. done. }
  destruct (b_used b) eqn:Hu; cbn [negb andb].
  { destruct HN as (p & r' & -> & m' & E & C & O). eauto. }
  rewrite BLOCK_SIZE_val, (uwrap_small 64 (b_addr b + 32)) by lia. fold (b_ptr b). rewrite ALIGN_TO_lead by lia.
  assert (HP : b_ptr b = b_addr b + 32) by done.
  rewrite (uwrap_small 64 (b_ptr b + lead al b - 32)), (uwrap_small 64 (b_ptr b + lead al b + size)) by lia.
  rewrite (uwrap_small 64 (b_ptr b + lead al b + size - b_addr b)), (uwrap_small 64 (b_size b + 32)) by lia.
  replace (b_ptr b + lead al b + size - b_addr b <=? b_size b + 32) with (lead al b + size <=? b_size b) by lia.
  destruct (Z.leb_spec (lead al b + size) (b_size b)) as [Hfit|Hfit].
  2:{ destruct HN as (p & r' & -> & m' & E & C & O). eauto. }
  assert (HS : sint 64 (b_ptr b + lead al b - 32) - sint 64 (b_addr b) = lead al b).
  { unfold sint. rewrite !(proj2 (Z.ltb_lt _ _)) by (change (64 - 1) with 63; lia). lia. }
  rewrite HS. replace (if 0 <? lead al b then lead al b else 0) with (lead al b)
    by (destruct (Z.ltb_spec 0 (lead al b)); lia).
  assert (Hsz : 8 <= size) by (Z.div_mod_to_equations; lia).
  rewrite (uwrap_small 64 (b_ptr b + lead al b - 32 + 32)) by lia.
  replace (b_ptr b + lead al b - 32 + 32) with (b_ptr b + lead al b) by lia.
  unfold place. destruct (Z.leb_spec 32 (lead al b)) as [Hlead|Hlead].
  - rewrite (uwrap_small 64 (lead al b - 32)) by lia.
    destruct (asplit_chain lo hi Hlo Hhi m l b r (lead al b - 32)) as [C1 O1]; [done | lia | |].
    { pose proof (lead_mod8 b ar_al). Z.div_mod_to_equations; lia. }
    set (m1 := val_split m (b_addr b) (lead al b - 32)) in *.
    unfold asplit in C1, O1. rewrite (proj2 (Z.leb_le _ _)) in C1, O1 by lia. cbn [app] in *. rewrite Hu in C1, O1.
    replace (ABlk (b_addr b + 32 + (lead al b - 32)) (b_size b - (lead al b - 32) - 32) false)
      with (drop_front (lead al b) b) in * by (unfold drop_front; rewrite Hu; f_equal; lia).
    set (x := ABlk (b_addr b) (lead al b - 32) false) in *. set (y := drop_front (lead al b) b) in *.
    assert (Enx : rd_next m1 (b_addr b) = b_addr y).
    { apply (chain_around lo hi) in C1 as []. by destruct ar_h as (_ & _ & _ & En & _). }
    rewrite Enx. replace (b_addr y =? 0) with false by (cbn; lia).
    change (x :: y :: r) with ([x] ++ y :: r) in *. rewrite app_assoc in C1, O1.
    destruct (take_front_chain m1 (l ++ [x]) y r size C1) as [C2 O2]; [cbn; lia | done|].
    eexists. split; [reflexivity|]. fold (take_mem m1 (b_addr y) size). rewrite <- !app_assoc in *. cbn [app] in *.
    split; [exact C2|]. eapply only_hdrs_trans; [|exact O2]. eapply only_hdrs_mono; [|exact O1].
    rewrite !map_app. cbn [map app]. rewrite !map_app. cbn [map take_front b_addr].
    intros z. rewrite !elem_of_app, !elem_of_cons, !elem_of_app, !elem_of_cons. tauto.
  - assert (E0 : lead al b = 0) by (destruct Hb as [Hb|[Hb|Hb]]; [congruence | done | lia]).
    replace (b_addr b =? 0) with false by lia.
    destruct (take_front_chain m l b r size HC) as [C2 O2]; [lia | done|].
    eexists. split; [reflexivity|]. fold (take_mem m (b_addr b) size). split; [exact C2 | exact O2].
Qed.
End Chain.

Section Correct.
Context `{ValCommon} (B : Z) (HB : heap_base_ok B).

Lemma hd_addr_aaligned al size bs : hd_addr 0 (aaligned al size bs).2 = hd_addr 0 bs.
Proof.
  destruct (aaligned_cases al size bs) as [[-> _]|(l & b & r & -> & _ & ->)]; [done|]. cbn [snd].
  rewrite !hd_addr_app. unfold place, take_front. by case_match.
Qed.

Lemma ALIGN_same size : 0 <= size < 2 ^ 62 -> size mod 8 = 0 -> ALIGN size = size.
Proof. intros Hs H8. destruct (ALIGN_spec size) as [Ha Hb]; [lia|]. Z.div_mod_to_equations; lia. Qed.

Lemma pow2_mod8 k size : 3 <= k <= 62 -> size mod 2 ^ k = 0 -> size mod 8 = 0.
Proof.
  intros Hk Hs. destruct (al_bounds k Hk) as [Ha H8]. apply Z.mod_divide in Hs as [q ->]; [|lia].
  apply Z.mod_divide in H8 as [p ->]; [|lia]. replace (q * (p * 8)) with (q * p * 8) by lia. by apply Z.mod_mul.
Qed.

Lemma val_aligned_alloc_rep h bs k size :
  heap_rep B h bs -> 3 <= k <= 62 -> 0 < size < 2 ^ 62 -> size mod 2 ^ k = 0 -> Forall (clean (2 ^ k)) bs ->
  exists h', val_aligned_alloc B h (2 ^ k) size = Ret ((aaligned (2 ^ k) size bs).1, h') /\
             heap_rep B h' (aaligned (2 ^ k) size bs).2 /\
             only_hdrs (map b_addr (aaligned (2 ^ k) size bs).2) (hmem h) (hmem h').
Proof.
  intros HR Hk Hs Hm Hcl. pose proof (heap_base_bounds B HB) as (Hlo & Hhi & Hbuf & _).
  pose proof (al_bounds k Hk) as [Ha _]. pose proof (pow2_mod8 k size Hk Hm) as H8.
  destruct (ensure_init_rep B HB h bs HR) as (h1 & E1 & I1 & F1 & [Hd HC] & O1).
  pose proof (aligned_loop_chain B (heap_limit B) Hlo Hhi k Hk bs [] (hmem h1) size heap_fuel) as HM.
  pose proof (hd_addr_aaligned (2 ^ k) size bs) as Hhd.
  destruct (aaligned (2 ^ k) size bs) as [p bs'].
  destruct HM as (m' & E & C & O); [by eapply chain_fuel | done..|].
  exists (set_hmem h1 m'). unfold val_aligned_alloc. rewrite (proj2 (Z.ltb_ge _ _)) by lia.
  rewrite (uwrap_small 64 (2 ^ k - 1)) by lia.
  assert (EL : Z.land (2 ^ k) (2 ^ k - 1) = 0).
  { rewrite <- ones_pow2, Z.land_ones by lia. apply Z.mod_same. lia. }
  rewrite EL, Hm, (ALIGN_same size) by (done || lia). cbn [Z.eqb negb orb]. rewrite E1. cbn [obind].
  rewrite F1. rewrite Hd in E. rewrite E. split; [done|]. cbn [snd] in *. rewrite Hd in Hhd.
  split; [right; split; [exact I1|]; split; [exact F1|]; split; [exact Hhd | exact C]|].
  eapply only_hdrs_trans; [|exact O]. apply (only_hdrs_frame B); [|done].
  destruct bs' as [|b bs']; cbn [hd_addr] in Hhd; [lia|]. cbn [map]. rewrite Hhd. apply elem_of_cons. by left.
Qed.

(** The region that is handed out. *)
Definition region (al size : Z) (b : ablk) : ablk := ABlk (b_addr b + lead al b) size true.

(** The used blocks after the call are the old ones and the new one. *)
Lemma place_used al size b x :
  clean al b -> b_used b = false -> b_used x = true -> x ∈ place al size b <-> x = region al size b.
Proof.
  intros Hc Hu Hx. unfold place, region, take_front, drop_front. destruct Hc as [Hc|Hc]; [congruence|].
  destruct (Z.leb_spec 32 (lead al b)) as [Hl|Hl].
  - cbn [b_addr b_size]. rewrite elem_of_cons, elem_of_cons. split; [|auto].
    intros [->|[->|Hn]]; [done | done|]. case_match; [|by apply not_elem_of_nil in Hn].
    apply list_elem_of_singleton in Hn as ->. done.
  - destruct Hc as [->|Hc]; [|lia]. rewrite Z.add_0_r, elem_of_cons. split; [|auto].
    intros [->|Hn]; [done|]. case_match; [|by apply not_elem_of_nil in Hn].
    apply list_elem_of_singleton in Hn as ->. done.
Qed.

Lemma aaligned_used al size l b r x :
  clean al b -> fits_al al size b = true -> b_used x = true ->
  x ∈ l ++ place al size b ++ r <-> x ∈ l ++ b :: r \/ x = region al size b.
Proof.
  intros Hc [Hu%negb_true_iff _]%andb_true_iff Hx. pose proof (place_used al size b x Hc Hu Hx) as HP.
  rewrite !elem_of_app, elem_of_cons. split; [tauto|]. intros [[?|[->|?]]|?]; [tauto | congruence | tauto..].
Qed.

(** Claim C4: On a well-formed heap, for every power of two from 8 on and every
    multiple of it below 2^62, val_aligned_alloc run on the byte memory returns the
    address the search on the abstract block list gives (0 when no block fits),
    aligned as asked; the memory then represents the abstract result, with the space
    before the header and behind the region split off as free blocks, and every used
    block keeps its contents. Blocks whose aligned address lies within a header of
    their data pointer, where the code misbehaves, are excluded. *)
Theorem val_aligned_alloc_refines h bs k size :
  heap_rep B h bs -> 3 <= k <= 62 -> 0 < size < 2 ^ 62 -> size mod 2 ^ k = 0 -> Forall (clean (2 ^ k)) bs ->
  exists p h', val_aligned_alloc B h (2 ^ k) size = Ret (p, h') /\ p = (aaligned (2 ^ k) size bs).1 /\ p mod 2 ^ k = 0 /\
    heap_rep B h' (aaligned (2 ^ k) size bs).2 /\ kept bs (hmem h) (hmem h').
Proof.
  intros HR Hk Hs Hm Hcl. destruct (val_aligned_alloc_rep h bs k size HR Hk Hs Hm Hcl) as (h' & E & HR' & O).
  eexists _, h'. split; [exact E|]. split; [done|].
  destruct (aaligned_cases (2 ^ k) size bs) as [[Ea _]|(l & c & r & Eb & Hc & Ea)]; rewrite Ea in *; cbn [fst snd] in *.
  - split; [by apply Z.mod_0_l; destruct (al_bounds k Hk); lia|]. split; [done|]. intros b x Hb Hu Hx.
    eapply payload_kept; [by apply (heap_rep_layout B HB h') | done..].
  - split; [by apply lead_aligned|]. split; [done|]. intros b x Hb Hu Hx.
    eapply payload_kept; [by apply (heap_rep_layout B HB h') | done | | done].
    rewrite Forall_forall in Hcl. apply aaligned_used; [|done | done | left; by rewrite <- Eb].
    apply Hcl. rewrite Eb. apply list_elem_of_In. set_solver.
Qed.
End Correct.

(** ** Clients that ask for pages

    The endpoints take the buffers they share and register from the heap by whole
    pages.  In the heap of such a client every block begins at the start of a page
    or 32 bytes before the next, so no call meets an unclean block, and none gives
    bytes up. *)

Lemma place_compact al size l b r :
  compact (l ++ b :: r) = true -> b_used b = false -> compact (l ++ place al size b ++ r) = true.
Proof.
  rewrite !compact_app. cbn [compact free_hd]. intros HC Hu. rewrite Hu in HC. cbn [orb negb] in HC.
  rewrite andb_true_r in HC. apply andb_true_iff in HC as [[HL [HR1 HR2]%andb_true_iff]%andb_true_iff HF].
  rewrite HL. rewrite negb_true_iff in HR1, HF. rewrite HF. cbn [andb negb]. rewrite andb_true_r.
  unfold place, take_front, drop_front. do 2 case_match; cbn; by rewrite ?HR1, HR2.
Qed.

Section Pages.
Context `{ValCommon} (B : Z).

Inductive page_step : client -> client -> Prop :=
| page_alloc c n p h' :
    0 < n < 2 ^ 50 -> val_aligned_alloc B (c_heap c) 4096 (n * 4096) = Ret (p, h') ->
    page_step c (Client h' (if p =? 0 then c_live c else <[p := n * 4096]> (c_live c)))
| page_free c p n s h' :
    c_live c !! p = Some n -> val_free (c_heap c) p = Ret (s, h') ->
    page_step c (Client h' (delete p (c_live c)))
| page_store c p n x v :
    c_live c !! p = Some n -> p <= x < p + n ->
    page_step c (Client (set_hmem (c_heap c) (st8 (hmem (c_heap c)) x v)) (c_live c)).

(** An address at which a block can begin. *)
Definition page_addr (a : Z) : Prop := a mod 4096 = 0 \/ a mod 4096 = 4064.
Definition paged (bs : list ablk) : Prop := forall a, a ∈ map b_addr bs -> page_addr a.

Lemma lead_page b : page_addr (b_addr b) ->
  (b_addr b mod 4096 = 0 /\ lead 4096 b = 4064) \/ (b_addr b mod 4096 = 4064 /\ lead 4096 b = 0).
Proof. unfold lead, b_ptr. intros [E|E]; [left | right]; (split; [done|]); Z.div_mod_to_equations; lia. Qed.

Lemma paged_clean bs : paged bs -> Forall (clean 4096) bs.
Proof.
  intros HP. apply Forall_forall. intros b Hb. right.
  destruct (lead_page b) as [[_ E]|[_ E]]; [|lia..]. apply HP, list_elem_of_fmap. exists b.
  split; [done | by apply list_elem_of_In].
Qed.

(** Taking pages from a block leaves no gap and only blocks at page addresses. *)
Lemma place_pages b r hi n :
  page_addr (b_addr b) -> page_addr (b_end b) -> 0 < n -> lead 4096 b + n * 4096 <= b_size b -> tiled (b_end b) r hi ->
  tiled (b_addr b) (place 4096 (n * 4096) b ++ r) hi /\ paged (place 4096 (n * 4096) b).
Proof.
  intros HA HE Hn Hfit HT.
  assert (KT : forall c, b_end c = b_end b -> b_addr c mod 4096 = 4064 -> n * 4096 <= b_size c ->
            tiled (b_addr c) (take_front (n * 4096) c ++ r) hi /\ paged (take_front (n * 4096) c)).
  { intros c Ec Hc Hs. rewrite <- Ec in HT, HE. unfold take_front, b_end, page_addr in *.
    destruct (Z.ltb_spec (n * 4096 + 40) (b_size c)) as [Hlt|Hge].
    - split.
      + cbn [app tiled]. unfold b_end. cbn [b_addr b_size]. repeat split; try lia.
        by replace (b_addr c + 32 + n * 4096 + 32 + (b_size c - n * 4096 - 32)) with (b_addr c + 32 + b_size c) by lia.
      + intros a. cbn [map b_addr]. rewrite !elem_of_cons. unfold page_addr.
        intros [->|[->|Ha%not_elem_of_nil]]; [by right | left | done]. Z.div_mod_to_equations; lia.
    - assert (b_size c = n * 4096) as Es by (Z.div_mod_to_equations; lia). split.
      + cbn [app tiled]. unfold b_end. cbn [b_addr b_size]. rewrite <- Es. repeat split; [lia | exact HT].
      + intros a. cbn [map b_addr]. rewrite elem_of_cons. unfold page_addr. intros [->|Ha%not_elem_of_nil]; [by right | done]. }
  unfold place. destruct (lead_page b HA) as [[E0 EL]|[E0 EL]]; rewrite EL in *; cbn [Z.leb Z.compare Pos.compare Pos.compare_cont].
  - destruct (KT (drop_front 4064 b)) as [T P].
    + unfold drop_front, b_end. cbn [b_addr b_size]. lia.
    + cbn [drop_front b_addr]. Z.div_mod_to_equations; lia.
    + cbn [drop_front b_size]. lia.
    + split.
      * cbn [app tiled]. unfold b_end at 1. cbn [b_addr b_size]. split; [done|]. split; [lia|].
        replace (b_addr b + 32 + (4064 - 32)) with (b_addr (drop_front 4064 b)) by (cbn; lia). exact T.
      * intros a. cbn [map b_addr]. rewrite elem_of_cons. intros [->|Ha]; [by left | by apply P].
  - apply KT; done || lia.
Qed.

Context (HB : heap_base_ok B).

Definition page_inv (c : client) : Prop :=
  (exists bs, heap_rep B (c_heap c) bs /\ tidy B bs /\ owns bs (c_live c) /\ paged bs) /\
  (forall p, is_Some (c_live c !! p) -> p mod 4096 = 0).

Lemma limit_page : heap_limit B mod 4096 = 0.
Proof.
  destruct HB as (_ & H0 & _). unfold heap_limit, PLATFORM_HEAP_BUF_SIZE. Z.div_mod_to_equations; lia.
Qed.

Lemma page_end l b r : tiled B (l ++ b :: r) (heap_limit B) -> paged (l ++ b :: r) -> page_addr (b_end b).
Proof.
  intros (mid & _ & <- & _ & HT)%tiled_app HP. destruct r as [|c r].
  - cbn [tiled] in HT. rewrite HT. left. apply limit_page.
  - destruct HT as (<- & _). apply HP. rewrite map_app. cbn [map]. set_solver.
Qed.

(** An allocation of pages, seen by the client. *)
Lemma inv_aligned h live bs n :
  heap_rep B h bs -> owns bs live -> Forall (clean 4096) bs -> 0 < n < 2 ^ 50 ->
  exists p h' bs', aaligned 4096 (n * 4096) bs = (p, bs') /\ val_aligned_alloc B h 4096 (n * 4096) = Ret (p, h') /\
    heap_rep B h' bs' /\
    ((p = 0 /\ bs' = bs) \/
     (0 < p /\ p mod 4096 = 0 /\ live !! p = None /\ owns bs' (<[p := n * 4096]> live) /\
      exists reg, b_ptr reg = p /\ forall x, b_used x = true -> x ∈ bs' <-> x ∈ bs \/ x = reg)).
Proof.
  intros HR [HO1 HO2] Hcl Hn.
  destruct (val_aligned_alloc_rep B HB h bs 12 (n * 4096) HR) as (h' & E & HR' & _);
    [lia | lia | by apply Z.mod_mul | exact Hcl|]. change (2 ^ 12) with 4096 in *.
  pose proof (heap_rep_layout B HB h bs HR) as HL. pose proof (heap_base_bounds B HB) as (Hlo & _).
  destruct (aaligned_cases 4096 (n * 4096) bs) as [[Ea HF]|(l & b & r & -> & Hfit & Ea)]; rewrite Ea in *; cbn [fst snd] in *.
  { exists 0, h', bs. do 3 (split; [done|]). by left. }
  exists (b_ptr b + lead 4096 b), h', (l ++ place 4096 (n * 4096) b ++ r). do 3 (split; [done|]).
  assert (Hb : b ∈ l ++ b :: r) by set_solver. pose proof (layout_elem _ _ _ _ HL Hb) as Hbb. rewrite Forall_forall in Hcl.
  pose proof (Hcl b (proj1 (list_elem_of_In _ _) Hb)) as Hbc.
  apply andb_true_iff in Hfit as Hf. destruct Hf as [Hu%negb_true_iff Hle%Z.leb_le].
  right. pose proof (lead_bounds 12 ltac:(lia) b) as Hld. change (2 ^ 12) with 4096 in Hld.
  split; [unfold b_ptr; lia|]. split; [apply (lead_aligned 12); lia|]. split.
  { apply eq_None_not_Some. intros [k Hk]. destruct (HO1 _ _ Hk) as (c & Hc & Hcu & Hcp & _).
    pose proof (hdr_apart _ _ _ b c HL Hb Hc) as HA'. unfold b_ptr, b_end in *.
    assert (c = b) as -> by (eapply same_ptr; [exact HL | done | done | unfold b_ptr; lia]). congruence. }
  assert (Hreg : b_ptr (region 4096 (n * 4096) b) = b_ptr b + lead 4096 b) by (unfold b_ptr, region; cbn; lia).
  assert (Hnew : region 4096 (n * 4096) b ∈ l ++ place 4096 (n * 4096) b ++ r) by (apply aaligned_used; auto).
  split; [|exists (region 4096 (n * 4096) b); split; [done|]; intros x Hx; by apply aaligned_used].
  split.
  - intros p k [[<- <-]|[Hne Hp]]%lookup_insert_Some.
    + exists (region 4096 (n * 4096) b). do 3 (split; [done|]). cbn. lia.
    + destruct (HO1 p k Hp) as (c & Hc & Hcu & Hcp & Hck). exists c. split; [apply aaligned_used; auto | done].
  - intros c Hc Hcu. apply (aaligned_used _ _ _ _ _ _ Hbc Hfit Hcu) in Hc as [Hc| ->].
    + destruct (decide (b_ptr b + lead 4096 b = b_ptr c)) as [->|Hne]; [by rewrite lookup_insert_eq|].
      rewrite lookup_insert_ne by done. auto.
    + rewrite Hreg. by rewrite lookup_insert_eq.
Qed.

(** Where every block begins at a page address a request for pages loses no byte. *)
Lemma pages_placed bs n : tidy B bs -> paged bs -> 0 < n ->
  tidy B (aaligned 4096 (n * 4096) bs).2 /\ paged (aaligned 4096 (n * 4096) bs).2.
Proof.
  intros [HT HK] HP Hn.
  destruct (aaligned_cases 4096 (n * 4096) bs) as [[Ea HF]|(l & b & r & -> & Hfit & Ea)]; rewrite Ea; cbn [snd]; [done|].
  pose proof (page_end l b r HT HP) as HE. apply andb_true_iff in Hfit as [Hu%negb_true_iff Hle%Z.leb_le].
  apply tiled_app in HT as (mid & T1 & <- & _ & T2).
  assert (HA : page_addr (b_addr b)) by (apply HP, list_elem_of_fmap; exists b; split; [done | set_solver]).
  destruct (place_pages b r (heap_limit B) n HA HE ltac:(lia) Hle T2) as [TP PP].
  split; [split; [apply tiled_app; by eexists | by apply place_compact]|].
  intros a. rewrite !map_app, !elem_of_app. intros [Ha|[Ha|Ha]]; [apply HP; rewrite map_app; set_solver | by apply PP |].
  apply HP. rewrite map_app. cbn [map]. set_solver.
Qed.

Lemma page_inv_alloc h live bs n :
  heap_rep B h bs -> tidy B bs -> owns bs live -> paged bs -> 0 < n < 2 ^ 50 ->
  exists p h' bs', val_aligned_alloc B h 4096 (n * 4096) = Ret (p, h') /\
    heap_rep B h' bs' /\ tidy B bs' /\ paged bs' /\
    ((p = 0 /\ bs' = bs) \/ (0 < p /\ p mod 4096 = 0 /\ owns bs' (<[p := n * 4096]> live))).
Proof.
  intros HR HT HO HP Hn. destruct (pages_placed bs n HT HP ltac:(lia)) as [HT' HP'].
  destruct (inv_aligned h live bs n HR HO (paged_clean bs HP) Hn) as (p & h' & bs' & Ea & E & HR' & HC).
  rewrite Ea in HT', HP'. exists p, h', bs'. do 4 (split; [done|]). intuition.
Qed.

Lemma page_inv_step c c' : page_inv c -> page_step c c' -> page_inv c'.
Proof.
  intros Hi Hst. destruct Hst as [c n p h' Hn E | c p n s h' Hp E | c p n x v Hp Hx];
    destruct Hi as [(bs & HR & HT & HO & HP) HM].
  - destruct (page_inv_alloc _ _ bs n HR HT HO HP Hn) as (p' & h2 & bs' & E2 & HR' & HT' & HP' & HC).
    rewrite E in E2. simplify_eq. unfold page_inv. cbn [c_heap c_live].
    destruct HC as [(-> & ->)|(Hp & Hpm & HO')]; [split; [by exists bs | done]|].
    replace (p' =? 0) with false by lia. split; [by exists bs'|]. intros q [x [[<- _]|[_ Hq]]%lookup_insert_Some]; [done|].
    apply HM. by exists x.
  - destruct (inv_free B HB _ _ bs p n HR HT HO Hp) as (h2 & bs' & E2 & HR' & HT' & HO' & _ & HA & _).
    rewrite E in E2. simplify_eq. split.
    + exists bs'. do 3 (split; [done|]). intros a Ha. apply HP. by apply HA.
    + cbn [c_live]. intros q [x [_ Hq]%lookup_delete_Some]. apply HM. by exists x.
  - split; [|done]. exists bs. split; [|done]. cbn [c_heap]. destruct HO as [HO1 _].
    destruct (HO1 p n Hp) as (b & Hb & Hu & <- & Hn).
    eapply (heap_rep_write B _ bs b _ x 1); [done..| |lia| |lia].
    + intros y Hy. apply ld8_st8_ne. lia.
    + unfold b_ptr, b_end in *. lia.
Qed.

Lemma page_inv_reach m c : rtc page_step (fresh m) c -> page_inv c.
Proof.
  intros Hr. remember (fresh m) as c0 eqn:E0. assert (Hi : page_inv c0).
  { subst. split; [|intros p [x Hx]; cbn in Hx; by apply lookup_empty_Some in Hx].
    destruct (client_inv_fresh B m) as (bs & HR & HT & HO). exists [whole B].
    destruct HR as [[_ ->]|[HI _]]; [|done]. split; [by left|]. do 2 (split; [done|]).
    intros a [->|Ha%not_elem_of_nil]%elem_of_cons; [|done]. left. by destruct HB as (_ & ? & _). }
  clear E0. induction Hr; [done|]. eauto using page_inv_step.
Qed.

(** Claim C5: After any sequence of requests for pages (val_aligned_alloc with
    alignment 4096 for a whole number of pages below 2^50), releases and writes by
    the holders from an uninitialised heap (the way the tests take their buffers),
    every live region starts at a multiple of 4096 inside the buffer, is disjoint
    from every other and can be freed; every request for fewer than 2^50 pages
    returns; and with everything freed, 127 contiguous pages can be had again. Above
    that the size sum wraps (MallocLimits.val_aligned_alloc_wraps). *)
Theorem page_clients m c :
  rtc page_step (fresh m) c ->
  (forall p n, c_live c !! p = Some n ->
     p mod 4096 = 0 /\ B + 32 <= p /\ p + n <= B + PLATFORM_HEAP_BUF_SIZE /\
     (forall q k, c_live c !! q = Some k -> q <> p -> p + n <= q \/ q + k <= p) /\
     exists h', val_free (c_heap c) p = Ret (VAL_SUCCESS, h')) /\
  (forall n, 0 < n < 2 ^ 50 -> exists p h', val_aligned_alloc B (c_heap c) 4096 (n * 4096) = Ret (p, h')) /\
  (c_live c = ∅ -> exists h', val_aligned_alloc B (c_heap c) 4096 (127 * 4096) = Ret (B + 4096, h')).
Proof.
  intros Hr. destruct (page_inv_reach m c Hr) as [(bs & HR & HT & HO & HP) HM]. split; [|split].
  - intros p n Hp. split; [by apply HM; exists n|]. destruct (live_apart B HB _ _ bs p n HR HO Hp) as (_ & L1 & L2 & L3).
    do 3 (split; [done|]). destruct (inv_free B HB _ _ bs p n HR HT HO Hp) as (h' & _ & E & _). eauto.
  - intros n Hn. destruct (page_inv_alloc _ _ bs n HR HT HO HP Hn) as (p & h' & _ & E & _). eauto.
  - intros He. assert (bs = [whole B]) as ->.
    { apply (tidy_whole B HB); [done|]. intros b Hb. destruct (b_used b) eqn:Hu; [|done].
      destruct HO as [_ HO]. destruct (HO b Hb Hu) as [n Hn]. rewrite He in Hn. by apply lookup_empty_Some in Hn. }
    destruct (val_aligned_alloc_rep B HB _ _ 12 (127 * 4096) HR ltac:(lia) ltac:(lia) ltac:(done)) as (h' & E & _).
    { apply (paged_clean _ HP). }
    exists h'. change (2 ^ 12) with 4096 in E. rewrite E. do 2 f_equal.
    destruct (lead_page (whole B) (or_introl (proj1 (proj2 HB)))) as [[E0 EL]|[E0 EL]].
    + assert (EF : fits_al 4096 (127 * 4096) (whole B) = true) by (unfold fits_al; rewrite EL; reflexivity).
      cbn [aaligned]. rewrite EF, EL. unfold b_ptr, whole. cbn [fst b_addr]. lia.
    + cbn in E0. destruct HB as (_ & E1 & _). lia.
Qed.
End Pages.

(** ** Examples *)

Lemma val_aligned_alloc_refines_witness :
  exists h', val_aligned_alloc demo_base demo_heap 4096 8192 = Ret (demo_base + 4096, h') /\
    heap_rep demo_base h' [ABlk demo_base 4032 false; ABlk (demo_base + 4064) 8192 true; ABlk (demo_base + 12288) 511968 false].
Proof.
  destruct (val_aligned_alloc_refines demo_base demo_base_ok demo_heap [whole demo_base] 12 8192) as (p & h' & E & Ep & _ & HR & _).
  - apply demo_rep.
  - lia.
  - lia.
  - reflexivity.
  - apply List.Forall_cons; [right; right; vm_compute; discriminate | apply List.Forall_nil].
  - exists h'. rewrite Ep in E. split; [exact E | exact HR].
Defined.

Lemma page_clients_witness :
  exists c, rtc (page_step (H := sample_val_common) demo_base) (fresh ∅) c /\
    c_live c = {[ demo_base + 4096 := 8192; demo_base + 16384 := 4096 ]} /\
    (demo_base + 16384) mod 4096 = 0 /\ exists p h', val_aligned_alloc demo_base (c_heap c) 4096 (3 * 4096) = Ret (p, h').
Proof.
  assert (E : exists c, rtc (page_step (H := sample_val_common) demo_base) (fresh ∅) c /\
                c_live c = {[ demo_base + 4096 := 8192; demo_base + 16384 := 4096 ]}).
  { eexists. split; [eapply rtc_l; [|eapply rtc_l; [|apply rtc_refl]]|].
    - eapply (page_alloc demo_base _ 2); [lia | vm_compute; reflexivity].
    - eapply (page_alloc demo_base _ 1); [lia | vm_compute; reflexivity].
    - vm_compute. reflexivity. }
  destruct E as (c & Hr & Hl). destruct (page_clients demo_base demo_base_ok ∅ c Hr) as (HA & HB & _).
  exists c. split; [exact Hr|]. split; [exact Hl|]. split.
  - apply (HA _ 4096). rewrite Hl. reflexivity.
  - apply (HB 3). lia.
Defined.
