(* ===== verification/MallocLimits.v ===== *)
(** * Where the allocator stops being safe

    Closed runs of [val_malloc.c] outside the conditions of [MallocTrace]:
    sizes that wrap, the shrinking path of [val_realloc] at the end of the list,
    and [val_aligned_alloc] when the aligned pointer does not follow its header. *)

From S2P Require Import Prelude ValCommon CMem Libc Malloc MallocSpec MallocCorrect.

Definition block_size_of (o : outcome (Z * heap)) : option (Z * Z) :=
  match o with
  | Ret (p, h) => Some (p, rd_size (hmem h) (p - 32))
  | _ => None
  end.

(** [ALIGN] wraps: a request of 2^64 - 1 bytes gets a block of 0 bytes. *)
Theorem val_malloc_wraps :
  block_size_of (val_malloc demo_base demo_heap (2 ^ 64 - 1)) = Some (demo_base + 32, 0).
Proof. vm_compute. reflexivity. Qed.

(** [nmemb * size] wraps: 2^61 + 1 elements of 8 bytes get a block of 8 bytes. *)
Theorem val_calloc_wraps :
  block_size_of (val_calloc demo_base demo_heap (2 ^ 61 + 1) 8) = Some (demo_base + 32, 8).
Proof. vm_compute. reflexivity. Qed.

(** The size of an aligned request wraps: one of 2^52 - 1 pages gets one page. *)
Theorem val_aligned_alloc_wraps :
  match val_aligned_alloc demo_base demo_heap 4096 ((2 ^ 52 - 1) * 4096) with
  | Ret (p, h) => p = demo_base + 4096
  | _ => False
  end.
Proof. vm_compute. reflexivity. Qed.

(** Shrinking the last block by less than a header passes [&block->next] with
    [block->next == NULL] to [val_coalesce], which dereferences it. *)
Theorem val_realloc_faults :
  (let! (p, h) := val_malloc demo_base demo_heap (PLATFORM_HEAP_BUF_SIZE - 32) in
   @val_realloc sample_val_common demo_base h p (PLATFORM_HEAP_BUF_SIZE - 40)) = Fault.
Proof. vm_compute. reflexivity. Qed.

(** [val_malloc(8)] then [val_aligned_alloc(16, 16)]: the pointer is not 32 bytes
    after a header, so [val_free] rejects it. *)
Theorem val_aligned_alloc_unfreeable :
  exists p h s h', (let! (_, h) := val_malloc demo_base demo_heap 8 in
                    val_aligned_alloc demo_base h 16 16) = Ret (p, h) /\ p = demo_base + 80 /\
    @val_free sample_val_common h p = Ret (s, h') /\ s = VAL_ERROR.
Proof.
  do 4 eexists. split; [vm_compute; reflexivity|]. split; [vm_compute; reflexivity|].
  split; [vm_compute; reflexivity | reflexivity].
Qed.

(** The page a client gets after [val_malloc(4024)] starts 8 bytes behind the payload
    of its block: its last 8 bytes are the header of the next one.  A store of zero
    there takes the rest of the heap. *)
Theorem val_aligned_alloc_overlaps :
  exists p h h', (let! (_, h) := val_malloc demo_base demo_heap 4024 in
                  val_aligned_alloc demo_base h 4096 4096) = Ret (p, h) /\
    rd_magic (hmem h) (p + 4088) = BLOCK_VALID_MAGIC /\ rd_next (hmem h) (p - 40) = p + 4088 /\
    val_malloc demo_base (set_hmem h (st8 (hmem h) (p + 4090) 0)) 8 = Ret (0, h').
Proof.
  do 3 eexists. split; [vm_compute; reflexivity|]. do 2 (split; [vm_compute; reflexivity|]). vm_compute. reflexivity.
Qed.

(** What is left of a block up to 40 bytes is lost: with everything freed the heap does
    not coalesce back into one block. *)
Definition leak_run : outcome (Z * Z * Z * Z * Z) :=
  let! (p, h) := val_malloc demo_base demo_heap 48 in
  let! (q, h) := val_malloc demo_base h 8 in
  let! (s0, h) := @val_free sample_val_common h p in
  let! (r, h) := val_aligned_alloc demo_base h 8 16 in
  let! (s1, h) := @val_free sample_val_common h r in
  let! (s2, h) := @val_free sample_val_common h q in
  let! (w, _) := val_malloc demo_base h (PLATFORM_HEAP_BUF_SIZE - 32) in
  Ret (p, s0, s1, s2, w).

Theorem val_aligned_alloc_leaks : leak_run = Ret (demo_base + 32, 0, 0, 0, 0).
Proof. vm_compute. reflexivity. Qed.
