(* ===== verification/FfaAbi.v ===== *)
(** * FF-A call wrappers (val_ffa_abi.c, val_ffa.h)

    Every FF-A interface of the suite is a wrapper that loads a function id and
    up to 17 arguments into registers and traps to the partition manager.  The
    manager is outside the repository: it is the parameter [conduit] with its
    own state [W], and a wrapper is a command over [W]. *)

From S2P Require Import Prelude ValCommon.

(** ** Function identifiers ([FFA_FID_LIST]) *)
Definition FFA_ERROR_32 : Z := 0x84000060.
Definition FFA_SUCCESS_32 : Z := 0x84000061.
Definition FFA_INTERRUPT_32 : Z := 0x84000062.
Definition FFA_VERSION_32 : Z := 0x84000063.
Definition FFA_FEATURES_32 : Z := 0x84000064.
Definition FFA_RX_RELEASE_32 : Z := 0x84000065.
Definition FFA_RXTX_MAP_32 : Z := 0x84000066.
Definition FFA_RXTX_UNMAP_32 : Z := 0x84000067.
Definition FFA_PARTITION_INFO_GET_32 : Z := 0x84000068.
Definition FFA_ID_GET_32 : Z := 0x84000069.
Definition FFA_MSG_POLL_32 : Z := 0x8400006A.
Definition FFA_MSG_WAIT_32 : Z := 0x8400006B.
Definition FFA_YIELD_32 : Z := 0x8400006C.
Definition FFA_RUN_32 : Z := 0x8400006D.
Definition FFA_MSG_SEND_32 : Z := 0x8400006E.
Definition FFA_MSG_SEND_DIRECT_REQ_32 : Z := 0x8400006F.
Definition FFA_MSG_SEND_DIRECT_RESP_32 : Z := 0x84000070.
Definition FFA_MEM_DONATE_32 : Z := 0x84000071.
Definition FFA_MEM_LEND_32 : Z := 0x84000072.
Definition FFA_MEM_SHARE_32 : Z := 0x84000073.
Definition FFA_MEM_RETRIEVE_REQ_32 : Z := 0x84000074.
Definition FFA_MEM_RETRIEVE_RESP_32 : Z := 0x84000075.
Definition FFA_MEM_RELINQUISH_32 : Z := 0x84000076.
Definition FFA_MEM_RECLAIM_32 : Z := 0x84000077.
Definition FFA_NORMAL_WORLD_RESUME_32 : Z := 0x8400007C.
Definition FFA_NOTIFICATION_BITMAP_CREATE : Z := 0x8400007D.
Definition FFA_NOTIFICATION_BITMAP_DESTROY : Z := 0x8400007E.
Definition FFA_NOTIFICATION_BIND : Z := 0x8400007F.
Definition FFA_NOTIFICATION_UNBIND : Z := 0x84000080.
Definition FFA_NOTIFICATION_SET : Z := 0x84000081.
Definition FFA_NOTIFICATION_GET : Z := 0x84000082.
Definition FFA_NOTIFICATION_INFO_GET_32 : Z := 0x84000083.
Definition FFA_RX_ACQUIRE_32 : Z := 0x84000084.
Definition FFA_SPM_ID_GET_32 : Z := 0x84000085.
Definition FFA_MSG_SEND2_32 : Z := 0x84000086.
Definition FFA_SECONDARY_EP_REGISTER_32 : Z := 0x84000087.
Definition FFA_MEM_PERM_GET_32 : Z := 0x84000088.
Definition FFA_MEM_PERM_SET_32 : Z := 0x84000089.
Definition FFA_CONSOLE_LOG_32 : Z := 0x8400008A.
Definition FFA_SUCCESS_64 : Z := 0xC4000061.
Definition FFA_RXTX_MAP_64 : Z := 0xC4000066.
Definition FFA_MSG_SEND_DIRECT_REQ_64 : Z := 0xC400006F.
Definition FFA_MSG_SEND_DIRECT_RESP_64 : Z := 0xC4000070.
Definition FFA_MEM_DONATE_64 : Z := 0xC4000071.
Definition FFA_MEM_LEND_64 : Z := 0xC4000072.
Definition FFA_MEM_SHARE_64 : Z := 0xC4000073.
Definition FFA_MEM_RETRIEVE_REQ_64 : Z := 0xC4000074.
Definition FFA_SECONDARY_EP_REGISTER_64 : Z := 0xC4000087.
Definition FFA_NOTIFICATION_INFO_GET_64 : Z := 0xC4000083.
Definition FFA_MEM_PERM_GET_64 : Z := 0xC4000088.
Definition FFA_MEM_PERM_SET_64 : Z := 0xC4000089.
Definition FFA_CONSOLE_LOG_64 : Z := 0xC400008A.
Definition FFA_MSG_SEND_DIRECT_REQ2_64 : Z := 0xC400008D.
Definition FFA_MSG_SEND_DIRECT_RESP2_64 : Z := 0xC400008E.
Definition FFA_PARTITION_INFO_GET_REGS_64 : Z := 0xC400008B.

(** [ffa_supported_fids], in the order of the list. *)
Definition ffa_supported_fids : list Z :=
  [FFA_ERROR_32; FFA_SUCCESS_32; FFA_INTERRUPT_32; FFA_VERSION_32; FFA_FEATURES_32; 
   FFA_RX_RELEASE_32; FFA_RXTX_MAP_32; FFA_RXTX_UNMAP_32; FFA_PARTITION_INFO_GET_32; FFA_ID_GET_32; 
   FFA_MSG_POLL_32; FFA_MSG_WAIT_32; FFA_YIELD_32; FFA_RUN_32; FFA_MSG_SEND_32; 
   FFA_MSG_SEND_DIRECT_REQ_32; FFA_MSG_SEND_DIRECT_RESP_32; FFA_MEM_DONATE_32; FFA_MEM_LEND_32; 
   FFA_MEM_SHARE_32; FFA_MEM_RETRIEVE_REQ_32; FFA_MEM_RETRIEVE_RESP_32; FFA_MEM_RELINQUISH_32; 
   FFA_MEM_RECLAIM_32; FFA_NORMAL_WORLD_RESUME_32; FFA_NOTIFICATION_BITMAP_CREATE; 
   FFA_NOTIFICATION_BITMAP_DESTROY; FFA_NOTIFICATION_BIND; FFA_NOTIFICATION_UNBIND; 
   FFA_NOTIFICATION_SET; FFA_NOTIFICATION_GET; FFA_NOTIFICATION_INFO_GET_32; FFA_RX_ACQUIRE_32; 
   FFA_SPM_ID_GET_32; FFA_MSG_SEND2_32; FFA_SECONDARY_EP_REGISTER_32; FFA_MEM_PERM_GET_32; 
   FFA_MEM_PERM_SET_32; FFA_CONSOLE_LOG_32; FFA_SUCCESS_64; FFA_RXTX_MAP_64; 
   FFA_MSG_SEND_DIRECT_REQ_64; FFA_MSG_SEND_DIRECT_RESP_64; FFA_MEM_DONATE_64; FFA_MEM_LEND_64; 
   FFA_MEM_SHARE_64; FFA_MEM_RETRIEVE_REQ_64; FFA_SECONDARY_EP_REGISTER_64; 
   FFA_NOTIFICATION_INFO_GET_64; FFA_MEM_PERM_GET_64; FFA_MEM_PERM_SET_64; FFA_CONSOLE_LOG_64; 
   FFA_MSG_SEND_DIRECT_REQ2_64; FFA_MSG_SEND_DIRECT_RESP2_64; FFA_PARTITION_INFO_GET_REGS_64].

Definition FFA_FID_UPPER_MASK : Z := 0xFFFF0000.
Definition FFA_FID_LOWER_MASK : Z := 0x0000FFFF.
Definition FFA_FID_ABI32_PREFIX : Z := 0x84000000.
Definition FFA_FID_ABI64_PREFIX : Z := 0xC4000000.
Definition FFA_FID_SKIP_CHECK : Z := 0xABCDEFFF.

Definition FFA_MEM_SHARE_ANY : Z := Z.land FFA_MEM_SHARE_32 FFA_FID_LOWER_MASK.
Definition FFA_MEM_LEND_ANY : Z := Z.land FFA_MEM_LEND_32 FFA_FID_LOWER_MASK.
Definition FFA_MEM_DONATE_ANY : Z := Z.land FFA_MEM_DONATE_32 FFA_FID_LOWER_MASK.
Definition FFA_MEM_RETRIEVE_REQ_ANY : Z := Z.land FFA_MEM_RETRIEVE_REQ_32 FFA_FID_LOWER_MASK.
Definition FFA_MSG_SEND_DIRECT_REQ_ANY : Z := Z.land FFA_MSG_SEND_DIRECT_REQ_32 FFA_FID_LOWER_MASK.
Definition FFA_NOTIFICATION_INFO_GET_ANY : Z := Z.land FFA_NOTIFICATION_INFO_GET_32 FFA_FID_LOWER_MASK.
Definition FFA_CONSOLE_LOG_ANY : Z := Z.land FFA_CONSOLE_LOG_32 FFA_FID_LOWER_MASK.

Definition FFA_ERROR_NOT_SUPPORTED : Z := 0xffffffff.
Definition FFA_ERROR_INVALID_PARAMETERS : Z := 0xfffffffe.
Definition FFA_ERROR_NO_MEMORY : Z := 0xfffffffd.
Definition FFA_ERROR_BUSY : Z := 0xfffffffc.
Definition FFA_ERROR_INTERRUPTED : Z := 0xfffffffb.
Definition FFA_ERROR_DENIED : Z := 0xfffffffa.
Definition FFA_ERROR_RETRY : Z := 0xfffffff9.
Definition FFA_ERROR_ABORTED : Z := 0xfffffff8.
Definition FFA_ERROR_NODATA : Z := 0xfffffff7.

Definition VAL_GET_MAJOR (x : Z) : Z := Z.land (Z.shiftr x 16) 0x7fff.
Definition VAL_GET_MINOR (x : Z) : Z := Z.land x 0xffff.
Definition SENDER_ID (x : Z) : Z := Z.land (Z.shiftr x 16) 0xffff.
Definition RECEIVER_ID (x : Z) : Z := Z.land x 0xffff.
Definition VAL_EXTRACT_BITS (data start end_ : Z) : Z :=
  Z.land (Z.shiftr data start) (u64 (Z.shiftl 1 (end_ - start + 1)) - 1).

(** ** ffa_args_t: registers x0 to x17 *)
Record ffa_args := FfaArgs {
  fid : Z; arg1 : Z; arg2 : Z; arg3 : Z; arg4 : Z; arg5 : Z; arg6 : Z; arg7 : Z;
  arg8 : Z; arg9 : Z; arg10 : Z; arg11 : Z; arg12 : Z; arg13 : Z; arg14 : Z; arg15 : Z;
  arg16 : Z; arg17 : Z
}.

(** The structure read as an array of registers. *)
Definition regs (a : ffa_args) : list Z :=
  [fid a; arg1 a; arg2 a; arg3 a; arg4 a; arg5 a; arg6 a; arg7 a;
   arg8 a; arg9 a; arg10 a; arg11 a; arg12 a; arg13 a; arg14 a; arg15 a; arg16 a; arg17 a].

(** [val_memset(&payload, 0, sizeof(ffa_args_t))]. *)
Definition ffa_args_zero : ffa_args := FfaArgs 0 0 0 0 0 0 0 0 0 0 0 0 0 0 0 0 0 0.

Section FfaAbi.
Context `{ValCommon} {W : Type} (conduit : ffa_args -> W -> ffa_args * W).

(** [TARGET_LINUX == 1 || PLATFORM_NS_HYPERVISOR_PRESENT == 1]: build option. *)
Context (resume_on_interrupt : bool).

(** [&pal_secondary_cpu_boot_entry]: an address the linker chooses. *)
Context (pal_secondary_cpu_boot_entry : Z).

Definition ffa_smccc (f a1 a2 a3 a4 a5 a6 a7 a8 a9 a10 a11 a12 a13 a14 a15 a16 a17 : Z)
  : cmd W ffa_args :=
  fun w => Ret (conduit (FfaArgs f a1 a2 a3 a4 a5 a6 a7 a8 a9 a10 a11 a12 a13 a14 a15 a16 a17) w).

(** The three ways the wrappers fill the registers: the seven arguments cut to
    32 bits, the seven arguments as they are, all seventeen. *)
Definition smccc_w32 (f : Z) (args : ffa_args) : cmd W ffa_args :=
  ffa_smccc f (u32 (arg1 args)) (u32 (arg2 args)) (u32 (arg3 args)) (u32 (arg4 args))
    (u32 (arg5 args)) (u32 (arg6 args)) (u32 (arg7 args)) 0 0 0 0 0 0 0 0 0 0.
Definition smccc_x7 (f : Z) (args : ffa_args) : cmd W ffa_args :=
  ffa_smccc f (arg1 args) (arg2 args) (arg3 args) (arg4 args)
    (arg5 args) (arg6 args) (arg7 args) 0 0 0 0 0 0 0 0 0 0.
Definition smccc_x17 (f : Z) (args : ffa_args) : cmd W ffa_args :=
  ffa_smccc f (arg1 args) (arg2 args) (arg3 args) (arg4 args) (arg5 args) (arg6 args) (arg7 args)
    (arg8 args) (arg9 args) (arg10 args) (arg11 args) (arg12 args) (arg13 args) (arg14 args)
    (arg15 args) (arg16 args) (arg17 args).

Definition ffa_error (args : ffa_args) : cmd W ffa_args := smccc_x7 FFA_ERROR_32 args.
Definition val_ffa_error (args : ffa_args) : cmd W ffa_args := ffa_error args.

Definition ffa_success (args : ffa_args) (arch64 : bool) : cmd W ffa_args :=
  if arch64 then smccc_x7 FFA_SUCCESS_64 args else smccc_w32 FFA_SUCCESS_32 args.
Definition val_ffa_success_32 (args : ffa_args) : cmd W ffa_args := ffa_success args false.
Definition val_ffa_success_64 (args : ffa_args) : cmd W ffa_args := ffa_success args true.

Definition ffa_version (args : ffa_args) : cmd W ffa_args := smccc_w32 FFA_VERSION_32 args.
Definition val_ffa_version (args : ffa_args) : cmd W ffa_args := ffa_version args.

(** ** FFA_RUN and resuming after an interrupt *)

Definition ffa_run (args : ffa_args) : cmd W ffa_args := smccc_w32 FFA_RUN_32 args.

(** The zeroed payload with the target of the interrupted call in [arg1]. *)
Definition resume_payload (args : ffa_args) : ffa_args :=
  FfaArgs 0 (arg1 args) 0 0 0 0 0 0 0 0 0 0 0 0 0 0 0 0.

(** [while (args->fid == FFA_INTERRUPT_32)] around [run]. *)
Fixpoint resume_loop (run : ffa_args -> cmd W ffa_args) (fuel : nat) (args : ffa_args) : cmd W ffa_args :=
  fun w =>
  if fid args =? FFA_INTERRUPT_32 then
    match fuel with
    | O => Diverge
    | S fuel' => (payload ← run (resume_payload args); resume_loop run fuel' payload) w
    end
  else Ret (args, w).

Definition val_ffa_run (fuel : nat) (args : ffa_args) : cmd W ffa_args :=
  args ← ffa_run args;
  if resume_on_interrupt then resume_loop ffa_run fuel args else mret args.

Definition ffa_msg_send_direct_req2 (fuel : nat) (args : ffa_args) : cmd W ffa_args :=
  args ← smccc_x17 FFA_MSG_SEND_DIRECT_REQ2_64 args;
  if resume_on_interrupt then resume_loop (val_ffa_run fuel) fuel args else mret args.
Definition val_ffa_msg_send_direct_req2_64 (fuel : nat) (args : ffa_args) : cmd W ffa_args :=
  ffa_msg_send_direct_req2 fuel args.

Definition ffa_msg_send_direct_req (fuel : nat) (args : ffa_args) (arch64 : bool) : cmd W ffa_args :=
  args ← (if arch64 then smccc_x7 FFA_MSG_SEND_DIRECT_REQ_64 args
          else smccc_x7 FFA_MSG_SEND_DIRECT_REQ_32 args);
  if resume_on_interrupt then resume_loop (val_ffa_run fuel) fuel args else mret args.
Definition val_ffa_msg_send_direct_req_32 (fuel : nat) (args : ffa_args) : cmd W ffa_args :=
  ffa_msg_send_direct_req fuel args false.
Definition val_ffa_msg_send_direct_req_64 (fuel : nat) (args : ffa_args) : cmd W ffa_args :=
  ffa_msg_send_direct_req fuel args true.

Definition ffa_msg_send_direct_resp (args : ffa_args) (arch64 : bool) : cmd W ffa_args :=
  if arch64 then smccc_x7 FFA_MSG_SEND_DIRECT_RESP_64 args
  else smccc_x7 FFA_MSG_SEND_DIRECT_RESP_32 args.
Definition ffa_msg_send_direct_resp2 (args : ffa_args) : cmd W ffa_args :=
  smccc_x17 FFA_MSG_SEND_DIRECT_RESP2_64 args.
Definition val_ffa_msg_send_direct_resp2_64 (args : ffa_args) : cmd W ffa_args :=
  ffa_msg_send_direct_resp2 args.
Definition val_ffa_msg_send_direct_resp_32 (args : ffa_args) : cmd W ffa_args :=
  ffa_msg_send_direct_resp args false.
Definition val_ffa_msg_send_direct_resp_64 (args : ffa_args) : cmd W ffa_args :=
  ffa_msg_send_direct_resp args true.

(** ** Identity *)
Definition ffa_id_get (args : ffa_args) : cmd W ffa_args := smccc_w32 FFA_ID_GET_32 args.
Definition ffa_spm_id_get (args : ffa_args) : cmd W ffa_args := smccc_w32 FFA_SPM_ID_GET_32 args.

Definition val_get_curr_endpoint_id : cmd W Z :=
  ret ← ffa_smccc FFA_ID_GET_32 0 0 0 0 0 0 0 0 0 0 0 0 0 0 0 0 0;
  if fid ret =? FFA_ERROR_32 then panic
  else mret (Z.land (arg2 ret) 0xffff).

Definition val_ffa_id_get (args : ffa_args) : cmd W ffa_args := ffa_id_get args.
Definition val_ffa_spm_id_get (args : ffa_args) : cmd W ffa_args := ffa_spm_id_get args.

(** ** Buffers and indirect messages *)
Definition ffa_rx_release (args : ffa_args) : cmd W ffa_args := smccc_w32 FFA_RX_RELEASE_32 args.
Definition val_ffa_rx_release (args : ffa_args) : cmd W ffa_args := ffa_rx_release args.
Definition ffa_rxtx_unmap (args : ffa_args) : cmd W ffa_args := smccc_w32 FFA_RXTX_UNMAP_32 args.
Definition val_ffa_rxtx_unmap (args : ffa_args) : cmd W ffa_args := ffa_rxtx_unmap args.
Definition ffa_rxtx_map (args : ffa_args) (arch64 : bool) : cmd W ffa_args :=
  if arch64 then smccc_x7 FFA_RXTX_MAP_64 args else smccc_w32 FFA_RXTX_MAP_32 args.
Definition val_ffa_rxtx_map_32 (args : ffa_args) : cmd W ffa_args := ffa_rxtx_map args false.
Definition val_ffa_rxtx_map_64 (args : ffa_args) : cmd W ffa_args := ffa_rxtx_map args true.
Definition ffa_msg_send (args : ffa_args) : cmd W ffa_args := smccc_w32 FFA_MSG_SEND_32 args.
Definition val_ffa_msg_send (args : ffa_args) : cmd W ffa_args := ffa_msg_send args.
Definition ffa_msg_send2 (args : ffa_args) : cmd W ffa_args := smccc_w32 FFA_MSG_SEND2_32 args.
Definition val_ffa_msg_send2 (args : ffa_args) : cmd W ffa_args := ffa_msg_send2 args.

(** ** Discovery and scheduling *)
Definition ffa_partition_info_get_regs (args : ffa_args) : cmd W ffa_args :=
  smccc_x17 FFA_PARTITION_INFO_GET_REGS_64 args.
Definition val_ffa_partition_info_get_regs (args : ffa_args) : cmd W ffa_args :=
  ffa_partition_info_get_regs args.
Definition ffa_partition_info_get (args : ffa_args) : cmd W ffa_args := smccc_w32 FFA_PARTITION_INFO_GET_32 args.
Definition val_ffa_partition_info_get (args : ffa_args) : cmd W ffa_args := ffa_partition_info_get args.
Definition ffa_features (args : ffa_args) : cmd W ffa_args := smccc_w32 FFA_FEATURES_32 args.
Definition val_ffa_features (args : ffa_args) : cmd W ffa_args := ffa_features args.
Definition ffa_mem_reclaim (args : ffa_args) : cmd W ffa_args := smccc_w32 FFA_MEM_RECLAIM_32 args.
Definition val_ffa_mem_reclaim (args : ffa_args) : cmd W ffa_args := ffa_mem_reclaim args.
Definition ffa_msg_wait (args : ffa_args) : cmd W ffa_args := smccc_w32 FFA_MSG_WAIT_32 args.
Definition val_ffa_msg_wait (args : ffa_args) : cmd W ffa_args := ffa_msg_wait args.
Definition ffa_yield (args : ffa_args) : cmd W ffa_args := smccc_w32 FFA_YIELD_32 args.
Definition val_ffa_yield (args : ffa_args) : cmd W ffa_args := ffa_yield args.
Definition ffa_msg_poll (args : ffa_args) : cmd W ffa_args := smccc_w32 FFA_MSG_POLL_32 args.
Definition val_ffa_msg_poll (args : ffa_args) : cmd W ffa_args := ffa_msg_poll args.

(** ** Memory management *)
Definition ffa_mem_donate (args : ffa_args) (arch64 : bool) : cmd W ffa_args :=
  if arch64 then smccc_x7 FFA_MEM_DONATE_64 args else smccc_w32 FFA_MEM_DONATE_32 args.
Definition val_ffa_mem_donate_32 (args : ffa_args) : cmd W ffa_args := ffa_mem_donate args false.
Definition val_ffa_mem_donate_64 (args : ffa_args) : cmd W ffa_args := ffa_mem_donate args true.
Definition ffa_mem_lend (args : ffa_args) (arch64 : bool) : cmd W ffa_args :=
  if arch64 then smccc_x7 FFA_MEM_LEND_64 args else smccc_w32 FFA_MEM_LEND_32 args.
Definition val_ffa_mem_lend_32 (args : ffa_args) : cmd W ffa_args := ffa_mem_lend args false.
Definition val_ffa_mem_lend_64 (args : ffa_args) : cmd W ffa_args := ffa_mem_lend args true.
Definition ffa_mem_share (args : ffa_args) (arch64 : bool) : cmd W ffa_args :=
  if arch64 then smccc_x7 FFA_MEM_SHARE_64 args else smccc_w32 FFA_MEM_SHARE_32 args.
Definition val_ffa_mem_share_32 (args : ffa_args) : cmd W ffa_args := ffa_mem_share args false.
Definition val_ffa_mem_share_64 (args : ffa_args) : cmd W ffa_args := ffa_mem_share args true.
Definition ffa_mem_retrieve (args : ffa_args) (arch64 : bool) : cmd W ffa_args :=
  if arch64 then smccc_x7 FFA_MEM_RETRIEVE_REQ_64 args else smccc_w32 FFA_MEM_RETRIEVE_REQ_32 args.
Definition val_ffa_mem_retrieve_32 (args : ffa_args) : cmd W ffa_args := ffa_mem_retrieve args false.
Definition val_ffa_mem_retrieve_64 (args : ffa_args) : cmd W ffa_args := ffa_mem_retrieve args true.
Definition ffa_mem_relinquish (args : ffa_args) : cmd W ffa_args := smccc_w32 FFA_MEM_RELINQUISH_32 args.
Definition val_ffa_mem_relinquish (args : ffa_args) : cmd W ffa_args := ffa_mem_relinquish args.

Definition ffa_secondary_ep_register_64 (args : ffa_args) : cmd W ffa_args :=
  ffa_smccc FFA_SECONDARY_EP_REGISTER_64 pal_secondary_cpu_boot_entry (arg2 args) (arg3 args)
    (arg4 args) (arg5 args) (arg6 args) (arg7 args) 0 0 0 0 0 0 0 0 0 0.
Definition val_ffa_secondary_ep_register_64 : cmd W unit :=
  _ ← ffa_secondary_ep_register_64 ffa_args_zero; mret tt.

(** ** Notifications *)
Definition val_ffa_notification_bitmap_create (args : ffa_args) : cmd W ffa_args :=
  smccc_w32 FFA_NOTIFICATION_BITMAP_CREATE args.
Definition val_ffa_notification_bitmap_destroy (args : ffa_args) : cmd W ffa_args :=
  smccc_w32 FFA_NOTIFICATION_BITMAP_DESTROY args.
Definition val_ffa_notification_bind (args : ffa_args) : cmd W ffa_args :=
  smccc_w32 FFA_NOTIFICATION_BIND args.
Definition val_ffa_notification_unbind (args : ffa_args) : cmd W ffa_args :=
  smccc_w32 FFA_NOTIFICATION_UNBIND args.
Definition val_ffa_notification_set (args : ffa_args) : cmd W ffa_args :=
  smccc_w32 FFA_NOTIFICATION_SET args.
Definition val_ffa_notification_get (args : ffa_args) : cmd W ffa_args :=
  smccc_w32 FFA_NOTIFICATION_GET args.
Definition val_ffa_notification_info_get_32 (args : ffa_args) : cmd W ffa_args :=
  smccc_w32 FFA_NOTIFICATION_INFO_GET_32 args.
Definition val_ffa_notification_info_get_64 (args : ffa_args) : cmd W ffa_args :=
  smccc_x7 FFA_NOTIFICATION_INFO_GET_64 args.

(** ** Permissions and console *)
Definition ffa_mem_perm_set (args : ffa_args) (arch64 : bool) : cmd W ffa_args :=
  if arch64 then smccc_x7 FFA_MEM_PERM_SET_64 args else smccc_w32 FFA_MEM_PERM_SET_32 args.
Definition val_ffa_mem_perm_set_32 (args : ffa_args) : cmd W ffa_args := ffa_mem_perm_set args false.
Definition val_ffa_mem_perm_set_64 (args : ffa_args) : cmd W ffa_args := ffa_mem_perm_set args true.
Definition ffa_mem_perm_get (args : ffa_args) (arch64 : bool) : cmd W ffa_args :=
  if arch64 then smccc_x7 FFA_MEM_PERM_GET_64 args else smccc_w32 FFA_MEM_PERM_GET_32 args.
Definition val_ffa_mem_perm_get_32 (args : ffa_args) : cmd W ffa_args := ffa_mem_perm_get args false.
Definition val_ffa_mem_perm_get_64 (args : ffa_args) : cmd W ffa_args := ffa_mem_perm_get args true.
Definition ffa_console_log (args : ffa_args) (arch64 : bool) : cmd W ffa_args :=
  if arch64 then smccc_x17 FFA_CONSOLE_LOG_64 args else smccc_w32 FFA_CONSOLE_LOG_32 args.
Definition val_ffa_console_log_32 (args : ffa_args) : cmd W ffa_args := ffa_console_log args false.
Definition val_ffa_console_log_64 (args : ffa_args) : cmd W ffa_args := ffa_console_log args true.

(** ** Calls with a status *)

(** [pal_mem_virt_to_phys]: the identity on the baremetal target. *)
Definition pal_mem_virt_to_phys (va : Z) : Z := va.
Definition val_mem_virt_to_phys (va : Z) : Z := pal_mem_virt_to_phys va.

Definition rxtx_payload (tx_buf rx_buf page_count : Z) : ffa_args :=
  FfaArgs 0 (val_mem_virt_to_phys tx_buf) (val_mem_virt_to_phys rx_buf) page_count
    0 0 0 0 0 0 0 0 0 0 0 0 0 0.

Definition val_rxtx_map_64 (tx_buf rx_buf page_count : Z) : cmd W Z :=
  payload ← val_ffa_rxtx_map_64 (rxtx_payload tx_buf rx_buf page_count);
  if fid payload =? FFA_ERROR_32 then mret VAL_ERROR else mret VAL_SUCCESS.
Definition val_rxtx_map_32 (tx_buf rx_buf page_count : Z) : cmd W Z :=
  payload ← val_ffa_rxtx_map_32 (rxtx_payload tx_buf rx_buf page_count);
  if fid payload =? FFA_ERROR_32 then mret VAL_ERROR else mret VAL_SUCCESS.
Definition val_rxtx_unmap (id : Z) : cmd W Z :=
  payload ← val_ffa_rxtx_unmap ffa_args_zero;
  if fid payload =? FFA_ERROR_32 then mret VAL_ERROR else mret VAL_SUCCESS.
Definition val_rx_release : cmd W Z :=
  payload ← val_ffa_rx_release ffa_args_zero;
  if fid payload =? FFA_ERROR_32 then mret VAL_ERROR else mret VAL_SUCCESS.

(** [for (; count < 8; count++) if (payload[count]) return VAL_ERROR;] *)
Fixpoint reserve_loop (n : nat) (payload : list Z) (count : Z) : Z :=
  match n with
  | O => VAL_SUCCESS
  | S n' =>
      if count <? 8 then
        if default 0 (payload !! Z.to_nat count) =? 0 then reserve_loop n' payload (count + 1)
        else VAL_ERROR
      else VAL_SUCCESS
  end.
Definition val_reserve_param_check (args : ffa_args) (param_count : Z) : Z :=
  let total_count := 8 in
  let count := u32 (total_count - param_count) in
  reserve_loop 8 (regs args) count.

End FfaAbi.

(** The two ids of a direct message. *)
Lemma route_fields hi lo : is_uint 16 hi -> is_uint 16 lo ->
  let a := Z.lor (u32 (Z.shiftl hi 16)) lo in
  a = hi * 2 ^ 16 + lo /\ SENDER_ID a = hi /\ RECEIVER_ID a = lo.
Proof.
  intros Hh Hl a. unfold is_uint in *.
  assert (E : a = hi * 2 ^ 16 + lo).
  { unfold a. rewrite (uwrap_small 32) by (rewrite Z.shiftl_mul_pow2 by lia; lia).
    rewrite Z.lor_comm, lor_shiftl by lia. lia. }
  unfold SENDER_ID, RECEIVER_ID. rewrite E. change 0xffff with (Z.ones 16). rewrite !Z.land_ones by lia.
  rewrite Z.shiftr_div_pow2 by lia. Z.div_mod_to_equations; lia.
Qed.

(** ** The register convention

    An SMC32 call uses function ids with prefix 0x8400 and 32-bit registers, an
    SMC64 call prefix 0xC400 and whole registers; registers a call does not use
    are zero. *)

Section Wrappers.
Context {W : Type} (conduit : ffa_args -> W -> ffa_args * W).

Definition smc32_wrappers : list (Z * (ffa_args -> cmd W ffa_args)) :=
  [(FFA_SUCCESS_32, val_ffa_success_32 conduit); (FFA_VERSION_32, val_ffa_version conduit);
   (FFA_ID_GET_32, val_ffa_id_get conduit); (FFA_SPM_ID_GET_32, val_ffa_spm_id_get conduit);
   (FFA_RX_RELEASE_32, val_ffa_rx_release conduit); (FFA_RXTX_UNMAP_32, val_ffa_rxtx_unmap conduit);
   (FFA_RXTX_MAP_32, val_ffa_rxtx_map_32 conduit); (FFA_MSG_SEND_32, val_ffa_msg_send conduit);
   (FFA_MSG_SEND2_32, val_ffa_msg_send2 conduit);
   (FFA_PARTITION_INFO_GET_32, val_ffa_partition_info_get conduit);
   (FFA_FEATURES_32, val_ffa_features conduit); (FFA_MEM_RECLAIM_32, val_ffa_mem_reclaim conduit);
   (FFA_MSG_WAIT_32, val_ffa_msg_wait conduit); (FFA_YIELD_32, val_ffa_yield conduit);
   (FFA_MSG_POLL_32, val_ffa_msg_poll conduit); (FFA_MEM_DONATE_32, val_ffa_mem_donate_32 conduit);
   (FFA_MEM_LEND_32, val_ffa_mem_lend_32 conduit); (FFA_MEM_SHARE_32, val_ffa_mem_share_32 conduit);
   (FFA_MEM_RETRIEVE_REQ_32, val_ffa_mem_retrieve_32 conduit);
   (FFA_MEM_RELINQUISH_32, val_ffa_mem_relinquish conduit);
   (FFA_NOTIFICATION_BITMAP_CREATE, val_ffa_notification_bitmap_create conduit);
   (FFA_NOTIFICATION_BITMAP_DESTROY, val_ffa_notification_bitmap_destroy conduit);
   (FFA_NOTIFICATION_BIND, val_ffa_notification_bind conduit);
   (FFA_NOTIFICATION_UNBIND, val_ffa_notification_unbind conduit);
   (FFA_NOTIFICATION_SET, val_ffa_notification_set conduit);
   (FFA_NOTIFICATION_GET, val_ffa_notification_get conduit);
   (FFA_NOTIFICATION_INFO_GET_32, val_ffa_notification_info_get_32 conduit);
   (FFA_MEM_PERM_SET_32, val_ffa_mem_perm_set_32 conduit);
   (FFA_MEM_PERM_GET_32, val_ffa_mem_perm_get_32 conduit);
   (FFA_CONSOLE_LOG_32, val_ffa_console_log_32 conduit)].

(** The SMC64 wrappers with the number of arguments each passes. *)
Definition smc64_wrappers : list (Z * nat * (ffa_args -> cmd W ffa_args)) :=
  [(FFA_SUCCESS_64, 7%nat, val_ffa_success_64 conduit); (FFA_RXTX_MAP_64, 7%nat, val_ffa_rxtx_map_64 conduit);
   (FFA_MSG_SEND_DIRECT_RESP_64, 7%nat, val_ffa_msg_send_direct_resp_64 conduit);
   (FFA_MSG_SEND_DIRECT_RESP2_64, 17%nat, val_ffa_msg_send_direct_resp2_64 conduit);
   (FFA_PARTITION_INFO_GET_REGS_64, 17%nat, val_ffa_partition_info_get_regs conduit);
   (FFA_MEM_DONATE_64, 7%nat, val_ffa_mem_donate_64 conduit); (FFA_MEM_LEND_64, 7%nat, val_ffa_mem_lend_64 conduit);
   (FFA_MEM_SHARE_64, 7%nat, val_ffa_mem_share_64 conduit);
   (FFA_MEM_RETRIEVE_REQ_64, 7%nat, val_ffa_mem_retrieve_64 conduit);
   (FFA_NOTIFICATION_INFO_GET_64, 7%nat, val_ffa_notification_info_get_64 conduit);
   (FFA_MEM_PERM_SET_64, 7%nat, val_ffa_mem_perm_set_64 conduit);
   (FFA_MEM_PERM_GET_64, 7%nat, val_ffa_mem_perm_get_64 conduit);
   (FFA_CONSOLE_LOG_64, 17%nat, val_ffa_console_log_64 conduit)].

(** One trap with the given registers. *)
Definition traps (c : cmd W ffa_args) (x : list Z) : Prop :=
  forall w, exists req, c w = Ret (conduit req w) /\ regs req = x.

Lemma smccc_w32_traps f args :
  traps (smccc_w32 conduit f args) (f :: (u32 <$> take 7 (drop 1 (regs args))) ++ repeat 0 10).
Proof. intros w. eexists. split; reflexivity. Qed.

Lemma smccc_x7_traps f args :
  traps (smccc_x7 conduit f args) (f :: take 7 (drop 1 (regs args)) ++ repeat 0 10).
Proof. intros w. eexists. split; reflexivity. Qed.

Lemma smccc_x17_traps f args : traps (smccc_x17 conduit f args) (f :: drop 1 (regs args)).
Proof. intros w. eexists. split; reflexivity. Qed.

Lemma w32_regs_narrow args :
  Forall (is_uint 32) ((u32 <$> take 7 (drop 1 (regs args))) ++ repeat 0 10).
Proof.
  apply Forall_app. split.
  - apply Forall_fmap, Forall_true. intros x. apply uwrap_is_uint. lia.
  - cbn [repeat]. repeat (apply List.Forall_cons; [unfold is_uint; lia|]). apply List.Forall_nil.
Qed.

(** Each SMC32 wrapper traps once with its own 32-bit function id, which is in the
    list of supported ids, the seven arguments truncated to 32 bits in w1 to w7 and
    zero in x8 to x17, as the SMC calling convention demands. *)
Theorem smc32_convention args :
  Forall (fun '(f, wrapper) =>
    Z.land f FFA_FID_UPPER_MASK = FFA_FID_ABI32_PREFIX /\ f ∈ ffa_supported_fids /\
    exists x, traps (wrapper args) (f :: x) /\ length x = 17%nat /\ Forall (is_uint 32) x /\
              x = (u32 <$> take 7 (drop 1 (regs args))) ++ repeat 0 10) smc32_wrappers.
Proof.
  unfold smc32_wrappers.
  repeat apply List.Forall_cons; try apply List.Forall_nil;
  (split; [reflexivity|]; split; [apply (bool_decide_unpack _); vm_compute; exact I|];
   eexists; split; [apply smccc_w32_traps|]; split; [reflexivity|]; split; [|reflexivity];
   apply w32_regs_narrow).
Qed.

(** Each SMC64 wrapper traps once with its own 64-bit function id, which is in the
    list of supported ids, and passes the full 64-bit arguments (x1 to x7, or x1 to
    x17 for the extended direct messages) unchanged. *)
Theorem smc64_convention args :
  Forall (fun '(f, n, wrapper) =>
    Z.land f FFA_FID_UPPER_MASK = FFA_FID_ABI64_PREFIX /\ f ∈ ffa_supported_fids /\
    traps (wrapper args) (f :: take n (drop 1 (regs args)) ++ repeat 0 (17 - n))) smc64_wrappers.
Proof.
  unfold smc64_wrappers.
  repeat apply List.Forall_cons; try apply List.Forall_nil;
  (split; [reflexivity|]; split; [apply (bool_decide_unpack _); vm_compute; exact I|];
   first [apply smccc_x7_traps | apply smccc_x17_traps]).
Qed.
End Wrappers.

(** ** Resuming interrupted calls *)

Section Resume.
Context {W : Type} (conduit : ffa_args -> W -> ffa_args * W).

(** The registers of [FFA_RUN] for the interrupted target. *)
Definition run_request (args : ffa_args) : ffa_args :=
  FfaArgs FFA_RUN_32 (u32 (arg1 args)) 0 0 0 0 0 0 0 0 0 0 0 0 0 0 0 0.

(** [k] times: take the reply, ask the manager to run its target again. *)
Fixpoint rerun (k : nat) (s : ffa_args * W) : ffa_args * W :=
  match k with
  | O => s
  | S k' => rerun k' (conduit (run_request s.1) s.2)
  end.

Definition interrupted (s : ffa_args * W) : Prop := fid s.1 = FFA_INTERRUPT_32.

(** The first reply that is not an interrupt comes after [k] resumptions. *)
Definition completes (k : nat) (s : ffa_args * W) : Prop :=
  (forall i, (i < k)%nat -> interrupted (rerun i s)) /\ ~ interrupted (rerun k s).

Lemma completes_S k s : completes (S k) s ->
  interrupted s /\ completes k (conduit (run_request s.1) s.2).
Proof.
  intros [H1 H2]. split; [apply (H1 0%nat); lia|]. split; [|done]. intros i Hi. apply (H1 (S i)). lia.
Qed.

Lemma ffa_run_resume args w : ffa_run conduit (resume_payload args) w = Ret (conduit (run_request args) w).
Proof. done. Qed.

Lemma resume_loop_0 run fuel a w : ~ interrupted (a, w) -> resume_loop (W := W) run fuel a w = Ret (a, w).
Proof.
  intros Hn. unfold interrupted in Hn. cbn in Hn.
  destruct fuel; cbn [resume_loop]; by rewrite (proj2 (Z.eqb_neq _ _) Hn).
Qed.

Lemma resume_loop_run k fuel a w :
  completes k (a, w) -> (k <= fuel)%nat ->
  resume_loop (ffa_run conduit) fuel a w = Ret (rerun k (a, w)).
Proof.
  revert fuel a w; induction k as [|k IH]; intros fuel a w HC Hk.
  - by apply resume_loop_0, HC.
  - destruct fuel as [|fuel]; [lia|]. apply completes_S in HC as [Hi HC]. unfold interrupted in Hi. cbn in Hi.
    cbn [resume_loop]. rewrite Hi, Z.eqb_refl. cbn [rerun fst snd] in *.
    destruct (conduit (run_request a) w) as [a' w'] eqn:E.
    erewrite cmd_bind_eq; [|by rewrite ffa_run_resume, E]. apply IH; [done | lia].
Qed.

(** The inner [val_ffa_run] already resumes until the target completes, so the
    loop around it runs at most once. *)
Lemma resume_loop_val_run k fuel a w :
  completes k (a, w) -> (k <= fuel)%nat -> (0 < fuel)%nat ->
  resume_loop (val_ffa_run conduit true fuel) fuel a w = Ret (rerun k (a, w)).
Proof.
  intros HC Hk Hf. destruct k as [|k]; [by apply resume_loop_0, HC|].
  destruct fuel as [|fuel]; [lia|]. pose proof HC as [Hi HC']%completes_S. unfold interrupted in Hi. cbn in Hi.
  cbn [resume_loop]. rewrite Hi, Z.eqb_refl. cbn [fst snd] in HC'.
  destruct (conduit (run_request a) w) as [a' w'] eqn:E.
  assert (HR : val_ffa_run conduit true (S fuel) (resume_payload a) w = Ret (rerun k (a', w'))).
  { unfold val_ffa_run. erewrite cmd_bind_eq; [|by rewrite ffa_run_resume, E].
    apply resume_loop_run; [done | lia]. }
  destruct (rerun k (a', w')) as [a2 w2] eqn:E2. erewrite cmd_bind_eq; [|exact HR].
  cbn [rerun fst snd]. rewrite E, E2. apply resume_loop_0. rewrite <- E2. apply HC'.
Qed.

(** If the partition answers after k interruptions, ffa_msg_send_direct_req on the
    hypervisor side resumes it with FFA_RUN k times, needs no more, and returns the
    first reply that is not FFA_INTERRUPT. *)
Theorem direct_req_completes args (arch64 : bool) fuel k w :
  let f := if arch64 then FFA_MSG_SEND_DIRECT_REQ_64 else FFA_MSG_SEND_DIRECT_REQ_32 in
  let first := conduit (FfaArgs f (arg1 args) (arg2 args) (arg3 args) (arg4 args) (arg5 args)
                          (arg6 args) (arg7 args) 0 0 0 0 0 0 0 0 0 0) w in
  completes k first -> (k <= fuel)%nat -> (0 < fuel)%nat ->
  exists reply w', ffa_msg_send_direct_req conduit true fuel args arch64 w = Ret (reply, w') /\
    fid reply <> FFA_INTERRUPT_32 /\ (reply, w') = rerun k first.
Proof.
  intros f first HC Hk Hf. destruct (rerun k first) as [reply w'] eqn:E. exists reply, w'.
  split; [|split; [|done]].
  - unfold ffa_msg_send_direct_req. destruct first as [a0 w0] eqn:E0.
    erewrite cmd_bind_eq; [|destruct arch64; rewrite <- E0; reflexivity].
    rewrite <- E. by apply resume_loop_val_run.
  - destruct HC as [_ HC]. rewrite E in HC. exact HC.
Qed.

(** Whatever the manager answers, a call that returns does not return an interrupt. *)
Lemma resume_loop_not_interrupt run fuel a w reply w' :
  resume_loop (W := W) run fuel a w = Ret (reply, w') -> fid reply <> FFA_INTERRUPT_32.
Proof.
  revert a w; induction fuel as [|fuel IH]; intros a w; cbn [resume_loop];
    destruct (Z.eqb_spec (fid a) FFA_INTERRUPT_32) as [Hi|Hi]; try (by intros; simplify_eq).
  intros HE. apply cmd_bind_Ret_inv in HE as (a' & w1 & _ & HE). eauto.
Qed.

End Resume.

(** ** Reserved registers *)

Lemma reserve_loop_spec `{ValCommon} n payload count :
  0 <= count -> 8 - count <= Z.of_nat n ->
  reserve_loop n payload count = VAL_SUCCESS <->
  (forall i, count <= i < 8 -> default 0 (payload !! Z.to_nat i) = 0).
Proof.
  revert count; induction n as [|n IH]; intros count Hc Hn; cbn [reserve_loop].
  - split; [intros; lia | done].
  - destruct (Z.ltb_spec count 8); [|split; [intros; lia | done]].
    destruct (Z.eqb_spec (default 0 (payload !! Z.to_nat count)) 0) as [E|E].
    + rewrite IH by lia. split; intros Hi i Hr; [|apply Hi; lia].
      destruct (decide (i = count)) as [->|]; [done|]. apply Hi; lia.
    + split; [intros Hbad; by apply VAL_ERROR_not_success in Hbad | intros Hi; by destruct E; apply Hi; lia].
Qed.

(** For up to eight returned parameters, val_reserve_param_check succeeds exactly
    when every register of the eight that the call does not define is zero. *)
Theorem reserve_param_check_correct `{ValCommon} args param_count :
  0 <= param_count <= 8 ->
  val_reserve_param_check args param_count = VAL_SUCCESS <->
  Forall (fun x => x = 0) (drop (Z.to_nat (8 - param_count)) (take 8 (regs args))).
Proof.
  intros Hp. unfold val_reserve_param_check. rewrite uwrap_small by lia.
  rewrite reserve_loop_spec by lia. rewrite Forall_lookup. split.
  - intros Hi i x Hx. rewrite lookup_drop in Hx.
    assert (Hlt : (Z.to_nat (8 - param_count) + i < 8)%nat).
    { apply lookup_lt_Some in Hx. rewrite length_take in Hx. lia. }
    rewrite lookup_take_lt in Hx by lia.
    specialize (Hi (Z.of_nat (Z.to_nat (8 - param_count) + i))). rewrite Nat2Z.id, Hx in Hi. apply Hi. lia.
  - intros Hx i Hi. destruct (regs args !! Z.to_nat i) as [v|] eqn:E; [|done]. cbn.
    apply (Hx (Z.to_nat (i - (8 - param_count)))).
    rewrite lookup_drop, lookup_take_lt by lia. rewrite <- E. f_equal. lia.
Qed.

(** A count above 8 wraps to a huge start index and checks nothing. *)
Theorem reserve_param_check_above_8 `{ValCommon} args param_count :
  8 < param_count < 2 ^ 32 -> val_reserve_param_check args param_count = VAL_SUCCESS.
Proof.
  intros Hp. unfold val_reserve_param_check.
  replace (u32 (8 - param_count)) with (8 - param_count + 2 ^ 32).
  - cbn [reserve_loop]. destruct (Z.ltb_spec (8 - param_count + 2 ^ 32) 8); [lia | done].
  - unfold uwrap. Z.div_mod_to_equations; lia.
Qed.

(** ** Examples *)

(** A manager that interrupts its first two calls, then answers FFA_SUCCESS. *)
Definition two_interrupts (a : ffa_args) (n : nat) : ffa_args * nat :=
  match n with
  | O | 1%nat => (FfaArgs FFA_INTERRUPT_32 (arg1 a) 0 0 0 0 0 0 0 0 0 0 0 0 0 0 0 0, S n)
  | _ => (FfaArgs FFA_SUCCESS_32 (arg1 a) 0 0 0 0 0 0 0 0 0 0 0 0 0 0 0 0, S n)
  end.

Lemma direct_req_completes_witness :
  exists reply w', ffa_msg_send_direct_req two_interrupts true 3
                     (FfaArgs 0 0x80020001 0 7 0 0 0 0 0 0 0 0 0 0 0 0 0 0) false 0%nat = Ret (reply, w') /\
    fid reply <> FFA_INTERRUPT_32.
Proof.
  destruct (direct_req_completes two_interrupts (FfaArgs 0 0x80020001 0 7 0 0 0 0 0 0 0 0 0 0 0 0 0 0)
              false 3 2 0%nat) as (reply & w' & E & Hf & _).
  - split; [|by vm_compute]. intros i Hi. destruct i as [|[|i]]; [reflexivity..|lia].
  - lia.
  - lia.
  - exists reply, w'. split; [exact E | exact Hf].
Defined.

Lemma reserve_param_check_witness :
  @val_reserve_param_check sample_val_common (FfaArgs FFA_SUCCESS_32 0 5 0 0 0 0 0 9 0 0 0 0 0 0 0 0 0) 5 =
  @VAL_SUCCESS sample_val_common.
Proof.
  apply (@reserve_param_check_correct sample_val_common); [lia|]. repeat constructor.
Defined.
