(* ===== verification/GlueProof.v ===== *)
(** * The assembly routines do what the C code around them assumes

    [val_call_conduit] on a buffer in memory is the call [ffa_smccc] of the FF-A
    layer; the accessors of [val_sysreg.S] reach the register bank of the exception
    level they are given; every secondary CPU runs on a stack of its own. *)

From S2P Require Import Prelude CMem FfaAbi Machine Asm Entry EntryProof Glue.

(** ** Runs of loads and stores *)

(** [n] words from [a] on, and the words [vs] stored there. *)
Fixpoint get_words (n : nat) (m : mem) (a : Z) : list Z :=
  match n with O => [] | S n' => ldn 8 m a :: get_words n' m (a + 8) end.
Fixpoint put_words (m : mem) (a : Z) (vs : list Z) : mem :=
  match vs with [] => m | v :: vs' => put_words (stn 8 m a v) (a + 8) vs' end.

Lemma put_words_frame m a vs : frame a (8 * Z.of_nat (length vs)) m (put_words m a vs).
Proof.
  revert m a. induction vs as [|v vs IH]; intros m a b Hb; [done|]. cbn [put_words length] in *.
  rewrite IH by lia. by rewrite ld8_stn_out by lia.
Qed.

Lemma get_put_words m a vs : Forall (is_uint 64) vs -> get_words (length vs) (put_words m a vs) a = vs.
Proof.
  revert m a. induction vs as [|v vs IH]; intros m a Hv; [done|]. apply List.Forall_cons_iff in Hv as [Hv Hvs].
  cbn [put_words length get_words]. rewrite IH by done. f_equal.
  rewrite (frame_ldn _ _ _ _ 8 _ (put_words_frame _ _ _)) by lia. by apply ldn_stn_same_small.
Qed.

Lemma get_words_frame lo n m m' k a :
  frame lo n m m' -> a + 8 * Z.of_nat k <= lo \/ lo + n <= a -> get_words k m' a = get_words k m a.
Proof.
  intros Hf. revert a. induction k as [|k IH]; intros a Ha; [done|]. cbn [get_words].
  rewrite IH by lia. by rewrite (frame_ldn _ _ _ _ 8 _ Hf) by lia.
Qed.

Lemma get_words_uint n m a : Forall (is_uint 64) (get_words n m a).
Proof. revert a. induction n as [|n IH]; intros a; constructor; [apply ldn8_uint | apply IH]. Qed.

Section Runs.
Context {W Sym : Type} (call : Sym -> astate W -> outcome (astate W)) (tr : astate W -> outcome (astate W)).
Context (p : list (instr Sym)) (base : reg) (Hbase : base <> XZR).
Abbreviation reach := (reaches call tr p).

(** Loads of the registers [l] from the words at [base + off]. *)
Lemma load_run l pc off s a :
  (forall i r, l !! i = Some r -> p !! (pc + i)%nat = Some (Ldr r base (off + 8 * Z.of_nat i))) ->
  NoDup l -> base ∉ l -> XZR ∉ l -> rf s base + off = a -> 0 <= a -> a + 8 * Z.of_nat (length l) <= 2 ^ 64 ->
  exists s1, reach pc s (pc + length l)%nat s1 /\ map (rf s1) l = get_words (length l) (amem s) a /\
    amem s1 = amem s /\ same_but l s s1.
Proof.
  revert pc off s a. induction l as [|r l IH]; intros pc off s a Hp Hn Hb Hz Ha Ha0 Ha1.
  { exists s. rewrite Nat.add_0_r. split_and!; [apply reaches_refl | done | done | by split]. }
  apply list.NoDup_cons in Hn as [Hr Hn]. apply not_elem_of_cons in Hb as [Hbr Hb]. apply not_elem_of_cons in Hz as [Hzr Hz].
  pose proof (Hp O r eq_refl) as H0. rewrite Nat.add_0_r in H0. change (Z.of_nat 0) with 0 in H0.
  cbn [length] in Ha1. assert (Eb : get base s = rf s base) by (by destruct base).
  set (s0 := set r (ldn 8 (amem s) a) s).
  assert (E0 : exec call tr (Ldr r base (off + 8 * 0)) s = Ret (Next, s0)).
  { cbn [exec]. unfold ld64, next, s0. rewrite Eb. replace (rf s base + (off + 8 * 0)) with a by lia.
    by rewrite (uwrap_small 64) by lia. }
  assert (F0 : forall q, q <> r -> rf s0 q = rf s q).
  { intros q Hq. unfold s0. destruct r; try done; by apply upd_reg_ne. }
  assert (V0 : rf s0 r = ldn 8 (amem s) a) by (unfold s0; by destruct r).
  assert (M0 : amem s0 = amem s) by (unfold s0; by destruct r).
  assert (K0 : sys s0 = sys s /\ world s0 = world s) by (unfold s0; by destruct r).
  clearbody s0.
  destruct (IH (S pc) (off + 8) s0 (a + 8)) as (s1 & R1 & V1 & M1 & K1 & K2 & K3); try done; try lia.
  { intros i q Hi. specialize (Hp (S i) q Hi). rewrite Nat.add_succ_r in Hp. rewrite <- Nat.add_succ_l in Hp.
    rewrite Hp. do 2 f_equal. lia. }
  { rewrite F0 by done. lia. }
  exists s1. cbn [length]. rewrite Nat.add_succ_r, <- Nat.add_succ_l. split_and!.
  - eapply reaches_next; [exact H0 | exact E0 | exact R1].
  - cbn [map get_words]. rewrite V1, M0. f_equal. rewrite K1 by (by rewrite <- list_elem_of_In). done.
  - congruence.
  - destruct K0. split; [|split; congruence]. intros q Hq. cbn [In] in Hq. rewrite K1, F0; tauto || (intros ->; tauto).
Qed.

(** Stores of the registers [l] to the words at [base + off]. *)
Lemma store_run l pc off s a :
  (forall i r, l !! i = Some r -> p !! (pc + i)%nat = Some (Str r base (off + 8 * Z.of_nat i))) ->
  XZR ∉ l -> rf s base + off = a -> 0 <= a -> a + 8 * Z.of_nat (length l) <= 2 ^ 64 ->
  reach pc s (pc + length l)%nat (set_amem (put_words (amem s) a (map (rf s) l)) s).
Proof.
  revert pc off s a. induction l as [|r l IH]; intros pc off s a Hp Hz Ha Ha0 Ha1.
  { rewrite Nat.add_0_r. destruct s. apply reaches_refl. }
  apply not_elem_of_cons in Hz as [Hzr Hz].
  pose proof (Hp O r eq_refl) as H0. rewrite Nat.add_0_r in H0. change (Z.of_nat 0) with 0 in H0.
  cbn [length] in *. rewrite Nat.add_succ_r, <- Nat.add_succ_l.
  assert (Eb : get base s = rf s base) by (by destruct base).
  set (s0 := set_amem (stn 8 (amem s) a (rf s r)) s).
  eapply reaches_next with (s1 := s0); [exact H0 | |].
  { cbn [exec]. unfold next, st64, s0. rewrite Eb. replace (rf s base + (off + 8 * 0)) with a by lia.
    rewrite (uwrap_small 64) by lia. do 4 f_equal. by destruct r. }
  replace (set_amem _ s) with (set_amem (put_words (amem s0) (a + 8) (map (rf s0) l)) s0) by done.
  apply (IH (S pc) (off + 8)); try done; try (cbn [s0 set_amem rf]; lia).
  intros i q Hi. specialize (Hp (S i) q Hi). rewrite Nat.add_succ_r in Hp. rewrite <- Nat.add_succ_l in Hp.
  rewrite Hp. do 2 f_equal. lia.
Qed.
End Runs.

(** ** val_call_conduit *)
Definition arg_regs : list reg :=
  [X0; X1; X2; X3; X4; X5; X6; X7; X8; X9; X10; X11; X12; X13; X14; X15; X16; X17].
(** What the SMC calling convention keeps. *)
Definition smccc_saved : list reg := [X18; X19; X20; X21; X22; X23; X24; X25; X26; X27; X28; X29; X30; SP].

(** A buffer of type [ffa_args_t] in memory. *)
Definition args_at (m : mem) (a : Z) : list Z := get_words 18 m a.

Section Conduit.
Context {W : Type} (conduit : ffa_args -> W -> ffa_args * W).

(** The instruction [tr] is a call by the convention: x0 to x17 carry the arguments
    and the results of [conduit], the other registers are kept, and the callee writes
    only the memory [shared] with it. *)
Definition smccc (shared : Z -> Prop) (tr : astate W -> outcome (astate W)) : Prop :=
  forall s a, map (rf s) arg_regs = regs a -> Forall (is_uint 64) (regs a) ->
    exists s', tr s = Ret s' /\ map (rf s') arg_regs = regs (fst (conduit a (world s))) /\
      world s' = snd (conduit a (world s)) /\ Forall (is_uint 64) (map (rf s') arg_regs) /\
      Forall (fun r => rf s' r = rf s r) smccc_saved /\
      (forall b, ~ shared b -> ld8 (amem s') b = ld8 (amem s) b).
End Conduit.

(** The program has no call. *)
Definition no_call {W} (f : no_sym) (s : astate W) : outcome (astate W) := match f with end.

Section CallConduit.
Context {W : Type} (conduit : ffa_args -> W -> ffa_args * W) (shared : Z -> Prop).
Context (tr : astate W -> outcome (astate W)) (Htr : smccc conduit shared tr) (use_svc : bool).
Abbreviation prog := (val_call_conduit use_svc).
Abbreviation reach := (reaches no_call tr prog).

(** The call in [s]: the buffer at x0 and the 32 bytes below the stack pointer. *)
Record call_ok (s : astate W) : Prop := CallOk {
  ok_buf : 0 <= rf s X0 /\ rf s X0 + 144 <= 2 ^ 64;
  ok_sp : 32 <= rf s SP < 2 ^ 64;
  ok_apart : rf s X0 + 144 <= rf s SP - 32 \/ rf s SP <= rf s X0;
  ok_x21 : is_uint 64 (rf s X21);
  ok_private : forall b, rf s SP - 32 <= b < rf s SP -> ~ shared b
}.

(** The arguments are in x0 to x17 when the conduit instruction is reached. *)
Lemma conduit_loads s : call_ok s ->
  exists s1, reach 0 s 21 s1 /\ map (rf s1) arg_regs = args_at (amem s) (rf s X0) /\ rf s1 SP = rf s SP - 32 /\
    rf s1 X21 = rf s X0 /\ ldn 8 (amem s1) (rf s SP - 16) = rf s X21 /\ world s1 = world s /\
    (forall r, In r smccc_saved -> r <> SP -> r <> X21 -> rf s1 r = rf s r) /\ frame (rf s SP - 32) 32 (amem s) (amem s1).
Proof.
  intros [[H1 H2] H3 H4 H5 _]. set (a := rf s X0) in *. set (sp := rf s SP) in *.
  set (s0 := AState (upd_reg X21 a (upd_reg SP (sp - 32) (rf s))) (sys s) (nzcv s) (stn 8 (amem s) (sp - 16) (rf s X21)) (world s)).
  assert (R0 : reach 0 s 3 s0).
  { do 3 anext. fold sp a. rewrite !(uwrap_small 64 (sp - 32)) by (unfold is_uint; lia).
    rewrite (uwrap_small 64 (sp - 32 + 16)) by (unfold is_uint; lia).
    replace (sp - 32 + 16) with (sp - 16) by lia. apply reaches_refl. }
  destruct (load_run no_call tr prog X21 ltac:(done) arg_regs 3 0 s0 a) as (s1 & R1 & V1 & M1 & K1 & K2 & K3).
  { intros i r Hi. do 18 (destruct i as [|i]; [injection Hi as <-; reflexivity|]). done. }
  { unfold arg_regs. repeat constructor; rewrite list_elem_of_In; cbn; intuition congruence. }
  { rewrite list_elem_of_In; cbn; intuition congruence. }
  { rewrite list_elem_of_In; cbn; intuition congruence. }
  { change (rf s0 X21) with a. lia. }
  { done. }
  { change (Z.of_nat (length arg_regs)) with 18. lia. }
  exists s1. split_and!.
  - eapply reaches_trans; [exact R0 | exact R1].
  - rewrite V1. apply (get_words_frame _ _ _ _ _ _ (frame_stn 8 (amem s) (sp - 16) (rf s X21))). cbn. lia.
  - rewrite K1; [done | cbn; intuition congruence].
  - rewrite K1; [done | cbn; intuition congruence].
  - rewrite M1. by apply ldn_stn_same_small.
  - done.
  - intros r Hr Hs Hx. rewrite K1.
    + cbn [s0 rf]. by rewrite !upd_reg_ne.
    + revert Hr. cbn. intuition congruence.
  - rewrite M1. intros b Hb. cbn [s0 amem]. apply ld8_stn_out. lia.
Qed.

(** From the return of the conduit instruction on. *)
Lemma conduit_stores s a : rf s X21 = a -> 0 <= a /\ a + 144 <= 2 ^ 64 -> 0 <= rf s SP /\ rf s SP + 32 < 2 ^ 64 ->
  a + 144 <= rf s SP \/ rf s SP + 32 <= a ->
  exists s1, ends no_call tr prog 22 s (Ret s1) /\
    amem s1 = put_words (amem s) a (map (rf s) arg_regs) /\ world s1 = world s /\
    rf s1 X21 = ldn 8 (amem s) (rf s SP + 16) /\ rf s1 SP = rf s SP + 32 /\
    (forall r, In r smccc_saved -> r <> SP -> r <> X21 -> rf s1 r = rf s r).
Proof.
  intros Hx Ha Hs Hd.
  pose proof (store_run no_call tr prog X21 ltac:(done) arg_regs 22 0 s a) as R.
  assert (Ew : ldn 8 (put_words (amem s) a (map (rf s) arg_regs)) (rf s SP + 16) = ldn 8 (amem s) (rf s SP + 16)).
  { apply (frame_ldn _ _ _ _ 8 _ (put_words_frame _ _ _)). rewrite length_map. change (Z.of_nat (length arg_regs)) with 18. lia. }
  eexists. split; [|split].
  - eapply ends_reaches.
    + apply R; [|rewrite list_elem_of_In; cbn; intuition congruence | lia | lia | change (Z.of_nat (length arg_regs)) with 18; lia].
      intros i r Hi. do 18 (destruct i as [|i]; [injection Hi as <-; reflexivity|]). done.
    + do 2 anext. astop.
  - done.
  - asimpl. rewrite (uwrap_small 64 (rf s SP + 16)), (uwrap_small 64 (rf s SP + 32)) by (unfold is_uint; lia).
    split_and!; [done | done | done |]. intros r Hr H1 H2. by rewrite !upd_reg_ne.
Qed.

(** Claim C13: For every conduit that follows the SMC calling convention,
    val_call_conduit on a buffer of 18 words in memory leaves there the words
    ffa_smccc of the FF-A layer returns for the words it held, with the state of the
    partition manager that function gives; the stack pointer, x18 to x30 and all
    other memory of the caller, 32 bytes below the stack pointer apart, are
    unchanged. *)
Theorem val_call_conduit_refines s f a1 a2 a3 a4 a5 a6 a7 a8 a9 a10 a11 a12 a13 a14 a15 a16 a17 :
  call_ok s ->
  args_at (amem s) (rf s X0) = [f; a1; a2; a3; a4; a5; a6; a7; a8; a9; a10; a11; a12; a13; a14; a15; a16; a17] ->
  exists s' r, ends no_call tr prog 0 s (Ret s') /\
    ffa_smccc conduit f a1 a2 a3 a4 a5 a6 a7 a8 a9 a10 a11 a12 a13 a14 a15 a16 a17 (world s) = Ret (r, world s') /\
    args_at (amem s') (rf s X0) = regs r /\
    Forall (fun q => rf s' q = rf s q) smccc_saved /\
    (forall b, ~ shared b -> b < rf s X0 \/ rf s X0 + 144 <= b -> b < rf s SP - 32 \/ rf s SP <= b ->
       ld8 (amem s') b = ld8 (amem s) b).
Proof.
  intros Hok Ha. destruct (conduit_loads s Hok) as (s1 & R1 & V1 & Sp1 & X1 & Sv1 & W1 & K1 & F1).
  destruct Hok as [Hb Hsp Hd Hx Hp]. rewrite Ha in V1.
  set (a := FfaArgs f a1 a2 a3 a4 a5 a6 a7 a8 a9 a10 a11 a12 a13 a14 a15 a16 a17).
  pose proof (get_words_uint 18 (amem s) (rf s X0)) as Hu. unfold args_at in Ha. rewrite Ha in Hu.
  destruct (Htr s1 a V1 Hu) as (s2 & E2 & V2 & W2 & U2 & K2 & F2). rewrite W1 in V2, W2.
  pose proof K2 as Hk. rewrite List.Forall_forall in Hk.
  assert (Sp2 : rf s2 SP = rf s SP - 32) by (rewrite Hk by (cbn; tauto); done).
  assert (X2 : rf s2 X21 = rf s X0) by (rewrite Hk by (cbn; tauto); done).
  destruct (conduit_stores s2 (rf s X0) X2 Hb ltac:(lia) ltac:(lia)) as (s3 & R3 & M3 & W3 & X3 & Sp3 & K3).
  assert (Hlen : Z.of_nat (length (map (rf s2) arg_regs)) = 18) by (by rewrite length_map).
  exists s3, (fst (conduit a (world s))). split_and!.
  - eapply ends_reaches; [exact R1|]. eapply ends_next; [reflexivity | | exact R3].
    assert (Ei : exec no_call tr (conduit_instr use_svc) s1 = Ret (Next, s2)).
    { destruct use_svc; cbn [conduit_instr exec]; by rewrite E2. }
    exact Ei.
  - unfold ffa_smccc. fold a. rewrite W3, W2. by rewrite <- surjective_pairing.
  - rewrite M3. unfold args_at. rewrite <- V2. rewrite <- (get_put_words (amem s2) (rf s X0) (map (rf s2) arg_regs)) at 2 by done.
    by rewrite length_map.
  - rewrite List.Forall_forall. intros q Hq. destruct (decide (q = SP)) as [->|]; [rewrite Sp3; lia|].
    destruct (decide (q = X21)) as [->|]; [|by rewrite K3, Hk, K1].
    rewrite X3, Sp2, <- Sv1. replace (rf s SP - 32 + 16) with (rf s SP - 16) by lia.
    apply ldn_ext. intros i Hi. apply F2, Hp. lia.
  - intros b Hs Hb1 Hb2. rewrite M3, (put_words_frame _ _ _ b) by (rewrite Hlen; lia). rewrite F2 by done. apply F1. lia.
Qed.
End CallConduit.

(** A partition manager that counts its calls and answers success with the argument
    x1, and the state the conduit instruction leaves. *)
Definition echo (a : ffa_args) (n : Z) : ffa_args * Z :=
  (FfaArgs FFA_SUCCESS_32 (arg1 a) 0 0 0 0 0 0 0 0 0 0 0 0 0 0 0 0, n + 1).
Definition echo_trap (s : astate Z) : outcome (astate Z) :=
  let f r := if decide (r = X0) then FFA_SUCCESS_32 else if decide (r = X1) then rf s X1
             else if decide (In r arg_regs) then 0 else rf s r in
  Ret (AState f (sys s) (nzcv s) (amem s) (world s + 1)).

Lemma echo_smccc : smccc echo (fun _ => False) echo_trap.
Proof.
  intros s a Hr Hu. eexists. split; [reflexivity|]. injection Hr as ? H1 ? ? ? ? ? ? ? ? ? ? ? ? ? ? ? ?. split_and!; try done.
  - cbn. by rewrite H1.
  - unfold regs in Hu. rewrite !List.Forall_cons_iff in Hu. destruct Hu as (_ & Hu & _). cbn. rewrite H1.
    repeat (apply List.Forall_cons; [done|]). apply List.Forall_nil.
  - by repeat constructor.
Qed.

Example call_conduit_state : astate Z :=
  AState (fun r => if decide (r = SP) then 0x2000 else if decide (r = X0) then 0x1000 else reg_num r) (fun _ => 0)
    (Flags false false false false) (stn 8 (stn 8 ∅ 0x1000 FFA_ID_GET_32) 0x1008 7) 0.

Lemma val_call_conduit_refines_witness :
  exists s' r, ends no_call echo_trap (val_call_conduit true) 0 call_conduit_state (Ret s') /\
    ffa_smccc echo FFA_ID_GET_32 7 0 0 0 0 0 0 0 0 0 0 0 0 0 0 0 0 0 = Ret (r, world s') /\ args_at (amem s') 0x1000 = regs r.
Proof.
  destruct (val_call_conduit_refines echo (fun _ => False) echo_trap echo_smccc true call_conduit_state
              FFA_ID_GET_32 7 0 0 0 0 0 0 0 0 0 0 0 0 0 0 0 0) as (s' & r & H1 & H2 & H3 & _).
  - split; [by cbn | by cbn | left; cbn [call_conduit_state rf]; change (0x1000 + 144 <= 0x2000 - 32); lia | by cbn | by intros b _ []].
  - vm_compute. reflexivity.
  - exists s', r. split; [exact H1 | split; [exact H2 | exact H3]].
Defined.

(** ** pal_asm_smc.S *)
Section Smc.
Context {W : Type} (tr : astate W -> outcome (astate W)) (use_svc : bool) (s s' : astate W).
(** The call keeps the stack pointer and the saved x8. *)
Context (Hsp : 16 <= rf s SP < 2 ^ 64) (Hx8 : is_uint 64 (rf s X8)) (Hroom : rf s X8 + 64 <= 2 ^ 64).
Let s0 := set SP (rf s SP - 16) (st64 (rf s SP - 16) (rf s X8) s).
Context (Htr : tr s0 = Ret s') (Hkeep : rf s' SP = rf s SP - 16 /\ ldn 8 (amem s') (rf s SP - 16) = rf s X8).

(** [asm_smc64] and [asm_hvc64] return the results x0 to x7 in the structure x8 pointed
    to, even though the callee may change x8. *)
Lemma smc64_results p : In p [asm_smc64 use_svc; asm_hvc64 use_svc] ->
  exists s1, ends no_call tr p 0 s (Ret s1) /\ world s1 = world s' /\ rf s1 SP = rf s SP /\
    amem s1 = put_words (amem s') (rf s X8) (map (rf s') [X0; X1; X2; X3; X4; X5; X6; X7]).
Proof.
  destruct Hkeep as [K1 K2]. unfold is_uint in *.
  assert (E0 : forall (i : instr no_sym), In i [Smc; Svc; Hvc] -> exec no_call tr i s0 = Ret (Next, s')).
  { intros i [<-|[<-|[<-|[]]]]; cbn [exec]; by rewrite Htr. }
  assert (Eu : u64 (rf s SP + -16) = rf s SP - 16).
  { replace (rf s SP + -16) with (rf s SP - 16) by lia. apply uwrap_small. unfold is_uint. lia. }
  assert (Hpre : exec no_call tr (StrPre X8 SP (-16)) s = Ret (Next, s0)).
  { unfold s0. cbn [exec]. unfold next, st64. cbn [get]. rewrite Eu. rewrite (uwrap_small 64 (rf s SP - 16)) by (unfold is_uint; lia). done. }
  assert (Hsp' : u64 (rf s' SP + 16) = rf s SP) by (rewrite K1; replace (rf s SP - 16 + 16) with (rf s SP) by lia; apply uwrap_small; unfold is_uint; lia).
  assert (Hld : ldn 8 (amem s') (u64 (rf s' SP)) = rf s X8) by (rewrite K1, uwrap_small by (unfold is_uint; lia); done).
  assert (Hin : forall i : bool, In (if use_svc then Svc else if i then Smc else Hvc) [Smc; Svc; Hvc : instr no_sym]).
  { intros []; destruct use_svc; cbn; tauto. }
  intros [<-|[<-|[]]]; (eexists; split; [
    eapply ends_next; [reflexivity | exact Hpre |];
    eapply ends_next; [reflexivity | apply E0; first [apply (Hin true) | apply (Hin false)] |];
    do 5 anext; rewrite Hld, Hsp'; astop |]); asimpl.
  all: split_and!; [done | done |]; unfold put_words, map;
    do 8 (rewrite uwrap_small by (unfold is_uint; lia)); by rewrite ?Z.add_0_r, <- ?Z.add_assoc.
Qed.
End Smc.

(** ** val_sysreg.S *)

(** An accessor and the registers it is for, at exception levels 2 and 1. *)
Definition el_writers : list (list (instr no_sym) * sysr * sysr) :=
  [(val_mair_write, MAIR_EL2, MAIR_EL1); (val_tcr_write, TCR_EL2, TCR_EL1);
   (val_ttbr0_write, TTBR0_EL2, TTBR0_EL1); (val_sctlr_write, SCTLR_EL2, SCTLR_EL1)].
Definition el_readers : list (list (instr no_sym) * sysr * sysr) :=
  [(val_ttbr0_read, TTBR0_EL2, TTBR0_EL1); (val_sctlr_read, SCTLR_EL2, SCTLR_EL1)].

Section Sysreg.
Context {W : Type} (tr : astate W -> outcome (astate W)) (s : astate W).

Lemma sysreg_write p r2 r1 : In (p, r2, r1) el_writers -> is_uint 64 (rf s X1) ->
  exists s1, ends no_call tr p 0 s (Ret s1) /\ rf s1 = rf s /\ amem s1 = amem s /\ world s1 = world s /\
    sys s1 = upd_sys (if rf s X1 =? 2 then r2 else r1) (rf s X0) (sys s).
Proof.
  intros Hp Hu. destruct (rf s X1 =? 2) eqn:E.
  - repeat (destruct Hp as [[= <- <- <-]|Hp]); [..|done].
    all: (eexists; split; [anext; askip ltac:(rewrite holds_ne by done; rewrite E); repeat anext; astop |]; by split_and!).
  - repeat (destruct Hp as [[= <- <- <-]|Hp]); [..|done].
    all: (eexists; split; [anext; agoto ltac:(rewrite holds_ne by done; rewrite E); repeat anext; astop |]; by split_and!).
Qed.

Lemma sysreg_read p r2 r1 : In (p, r2, r1) el_readers -> is_uint 64 (rf s X0) ->
  exists s1, ends no_call tr p 0 s (Ret s1) /\ rf s1 X0 = sys s (if rf s X0 =? 2 then r2 else r1) /\
    same_but [X0] s s1 /\ amem s1 = amem s.
Proof.
  intros Hp Hu. destruct (rf s X0 =? 2) eqn:E.
  - repeat (destruct Hp as [[= <- <- <-]|Hp]); [..|done].
    all: (eexists; split; [anext; askip ltac:(rewrite holds_ne by done; rewrite E); repeat anext; astop |]; split_and!; [done | akeep | done]).
  - repeat (destruct Hp as [[= <- <- <-]|Hp]); [..|done].
    all: (eexists; split; [anext; agoto ltac:(rewrite holds_ne by done; rewrite E); repeat anext; astop |]; split_and!; [done | akeep | done]).
Qed.
End Sysreg.

(** ** pal_misc_asm.S *)

(** The call of the conduit carries FFA_CONSOLE_LOG_64 for the one character in x0. *)
Lemma putc_hypcall_is_console_log {W} (tr : astate W -> outcome (astate W)) use_svc s :
  exists s1, reaches no_call tr (pal_uart_putc_hypcall use_svc) 0 s 4 s1 /\
    rf s1 X0 = FFA_CONSOLE_LOG_64 /\ rf s1 X1 = 1 /\ rf s1 X2 = rf s X0.
Proof. eexists. split; [do 4 anext; apply reaches_refl|]. by asimpl. Qed.

Section Secondary.
Context {W : Type} (stack_base ra1 ra2 : Z) (call : sec_sym -> astate W -> outcome (astate W)).
Context (Hbase : 0 <= stack_base /\ stack_base + STACK_SPACE < 2 ^ 64).
(** The compiled [pal_get_cpuid]. *)
Context (Hcall : forall s, exists s', call pal_get_cpuid_sym s = Ret s' /\
  rf s' X0 = pal_get_cpuid (rf s X0) /\ rf s' SP = rf s SP /\ world s' = world s).
Abbreviation prog := (pal_secondary_cpu_boot_entry stack_base ra1 ra2).
Abbreviation reach := (reaches call (fun s => Ret s) prog).

(** The stack of CPU [i], from its lowest byte. *)
Definition cpu_stack (i : Z) : Z := stack_base + STACK_SIZE * i.

(** Until its number is known, every secondary CPU is on the stack of CPU 0. *)
Lemma temporary_stack s :
  exists s1, reach 0 s 8 s1 /\ rf s1 SP = cpu_stack 0 + STACK_SIZE /\ rf s1 X0 = sys s SYS_MPIDR_EL1 /\ world s1 = world s.
Proof.
  eexists. split; [do 8 anext; apply reaches_refl|]. unfold cpu_stack, STACK_SPACE, STACK_SIZE in *. asimpl.
  rewrite adr_eq by (unfold is_uint; lia). rewrite (uwrap_small 64 (stack_base + 4096)) by (unfold is_uint; lia).
  change (u64 (0 * u64 4096)) with 0. rewrite uwrap_small by (unfold is_uint; lia). split_and!; [lia | done | done].
Qed.

(** The CPU whose MPIDR has the affinity fields [i] of one of the two tables of
    pal_vcpu_setup.c, the physical or the virtual one. *)
Definition is_cpu (ids : list Z) (i : Z) (s : astate W) : Prop :=
  0 <= i /\ ids !! Z.to_nat i = Some (Z.land (sys s SYS_MPIDR_EL1) MPID_MASK).

Lemma is_cpu_number ids i s : ids = mpid_array \/ ids = vmpid_array -> is_cpu ids i s ->
  0 <= i < PLATFORM_NO_OF_CPUS /\ pal_get_cpuid (sys s SYS_MPIDR_EL1) = i.
Proof.
  intros Hids [Hi E]. unfold pal_get_cpuid, PLATFORM_NO_OF_CPUS.
  assert (Hl : i < 8) by (apply lookup_lt_Some in E; destruct Hids as [-> | ->]; cbn in E; lia). split; [lia|].
  assert (Hc : i = 0 \/ i = 1 \/ i = 2 \/ i = 3 \/ i = 4 \/ i = 5 \/ i = 6 \/ i = 7) by lia.
  destruct Hids as [-> | ->]; destruct Hc as [-> | [-> | [-> | [-> | [-> | [-> | [-> | ->]]]]]]]; injection E as <-; reflexivity.
Qed.

Lemma own_stack s i : 0 <= i < PLATFORM_NO_OF_CPUS -> pal_get_cpuid (sys s SYS_MPIDR_EL1) = i ->
  exists s1, reach 0 s 15 s1 /\ rf s1 SP = cpu_stack i + STACK_SIZE /\ rf s1 X0 = i /\ world s1 = world s.
Proof.
  intros Hi Hm. destruct (temporary_stack s) as (s1 & R1 & _ & X1' & W1).
  destruct (Hcall (set X30 (u64 ra1) s1)) as (s2 & E2 & V2 & S2 & W2).
  assert (V : rf s2 X0 = i) by (rewrite V2; cbn [set rf]; by rewrite upd_reg_ne, X1' by done).
  eexists. split.
  - eapply reaches_trans; [exact R1|]. eapply reaches_next; [reflexivity | cbn [exec]; rewrite E2; reflexivity |].
    do 6 anext. apply reaches_refl.
  - asimpl. rewrite V. unfold cpu_stack, STACK_SPACE, STACK_SIZE, PLATFORM_NO_OF_CPUS in *.
    rewrite adr_eq by (unfold is_uint; lia). rewrite (uwrap_small 64 (stack_base + 4096)) by (unfold is_uint; lia).
    change (u64 4096) with 4096. rewrite (uwrap_small 64 (i * 4096)) by (unfold is_uint; lia).
    rewrite uwrap_small by (unfold is_uint; lia). split_and!; [lia | done | by rewrite W2].
Qed.

(** Claim C27: Two different CPUs of the platform, whose MPIDR has the affinity of
    an entry of the physical table of pal_vcpu_setup.c, or of an entry of the
    virtual one for both, each run on its own through pal_secondary_cpu_boot_entry
    to the call of the C code: CPU number k by pal_get_cpuid gets there with k in x0
    and the stack that ends at stack_base + (k + 1) * 4096, which lies in the
    reserved stack space; the two stacks do not overlap. The stack space does not
    wrap, and the compiled pal_get_cpuid returns its result with the stack pointer
    restored. Until its number is known a CPU is on the stack of CPU 0
    (temporary_stack), so CPUs started at the same moment are not covered. *)
Theorem secondary_stacks_apart ids i j si sj :
  ids = mpid_array \/ ids = vmpid_array -> is_cpu ids i si -> is_cpu ids j sj -> i <> j ->
  exists ti tj, reach 0 si 15 ti /\ reach 0 sj 15 tj /\ prog !! 15%nat = Some (Bl val_secondary_cpu_test_entry_sym ra2) /\
    Forall (fun '(s, t, k) => pal_get_cpuid (sys s SYS_MPIDR_EL1) = k /\ rf t X0 = k /\
              rf t SP = stack_base + STACK_SIZE * k + STACK_SIZE /\
              stack_base <= rf t SP - STACK_SIZE /\ rf t SP <= stack_base + STACK_SPACE) [(si, ti, i); (sj, tj, j)] /\
    (rf ti SP <= rf tj SP - STACK_SIZE \/ rf tj SP <= rf ti SP - STACK_SIZE).
Proof.
  intros Hids Ci Cj Hne. destruct (is_cpu_number ids i si Hids Ci) as [Hi Mi]. destruct (is_cpu_number ids j sj Hids Cj) as [Hj Mj].
  destruct (own_stack si i Hi Mi) as (ti & Ri & Pi & Xi & _). destruct (own_stack sj j Hj Mj) as (tj & Rj & Pj & Xj & _).
  exists ti, tj. unfold cpu_stack, STACK_SPACE, STACK_SIZE, PLATFORM_NO_OF_CPUS in *.
  do 3 (split; [done|]). split; [|lia]. repeat constructor; first [assumption | lia].
Qed.
End Secondary.

(** [pal_get_cpuid] called on a machine state. *)
Example cpuid_call (f : sec_sym) (s : astate unit) : outcome (astate unit) :=
  match f with pal_get_cpuid_sym => Ret (set X0 (pal_get_cpuid (rf s X0)) s) | val_secondary_cpu_test_entry_sym => Ret s end.
Example cpu_state (mpidr : Z) : astate unit :=
  AState (fun _ => 0) (fun r => if decide (r = SYS_MPIDR_EL1) then mpidr else 0) (Flags false false false false) ∅ tt.

Lemma secondary_stacks_apart_witness :
  exists ti tj, reaches cpuid_call (fun s => Ret s) (pal_secondary_cpu_boot_entry 0x80000 0 0) 0 (cpu_state 0x81000100) 15 ti /\
    reaches cpuid_call (fun s => Ret s) (pal_secondary_cpu_boot_entry 0x80000 0 0) 0 (cpu_state 0x81010200) 15 tj /\
    (rf ti SP <= rf tj SP - STACK_SIZE \/ rf tj SP <= rf ti SP - STACK_SIZE).
Proof.
  destruct (secondary_stacks_apart 0x80000 0 0 cpuid_call ltac:(unfold STACK_SPACE, STACK_SIZE; lia)
              ltac:(intros s; by exists (set X0 (pal_get_cpuid (rf s X0)) s))
              mpid_array 1 6 (cpu_state 0x81000100) (cpu_state 0x81010200)) as (ti & tj & H1 & H2 & _ & _ & H3);
    [by left | by vm_compute | by vm_compute | done |]. by exists ti, tj.
Defined.

(** ** val_entry_el0.S *)
Lemma holds_ne_w a b : holds NE (sub_flags_w a b) = negb (u32 a =? u32 b).
Proof.
  cbn. f_equal. unfold uwrap. rewrite Zminus_mod. pose proof (Z.mod_pos_bound a (2 ^ 32) ltac:(lia)).
  pose proof (Z.mod_pos_bound b (2 ^ 32) ltac:(lia)). destruct (Z.eqb_spec (a mod 2 ^ 32) (b mod 2 ^ 32)) as [->|]; [by rewrite Z.sub_diag|].
  apply Z.eqb_neq. intros E. destruct (Z.ltb_spec (a mod 2 ^ 32) (b mod 2 ^ 32)).
  - rewrite <- (Z.mod_add _ 1) in E by lia. rewrite Z.mod_small in E by lia. lia.
  - rewrite Z.mod_small in E by lia. lia.
Qed.

Section PermSet.
Context {W : Type} (tr : astate W -> outcome (astate W)) (call : sym -> astate W -> outcome (astate W)).
Context (lo start end_ perm : Z) (Hs : 0 <= start + lo <= end_ + lo) (He : end_ + lo < 2 ^ 64) (Hp : is_uint 64 perm).
Abbreviation prog := (ffa_mem_perm_set lo start end_ perm).

(** The macro asks for [perm] on the pages between the symbols ... *)
Lemma mem_perm_set_call s :
  exists s1, reaches call tr prog 0 s 12 s1 /\ prog !! 12%nat = Some Svc /\
    map (rf s1) [X0; X1; X2; X3] = [FFA_MEM_PERM_SET_32; start + lo; Z.shiftr (end_ - start) 12; perm] /\
    amem s1 = amem s /\ world s1 = world s.
Proof.
  eexists. split; [do 12 anext; apply reaches_refl|]. asimpl. unfold map. asimpl. split; [done|].
  rewrite !adr_eq by (unfold is_uint; lia). rewrite (uwrap_small 64 (_ - _)) by (unfold is_uint; lia).
  rewrite (uwrap_small 64 perm) by done. replace (end_ + lo - (start + lo)) with (end_ - start) by lia. by split_and!.
Qed.

(** ... and goes on only when the partition manager granted them. *)
Lemma mem_perm_set_granted s s' : tr s = Ret s' ->
  if u32 (rf s' X0) =? FFA_SUCCESS_32
  then exists s1, reaches call tr prog 12 s 17 s1 /\ amem s1 = amem s' /\ world s1 = world s' /\ sys s1 = sys s'
  else ends call tr prog 12 s Panic.
Proof.
  intros E. assert (Hx : exec call tr Svc s = Ret (Next, s')) by (cbn [exec]; by rewrite E).
  destruct (u32 (rf s' X0) =? FFA_SUCCESS_32) eqn:Ef; rewrite Z.eqb_sym in Ef.
  - eexists. split.
    + eapply reaches_next; [reflexivity | exact Hx |]. do 3 anext.
      askip ltac:(rewrite holds_ne_w; change (u32 _) with FFA_SUCCESS_32 at 1; rewrite Ef). apply reaches_refl.
    + by split_and!.
  - eapply ends_next; [reflexivity | exact Hx |]. do 3 anext.
    ahang ltac:(rewrite holds_ne_w; change (u32 _) with FFA_SUCCESS_32 at 1; rewrite Ef).
Qed.
End PermSet.
