(* ===== verification/FfaHelpers.v ===== *)
(** * Memory transaction descriptors (val_ffa_helpers.c, val_ffa_helpers.h)

    The suite shares memory by writing a transaction descriptor into its TX
    buffer: a header, one access descriptor per receiver, and a composite
    descriptor with the address ranges.  The definitions write the bytes at the
    offsets of the C structures; [read_region] is the decoder of the FF-A
    tables, independent of the writer. *)

From S2P Require Import Prelude ValCommon CMem Libc FfaAbi.

(** [PLATFORM_FFA_V]: the layouts differ at v1.0, v1.1 and from v1.2 on. *)
Inductive ffa_v := FFA_V_1_0 | FFA_V_1_1 | FFA_V_1_2.

#[export] Instance ffa_v_eq_dec : EqDecision ffa_v.
Proof. solve_decision. Defined.

(** ** Attribute bytes *)

Definition FFA_DATA_ACCESS_OFFSET : Z := 0.
Definition FFA_DATA_ACCESS_MASK : Z := Z.shiftl 3 FFA_DATA_ACCESS_OFFSET.
Definition FFA_INSTRUCTION_ACCESS_OFFSET : Z := 2.
Definition FFA_INSTRUCTION_ACCESS_MASK : Z := Z.shiftl 3 FFA_INSTRUCTION_ACCESS_OFFSET.
Definition FFA_MEMORY_TYPE_OFFSET : Z := 4.
Definition FFA_MEMORY_TYPE_MASK : Z := Z.shiftl 3 FFA_MEMORY_TYPE_OFFSET.
Definition FFA_MEMORY_SECURITY_OFFSET : Z := 6.
Definition FFA_MEMORY_SECURITY_MASK : Z := Z.shiftl 1 FFA_MEMORY_SECURITY_OFFSET.
Definition FFA_MEMORY_CACHEABILITY_OFFSET : Z := 2.
Definition FFA_MEMORY_CACHEABILITY_MASK : Z := Z.shiftl 3 FFA_MEMORY_CACHEABILITY_OFFSET.
Definition FFA_MEMORY_SHAREABILITY_OFFSET : Z := 0.
Definition FFA_MEMORY_SHAREABILITY_MASK : Z := Z.shiftl 3 FFA_MEMORY_SHAREABILITY_OFFSET.

(** [ATTR_FUNCTION_SET] and [ATTR_FUNCTION_GET]. *)
Definition ATTR_FUNCTION_SET (offset mask attr perm : Z) : Z :=
  u8 (Z.lor (Z.land attr (Z.lnot mask)) (Z.land (Z.shiftl perm offset) mask)).
Definition ATTR_FUNCTION_GET (offset mask attr : Z) : Z := Z.shiftr (Z.land attr mask) offset.

Definition ffa_set_data_access_attr := ATTR_FUNCTION_SET FFA_DATA_ACCESS_OFFSET FFA_DATA_ACCESS_MASK.
Definition ffa_get_data_access_attr := ATTR_FUNCTION_GET FFA_DATA_ACCESS_OFFSET FFA_DATA_ACCESS_MASK.
Definition ffa_set_instruction_access_attr :=
  ATTR_FUNCTION_SET FFA_INSTRUCTION_ACCESS_OFFSET FFA_INSTRUCTION_ACCESS_MASK.
Definition ffa_get_instruction_access_attr :=
  ATTR_FUNCTION_GET FFA_INSTRUCTION_ACCESS_OFFSET FFA_INSTRUCTION_ACCESS_MASK.
Definition ffa_set_memory_type_attr := ATTR_FUNCTION_SET FFA_MEMORY_TYPE_OFFSET FFA_MEMORY_TYPE_MASK.
Definition ffa_get_memory_type_attr := ATTR_FUNCTION_GET FFA_MEMORY_TYPE_OFFSET FFA_MEMORY_TYPE_MASK.
Definition ffa_set_memory_security_attr :=
  ATTR_FUNCTION_SET FFA_MEMORY_SECURITY_OFFSET FFA_MEMORY_SECURITY_MASK.
Definition ffa_get_memory_security_attr :=
  ATTR_FUNCTION_GET FFA_MEMORY_SECURITY_OFFSET FFA_MEMORY_SECURITY_MASK.
Definition ffa_set_memory_cacheability_attr :=
  ATTR_FUNCTION_SET FFA_MEMORY_CACHEABILITY_OFFSET FFA_MEMORY_CACHEABILITY_MASK.
Definition ffa_get_memory_cacheability_attr :=
  ATTR_FUNCTION_GET FFA_MEMORY_CACHEABILITY_OFFSET FFA_MEMORY_CACHEABILITY_MASK.
Definition ffa_set_memory_shareability_attr :=
  ATTR_FUNCTION_SET FFA_MEMORY_SHAREABILITY_OFFSET FFA_MEMORY_SHAREABILITY_MASK.
Definition ffa_get_memory_shareability_attr :=
  ATTR_FUNCTION_GET FFA_MEMORY_SHAREABILITY_OFFSET FFA_MEMORY_SHAREABILITY_MASK.

(** ** Handles, notification words *)

Definition ffa_assemble_handle (h1 h2 : Z) : Z := Z.lor h1 (u64 (Z.shiftl h2 32)).
Definition ffa_mem_success_handle (r : ffa_args) : Z :=
  ffa_assemble_handle (u32 (arg2 r)) (u32 (arg3 r)).
Definition ffa_feature_intid (r : ffa_args) : Z := u32 (arg2 r).
Definition ffa_notifications_info_get_lists_count (r : ffa_args) : Z :=
  Z.land (u32 (Z.shiftr (arg2 r) 7)) 0x1F.

(** ** Layouts *)

Definition EP_MEM_ACCESS_DESC_ARR_OFFSET : Z := 0x30.
(** [sizeof(struct ffa_memory_region)]; the receivers start there. *)
Definition sizeof_region (v : ffa_v) : Z := match v with FFA_V_1_0 => 32 | _ => 48 end.
(** [sizeof(struct ffa_memory_access)]. *)
Definition sizeof_access (v : ffa_v) : Z := match v with FFA_V_1_2 => 32 | _ => 16 end.
Definition sizeof_composite : Z := 16.
Definition sizeof_constituent : Z := 16.

Definition receiver_addr (v : ffa_v) (region i : Z) : Z := region + sizeof_region v + i * sizeof_access v.

(** [struct ffa_memory_access] as [mem_region_init_t] holds it. *)
Record ffa_memory_access := MemAccess {
  ma_receiver : Z; ma_flags : Z; ma_impdef0 : Z; ma_impdef1 : Z
}.

Record ffa_constituent := Constituent { c_address : Z; c_page_count : Z; c_reserved : Z }.

Record mem_region_init := MemRegionInit {
  mi_region : Z; mi_max_size : Z; mi_sender : Z; mi_receiver : Z; mi_tag : Z; mi_flags : Z;
  mi_impdef0 : Z; mi_impdef1 : Z;
  mi_data_access : Z; mi_instruction_access : Z; mi_type : Z; mi_cacheability : Z; mi_shareability : Z;
  mi_total_length : Z; mi_fragment_length : Z;
  mi_multi_share : bool; mi_receiver_count : Z; mi_receivers : list ffa_memory_access
}.

Definition with_lengths (i : mem_region_init) (total fragment : Z) : mem_region_init :=
  MemRegionInit (mi_region i) (mi_max_size i) (mi_sender i) (mi_receiver i) (mi_tag i) (mi_flags i)
    (mi_impdef0 i) (mi_impdef1 i) (mi_data_access i) (mi_instruction_access i) (mi_type i)
    (mi_cacheability i) (mi_shareability i) total fragment
    (mi_multi_share i) (mi_receiver_count i) (mi_receivers i).

(** ** Writing the header *)

(** [receivers[i]] except its composite offset. *)
Definition write_access (v : ffa_v) (m : mem) (region i receiver permissions flags impdef0 impdef1 : Z) : mem :=
  let r := receiver_addr v region i in
  let m := stn 2 m r receiver in
  let m := stn 1 m (r + 2) permissions in
  let m := stn 1 m (r + 3) flags in
  match v with
  | FFA_V_1_2 =>
      let m := stn 8 m (r + 24) 0 in
      let m := stn 8 m (r + 8) impdef0 in
      stn 8 m (r + 16) impdef1
  | _ => stn 8 m (r + 8) 0
  end.

Definition ffa_memory_region_init_header (v : ffa_v) (m : mem) (init : mem_region_init)
    (attributes handle permissions : Z) : mem :=
  let region := mi_region init in
  let m := stn 2 m region (mi_sender init) in
  let m := stn 1 m (region + 2) attributes in
  let m := match v with
           | FFA_V_1_0 => stn 4 (stn 1 m (region + 3) 0) (region + 24) 0
           | _ =>
               let m := stn 4 (stn 4 (stn 4 m (region + 36) 0) (region + 40) 0) (region + 44) 0 in
               let m := stn 4 m (region + 32) EP_MEM_ACCESS_DESC_ARR_OFFSET in
               stn 4 m (region + 24) (sizeof_access v)
           end in
  let m := stn 4 m (region + 4) (mi_flags init) in
  let m := stn 8 m (region + 8) handle in
  let m := stn 8 m (region + 16) (mi_tag init) in
  if mi_multi_share init then m
  else
    let m := stn 4 m (region + 28) 1 in
    write_access v m region 0 (mi_receiver init) permissions 0 (mi_impdef0 init) (mi_impdef1 init).

(** The source repeats the body for the retrieve request. *)
Definition ffa_memory_region_retrieve_init_header (v : ffa_v) (m : mem) (init : mem_region_init)
    (attributes handle permissions : Z) : mem :=
  ffa_memory_region_init_header v m init attributes handle permissions.

(** [for (i = 0; i < receiver_count; i++)] over [mem_region_init->receivers];
    reading past that array is a fault. *)
Fixpoint write_receivers (v : ffa_v) (n : nat) (m : mem) (region i : Z)
    (rs : list ffa_memory_access) (permissions : Z) : outcome mem :=
  match n with
  | O => Ret m
  | S n' =>
      match rs with
      | [] => Fault
      | r :: rs' =>
          write_receivers v n'
            (write_access v m region i (ma_receiver r) permissions (ma_flags r) (ma_impdef0 r) (ma_impdef1 r))
            region (i + 1) rs' permissions
      end
  end.

Fixpoint write_offsets (v : ffa_v) (n : nat) (m : mem) (region i : Z) (off : mem -> Z) : mem :=
  match n with
  | O => m
  | S n' => write_offsets v n' (stn 4 m (receiver_addr v region i + 4) (off m)) region (i + 1) off
  end.

(** [receivers[i].composite_memory_region_offset = 0; receivers[i].reserved_0 = 0] *)
Definition clear_offset (v : ffa_v) (m : mem) (region i : Z) : mem :=
  let r := receiver_addr v region i in
  stn 8 (stn 4 m (r + 4) 0) (r + match v with FFA_V_1_2 => 24 | _ => 8 end) 0.

Fixpoint clear_offsets (v : ffa_v) (n : nat) (m : mem) (region i : Z) : mem :=
  match n with
  | O => m
  | S n' => clear_offsets v n' (clear_offset v m region i) region (i + 1)
  end.

Definition region_permissions (init : mem_region_init) : Z :=
  ffa_set_instruction_access_attr (ffa_set_data_access_attr 0 (mi_data_access init))
    (mi_instruction_access init).
Definition region_attributes (init : mem_region_init) : Z :=
  ffa_set_memory_shareability_attr
    (ffa_set_memory_cacheability_attr (ffa_set_memory_type_attr 0 (mi_type init)) (mi_cacheability init))
    (mi_shareability init).

(** The composite descriptor of a receiver; 0 is the null pointer. *)
Definition ffa_memory_region_get_composite (v : ffa_v) (m : mem) (region receiver_index : Z) : Z :=
  let offset := ldn 4 m (receiver_addr v region receiver_index + 4) in
  if offset =? 0 then 0 else region + offset.

(** [composite->constituents[i] = constituents[i]] *)
Definition write_constituent (m : mem) (composite i : Z) (c : ffa_constituent) : mem :=
  let a := composite + sizeof_composite + i * sizeof_constituent in
  stn 4 (stn 4 (stn 8 m a (c_address c)) (a + 8) (c_page_count c)) (a + 12) (c_reserved c).

Fixpoint constituents_loop (m : mem) (composite i count_to_copy : Z) (cs : list ffa_constituent) : mem :=
  match cs with
  | [] => m
  | c :: cs' =>
      let m := if i <? count_to_copy then write_constituent m composite i c else m in
      let m := stn 4 m composite (u32 (ldn 4 m composite + c_page_count c)) in
      constituents_loop m composite (i + 1) count_to_copy cs'
  end.

(** Reading [constituents] past its end is a fault. *)
Definition val_ffa_memory_region_init (v : ffa_v) (m : mem) (init : mem_region_init)
    (constituents : list ffa_constituent) (constituent_count : Z) : outcome (Z * mem_region_init * mem) :=
  if Z.of_nat (length constituents) <? constituent_count then Fault else
  let region := mi_region init in
  let permissions := region_permissions init in
  let attributes := region_attributes init in
  let m := ffa_memory_region_init_header v m init attributes 0 permissions in
  let! m := (if mi_multi_share init then
               let m := stn 4 m (region + 28) (mi_receiver_count init) in
               write_receivers v (Z.to_nat (mi_receiver_count init)) m region 0
                 (mi_receivers init) permissions
             else Ret m) in
  let m := if mi_multi_share init then
             write_offsets v (Z.to_nat (mi_receiver_count init)) m region 0
               (fun m => u32 (sizeof_region v + ldn 4 m (region + 28) * sizeof_access v))
           else stn 4 m (receiver_addr v region 0 + 4) (sizeof_region v + 1 * sizeof_access v) in
  let composite := ffa_memory_region_get_composite v m region 0 in
  if composite =? 0 then Fault
  else
    let m := stn 4 m composite 0 in
    let m := stn 4 m (composite + 4) constituent_count in
    let m := stn 8 m (composite + 8) 0 in
    let constituents_offset := u32 (ldn 4 m (receiver_addr v region 0 + 4) + sizeof_composite) in
    let fragment_max_constituents :=
      u32 (u64 (mi_max_size init - constituents_offset) / sizeof_constituent) in
    let count_to_copy := if fragment_max_constituents <? constituent_count
                         then fragment_max_constituents else constituent_count in
    let m := constituents_loop m composite 0 count_to_copy
               (take (Z.to_nat constituent_count) constituents) in
    let total_length := u32 (constituents_offset + ldn 4 m (composite + 4) * sizeof_constituent) in
    let fragment_length := u32 (constituents_offset + count_to_copy * sizeof_constituent) in
    Ret (u32 (ldn 4 m (composite + 4) - count_to_copy),
         with_lengths init total_length fragment_length, m).

Definition val_ffa_memory_retrieve_request_init (v : ffa_v) (m : mem) (init : mem_region_init) (handle : Z)
    : outcome (Z * mem) :=
  let region := mi_region init in
  let permissions := region_permissions init in
  let attributes := region_attributes init in
  let m := ffa_memory_region_retrieve_init_header v m init attributes handle permissions in
  let! m := (match v with
             | FFA_V_1_0 => Ret m
             | _ =>
                 if mi_multi_share init then
                   let m := stn 4 m (region + 28) (mi_receiver_count init) in
                   write_receivers v (Z.to_nat (mi_receiver_count init)) m region 0
                     (mi_receivers init) permissions
                 else Ret m
             end) in
  let m := if mi_multi_share init
           then clear_offsets v (Z.to_nat (mi_receiver_count init)) m region 0
           else clear_offset v m region 0 in
  Ret (u32 (sizeof_region v + ldn 4 m (region + 28) * sizeof_access v), m).

(** [struct ffa_mem_relinquish]: handle, flags, count, then the endpoint ids. *)
Definition ffa_mem_relinquish_init (m : mem) (req handle flags sender endpoint_count : Z) : Z * mem :=
  let m := stn 8 m req handle in
  let m := stn 4 m (req + 8) flags in
  let m := stn 4 m (req + 12) endpoint_count in
  let m := stn 2 m (req + 16) sender in
  (16 + 2, m).

(** ** Partition information *)

(** [sizeof(ffa_partition_info_t)] *)
Definition sizeof_partition_info : Z := 48.

Fixpoint parser_loop (n : nat) (m : mem) (out src desc_size : Z) : mem :=
  match n with
  | O => m
  | S n' =>
      let m := (val_memset m out 0 sizeof_partition_info).2 in
      let m := (val_memcpy m out src desc_size).2 in
      parser_loop n' m (out + sizeof_partition_info) (src + desc_size) desc_size
  end.

(** The loop index is 32 bits wide: a larger [count] is never reached. *)
Definition val_ffa_partition_descriptor_info_parser (m : mem) (out rx_buf desc_size count : Z) : outcome mem :=
  if 2 ^ 32 <? count then Diverge
  else Ret (parser_loop (Z.to_nat count) m out rx_buf desc_size).

(** ** The table of supported interfaces *)

(** [ffa_fid_state]: 0 unknown, 1 supported, 0xff not supported. *)
Definition fid_state_init : list Z := repeat 0 (length ffa_supported_fids).

Fixpoint mark_loop (fids st : list Z) (fid state : Z) : list Z :=
  match fids, st with
  | f :: fids', s :: st' => if f =? fid then state :: st' else s :: mark_loop fids' st' fid state
  | _, _ => st
  end.
Definition val_ffa_mark_supported_fid (st : list Z) (fid : Z) (supported : bool) : list Z :=
  mark_loop ffa_supported_fids st fid (if supported then 1 else 0xff).

Section Features.
Context `{ValCommon} {W : Type} (conduit : ffa_args -> W -> ffa_args * W) (v : ffa_v).

Definition features_query (fid : Z) : cmd W Z :=
  let arg2 := match v with
              | FFA_V_1_0 => 0
              | _ => if (fid =? FFA_MEM_RETRIEVE_REQ_32) || (fid =? FFA_MEM_RETRIEVE_REQ_64) then 2 else 0
              end in
  payload ← val_ffa_features conduit (FfaArgs 0 fid arg2 0 0 0 0 0 0 0 0 0 0 0 0 0 0 0);
  if FfaAbi.fid payload =? FFA_ERROR_32 then mret VAL_ERROR else mret VAL_SUCCESS.

Fixpoint supported_loop (fids st : list Z) (fid : Z) : cmd W Z :=
  match fids, st with
  | f :: fids', s :: st' =>
      if f =? fid then
        if s =? 1 then mret VAL_SUCCESS
        else if s =? 0xff then mret VAL_ERROR
        else features_query fid
      else supported_loop fids' st' fid
  | _, _ => mret VAL_ERROR
  end.
Definition val_is_ffa_feature_supported (st : list Z) (fid : Z) : cmd W Z :=
  supported_loop ffa_supported_fids st fid.

(** [resume] is the build option of [FfaAbi]. *)
Definition val_ffa_mem_handle_share (resume : bool) (fuel : nat) (sender recipient handle : Z) : cmd W Z :=
  payload ← val_ffa_msg_send_direct_req_64 conduit resume fuel
    (FfaArgs 0 (Z.lor (u32 (Z.shiftl sender 16)) recipient) 0 handle 0 0 0 0 0 0 0 0 0 0 0 0 0 0);
  if FfaAbi.fid payload =? FFA_ERROR_32 then mret VAL_ERROR else mret VAL_SUCCESS.
End Features.
