(* ===== verification/FfaHelpersProof.v ===== *)
(** * Transaction descriptors decode to what was asked for

    The attribute bytes keep their fields apart, a descriptor written by
    [val_ffa_memory_region_init] reads back field by field through the decoder
    [read_region], and the writer stays inside the fragment it reports. *)

From S2P Require Import Prelude ValCommon CMem Libc FfaAbi FfaHelpers.

(** ** Bit fields *)

Definition field_mask (off w : Z) : Z := Z.shiftl (Z.ones w) off.

Lemma testbit_field_mask off w n :
  0 <= off -> 0 <= w -> 0 <= n -> Z.testbit (field_mask off w) n = (off <=? n) && (n <? off + w).
Proof.
  intros. unfold field_mask. rewrite Z.shiftl_spec by lia.
  destruct (Z.leb_spec off n); [|rewrite Z.testbit_neg_r by lia; done].
  destruct (Z.ltb_spec n (off + w)).
  - rewrite Z.ones_spec_low by lia. done.
  - rewrite Z.ones_spec_high by lia. done.
Qed.

Lemma testbit_attr_set off w attr perm n :
  0 <= off -> 0 <= w -> 0 <= n < 8 ->
  Z.testbit (ATTR_FUNCTION_SET off (field_mask off w) attr perm) n =
  if (off <=? n) && (n <? off + w) then Z.testbit perm (n - off) else Z.testbit attr n.
Proof.
  intros. unfold ATTR_FUNCTION_SET, uwrap. rewrite Z.mod_pow2_bits_low by lia.
  rewrite Z.lor_spec, !Z.land_spec, Z.lnot_spec, testbit_field_mask, Z.shiftl_spec by lia.
  destruct ((off <=? n) && (n <? off + w)); cbn [negb].
  - by rewrite andb_false_r, andb_true_r.
  - by rewrite andb_true_r, andb_false_r, orb_false_r.
Qed.

Lemma testbit_attr_get off w attr n :
  0 <= off -> 0 <= w -> 0 <= n ->
  Z.testbit (ATTR_FUNCTION_GET off (field_mask off w) attr) n = (n <? w) && Z.testbit attr (n + off).
Proof.
  intros. unfold ATTR_FUNCTION_GET. rewrite Z.shiftr_spec, Z.land_spec, testbit_field_mask by lia.
  replace (off <=? n + off) with true by lia. replace (n + off <? off + w) with (n <? w) by lia.
  apply andb_comm.
Qed.

(** A field reads back what was stored in it. *)
Lemma attr_get_set off w attr perm :
  0 <= off -> 0 <= w -> off + w <= 8 ->
  ATTR_FUNCTION_GET off (field_mask off w) (ATTR_FUNCTION_SET off (field_mask off w) attr perm) = uwrap w perm.
Proof.
  intros. apply Z.bits_inj'. intros n Hn. rewrite testbit_attr_get by lia. unfold uwrap.
  destruct (Z.ltb_spec n w).
  - rewrite testbit_attr_set, Z.mod_pow2_bits_low by lia.
    replace (off <=? n + off) with true by lia. replace (n + off <? off + w) with true by lia.
    cbn [andb]. f_equal. lia.
  - by rewrite Z.mod_pow2_bits_high by lia.
Qed.

(** Storing a field leaves the others alone. *)
Lemma attr_get_set_other off w off' w' attr perm :
  0 <= off -> 0 <= w -> 0 <= off' -> 0 <= w' -> off' + w' <= 8 ->
  off + w <= off' \/ off' + w' <= off ->
  ATTR_FUNCTION_GET off' (field_mask off' w') (ATTR_FUNCTION_SET off (field_mask off w) attr perm) =
  ATTR_FUNCTION_GET off' (field_mask off' w') attr.
Proof.
  intros. apply Z.bits_inj'. intros n Hn. rewrite !testbit_attr_get by lia.
  destruct (Z.ltb_spec n w'); [|done]. cbn [andb]. rewrite testbit_attr_set by lia.
  destruct (Z.leb_spec off (n + off')), (Z.ltb_spec (n + off') (off + w)); cbn [andb]; done || lia.
Qed.

Ltac attr_simpl :=
  repeat first [rewrite attr_get_set by lia | rewrite attr_get_set_other by lia];
  rewrite ?uwrap_small by lia; try reflexivity.

(** The permission and attribute bytes built from the access, instruction access,
    type, cacheability and shareability fields decode back to those fields, and the
    security bit is clear. *)
Theorem region_attrs_roundtrip init :
  0 <= mi_data_access init < 4 -> 0 <= mi_instruction_access init < 4 ->
  0 <= mi_type init < 4 -> 0 <= mi_cacheability init < 4 -> 0 <= mi_shareability init < 4 ->
  ffa_get_data_access_attr (region_permissions init) = mi_data_access init /\
  ffa_get_instruction_access_attr (region_permissions init) = mi_instruction_access init /\
  ffa_get_memory_type_attr (region_attributes init) = mi_type init /\
  ffa_get_memory_cacheability_attr (region_attributes init) = mi_cacheability init /\
  ffa_get_memory_shareability_attr (region_attributes init) = mi_shareability init /\
  ffa_get_memory_security_attr (region_attributes init) = 0.
Proof.
  intros.
  change (ffa_get_data_access_attr) with (ATTR_FUNCTION_GET 0 (field_mask 0 2)).
  change (ffa_get_instruction_access_attr) with (ATTR_FUNCTION_GET 2 (field_mask 2 2)).
  change (ffa_get_memory_type_attr) with (ATTR_FUNCTION_GET 4 (field_mask 4 2)).
  change (ffa_get_memory_cacheability_attr) with (ATTR_FUNCTION_GET 2 (field_mask 2 2)).
  change (ffa_get_memory_shareability_attr) with (ATTR_FUNCTION_GET 0 (field_mask 0 2)).
  change (ffa_get_memory_security_attr) with (ATTR_FUNCTION_GET 6 (field_mask 6 1)).
  change (region_permissions init) with
    (ATTR_FUNCTION_SET 2 (field_mask 2 2) (ATTR_FUNCTION_SET 0 (field_mask 0 2) 0 (mi_data_access init))
       (mi_instruction_access init)).
  change (region_attributes init) with
    (ATTR_FUNCTION_SET 0 (field_mask 0 2) (ATTR_FUNCTION_SET 2 (field_mask 2 2)
       (ATTR_FUNCTION_SET 4 (field_mask 4 2) 0 (mi_type init)) (mi_cacheability init)) (mi_shareability init)).
  repeat split; attr_simpl.
Qed.

Lemma attr_set_range off mask attr perm : 0 <= ATTR_FUNCTION_SET off mask attr perm < 256.
Proof. apply (uwrap_range 8). lia. Qed.

(** ** Decoding a descriptor *)

Record access_desc := AccessDesc {
  ad_receiver : Z; ad_permissions : Z; ad_flags : Z; ad_offset : Z; ad_impdef0 : Z; ad_impdef1 : Z
}.

Record header_desc := HeaderDesc {
  hd_sender : Z; hd_attributes : Z; hd_flags : Z; hd_handle : Z; hd_tag : Z; hd_receiver_count : Z
}.

Record composite_desc := CompositeDesc { cd_page_count : Z; cd_constituent_count : Z; cd_reserved : Z }.

Definition read_header (m : mem) (region : Z) : header_desc :=
  HeaderDesc (ldn 2 m region) (ldn 1 m (region + 2)) (ldn 4 m (region + 4)) (ldn 8 m (region + 8))
    (ldn 8 m (region + 16)) (ldn 4 m (region + 28)).

Definition read_access (v : ffa_v) (m : mem) (region i : Z) : access_desc :=
  let r := receiver_addr v region i in
  AccessDesc (ldn 2 m r) (ldn 1 m (r + 2)) (ldn 1 m (r + 3)) (ldn 4 m (r + 4))
    (match v with FFA_V_1_2 => ldn 8 m (r + 8) | _ => 0 end)
    (match v with FFA_V_1_2 => ldn 8 m (r + 16) | _ => 0 end).

Definition read_composite (m : mem) (c : Z) : composite_desc :=
  CompositeDesc (ldn 4 m c) (ldn 4 m (c + 4)) (ldn 8 m (c + 8)).

Definition read_constituent (m : mem) (c i : Z) : ffa_constituent :=
  let a := c + sizeof_composite + i * sizeof_constituent in
  Constituent (ldn 8 m a) (ldn 4 m (a + 8)) (ldn 4 m (a + 12)).

(** The v1.1 header also says where the access descriptors are and how long. *)
Definition header_consistent (v : ffa_v) (m : mem) (region : Z) : Prop :=
  match v with
  | FFA_V_1_0 => ldn 1 m (region + 3) = 0 /\ ldn 4 m (region + 24) = 0
  | _ => ldn 4 m (region + 24) = sizeof_access v /\ ldn 4 m (region + 32) = sizeof_region v /\
         ldn 4 m (region + 36) = 0 /\ ldn 4 m (region + 40) = 0 /\ ldn 4 m (region + 44) = 0
  end.

(** Reads below [a] survive writes from [a] on. *)
Lemma read_header_frame v m m' region a n :
  frame a n m m' -> region + sizeof_region v <= a ->
  read_header m' region = read_header m region /\
  (header_consistent v m region -> header_consistent v m' region).
Proof.
  intros HF Ha. assert (Hr : region + 32 <= a) by (destruct v; simpl in *; lia). split.
  - unfold read_header. rewrite !(frame_ldn a n m m') by (done || lia). done.
  - unfold header_consistent. destruct v; cbn [sizeof_region] in *;
      rewrite !(frame_ldn a n m m') by (done || lia); done.
Qed.

Lemma read_access_frame v m m' region i a n :
  frame a n m m' ->
  receiver_addr v region i + sizeof_access v <= a \/ a + n <= receiver_addr v region i ->
  read_access v m' region i = read_access v m region i.
Proof.
  intros HF Ha. unfold read_access. destruct v; cbn [sizeof_access] in *;
    rewrite !(frame_ldn a n m m') by (done || lia); done.
Qed.

Lemma write_access_frame v m region i rcv perm fl d0 d1 :
  frame (receiver_addr v region i) (sizeof_access v) m (write_access v m region i rcv perm fl d0 d1).
Proof.
  intros x Hx. unfold write_access. destruct v; cbn [sizeof_access] in *; memsimp; done.
Qed.

Lemma write_access_read v m region i rcv perm fl d0 d1 :
  is_uint 16 rcv -> is_uint 8 perm -> is_uint 8 fl -> is_uint 64 d0 -> is_uint 64 d1 ->
  read_access v (write_access v m region i rcv perm fl d0 d1) region i =
  AccessDesc rcv perm fl (ldn 4 m (receiver_addr v region i + 4))
    (match v with FFA_V_1_2 => d0 | _ => 0 end) (match v with FFA_V_1_2 => d1 | _ => 0 end).
Proof.
  unfold is_uint. intros. unfold read_access, write_access. destruct v; memsimp; done.
Qed.

Lemma header_frame v m init at_ h perm :
  frame (mi_region init) (sizeof_region v + (if mi_multi_share init then 0 else sizeof_access v)) m
    (ffa_memory_region_init_header v m init at_ h perm).
Proof.
  intros x Hx. unfold ffa_memory_region_init_header. destruct (mi_multi_share init).
  - destruct v; cbn [sizeof_region sizeof_access] in *; memsimp; done.
  - rewrite write_access_frame by (unfold receiver_addr; destruct v; cbn [sizeof_region sizeof_access] in *; lia).
    destruct v; cbn [sizeof_region sizeof_access] in *; memsimp; done.
Qed.

(** ** The writers, one after the other *)

(** The values a [mem_region_init_t] can hold. *)
Record init_wf (init : mem_region_init) : Prop := {
  wf_sender : is_uint 16 (mi_sender init);
  wf_receiver : is_uint 16 (mi_receiver init);
  wf_tag : is_uint 64 (mi_tag init);
  wf_flags : is_uint 32 (mi_flags init);
  wf_impdef0 : is_uint 64 (mi_impdef0 init);
  wf_impdef1 : is_uint 64 (mi_impdef1 init);
  wf_receivers : Forall (fun r => is_uint 16 (ma_receiver r) /\ is_uint 8 (ma_flags r) /\
                                  is_uint 64 (ma_impdef0 r) /\ is_uint 64 (ma_impdef1 r)) (mi_receivers init)
}.

Lemma header_core_read v m init at_ h :
  init_wf init -> is_uint 8 at_ -> is_uint 64 h ->
  let m' := ffa_memory_region_init_header v m
              (MemRegionInit (mi_region init) 0 (mi_sender init) 0 (mi_tag init) (mi_flags init)
                 0 0 0 0 0 0 0 0 0 true 0 []) at_ h 0 in
  read_header m' (mi_region init) =
    HeaderDesc (mi_sender init) at_ (mi_flags init) h (mi_tag init) (ldn 4 m (mi_region init + 28)) /\
  header_consistent v m' (mi_region init).
Proof.
  intros [] Ha Hh m'. unfold is_uint in *. unfold m', ffa_memory_region_init_header.
  cbn [mi_region mi_sender mi_tag mi_flags mi_multi_share]. split.
  - unfold read_header. destruct v; cbn [sizeof_access]; memsimp; done.
  - unfold header_consistent. destruct v; cbn [sizeof_access sizeof_region]; unfold EP_MEM_ACCESS_DESC_ARR_OFFSET;
      memsimp; done.
Qed.

Definition set_count (h : header_desc) (n : Z) : header_desc :=
  HeaderDesc (hd_sender h) (hd_attributes h) (hd_flags h) (hd_handle h) (hd_tag h) n.

(** Writing [receiver_count] changes that field only. *)
Lemma count_read v m region n :
  is_uint 32 n ->
  read_header (stn 4 m (region + 28) n) region = set_count (read_header m region) n /\
  (header_consistent v m region -> header_consistent v (stn 4 m (region + 28) n) region).
Proof.
  unfold is_uint. intros Hn. split.
  - unfold read_header, set_count. cbn. memsimp. done.
  - unfold header_consistent. destruct v; memsimp; done.
Qed.

Lemma count_frame m region n v : frame region (sizeof_region v) m (stn 4 m (region + 28) n).
Proof. intros x Hx. destruct v; cbn [sizeof_region] in *; memsimp; done. Qed.

(** What the access descriptor of a receiver holds. *)
Definition access_of (v : ffa_v) (perm off : Z) (r : ffa_memory_access) : access_desc :=
  AccessDesc (ma_receiver r) perm (ma_flags r) off
    (match v with FFA_V_1_2 => ma_impdef0 r | _ => 0 end)
    (match v with FFA_V_1_2 => ma_impdef1 r | _ => 0 end).

Lemma receiver_addr_S v region i : receiver_addr v region (i + 1) = receiver_addr v region i + sizeof_access v.
Proof. unfold receiver_addr. lia. Qed.

Lemma write_receivers_spec v rs m region i perm :
  Forall (fun r => is_uint 16 (ma_receiver r) /\ is_uint 8 (ma_flags r) /\
                   is_uint 64 (ma_impdef0 r) /\ is_uint 64 (ma_impdef1 r)) rs -> is_uint 8 perm ->
  exists m', write_receivers v (length rs) m region i rs perm = Ret m' /\
    frame (receiver_addr v region i) (Z.of_nat (length rs) * sizeof_access v) m m' /\
    (forall k r, rs !! k = Some r ->
       exists off, read_access v m' region (i + Z.of_nat k) = access_of v perm off r).
Proof.
  intros Hrs Hp. revert m i. induction Hrs as [|r rs (H1 & H2 & H3 & H4) Hrs IH]; intros m i.
  { exists m. split; [done|]. split; [apply frame_refl | intros k r Hk; by rewrite lookup_nil in Hk]. }
  cbn [write_receivers length].
  set (m1 := write_access v m region i _ _ _ _ _).
  destruct (IH m1 (i + 1)) as (m' & E & HF & HR). exists m'. split; [done|].
  assert (F1 : frame (receiver_addr v region i) (sizeof_access v) m m1) by apply write_access_frame.
  rewrite receiver_addr_S in HF. assert (Hs : 0 < sizeof_access v) by (destruct v; simpl; lia). split.
  - eapply frame_trans; [eapply frame_widen; [exact F1|lia|nia] | eapply frame_widen; [exact HF|nia|nia]].
  - intros [|k] r' Hk; simpl in Hk.
    + simplify_eq. rewrite Z.add_0_r. eexists.
      rewrite (read_access_frame v m1 m' _ _ _ _ HF) by lia. unfold m1. by rewrite write_access_read.
    + destruct (HR k r' Hk) as [off Hoff]. exists off. rewrite <- Hoff. f_equal. lia.
Qed.

(** Writing the composite offsets of [n] receivers. *)
Lemma write_offsets_spec v n m region i f c :
  is_uint 32 c ->
  (forall m1, frame (receiver_addr v region i) (Z.of_nat n * sizeof_access v) m m1 -> f m1 = c) ->
  let m' := write_offsets v n m region i f in
  frame (receiver_addr v region i) (Z.of_nat n * sizeof_access v) m m' /\
  (forall k, 0 <= k < Z.of_nat n -> exists a,
     a = read_access v m region (i + k) /\
     read_access v m' region (i + k) =
     AccessDesc (ad_receiver a) (ad_permissions a) (ad_flags a) c (ad_impdef0 a) (ad_impdef1 a)).
Proof.
  intros Hc. revert m i. induction n as [|n IH]; intros m i Hf; cbn [write_offsets].
  { split; [apply frame_refl | lia]. }
  assert (Hs : 16 <= sizeof_access v) by (destruct v; simpl; lia).
  set (m1 := stn 4 m (receiver_addr v region i + 4) (f m)).
  assert (F1 : frame (receiver_addr v region i) (sizeof_access v) m m1).
  { intros x Hx. unfold m1. memsimp. done. }
  assert (Hfm : f m = c) by (apply Hf, frame_refl).
  destruct (IH m1 (i + 1)) as [HF HR].
  { intros m2 H2. apply Hf. eapply frame_trans; [eapply frame_widen; [exact F1|lia|nia]|].
    rewrite receiver_addr_S in H2. eapply frame_widen; [exact H2|nia|nia]. }
  rewrite receiver_addr_S in HF. split.
  - eapply frame_trans; [eapply frame_widen; [exact F1|lia|nia] | eapply frame_widen; [exact HF|nia|nia]].
  - intros k Hk. eexists. split; [reflexivity|]. destruct (decide (k = 0)) as [->|Hk0].
    + rewrite Z.add_0_r. rewrite (read_access_frame v m1 _ _ _ _ _ HF) by lia.
      unfold m1. rewrite Hfm. unfold is_uint in Hc. unfold read_access. cbn [ad_receiver ad_permissions ad_flags ad_impdef0 ad_impdef1].
      destruct v; memsimp; done.
    + destruct (HR (k - 1) ltac:(lia)) as (a & -> & E). replace (i + 1 + (k - 1)) with (i + k) in * by lia.
      rewrite E. rewrite (read_access_frame v m m1 _ _ _ _ F1); [done|]. unfold receiver_addr in *. nia.
Qed.

(** ** The address ranges *)

Definition constituent_wf (c : ffa_constituent) : Prop :=
  is_uint 64 (c_address c) /\ is_uint 32 (c_page_count c) /\ is_uint 32 (c_reserved c).

Definition total_pages (cs : list ffa_constituent) : Z := foldr (fun c s => c_page_count c + s) 0 cs.

Definition constituent_addr (comp i : Z) : Z := comp + sizeof_composite + i * sizeof_constituent.

Lemma read_constituent_frame m m' comp i a n :
  frame a n m m' -> constituent_addr comp i + 16 <= a \/ a + n <= constituent_addr comp i ->
  read_constituent m' comp i = read_constituent m comp i.
Proof.
  intros HF Ha. unfold read_constituent, constituent_addr in *.
  rewrite !(frame_ldn a n m m') by (done || lia). done.
Qed.

Lemma write_constituent_spec m comp i c :
  constituent_wf c -> 0 <= i ->
  let m' := write_constituent m comp i c in
  frame (constituent_addr comp i) 16 m m' /\ read_constituent m' comp i = c /\
  read_composite m' comp = read_composite m comp.
Proof.
  intros (H1 & H2 & H3) Hi m'. unfold is_uint in *.
  assert (HF : frame (constituent_addr comp i) 16 m m').
  { intros x Hx. unfold m', write_constituent, constituent_addr in *. memsimp. done. }
  split; [done|]. split.
  - unfold read_constituent, m', write_constituent. memsimp. by destruct c.
  - unfold read_composite. unfold constituent_addr, sizeof_composite, sizeof_constituent in HF.
    rewrite !(frame_ldn _ _ _ _ _ _ HF) by lia. done.
Qed.

Lemma constituents_loop_spec cs m comp i k :
  Forall constituent_wf cs -> 0 <= i -> 0 <= k ->
  let m' := constituents_loop m comp i k cs in
  frame comp (16 + 16 * k) m m' /\
  read_composite m' comp =
    CompositeDesc (u32 (ldn 4 m comp + total_pages cs)) (ldn 4 m (comp + 4)) (ldn 8 m (comp + 8)) /\
  (forall j, 0 <= j < i -> read_constituent m' comp j = read_constituent m comp j) /\
  (forall j c, cs !! j = Some c -> i + Z.of_nat j < k -> read_constituent m' comp (i + Z.of_nat j) = c).
Proof.
  intros Hcs. revert m i. induction Hcs as [|c cs Hc Hcs IH]; intros m i Hi Hk; cbn [constituents_loop].
  - split; [apply frame_refl|]. split.
    + unfold read_composite. cbn [total_pages foldr]. rewrite Z.add_0_r.
      rewrite uwrap_small; [done | apply (ldn_range 4)].
    + split; [done | intros j c Hj; by rewrite lookup_nil in Hj].
  - set (m1 := if i <? k then write_constituent m comp i c else m).
    assert (H1 : frame comp (16 + 16 * k) m m1 /\ read_composite m1 comp = read_composite m comp /\
      (i < k -> read_constituent m1 comp i = c) /\
      (forall j, 0 <= j < i -> read_constituent m1 comp j = read_constituent m comp j)).
    { unfold m1. destruct (Z.ltb_spec i k).
      - destruct (write_constituent_spec m comp i c Hc Hi) as (HF & HR & HC).
        unfold constituent_addr, sizeof_composite, sizeof_constituent in HF.
        split; [eapply frame_widen; [exact HF|lia|lia]|]. do 2 (split; [done|]).
        intros j Hj. eapply read_constituent_frame; [exact HF|].
        unfold constituent_addr, sizeof_composite, sizeof_constituent. lia.
      - split; [apply frame_refl|]. do 2 (split; [done || lia|]). done. }
    destruct H1 as (F1 & C1 & R1 & R1').
    set (m2 := stn 4 m1 comp _).
    assert (F2 : frame comp 4 m1 m2) by apply (frame_stn 4).
    destruct (IH m2 (i + 1) ltac:(lia) Hk) as (F3 & C3 & R3 & R3'). split; [|split; [|split]].
    + eapply frame_trans; [exact F1|]. eapply frame_trans; [eapply frame_widen; [exact F2|lia|lia] | exact F3].
    + rewrite C3. unfold read_composite in C1. injection C1 as E1 E2 E3. unfold m2. memsimp.
      rewrite E2, E3. f_equal. change (total_pages (c :: cs)) with (c_page_count c + total_pages cs).
      change (8 * Z.of_nat 4) with 32.
      rewrite uwrap_idem, E1 by lia. unfold uwrap. rewrite Zplus_mod_idemp_l. f_equal. lia.
    + intros j Hj. rewrite R3 by lia. rewrite <- R1' by lia. eapply read_constituent_frame; [exact F2|].
      unfold constituent_addr, sizeof_composite, sizeof_constituent. lia.
    + intros [|j] c' Hj Hlt; simpl in Hj.
      * simplify_eq. rewrite Z.add_0_r in *. rewrite R3 by lia.
        rewrite (read_constituent_frame m1 m2 _ _ _ _ F2); [by apply R1|].
        unfold constituent_addr, sizeof_composite, sizeof_constituent. lia.
      * replace (i + Z.of_nat (S j)) with (i + 1 + Z.of_nat j) in * by lia. by apply R3'.
Qed.

(** ** The whole descriptor *)

Definition receivers_of (init : mem_region_init) : list ffa_memory_access :=
  if mi_multi_share init then mi_receivers init
  else [MemAccess (mi_receiver init) 0 (mi_impdef0 init) (mi_impdef1 init)].

(** [receiver_count] names the receivers given ([receivers] has two places). *)
Definition receivers_ok (init : mem_region_init) : Prop :=
  mi_multi_share init = true ->
  mi_receiver_count init = Z.of_nat (length (mi_receivers init)) /\ 1 <= mi_receiver_count init <= 2.

Definition composite_offset (v : ffa_v) (init : mem_region_init) : Z :=
  sizeof_region v + Z.of_nat (length (receivers_of init)) * sizeof_access v.

Lemma receivers_count_bounds init : receivers_ok init -> 1 <= Z.of_nat (length (receivers_of init)) <= 2.
Proof. unfold receivers_ok, receivers_of. destruct (mi_multi_share init); [lia | simpl; lia]. Qed.

Definition header_core (v : ffa_v) (m : mem) (init : mem_region_init) (at_ h : Z) : mem :=
  ffa_memory_region_init_header v m
    (MemRegionInit (mi_region init) 0 (mi_sender init) 0 (mi_tag init) (mi_flags init)
       0 0 0 0 0 0 0 0 0 true 0 []) at_ h 0.

Lemma init_header_core v m init at_ h perm :
  ffa_memory_region_init_header v m init at_ h perm =
  if mi_multi_share init then header_core v m init at_ h
  else write_access v (stn 4 (header_core v m init at_ h) (mi_region init + 28) 1) (mi_region init) 0
         (mi_receiver init) perm 0 (mi_impdef0 init) (mi_impdef1 init).
Proof. unfold ffa_memory_region_init_header, header_core. by destruct (mi_multi_share init). Qed.

(** Header and receivers, as both entry points write them. *)
Lemma header_stage v m init at_ h perm :
  init_wf init -> receivers_ok init -> is_uint 8 at_ -> is_uint 64 h -> is_uint 8 perm ->
  let region := mi_region init in
  let n := Z.of_nat (length (receivers_of init)) in
  exists m2,
    (if mi_multi_share init then
       write_receivers v (Z.to_nat (mi_receiver_count init))
         (stn 4 (ffa_memory_region_init_header v m init at_ h perm) (region + 28) (mi_receiver_count init))
         region 0 (mi_receivers init) perm
     else Ret (ffa_memory_region_init_header v m init at_ h perm)) = Ret m2 /\
    read_header m2 region = HeaderDesc (mi_sender init) at_ (mi_flags init) h (mi_tag init) n /\
    header_consistent v m2 region /\
    (forall k r, receivers_of init !! k = Some r ->
       exists off, read_access v m2 region (Z.of_nat k) = access_of v perm off r) /\
    frame region (composite_offset v init) m m2.
Proof.
  intros Hwf Hrc Ha Hh Hp region n. pose proof (receivers_count_bounds init Hrc) as Hn.
  destruct (header_core_read v m init at_ h Hwf Ha Hh) as [HR HC]. fold (header_core v m init at_ h) in HR, HC.
  fold region in HR, HC.
  assert (F1 : frame region (sizeof_region v) m (header_core v m init at_ h)).
  { pose proof (header_frame v m (MemRegionInit region 0 (mi_sender init) 0 (mi_tag init) (mi_flags init)
       0 0 0 0 0 0 0 0 0 true 0 []) at_ h 0) as HF. cbn [mi_region mi_multi_share] in HF.
    by rewrite Z.add_0_r in HF. }
  rewrite init_header_core. fold region. unfold composite_offset, receivers_of in *. unfold receivers_ok in Hrc.
  set (m1 := header_core v m init at_ h) in *.
  assert (Hr0 : receiver_addr v region 0 = region + sizeof_region v) by (unfold receiver_addr; lia).
  assert (Hsz : 0 < sizeof_access v /\ 0 < sizeof_region v) by (destruct v; simpl; lia).
  destruct (mi_multi_share init) eqn:Hms.
  - destruct (Hrc eq_refl) as [Hcnt Hle]. rewrite Hcnt, Nat2Z.id.
    destruct (count_read v m1 region (Z.of_nat (length (mi_receivers init))) ltac:(unfold is_uint; lia)) as [HR2 HC2].
    pose proof (count_frame m1 region (Z.of_nat (length (mi_receivers init))) v) as F2.
    set (m2 := stn 4 m1 (region + 28) _) in *.
    destruct (write_receivers_spec v (mi_receivers init) m2 region 0 perm (wf_receivers _ Hwf) Hp)
      as (m3 & E & F3 & R3). exists m3. split; [done|]. rewrite Hr0 in F3.
    destruct (read_header_frame v m2 m3 region _ _ F3 ltac:(lia)) as [HR3 HC3].
    split; [|split; [by apply HC3, HC2 | split]].
    + rewrite HR3, HR2, HR. done.
    + intros k r Hk. by apply R3.
    + eapply frame_trans; [eapply frame_widen; [exact F1|lia|nia]|].
      eapply frame_trans; [eapply frame_widen; [exact F2|lia|nia]|].
      eapply frame_widen; [exact F3|lia|lia].
  - eexists. split; [reflexivity|].
    destruct (count_read v m1 region 1 ltac:(done)) as [HR2 HC2]. pose proof (count_frame m1 region 1 v) as F2.
    set (m2 := stn 4 m1 (region + 28) 1) in *.
    set (m3 := write_access v m2 region 0 (mi_receiver init) perm 0 (mi_impdef0 init) (mi_impdef1 init)).
    assert (F3 : frame (region + sizeof_region v) (sizeof_access v) m2 m3) by (rewrite <- Hr0; apply write_access_frame).
    destruct (read_header_frame v m2 m3 region _ _ F3 ltac:(lia)) as [HR3 HC3].
    split; [|split; [by apply HC3, HC2 | split]].
    + rewrite HR3, HR2, HR. done.
    + intros [|k] r Hk; [|by destruct k]. simpl in Hk. simplify_eq. destruct Hwf.
      eexists. unfold m3. by rewrite write_access_read.
    + eapply frame_trans; [eapply frame_widen; [exact F1|lia|simpl in *; lia]|].
      eapply frame_trans; [eapply frame_widen; [exact F2|lia|simpl in *; lia]|].
      eapply frame_widen; [exact F3|lia|simpl; lia].
Qed.

(** The composite offsets, written after the receivers. *)
Lemma offsets_stage v m2 init :
  receivers_ok init ->
  let region := mi_region init in
  let n := Z.of_nat (length (receivers_of init)) in
  ldn 4 m2 (region + 28) = n ->
  let m3 := if mi_multi_share init then
              write_offsets v (Z.to_nat (mi_receiver_count init)) m2 region 0
                (fun m => u32 (sizeof_region v + ldn 4 m (region + 28) * sizeof_access v))
            else stn 4 m2 (receiver_addr v region 0 + 4) (sizeof_region v + 1 * sizeof_access v) in
  frame (region + sizeof_region v) (n * sizeof_access v) m2 m3 /\
  (forall k perm off r, 0 <= k < n -> read_access v m2 region k = access_of v perm off r ->
     read_access v m3 region k = access_of v perm (composite_offset v init) r).
Proof.
  intros Hrc region n Hcnt m3. pose proof (receivers_count_bounds init Hrc) as Hn.
  assert (Hsz : 16 <= sizeof_access v <= 32 /\ 32 <= sizeof_region v <= 48) by (destruct v; simpl; lia).
  assert (Hr0 : receiver_addr v region 0 = region + sizeof_region v) by (unfold receiver_addr; lia).
  assert (Hc : is_uint 32 (composite_offset v init)) by (unfold is_uint, composite_offset; nia).
  assert (Em : exists f, m3 = write_offsets v (length (receivers_of init)) m2 region 0 f /\
    forall m1, frame (receiver_addr v region 0) (n * sizeof_access v) m2 m1 -> f m1 = composite_offset v init).
  { unfold m3, receivers_ok, composite_offset, receivers_of in *. destruct (mi_multi_share init).
    - eexists. split; [rewrite (proj1 (Hrc eq_refl)), Nat2Z.id; reflexivity|].
      intros m1 HF. rewrite Hr0 in HF. cbv beta. rewrite (frame_ldn _ _ _ _ _ _ HF) by lia.
      rewrite Hcnt. apply uwrap_small. unfold n. nia.
    - exists (fun _ => sizeof_region v + 1 * sizeof_access v). by split. }
  destruct Em as (f & -> & Hf).
  destruct (write_offsets_spec v (length (receivers_of init)) m2 region 0 f _ Hc Hf) as [HF HR].
  rewrite Hr0 in HF. split; [done|]. intros k perm off r Hk Ha.
  destruct (HR k Hk) as (a & -> & E). rewrite Z.add_0_l in *. rewrite E, Ha. done.
Qed.

Definition copied (v : ffa_v) (init : mem_region_init) (count : Z) : Z :=
  Z.min count ((mi_max_size init - (composite_offset v init + sizeof_composite)) / sizeof_constituent).

Lemma attributes_uint init : is_uint 8 (region_attributes init) /\ is_uint 8 (region_permissions init).
Proof. split; apply attr_set_range. Qed.

(** The tail of [val_ffa_memory_region_init], from the composite descriptor on. *)
Lemma composite_stage v m3 init cs count :
  receivers_ok init -> Forall constituent_wf cs -> is_uint 32 count -> count <= Z.of_nat (length cs) ->
  composite_offset v init + sizeof_composite <= mi_max_size init < 2 ^ 32 -> 0 < mi_region init ->
  let region := mi_region init in
  let comp := region + composite_offset v init in
  let k := copied v init count in
  let m4 := stn 8 (stn 4 (stn 4 m3 comp 0) (comp + 4) count) (comp + 8) 0 in
  let m5 := constituents_loop m4 comp 0 k (take (Z.to_nat count) cs) in
  frame comp (16 + 16 * k) m3 m5 /\
  read_composite m5 comp = CompositeDesc (u32 (total_pages (take (Z.to_nat count) cs))) count 0 /\
  (forall j c, cs !! j = Some c -> Z.of_nat j < k -> read_constituent m5 comp (Z.of_nat j) = c) /\
  0 <= k <= count /\ composite_offset v init + 16 + 16 * k <= mi_max_size init.
Proof.
  intros Hrc Hcs Hcu Hlen Hmax Hreg region comp k m4 m5. unfold is_uint in Hcu.
  assert (Hk : 0 <= k <= count /\ composite_offset v init + 16 + 16 * k <= mi_max_size init).
  { unfold k, copied, sizeof_composite, sizeof_constituent in *. Z.div_mod_to_equations; lia. }
  assert (F4 : frame comp 16 m3 m4) by (intros x Hx; unfold m4; memsimp; done).
  destruct (constituents_loop_spec (take (Z.to_nat count) cs) m4 comp 0 k) as (F5 & C5 & _ & R5);
    [by apply Forall_take | lia | lia |]. fold m5 in F5, C5, R5.
  split; [|split; [|split; [|exact Hk]]].
  - eapply frame_trans; [eapply frame_widen; [exact F4|lia|lia] | exact F5].
  - rewrite C5. unfold m4. memsimp. done.
  - intros j c Hj Hlt. apply (R5 j); [|lia]. rewrite lookup_take_lt; [done|]. lia.
Qed.

(** What a correct descriptor in [m'] looks like. *)
Record describes (v : ffa_v) (init : mem_region_init) (cs : list ffa_constituent) (count k : Z) (m' : mem) : Prop := {
  ds_header : read_header m' (mi_region init) =
    HeaderDesc (mi_sender init) (region_attributes init) (mi_flags init) 0 (mi_tag init)
      (Z.of_nat (length (receivers_of init)));
  ds_consistent : header_consistent v m' (mi_region init);
  ds_receivers : forall i r, receivers_of init !! i = Some r ->
    read_access v m' (mi_region init) (Z.of_nat i) =
    access_of v (region_permissions init) (composite_offset v init) r;
  ds_composite : read_composite m' (mi_region init + composite_offset v init) =
    CompositeDesc (u32 (total_pages (take (Z.to_nat count) cs))) count 0;
  ds_constituents : forall j c, cs !! j = Some c -> Z.of_nat j < k ->
    read_constituent m' (mi_region init + composite_offset v init) (Z.of_nat j) = c
}.

(** Claim C32: When the buffer has room for the header, the one or two receivers and
    the composite header (composite_offset + 16 <= max_size < 2^32;
    region_init_small_buffer has the other case), the receiver count names the
    receivers given, the constituent count is at most that of the array and the
    fields have their C types, val_ffa_memory_region_init writes a memory
    transaction descriptor that reads back as the sender, attributes, flags, handle,
    tag, receivers with their permissions, the composite header and exactly the
    constituents that fit the buffer; the returned count is the number of
    constituents left over, the lengths are those of the fragment, which fits the
    buffer, and nothing outside the fragment changes. *)
Theorem region_init_roundtrip v m init cs count :
  init_wf init -> receivers_ok init -> Forall constituent_wf cs ->
  is_uint 32 count -> count <= Z.of_nat (length cs) -> 0 < mi_region init ->
  composite_offset v init + sizeof_composite <= mi_max_size init < 2 ^ 32 ->
  let k := copied v init count in
  let fragment := composite_offset v init + 16 + 16 * k in
  exists m',
    val_ffa_memory_region_init v m init cs count =
      Ret (count - k, with_lengths init (u32 (composite_offset v init + 16 + 16 * count)) fragment, m') /\
    describes v init cs count k m' /\
    frame (mi_region init) fragment m m' /\ fragment <= mi_max_size init.
Proof.
  intros Hwf Hrc Hcs Hcu Hlen Hreg Hmax k fragment.
  destruct (attributes_uint init) as [Hat Hpm]. pose proof (receivers_count_bounds init Hrc) as Hn.
  destruct (header_stage v m init _ 0 _ Hwf Hrc Hat ltac:(done) Hpm) as (m2 & E2 & R2 & C2 & A2 & F2).
  assert (Hcnt : ldn 4 m2 (mi_region init + 28) = Z.of_nat (length (receivers_of init)))
    by exact (f_equal hd_receiver_count R2).
  destruct (offsets_stage v m2 init Hrc Hcnt) as [F3 A3].
  set (m3 := if mi_multi_share init then _ else _) in F3, A3.
  destruct (composite_stage v m3 init cs count Hrc Hcs Hcu Hlen Hmax Hreg) as (F5 & C5 & R5 & Hk & Hfr).
  fold k in F5, C5, R5, Hk, Hfr. set (comp := mi_region init + composite_offset v init) in *.
  set (m4 := stn 8 _ _ _) in *. set (m5 := constituents_loop _ _ _ _ _) in *.
  assert (Hsz : 16 <= sizeof_access v <= 32 /\ 32 <= sizeof_region v <= 48) by (destruct v; simpl; lia).
  assert (Hoff : composite_offset v init = sizeof_region v + Z.of_nat (length (receivers_of init)) * sizeof_access v)
    by done.
  assert (Hco : 0 < composite_offset v init <= 112) by nia.
  assert (Hr0 : receiver_addr v (mi_region init) 0 = mi_region init + sizeof_region v) by (unfold receiver_addr; lia).
  assert (A3' : forall i r, receivers_of init !! i = Some r ->
    read_access v m3 (mi_region init) (Z.of_nat i) =
    access_of v (region_permissions init) (composite_offset v init) r).
  { intros i r Hi. destruct (A2 i r Hi) as [off Ho]. apply lookup_lt_Some in Hi. eapply A3; [lia | exact Ho]. }
  assert (Hget : ldn 4 m3 (receiver_addr v (mi_region init) 0 + 4) = composite_offset v init).
  { destruct (receivers_of init) as [|r rs] eqn:Er; [simpl in Hn; lia|].
    exact (f_equal ad_offset (A3' 0%nat r eq_refl)). }
  assert (Hget4 : ldn 4 m4 (receiver_addr v (mi_region init) 0 + 4) = composite_offset v init).
  { rewrite <- Hget. unfold m4. rewrite !ldn_stn_out; [done|nia..]. }
  exists m5. split; [|split; [|split; [|exact Hfr]]].
  - unfold val_ffa_memory_region_init. replace (Z.of_nat (length cs) <? count) with false by lia.
    cbn zeta. rewrite E2. cbn [obind]. fold m3.
    unfold ffa_memory_region_get_composite. rewrite Hget. replace (composite_offset v init =? 0) with false by nia.
    fold comp. replace (comp =? 0) with false by lia. fold m4. rewrite Hget4.
    unfold sizeof_composite, sizeof_constituent in *. unfold is_uint in Hcu.
    rewrite (uwrap_small 32 (composite_offset v init + 16)) by nia.
    rewrite (uwrap_small 64 (mi_max_size init - _)) by lia.
    rewrite (uwrap_small 32 ((mi_max_size init - _) / 16)) by (Z.div_mod_to_equations; lia).
    assert (Hck : (if (mi_max_size init - (composite_offset v init + 16)) / 16 <? count
                   then (mi_max_size init - (composite_offset v init + 16)) / 16 else count) = k).
    { change k with (Z.min count ((mi_max_size init - (composite_offset v init + 16)) / 16)).
      destruct (Z.ltb_spec ((mi_max_size init - (composite_offset v init + 16)) / 16) count);
        [rewrite Z.min_r by lia | rewrite Z.min_l by lia]; done. }
    rewrite Hck. fold m5. pose proof (f_equal cd_constituent_count C5) as Hcc. cbn in Hcc. rewrite Hcc.
    rewrite (uwrap_small 32 (count - k)), (uwrap_small 32 (composite_offset v init + 16 + k * 16)) by lia.
    unfold fragment. by rewrite (Z.mul_comm k), (Z.mul_comm count).
  - assert (FH : frame (mi_region init + sizeof_region v) (composite_offset v init - sizeof_region v) m2 m3)
      by (eapply frame_widen; [exact F3|lia|lia]).
    destruct (read_header_frame v m2 m3 (mi_region init) _ _ F3 ltac:(lia)) as [HR3 HC3].
    destruct (read_header_frame v m3 m5 (mi_region init) _ _ F5 ltac:(unfold comp; nia)) as [HR5 HC5].
    constructor; [by rewrite HR5, HR3, R2 | by apply HC5, HC3 | | exact C5 | exact R5].
    intros i r Hi. rewrite <- (A3' i r Hi). eapply read_access_frame; [exact F5|]. left.
    apply lookup_lt_Some in Hi. unfold comp, receiver_addr. nia.
  - eapply frame_trans; [eapply frame_widen; [exact F2|lia|unfold fragment; lia]|].
    eapply frame_trans; [eapply frame_widen; [exact F3|lia|unfold fragment; lia]|].
    eapply frame_widen; [exact F5|unfold comp; nia|unfold comp, fragment; lia].
Qed.

(** ** Retrieve requests *)

Lemma clear_offset_spec v m region i :
  frame (receiver_addr v region i) (sizeof_access v) m (clear_offset v m region i) /\
  forall a, read_access v m region i = a ->
    read_access v (clear_offset v m region i) region i =
    AccessDesc (ad_receiver a) (ad_permissions a) (ad_flags a) 0 (ad_impdef0 a) (ad_impdef1 a).
Proof.
  unfold clear_offset. split.
  - intros x Hx. destruct v; cbn [sizeof_access] in *; memsimp; done.
  - intros a <-. unfold read_access. cbn [ad_receiver ad_permissions ad_flags ad_impdef0 ad_impdef1].
    destruct v; memsimp; done.
Qed.

Lemma clear_offsets_spec v n m region i :
  let m' := clear_offsets v n m region i in
  frame (receiver_addr v region i) (Z.of_nat n * sizeof_access v) m m' /\
  (forall k a, 0 <= k < Z.of_nat n -> read_access v m region (i + k) = a ->
     read_access v m' region (i + k) =
     AccessDesc (ad_receiver a) (ad_permissions a) (ad_flags a) 0 (ad_impdef0 a) (ad_impdef1 a)).
Proof.
  revert m i. induction n as [|n IH]; intros m i; cbn [clear_offsets].
  { split; [apply frame_refl | lia]. }
  assert (Hs : 16 <= sizeof_access v) by (destruct v; simpl; lia).
  destruct (clear_offset_spec v m region i) as [F1 R1].
  destruct (IH (clear_offset v m region i) (i + 1)) as [HF HR]. rewrite receiver_addr_S in HF. split.
  - eapply frame_trans; [eapply frame_widen; [exact F1|lia|nia] | eapply frame_widen; [exact HF|nia|nia]].
  - intros k a Hk Ha. destruct (decide (k = 0)) as [->|Hk0].
    + rewrite Z.add_0_r in *. rewrite (read_access_frame _ _ _ _ _ _ _ HF) by lia. auto.
    + replace (i + k) with (i + 1 + (k - 1)) in * by lia. apply HR; [lia|]. rewrite <- Ha.
      eapply read_access_frame; [exact F1|]. unfold receiver_addr. nia.
Qed.

(** val_ffa_memory_retrieve_request_init writes a retrieve descriptor whose header,
    handle and receivers read back as given, with every composite offset zero,
    writes only that descriptor, and returns its length. *)
Theorem retrieve_request_roundtrip v m init handle :
  init_wf init -> receivers_ok init -> is_uint 64 handle -> (v = FFA_V_1_0 -> mi_multi_share init = false) ->
  exists m', val_ffa_memory_retrieve_request_init v m init handle = Ret (composite_offset v init, m') /\
    read_header m' (mi_region init) =
      HeaderDesc (mi_sender init) (region_attributes init) (mi_flags init) handle (mi_tag init)
        (Z.of_nat (length (receivers_of init))) /\
    header_consistent v m' (mi_region init) /\
    (forall i r, receivers_of init !! i = Some r ->
       read_access v m' (mi_region init) (Z.of_nat i) = access_of v (region_permissions init) 0 r) /\
    frame (mi_region init) (composite_offset v init) m m'.
Proof.
  intros Hwf Hrc Hh Hv. destruct (attributes_uint init) as [Hat Hpm].
  pose proof (receivers_count_bounds init Hrc) as Hn.
  destruct (header_stage v m init _ handle _ Hwf Hrc Hat Hh Hpm) as (m2 & E2 & R2 & C2 & A2 & F2).
  set (m3 := if mi_multi_share init then clear_offsets v (Z.to_nat (mi_receiver_count init)) m2 (mi_region init) 0
             else clear_offset v m2 (mi_region init) 0).
  assert (Hm3 : m3 = clear_offsets v (length (receivers_of init)) m2 (mi_region init) 0).
  { unfold m3, receivers_of, receivers_ok in *. destruct (mi_multi_share init); [|done].
    by rewrite (proj1 (Hrc eq_refl)), Nat2Z.id. }
  destruct (clear_offsets_spec v (length (receivers_of init)) m2 (mi_region init) 0) as [F3 A3].
  rewrite <- Hm3 in F3, A3.
  assert (Hr0 : receiver_addr v (mi_region init) 0 = mi_region init + sizeof_region v) by (unfold receiver_addr; lia).
  assert (Hsz : 16 <= sizeof_access v <= 32 /\ 32 <= sizeof_region v <= 48) by (destruct v; simpl; lia).
  rewrite Hr0 in F3. destruct (read_header_frame v m2 m3 (mi_region init) _ _ F3 ltac:(lia)) as [HR3 HC3].
  exists m3. split; [|split; [by rewrite HR3, R2 | split; [by apply HC3 | split]]].
  - unfold val_ffa_memory_retrieve_request_init, ffa_memory_region_retrieve_init_header. cbn zeta.
    assert (E : (match v with
                 | FFA_V_1_0 => Ret (ffa_memory_region_init_header v m init (region_attributes init) handle (region_permissions init))
                 | _ => if mi_multi_share init then
                     write_receivers v (Z.to_nat (mi_receiver_count init))
                       (stn 4 (ffa_memory_region_init_header v m init (region_attributes init) handle (region_permissions init))
                          (mi_region init + 28) (mi_receiver_count init))
                       (mi_region init) 0 (mi_receivers init) (region_permissions init)
                   else Ret (ffa_memory_region_init_header v m init (region_attributes init) handle (region_permissions init))
                 end) = Ret m2).
    { destruct v; try exact E2. by rewrite (Hv eq_refl) in E2. }
    rewrite E. cbn [obind]. fold m3. pose proof (f_equal hd_receiver_count (eq_trans HR3 R2)) as Hcnt.
    cbn in Hcnt. rewrite Hcnt. unfold composite_offset. rewrite uwrap_small by nia. done.
  - intros i r Hi. destruct (A2 i r Hi) as [off Ho]. apply lookup_lt_Some in Hi.
    rewrite <- (Z.add_0_l (Z.of_nat i)). rewrite (A3 (Z.of_nat i) (access_of v (region_permissions init) off r)); [done|lia|].
    by rewrite Z.add_0_l.
  - eapply frame_trans; [exact F2|]. eapply frame_widen; [exact F3|lia|unfold composite_offset; lia].
Qed.

(** ** Partition information *)

(** A descriptor of [desc_size] bytes, zero-extended to the widest layout. *)
Definition parsed (m m' : mem) (out src desc_size i : Z) : Prop :=
  forall j, 0 <= j < sizeof_partition_info ->
    ld8 m' (out + i * sizeof_partition_info + j) =
    if j <? desc_size then ld8 m (src + i * desc_size + j) else 0.

Lemma parser_step m out src d :
  0 <= d <= sizeof_partition_info -> src + d <= out \/ out + sizeof_partition_info <= src ->
  let m' := (val_memcpy (val_memset m out 0 sizeof_partition_info).2 out src d).2 in
  parsed m m' out src d 0 /\ frame out sizeof_partition_info m m'.
Proof.
  intros Hd Hsep m'. unfold sizeof_partition_info in *.
  set (m1 := (val_memset m out 0 48).2) in *.
  assert (F1 : frame out 48 m m1) by (pose proof (memset_loop_frame 48 m out 0) as HF; exact HF).
  assert (F2 : frame out d m1 m').
  { pose proof (memcpy_loop_frame (Z.to_nat d) m1 out src) as HF. rewrite Z2Nat.id in HF by lia. exact HF. }
  split.
  - intros j Hj. unfold sizeof_partition_info in *. rewrite Z.mul_0_l, Z.add_0_r, Z.add_0_r. destruct (Z.ltb_spec j d).
    + change m' with (memcpy_loop (Z.to_nat d) m1 out src). rewrite memcpy_loop_spec by lia. apply F1. lia.
    + rewrite F2 by lia. change m1 with (memset_loop 48 m out 0). rewrite memset_loop_spec by lia. done.
  - eapply frame_trans; [exact F1 | eapply frame_widen; [exact F2|lia|lia]].
Qed.

(** For descriptors of any size up to the size of the current structure (FF-A 1.0 or
    1.1), the partition info parser writes one entry per descriptor whose first
    desc_size bytes are the bytes of the descriptor, with the rest zero, and writes
    nothing outside the output array. *)
Theorem partition_parser_correct m out rx_buf desc_size count :
  0 <= desc_size <= sizeof_partition_info -> 0 <= count <= 2 ^ 32 ->
  rx_buf + count * desc_size <= out \/ out + count * sizeof_partition_info <= rx_buf ->
  exists m', val_ffa_partition_descriptor_info_parser m out rx_buf desc_size count = Ret m' /\
    (forall i, 0 <= i < count -> parsed m m' out rx_buf desc_size i) /\
    frame out (count * sizeof_partition_info) m m'.
Proof.
  intros Hd Hc Hsep. unfold val_ffa_partition_descriptor_info_parser.
  replace (2 ^ 32 <? count) with false by lia. eexists. split; [reflexivity|].
  rewrite <- (Z2Nat.id count) in Hsep |- * by lia. rewrite Nat2Z.id. generalize (Z.to_nat count) Hsep. clear Hc Hsep count.
  intros n. revert m out rx_buf. induction n as [|n IH]; intros m out src Hsep; cbn [parser_loop].
  { split; [lia | apply frame_refl]. }
  assert (H48 : sizeof_partition_info = 48) by done.
  destruct (parser_step m out src desc_size Hd ltac:(nia)) as [P1 F1].
  set (m1 := (val_memcpy _ _ _ _).2) in *.
  destruct (IH m1 (out + sizeof_partition_info) (src + desc_size) ltac:(nia)) as [P2 F2]. split.
  - intros i Hi j Hj. destruct (decide (i = 0)) as [->|Hi0].
    + rewrite F2 by lia. by apply P1.
    + specialize (P2 (i - 1) ltac:(lia) j Hj). 
      replace (out + i * sizeof_partition_info + j) with (out + sizeof_partition_info + (i - 1) * sizeof_partition_info + j) by lia.
      rewrite P2. destruct (Z.ltb_spec j desc_size); [|done].
      replace (src + i * desc_size + j) with (src + desc_size + (i - 1) * desc_size + j) by lia. apply F1. nia.
  - eapply frame_trans; [eapply frame_widen; [exact F1|lia|nia] | eapply frame_widen; [exact F2|lia|lia]].
Qed.

(** ** Handles *)

(** The 64-bit memory handle is put together from the two 32-bit result registers
    without loss. *)
Theorem mem_handle_roundtrip r handle :
  is_uint 64 handle -> u32 (arg2 r) = handle mod 2 ^ 32 -> u32 (arg3 r) = handle / 2 ^ 32 ->
  ffa_mem_success_handle r = handle.
Proof.
  intros Hh E2 E3. unfold ffa_mem_success_handle, ffa_assemble_handle. rewrite E2, E3. unfold is_uint in Hh.
  rewrite (uwrap_small 64) by (rewrite Z.shiftl_mul_pow2 by lia; Z.div_mod_to_equations; lia).
  rewrite lor_shiftl by (try lia; apply Z.mod_pos_bound; lia).
  pose proof (Z.div_mod handle (2 ^ 32)). lia.
Qed.

(** ** The table of supported interfaces *)

Section Table.
Context `{ValCommon} {W : Type} (conduit : ffa_args -> W -> ffa_args * W) (v : ffa_v).

Lemma mark_loop_same fids st f s : f ∈ fids -> length st = length fids ->
  supported_loop conduit v fids (mark_loop fids st f s) f =
  if s =? 1 then mret VAL_SUCCESS else if s =? 0xff then mret VAL_ERROR else features_query conduit v f.
Proof.
  revert st; induction fids as [|g fids IH]; intros st Hf Hlen; [by apply not_elem_of_nil in Hf|].
  destruct st as [|s0 st]; [done|]. cbn [mark_loop]. destruct (Z.eqb_spec g f) as [->|Hne]; cbn [supported_loop].
  - by rewrite Z.eqb_refl.
  - rewrite (proj2 (Z.eqb_neq g f) Hne). apply IH; [|simpl in *; lia].
    apply elem_of_cons in Hf as [->|]; [by destruct Hne | done].
Qed.

Lemma mark_loop_other fids st f s g : f <> g ->
  supported_loop conduit v fids (mark_loop fids st f s) g = supported_loop conduit v fids st g.
Proof.
  intros Hne. revert st; induction fids as [|h fids IH]; intros [|s0 st]; [done..|].
  cbn [mark_loop]. destruct (Z.eqb_spec h f) as [->|Hh]; cbn [supported_loop].
  - by rewrite (proj2 (Z.eqb_neq f g) Hne).
  - by rewrite IH.
Qed.

Lemma mark_loop_length fids st f s : length (mark_loop fids st f s) = length st.
Proof.
  revert st; induction fids as [|g fids IH]; intros [|s0 st]; [done..|].
  cbn [mark_loop]. case_match; simpl; [done | by rewrite IH].
Qed.

(** After a function id is marked in the feature table, the feature query answers
    what was marked without calling the hypervisor, and the answer for every other
    id is unchanged. *)
Theorem feature_table_correct st f g (b : bool) w :
  length st = length ffa_supported_fids -> f ∈ ffa_supported_fids -> f <> g ->
  let st' := val_ffa_mark_supported_fid st f b in
  length st' = length ffa_supported_fids /\
  val_is_ffa_feature_supported conduit v st' f w = Ret (if b then VAL_SUCCESS else VAL_ERROR, w) /\
  val_is_ffa_feature_supported conduit v st' g = val_is_ffa_feature_supported conduit v st g.
Proof.
  intros Hlen Hf Hne st'. split; [|split].
  - unfold st', val_ffa_mark_supported_fid. by rewrite mark_loop_length.
  - unfold val_is_ffa_feature_supported, st', val_ffa_mark_supported_fid. rewrite mark_loop_same by done.
    by destruct b.
  - by apply mark_loop_other.
Qed.
End Table.

(** ** A buffer shorter than the fixed part *)

Definition demo_init (max_size : Z) : mem_region_init :=
  MemRegionInit 0x8000 max_size 0x8001 0x8002 0 0 0 0 2 1 2 3 3 0 0 false 1 [].

(** [memory_region_max_size - constituents_offset] is unsigned: a smaller buffer
    passes for an enormous one and every range is copied past its end. *)
Theorem region_init_small_buffer :
  exists init' m', val_ffa_memory_region_init FFA_V_1_1 ∅ (demo_init 64)
                     [Constituent 0x40000000 1 0; Constituent 0x50000000 2 0] 2 = Ret (0, init', m') /\
    mi_fragment_length init' = 112.
Proof. eexists _, _. split; vm_compute; reflexivity. Qed.

(** ** Examples *)

Definition demo_multi : mem_region_init :=
  MemRegionInit 0x8000 4096 0x8001 0 7 0 0 0 2 1 2 3 3 0 0 true 2
    [MemAccess 0x8002 0 1 2; MemAccess 0x8003 0 3 4].

Lemma demo_multi_wf : init_wf demo_multi.
Proof. by constructor; cbn; repeat constructor. Qed.

Lemma region_attrs_roundtrip_witness :
  ffa_get_memory_type_attr (region_attributes demo_multi) = 2 /\
  ffa_get_memory_cacheability_attr (region_attributes demo_multi) = 3.
Proof. destruct (region_attrs_roundtrip demo_multi) as (_ & _ & H1 & H2 & _); [done..|]. by split. Defined.

Lemma region_init_roundtrip_witness :
  exists m', val_ffa_memory_region_init FFA_V_1_2 ∅ demo_multi [Constituent 0x40000000 1 0] 1 =
    Ret (0, with_lengths demo_multi 144 144, m').
Proof.
  destruct (region_init_roundtrip FFA_V_1_2 ∅ demo_multi [Constituent 0x40000000 1 0] 1) as (m' & E & _).
  - exact demo_multi_wf.
  - intros _. by vm_compute.
  - repeat constructor; by vm_compute.
  - by vm_compute.
  - by vm_compute.
  - by vm_compute.
  - by vm_compute.
  - exists m'. exact E.
Defined.

Lemma retrieve_request_roundtrip_witness :
  exists m', val_ffa_memory_retrieve_request_init FFA_V_1_2 ∅ demo_multi 99 = Ret (112, m').
Proof.
  destruct (retrieve_request_roundtrip FFA_V_1_2 ∅ demo_multi 99) as (m' & E & _).
  - exact demo_multi_wf.
  - intros _. by vm_compute.
  - by vm_compute.
  - discriminate.
  - exists m'. exact E.
Defined.

Lemma partition_parser_correct_witness :
  exists m', val_ffa_partition_descriptor_info_parser ∅ 0x9000 0x8000 24 2 = Ret m'.
Proof.
  destruct (partition_parser_correct ∅ 0x9000 0x8000 24 2) as (m' & E & _).
  - by vm_compute.
  - by vm_compute.
  - left. by vm_compute.
  - exists m'. exact E.
Defined.

Lemma mem_handle_roundtrip_witness :
  ffa_mem_success_handle (FfaArgs FFA_SUCCESS_32 0 0x55 0x1 0 0 0 0 0 0 0 0 0 0 0 0 0 0) = 0x100000055.
Proof. apply (mem_handle_roundtrip _ 0x100000055); by vm_compute. Defined.

Lemma feature_table_correct_witness :
  @val_is_ffa_feature_supported sample_val_common nat two_interrupts FFA_V_1_1
    (val_ffa_mark_supported_fid fid_state_init FFA_RUN_32 true) FFA_RUN_32 0%nat = Ret (0, 0%nat).
Proof.
  destruct (@feature_table_correct sample_val_common nat two_interrupts FFA_V_1_1 fid_state_init FFA_RUN_32
              FFA_YIELD_32 true 0%nat) as (_ & E & _).
  - reflexivity.
  - apply (bool_decide_unpack _). vm_compute. exact I.
  - discriminate.
  - exact E.
Defined.
