(* ===== verification/TpmPlatform.v ===== *)
(** * Platform layer of the firmware TPM

    pal_tpm_tcg_platform.c gives the TPM reference code its services: a RAM image
    of non-volatile memory, timers, entropy and identity data.  pal_tpm.c brings
    the TPM up on first use and passes commands to it.  The reference code itself
    ([ExecuteCommand], [_TPM_Init], [TPM_Manufacture], [GetRandomNumber64]) is a
    submodule: its entry points are parameters. *)

From S2P Require Import Prelude Bytes.

Definition NV_MEMORY_SIZE : Z := 16384.
Definition PAL_TPM_MANUFACTURER : Z := 0x41435320.
Definition PAL_TPM_VENDOR_1 : Z := 0x41435320.
Definition PAL_TPM_VENDOR_2 : Z := 0x6654504d.
Definition PAL_TPM_EPS_MAX_SIZE : Z := 32.
Definition PAL_TPM_ENTROPY_MAX_SIZE : Z := 64.
Definition PAL_TPM_UNIQUE_MAX_SIZE : Z := 32.
Definition PAL_TPM_SECRET_MAX_SIZE : Z := 32.
Definition PAL_TPM_MANUFACTURE_DATA_MAX_SIZE : Z := 32.

(** The static variables of the file. *)
Record plat := Plat {
  g_tpm_nv : list Z; g_tpm_nv_written : list Z; g_tpm_nv_ready : Z; g_tpm_nv_needs_manufacture : Z;
  g_tpm_time_ms : Z; g_tpm_timer_reset : Z; g_tpm_timer_stopped : Z;
  g_tpm_entropy_word : Z; g_tpm_entropy_offset : Z;
  g_tpm_failure_code : Z; g_tpm_failure_location : Z; g_tpm_failure_function : Z; g_tpm_failure_line : Z;
  g_tpm_in_failure_mode : Z
}.

Definition plat_init : plat :=
  Plat (zeros NV_MEMORY_SIZE) (zeros NV_MEMORY_SIZE) 0 1 0 0 0 0 8 0 0 0 0 0.

Definition set_nv (s : plat) (nv written : list Z) (needs : Z) : plat :=
  Plat nv written (g_tpm_nv_ready s) needs (g_tpm_time_ms s) (g_tpm_timer_reset s) (g_tpm_timer_stopped s)
    (g_tpm_entropy_word s) (g_tpm_entropy_offset s) (g_tpm_failure_code s) (g_tpm_failure_location s)
    (g_tpm_failure_function s) (g_tpm_failure_line s) (g_tpm_in_failure_mode s).
Definition set_ready (s : plat) (v : Z) : plat :=
  Plat (g_tpm_nv s) (g_tpm_nv_written s) v (g_tpm_nv_needs_manufacture s) (g_tpm_time_ms s)
    (g_tpm_timer_reset s) (g_tpm_timer_stopped s) (g_tpm_entropy_word s) (g_tpm_entropy_offset s)
    (g_tpm_failure_code s) (g_tpm_failure_location s) (g_tpm_failure_function s) (g_tpm_failure_line s)
    (g_tpm_in_failure_mode s).
Definition set_timer (s : plat) (ms reset stopped : Z) : plat :=
  Plat (g_tpm_nv s) (g_tpm_nv_written s) (g_tpm_nv_ready s) (g_tpm_nv_needs_manufacture s) ms reset stopped
    (g_tpm_entropy_word s) (g_tpm_entropy_offset s) (g_tpm_failure_code s) (g_tpm_failure_location s)
    (g_tpm_failure_function s) (g_tpm_failure_line s) (g_tpm_in_failure_mode s).
Definition set_entropy (s : plat) (word off : Z) : plat :=
  Plat (g_tpm_nv s) (g_tpm_nv_written s) (g_tpm_nv_ready s) (g_tpm_nv_needs_manufacture s) (g_tpm_time_ms s)
    (g_tpm_timer_reset s) (g_tpm_timer_stopped s) word off (g_tpm_failure_code s) (g_tpm_failure_location s)
    (g_tpm_failure_function s) (g_tpm_failure_line s) (g_tpm_in_failure_mode s).
Definition set_failure (s : plat) (code loc func line mode : Z) : plat :=
  Plat (g_tpm_nv s) (g_tpm_nv_written s) (g_tpm_nv_ready s) (g_tpm_nv_needs_manufacture s) (g_tpm_time_ms s)
    (g_tpm_timer_reset s) (g_tpm_timer_stopped s) (g_tpm_entropy_word s) (g_tpm_entropy_offset s)
    code loc func line mode.

(** ** Timers *)
Definition plat_TimerReset (s : plat) : plat := set_timer s 0 1 0.
Definition plat_TimerRestart (s : plat) : plat := set_timer s (g_tpm_time_ms s) (g_tpm_timer_reset s) 0.
Definition plat_RealTime (s : plat) : Z * plat :=
  let ms := u64 (g_tpm_time_ms s + 1) in (ms, set_timer s ms (g_tpm_timer_reset s) (g_tpm_timer_stopped s)).
Definition plat_TimerRead (s : plat) : Z * plat :=
  let ms := u64 (g_tpm_time_ms s + 1) in (ms, set_timer s ms (g_tpm_timer_reset s) (g_tpm_timer_stopped s)).
Definition plat_TimerWasReset (s : plat) : Z * plat :=
  (g_tpm_timer_reset s, set_timer s (g_tpm_time_ms s) 0 (g_tpm_timer_stopped s)).
Definition plat_TimerWasStopped (s : plat) : Z * plat :=
  (g_tpm_timer_stopped s, set_timer s (g_tpm_time_ms s) (g_tpm_timer_reset s) 0).

(** ** Non-volatile memory *)
Definition plat_NVEnable (s : plat) : Z * plat := (0, set_ready s 1).
Definition plat_NVDisable (s : plat) : plat := set_ready s 0.
Definition plat_GetNvReadyState (s : plat) : Z := if g_tpm_nv_ready s =? 0 then 1 else 0.
Definition plat_SetNvAvail (s : plat) : plat := set_ready s 1.
Definition plat_ClearNvAvail (s : plat) : plat := set_ready s 0.
Definition plat_NVNeedsManufacture (s : plat) : Z := g_tpm_nv_needs_manufacture s.
Definition plat_NvCommit : Z := 0.

Definition pal_tpm_nv_range_valid (offset size : Z) : bool :=
  if size =? 0 then true
  else if NV_MEMORY_SIZE <=? offset then false
  else size <=? u32 (NV_MEMORY_SIZE - offset).

(** [None] is the null pointer, [Some d] a buffer that holds [d]. *)
Definition plat_NvMemoryRead (s : plat) (start_offset size : Z) (data : option (list Z))
    : Z * option (list Z) :=
  match data with
  | None => (0, None)
  | Some d =>
      if negb (pal_tpm_nv_range_valid start_offset size) then (0, Some d)
      else if size =? 0 then (1, Some d)
      else (1, Some (splice d 0 (slice (g_tpm_nv s) start_offset size)))
  end.

Definition plat_NvGetChangedStatus (s : plat) (start_offset size : Z) (data : option (list Z)) : Z :=
  match data with
  | None => -1
  | Some d =>
      if negb (pal_tpm_nv_range_valid start_offset size) then -1
      else if size =? 0 then 0
      else if decide (slice (g_tpm_nv s) start_offset size = slice d 0 size) then 0 else 1
  end.

Definition plat_NvMemoryWrite (s : plat) (start_offset size : Z) (data : option (list Z)) : Z * plat :=
  match data with
  | None => (0, s)
  | Some d =>
      if negb (pal_tpm_nv_range_valid start_offset size) then (0, s)
      else if size =? 0 then (1, s)
      else (1, set_nv s (splice (g_tpm_nv s) start_offset (slice d 0 size))
                 (splice (g_tpm_nv_written s) start_offset (repeat 1 (Z.to_nat size))) 0)
  end.

Definition plat_NvMemoryClear (s : plat) (start_offset size : Z) : Z * plat :=
  if negb (pal_tpm_nv_range_valid start_offset size) then (0, s)
  else if size =? 0 then (1, s)
  else (1, set_nv s (splice (g_tpm_nv s) start_offset (repeat 0xff (Z.to_nat size)))
             (splice (g_tpm_nv_written s) start_offset (repeat 1 (Z.to_nat size))) 1).

Definition plat_NvMemoryMove (s : plat) (source_offset dest_offset size : Z) : Z * plat :=
  if negb (pal_tpm_nv_range_valid source_offset size) || negb (pal_tpm_nv_range_valid dest_offset size)
  then (0, s)
  else if size =? 0 then (1, s)
  else (1, set_nv s (splice (g_tpm_nv s) dest_offset (slice (g_tpm_nv s) source_offset size))
             (splice (g_tpm_nv_written s) dest_offset (repeat 1 (Z.to_nat size))) 0).

(** ** Identity data *)
Definition xor_fill (n k : Z) : list Z := (fun i => u8 (Z.lxor k (u8 (Z.of_nat i)))) <$> seq 0 (Z.to_nat n).

Definition plat_GetUnique (b_size : Z) (buffer : option (list Z)) : Z * option (list Z) :=
  match buffer with
  | None => (0, None)
  | Some b => if PAL_TPM_UNIQUE_MAX_SIZE <? b_size then (0, Some b) else (b_size, Some (splice b 0 (xor_fill b_size 0xA5)))
  end.
Definition plat_GetVendorCapabilityCode (index : Z) : Z :=
  if index =? 1 then PAL_TPM_VENDOR_1 else if index =? 2 then PAL_TPM_VENDOR_2 else 0.
Definition plat_GetPlatformManufactureData (data : option (list Z)) (size : Z) : option (list Z) :=
  match data with
  | None => None
  | Some d =>
      let size := if PAL_TPM_MANUFACTURE_DATA_MAX_SIZE <? size then PAL_TPM_MANUFACTURE_DATA_MAX_SIZE else size in
      Some (splice d 0 (xor_fill size 0xC3))
  end.
(** [svn ^ i]; the plain secret uses the constant 0x5A instead of [svn]. *)
Definition plat_GetTpmFirmwareSvnSecret (svn secret_buf_size : Z) (secret_buf : option (list Z))
    : Z * option (list Z) * option Z :=
  match secret_buf with
  | None => (-1, None, None)
  | Some b =>
      if PAL_TPM_SECRET_MAX_SIZE <? secret_buf_size then (-1, Some b, None)
      else (0, Some (splice b 0 (xor_fill secret_buf_size svn)), Some secret_buf_size)
  end.
Definition plat_GetTpmFirmwareSecret (secret_buf_size : Z) (secret_buf : option (list Z))
    : Z * option (list Z) * option Z :=
  match secret_buf with
  | None => (-1, None, None)
  | Some b =>
      if PAL_TPM_SECRET_MAX_SIZE <? secret_buf_size then (-1, Some b, None)
      else (0, Some (splice b 0 (xor_fill secret_buf_size 0x5A)), Some secret_buf_size)
  end.

Definition plat_GetManufacturerCapabilityCode : Z := PAL_TPM_MANUFACTURER.
Definition plat_GetTpmFirmwareVersionHigh : Z := 0x20260624.
Definition plat_GetTpmFirmwareVersionLow : Z := 0.
Definition plat_GetTpmFirmwareSvn : Z := 1.
Definition plat_GetTpmFirmwareMaxSvn : Z := 255.
Definition plat_GetVendorTpmType : Z := 1.
Definition plat_ClockRateAdjust (adjust : Z) (s : plat) : plat := s.
Definition plat_GetEnabledSelfTest (full_test to_test_vector to_test_vector_size : Z) (s : plat) : plat := s.
Definition plat_WasPowerLost : Z := 0.

(** The members the function sets, by the names of the source. *)
Record SPEC_CAPABILITY_VALUE := SpecCapabilityValue {
  tpmSpecLevel : Z; tpmSpecVersion : Z; tpmSpecYear : Z; tpmSpecDayOfYear : Z; platformFamily : Z;
  platfromLevel : Z; platformRevision : Z; platformYear : Z; platformDayOfYear : Z
}.
Definition plat_GetSpecCapabilityValue (return_data : option SPEC_CAPABILITY_VALUE) : option SPEC_CAPABILITY_VALUE :=
  match return_data with None => None | Some _ => Some (SpecCapabilityValue 0 184 2025 79 1 0 0x105 0 0) end.

(** ** Failure mode *)
Definition plat_GetFailureCode (s : plat) : Z := g_tpm_failure_code s.
Definition plat_GetFailureLocation (s : plat) : Z := g_tpm_failure_location s.
Definition plat_GetFailureFunctionName (s : plat) : Z := g_tpm_failure_function s.
Definition plat_GetFailureLine (s : plat) : Z := g_tpm_failure_line s.
Definition plat_internal_resetFailureData (s : plat) : plat := set_failure s 0 0 0 0 0.
Definition plat_InFailureMode (s : plat) : Z := g_tpm_in_failure_mode s.
(** [_plat__Fail] records the cause and never returns; the state it leaves. *)
Definition plat_Fail (s : plat) (function line location_code failure_code : Z) : plat :=
  set_failure s (u32 failure_code) location_code function (u32 line) 1.

(** ** Entropy *)
Section Entropy.
(** [GetRandomNumber64]: the status and the word it stores. *)
Context {R : Type} (GetRandomNumber64 : R -> Z * Z * R).

Definition pal_tpm_next_entropy_byte (s : plat) (r : R) : option Z * plat * R :=
  if 8 <=? g_tpm_entropy_offset s then
    let '(ok, word, r) := GetRandomNumber64 r in
    if ok =? 0 then (None, set_entropy s word (g_tpm_entropy_offset s), r)
    else (Some (u8 word), set_entropy s word 1, r)
  else
    (Some (u8 (Z.shiftr (g_tpm_entropy_word s) (g_tpm_entropy_offset s * 8))),
     set_entropy s (g_tpm_entropy_word s) (g_tpm_entropy_offset s + 1), r).

(** [n] bytes, stopping at the first failure; the bytes obtained so far. *)
Fixpoint entropy_bytes (n : nat) (s : plat) (r : R) : list Z * bool * plat * R :=
  match n with
  | O => ([], true, s, r)
  | S n' =>
      match pal_tpm_next_entropy_byte s r with
      | (None, s, r) => ([], false, s, r)
      | (Some b, s, r) =>
          let '(bs, ok, s, r) := entropy_bytes n' s r in (b :: bs, ok, s, r)
      end
  end.

Definition plat_GetEPS (size : Z) (seed : option (list Z)) (s : plat) (r : R) : option (list Z) * plat * R :=
  match seed with
  | None => (None, s, r)
  | Some e =>
      let size := if PAL_TPM_EPS_MAX_SIZE <? size then PAL_TPM_EPS_MAX_SIZE else size in
      let '(bs, _, s, r) := entropy_bytes (Z.to_nat size) s r in
      (Some (splice e 0 (imap (fun i b => u8 (Z.lxor (Z.lxor 0xE0 (u8 (Z.of_nat i))) b)) bs)), s, r)
  end.

Definition plat_GetEntropy (entropy : option (list Z)) (amount : Z) (s : plat) (r : R)
    : Z * option (list Z) * plat * R :=
  match entropy with
  | None => (-1, None, s, r)
  | Some e =>
      if PAL_TPM_ENTROPY_MAX_SIZE <? amount then (-1, Some e, s, r)
      else
        let '(bs, ok, s, r) := entropy_bytes (Z.to_nat amount) s r in
        if ok : bool then (amount, Some (splice e 0 bs), s, r) else (-1, Some (splice e 0 bs), s, r)
  end.
End Entropy.

(** ** Platform configuration registers *)

(** [PCR_Attributes] is declared by the reference code; a row is the list of the
    values the table initialises it with. *)
Definition IMPLEMENTATION_PCR : Z := 24.
Definition g_tpm_pcr_init_attributes : list (list Z) :=
  repeat [1; 0; 0; 0; 0; 0x1F] 16 ++
  [[0; 0; 0; 0; 0x0F; 0x1F]; [0; 0; 0; 0; 0x10; 0x1C]; [0; 0; 0; 0; 0x10; 0x1C]; [0; 0; 0; 0; 0x10; 0x0C];
   [0; 1; 1; 1; 0x14; 0x0E]; [0; 1; 1; 1; 0x14; 0x04]; [0; 1; 1; 1; 0x14; 0x04]; [0; 0; 0; 0; 0x0F; 0x1F]].
Definition platPcr_GetPcrInitializationAttributes (pcr_number : Z) : list Z :=
  let pcr_number := if IMPLEMENTATION_PCR <=? pcr_number then 0 else pcr_number in
  default [] (g_tpm_pcr_init_attributes !! Z.to_nat pcr_number).

Definition platPcr_NumberOfPcrs : Z := IMPLEMENTATION_PCR.

(** The algorithms the reference code is built with, and their identifiers. *)
Definition platPcr_IsPcrBankDefaultActive (ALG_SHA256 ALG_SHA384 : bool) (TPM_ALG_SHA256 TPM_ALG_SHA384 pcr_alg : Z) : bool :=
  (ALG_SHA256 && (pcr_alg =? TPM_ALG_SHA256)) || (ALG_SHA384 && (pcr_alg =? TPM_ALG_SHA384)).

Section Pcr.
(** Constants, the digest table and the field [resetLocality] of the TPM
    reference code. *)
Context (CryptHashGetDigestSize : Z -> Z) (TPM_RC_FAILURE TPM_RC_SUCCESS HCRTM_PCR : Z)
        (resetLocality : list Z -> Z).

Definition platPcr_GetInitialValueForPcr (pcr_number pcr_alg startup_locality : Z)
    (pcr_buffer : option (list Z)) (buffer_size : Z) : Z * option (list Z) * option Z :=
  let pcr_size := CryptHashGetDigestSize pcr_alg in
  match pcr_buffer with
  | None => (TPM_RC_FAILURE, None, None)
  | Some b =>
      if (IMPLEMENTATION_PCR <=? pcr_number) || (pcr_size =? 0) || (buffer_size <? pcr_size)
      then (TPM_RC_FAILURE, Some b, None)
      else
        let attrs := platPcr_GetPcrInitializationAttributes pcr_number in
        let default_value := if Z.land (resetLocality attrs) 0x10 =? 0 then 0 else 0xFF in
        let b := splice b 0 (repeat default_value (Z.to_nat pcr_size)) in
        let b := if pcr_number =? HCRTM_PCR then splice b (pcr_size - 1) [startup_locality] else b in
        (TPM_RC_SUCCESS, Some b, Some pcr_size)
  end.
End Pcr.

(** ** pal_tpm.c: bringing the TPM up *)

Definition PAL_TPM_SUCCESS : Z := 0.
Definition PAL_TPM_INVALID_PARAMETER : Z := 1.

(** The [response] pointer after [ExecuteCommand]: null, the buffer passed in
    with new contents, or a buffer of the TPM's own. *)
Inductive tpm_rsp := RspNull | RspSame (buf : list Z) | RspOther (buf : list Z).

Definition rsp_bytes (r : tpm_rsp) : list Z :=
  match r with RspNull => [] | RspSame b | RspOther b => b end.

(** The reference code: its state, and its entry points on that state and the
    platform layer's. *)
Class TpmCore := {
  core : Type;
  ExecuteCommand : Z -> list Z -> Z -> list Z -> core * plat -> Z * tpm_rsp * (core * plat);
  TPM_Init : core * plat -> core * plat;
  TPM_Manufacture : Z -> core * plat -> Z * (core * plat)
}.

Section Pal.
Context `{TpmCore}.

(** [g_pal_tpm_initialized], and the two layers below. *)
Record pal_tpm := PalTpm { pt_initialized : Z; pt_core : core; pt_plat : plat }.

Definition startup_clear_cmd : list Z := [0x80; 0x01; 0; 0; 0; 0x0c; 0; 0; 0x01; 0x44; 0; 0].
Definition startup_ok_rsp : list Z := [0x80; 0x01; 0; 0; 0; 0x0a; 0; 0; 0; 0].

Definition pal_tpm_startup (c : core * plat) : Z * (core * plat) :=
  let '(response_size, response, c) := ExecuteCommand 12 startup_clear_cmd 10 (zeros 10) c in
  match response with
  | RspNull => (PAL_TPM_INVALID_PARAMETER, c)
  | RspSame b | RspOther b =>
      if negb (response_size =? 10) then (PAL_TPM_INVALID_PARAMETER, c)
      else if decide (slice b 0 10 = startup_ok_rsp) then (PAL_TPM_SUCCESS, c)
      else (PAL_TPM_INVALID_PARAMETER, c)
  end.

Definition pal_tpm_init (t : pal_tpm) : Z * pal_tpm :=
  if negb (pt_initialized t =? 0) then (PAL_TPM_SUCCESS, t)
  else
    let '(en, p) := plat_NVEnable (pt_plat t) in
    if en <? 0 then (PAL_TPM_INVALID_PARAMETER, PalTpm (pt_initialized t) (pt_core t) p)
    else
      let c := TPM_Init (pt_core t, p) in
      let '(manufacture_status, c) :=
        if negb (plat_NVNeedsManufacture c.2 =? 0) then TPM_Manufacture 1 c else (0, c) in
      if negb (manufacture_status =? 0) then (PAL_TPM_INVALID_PARAMETER, PalTpm (pt_initialized t) c.1 c.2)
      else
        let '(st, c) := pal_tpm_startup c in
        if negb (st =? PAL_TPM_SUCCESS) then (PAL_TPM_INVALID_PARAMETER, PalTpm (pt_initialized t) c.1 c.2)
        else (PAL_TPM_SUCCESS, PalTpm 1 c.1 c.2).

(** [request] and the response buffer are the caller's arrays; the results are
    the status, the response size and where the response is. *)
Definition pal_tpm_execute_command (request_size : Z) (request : list Z) (response_size : Z)
    (response : list Z) (t : pal_tpm) : Z * Z * tpm_rsp * pal_tpm :=
  if (request_size =? 0) || (response_size =? 0)
  then (PAL_TPM_INVALID_PARAMETER, response_size, RspSame response, t)
  else
    let '(st, t) := pal_tpm_init t in
    if negb (st =? PAL_TPM_SUCCESS) then (PAL_TPM_INVALID_PARAMETER, response_size, RspSame response, t)
    else
      let '(n, r, c) := ExecuteCommand request_size request response_size response (pt_core t, pt_plat t) in
      let t := PalTpm (pt_initialized t) c.1 c.2 in
      match r with
      | RspNull => (PAL_TPM_INVALID_PARAMETER, n, r, t)
      | _ => if n =? 0 then (PAL_TPM_INVALID_PARAMETER, n, r, t) else (PAL_TPM_SUCCESS, n, r, t)
      end.
End Pal.

(** ** Correctness of the NV image *)

Definition nv_wf (s : plat) : Prop := zlen (g_tpm_nv s) = NV_MEMORY_SIZE /\ zlen (g_tpm_nv_written s) = NV_MEMORY_SIZE.

(** The range check has no overflow: it accepts exactly the ranges in the image. *)
Lemma nv_range_valid_spec offset size :
  is_uint 32 offset -> is_uint 32 size ->
  pal_tpm_nv_range_valid offset size = true <-> size = 0 \/ offset + size <= NV_MEMORY_SIZE.
Proof.
  unfold is_uint, pal_tpm_nv_range_valid, NV_MEMORY_SIZE. intros.
  destruct (Z.eqb_spec size 0); [tauto|]. destruct (Z.leb_spec 16384 offset).
  - split; [done | lia].
  - rewrite uwrap_small by lia. rewrite Z.leb_le. lia.
Qed.

Lemma nv_range_valid_false offset size :
  is_uint 32 offset -> is_uint 32 size -> 0 < size ->
  pal_tpm_nv_range_valid offset size = false <-> NV_MEMORY_SIZE < offset + size.
Proof.
  intros Ho Hs Hp. pose proof (nv_range_valid_spec offset size Ho Hs).
  destruct (pal_tpm_nv_range_valid offset size); split; intros; try done; [|lia].
  destruct (proj1 H eq_refl); lia.
Qed.

Lemma zlen_repeat x n : 0 <= n -> zlen (repeat x (Z.to_nat n)) = n.
Proof. intros. unfold zlen. rewrite repeat_length. lia. Qed.

Lemma nv_write_image s off size d s' :
  nv_wf s -> is_uint 32 off -> is_uint 32 size -> 0 < size <= zlen d ->
  plat_NvMemoryWrite s off size (Some d) = (1, s') ->
  off + size <= NV_MEMORY_SIZE /\ nv_wf s' /\ g_tpm_nv s' = splice (g_tpm_nv s) off (slice d 0 size) /\
  g_tpm_nv_needs_manufacture s' = 0.
Proof.
  intros [H1 H2] Ho Hs Hd E. unfold is_uint in *. unfold plat_NvMemoryWrite in E.
  destruct (pal_tpm_nv_range_valid off size) eqn:Hv; [|done].
  apply nv_range_valid_spec in Hv; [|done..]. cbn [negb] in E.
  replace (size =? 0) with false in E by lia. injection E as <-. destruct Hv; [lia|]. split; [done|].
  cbn. split; [|done]. unfold nv_wf; cbn.
  rewrite !zlen_splice; rewrite ?zlen_slice, ?zlen_repeat by lia; lia.
Qed.

(** Claim C39: For every 32-bit offset and every positive 32-bit size with a buffer
    of that size: when the range lies in the 16384 bytes of the NV memory,
    plat_NvMemoryWrite returns 1, the data is read back byte for byte and reported
    as unchanged, the needs-manufacture state is cleared and no disjoint range
    changes; when it does not, also when its end passes 2^32, the write, the read
    and the comparison fail and neither the memory nor the buffer of the caller
    changes. *)
Theorem nv_write_read s off size d :
  nv_wf s -> is_uint 32 off -> is_uint 32 size -> 0 < size -> zlen d = size ->
  (off + size <= NV_MEMORY_SIZE -> exists s',
     plat_NvMemoryWrite s off size (Some d) = (1, s') /\ nv_wf s' /\ plat_NVNeedsManufacture s' = 0 /\
     plat_NvMemoryRead s' off size (Some (zeros size)) = (1, Some d) /\
     plat_NvGetChangedStatus s' off size (Some d) = 0 /\
     (forall off' size' b, is_uint 32 off' -> 0 < size' < 2 ^ 32 -> off' + size' <= off \/ off + size <= off' ->
        plat_NvMemoryRead s' off' size' (Some b) = plat_NvMemoryRead s off' size' (Some b))) /\
  (NV_MEMORY_SIZE < off + size ->
     plat_NvMemoryWrite s off size (Some d) = (0, s) /\ plat_NvGetChangedStatus s off size (Some d) = -1 /\
     forall b, plat_NvMemoryRead s off size (Some b) = (0, Some b)).
Proof.
  intros Hwf Ho Hs Hp Hd. split.
  2:{ intros Hout. apply nv_range_valid_false in Hout; [|done..]. unfold plat_NvMemoryWrite, plat_NvGetChangedStatus, plat_NvMemoryRead.
      by rewrite Hout. }
  intros Hin. assert (Hok : pal_tpm_nv_range_valid off size = true) by (apply nv_range_valid_spec; [done..|lia]).
  destruct (plat_NvMemoryWrite s off size (Some d)) as [r s'] eqn:E.
  assert (r = 1) as -> by (unfold plat_NvMemoryWrite in E; rewrite Hok in E; by destruct (size =? 0) in E; injection E as <- _).
  exists s'. split; [done|].
  destruct (nv_write_image s off size d s' Hwf Ho Hs ltac:(lia) E) as (Hr & Hwf' & Hnv & Hm).
  destruct Hwf as [H1 H2]. unfold is_uint in *.
  assert (Hsl : slice d 0 size = d).
  { unfold slice, zlen in *. rewrite drop_0. apply take_ge. lia. }
  assert (Hv : pal_tpm_nv_range_valid off size = true) by (apply nv_range_valid_spec; [done..|lia]).
  assert (Hsame : slice (g_tpm_nv s') off size = d).
  { rewrite Hnv, Hsl, <- Hd. apply slice_splice_same; lia. }
  split; [done|]. split; [exact Hm|]. split; [|split].
  - unfold plat_NvMemoryRead. rewrite Hv, Hsame. cbn [negb]. replace (size =? 0) with false by lia.
    do 2 f_equal. unfold splice, zeros, zlen in *. cbn. rewrite drop_ge; [by rewrite app_nil_r|].
    rewrite repeat_length. lia.
  - unfold plat_NvGetChangedStatus. rewrite Hv, Hsame, Hsl. cbn [negb]. replace (size =? 0) with false by lia.
    by rewrite decide_True.
  - intros off' size' b Ho' Hs' Hdis. unfold plat_NvMemoryRead.
    destruct (pal_tpm_nv_range_valid off' size') eqn:Hv'; [|done].
    apply nv_range_valid_spec in Hv'; [|unfold is_uint; lia..]. destruct Hv'; [lia|].
    rewrite Hnv, Hsl, slice_splice_other; done || lia.
Qed.

(** Every NV operation on a range that does not lie in the NV memory (also one whose
    end overflows 32 bits) fails and changes neither the NV memory nor the buffer of
    the caller. *)
Theorem nv_out_of_range s off size data :
  is_uint 32 off -> is_uint 32 size -> 0 < size -> NV_MEMORY_SIZE < off + size ->
  plat_NvMemoryWrite s off size data = (0, s) /\ (plat_NvMemoryRead s off size data) = (0, data) /\
  plat_NvMemoryClear s off size = (0, s) /\ plat_NvMemoryMove s off 0 size = (0, s) /\
  plat_NvMemoryMove s 0 off size = (0, s) /\ plat_NvGetChangedStatus s off size data = -1.
Proof.
  intros Ho Hs Hp Hr. apply (nv_range_valid_false off size Ho Hs Hp) in Hr.
  unfold plat_NvMemoryWrite, plat_NvMemoryRead, plat_NvMemoryClear, plat_NvMemoryMove, plat_NvGetChangedStatus.
  rewrite Hr. cbn [negb orb]. rewrite orb_true_r. by destruct data.
Qed.

(** ** Bring-up *)

Section Bringup.
Context `{TpmCore}.

(** A TPM command is answered with success only when the TPM has been brought up
    (power on, manufacture when needed, TPM2_Startup accepted); later calls do not
    start it again and the response is neither empty nor null. *)
Theorem tpm_up_after_success request_size request response_size response t n r t' :
  pal_tpm_execute_command request_size request response_size response t = (PAL_TPM_SUCCESS, n, r, t') ->
  (pt_initialized t = 0 \/ pt_initialized t = 1) ->
  pt_initialized t' = 1 /\ pal_tpm_init t' = (PAL_TPM_SUCCESS, t') /\ n <> 0 /\ r <> RspNull.
Proof.
  unfold pal_tpm_execute_command. intros E Ht.
  destruct ((request_size =? 0) || (response_size =? 0)); [done|].
  destruct (pal_tpm_init t) as [st t1] eqn:Ei.
  destruct (Z.eqb_spec st PAL_TPM_SUCCESS) as [->|]; [|done]. cbn [negb] in E.
  assert (Hi : pt_initialized t1 = 1).
  { revert Ei. unfold pal_tpm_init. destruct Ht as [Ht|Ht]; rewrite Ht; cbn [negb Z.eqb]; [|by intros [= <-]].
    cbn [plat_NVEnable Z.ltb]. clear E. repeat case_match; try (by intros [= ?]); intros [= <-]; done. }
  destruct (ExecuteCommand _ _ _ _ _) as [[n' r'] c].
  destruct r' as [|b|b]; [done|..]; (destruct (Z.eqb_spec n' 0); [done|]; injection E as <- <- <-;
    split; [exact Hi|]; split; [|done]; unfold pal_tpm_init; cbn [pt_initialized]; by rewrite Hi).
Qed.
End Bringup.

(** ** Examples *)

(** A TPM that accepts TPM2_Startup and answers everything else with success. *)
Definition sample_core : TpmCore := {|
  core := unit;
  ExecuteCommand n req cap buf s :=
    if n =? 12 then (10, RspOther startup_ok_rsp, s)
    else (12, RspOther [0x80; 0x01; 0; 0; 0; 12; 0; 0; 0; 0; 7; 7], s);
  TPM_Init s := s;
  TPM_Manufacture _ s := (0, s)
|}.

Definition sample_tpm (initialized : Z) (p : plat) : @pal_tpm sample_core :=
  @PalTpm sample_core initialized (tt : @core sample_core) p.

Lemma plat_init_wf : nv_wf plat_init.
Proof. by split; vm_compute. Qed.

Lemma nv_write_read_witness :
  exists s', plat_NvMemoryWrite plat_init 16380 4 (Some [1; 2; 3; 4]) = (1, s') /\
    plat_NvMemoryRead s' 16380 4 (Some (zeros 4)) = (1, Some [1; 2; 3; 4]).
Proof.
  destruct (nv_write_read plat_init 16380 4 [1; 2; 3; 4]) as [H _].
  - exact plat_init_wf.
  - by vm_compute.
  - by vm_compute.
  - lia.
  - reflexivity.
  - destruct H as (s' & E & _ & _ & E' & _); [vm_compute; congruence|]. exists s'. split; [exact E | exact E'].
Defined.

Lemma nv_out_of_range_witness :
  plat_NvMemoryWrite plat_init 16380 5 (Some [1; 2; 3; 4; 5]) = (0, plat_init).
Proof. apply (nv_out_of_range plat_init 16380 5 (Some [1; 2; 3; 4; 5])); by vm_compute. Defined.

Lemma tpm_up_after_success_witness :
  exists n r t', @pal_tpm_execute_command sample_core 22 (zeros 1024) 1024 (zeros 1024) (sample_tpm 0 plat_init)
    = (PAL_TPM_SUCCESS, n, r, t') /\ @pal_tpm_init sample_core t' = (PAL_TPM_SUCCESS, t').
Proof.
  do 3 eexists. split; [reflexivity|].
  destruct (@tpm_up_after_success sample_core 22 (zeros 1024) 1024 (zeros 1024) (sample_tpm 0 plat_init)
              12 (RspOther [0x80; 0x01; 0; 0; 0; 12; 0; 0; 0; 0; 7; 7])
              (sample_tpm 1 (set_ready plat_init 1))) as (_ & E & _).
  - reflexivity.
  - left. reflexivity.
  - exact E.
Defined.

(** What the getters give after [_plat__Fail], until [resetFailureData]. *)
Lemma failure_reported s func line loc code :
  let s' := plat_Fail s func line loc code in
  (plat_GetFailureCode s', plat_GetFailureLocation s', plat_GetFailureFunctionName s', plat_GetFailureLine s', plat_InFailureMode s')
    = (u32 code, loc, func, u32 line, 1) /\
  plat_InFailureMode (plat_internal_resetFailureData s') = 0.
Proof. done. Qed.
