(* ===== verification/TpmCrb.v ===== *)
(** * The TPM service over FF-A (val_tpm_crb_service.c)

    The TPM secure partition serves direct requests: a client asks for a
    locality, places a TPM command in the command/response buffer (CRB) of that
    locality and sends START; with a registered notification the work is put
    off until the client sends FINISH_NOTIFIED.  The static variables of the file
    are the record [svc]; the CRB window is byte memory; the TPM behind
    [pal_tpm_execute_command] and the partition manager are the parameters of
    [TpmPlatform] and [FfaAbi]. *)

From S2P Require Import Prelude ValCommon CMem Bytes FfaAbi TpmPlatform.

(** ** Constants (val_tpm_crb.h, val_tpm_crb_ffa.h) *)
Definition VAL_TPM_CRB_BASE : Z := 0x88f00000.
Definition VAL_TPM_CRB_LOCALITY_SIZE : Z := 0x1000.
Definition VAL_TPM_CRB_DATA_BUFFER_SIZE : Z := 0x400.
Definition TPM_LOC_CTRL_REQUEST_ACCESS : Z := 1.
Definition TPM_LOC_CTRL_RELINQUISH : Z := 2.
Definition TPM_LOC_CTRL_VALID_MASK : Z := 3.
Definition TPM_LOC_STS_GRANTED : Z := 1.
Definition TPM_CRB_CTRL_START : Z := 1.
Definition TPM_CMD_SIZE_OFFSET : Z := 2.
Definition TPM_RSP_RC_OFFSET : Z := 6.
Definition TPM_RSP_HEADER_SIZE : Z := 10.

Definition CRB_OK : Z := 0x05000001.
Definition CRB_OK_RESULTS_RETURNED : Z := 0x05000002.
Definition CRB_NOFUNC : Z := 0x8e000001.
Definition CRB_NOTSUP : Z := 0x8e000002.
Definition CRB_INVARG : Z := 0x8e000005.
Definition CRB_INV_CRB_CTRL_DATA : Z := 0x8e000006.
Definition CRB_ALREADY : Z := 0x8e000009.
Definition CRB_DENIED : Z := 0x8e00000a.
Definition CRB_SERVICE_VERSION : Z := Z.lor (Z.shiftl 1 16) 0.
Definition CRB_FUNCTION_ID_MASK : Z := 0xffff0000.
Definition CRB_FUNCTION_ID_BASE : Z := 0x0f000000.
Definition CRB_GET_INTERFACE_VERSION : Z := 0x0f000001.
Definition CRB_GET_FEATURE_INFO : Z := 0x0f000101.
Definition CRB_START : Z := 0x0f000201.
Definition CRB_REGISTER_NOTIFICATION : Z := 0x0f000301.
Definition CRB_UNREGISTER_NOTIFICATION : Z := 0x0f000401.
Definition CRB_FINISH_NOTIFIED : Z := 0x0f000501.
Definition CRB_FEATURE_NOTIFICATION : Z := 0xfea70000.
Definition CRB_START_TYPE_COMMAND : Z := 0.
Definition CRB_START_TYPE_LOCALITY_REQUEST : Z := 1.
Definition CRB_LOCALITY_MAX : Z := 4.
Definition CRB_NOTIFICATION_TYPE_GLOBAL : Z := 0.
Definition CRB_NOTIFICATION_TYPE_SHIFT : Z := 16.
Definition CRB_NOTIFICATION_ID_MASK : Z := 0xff.
Definition FFA_PARTITION_NOTIFICATION : Z := 0x8.
Definition FFA_NOTIFICATIONS_FLAG_DELAY_SRI : Z := 2.

(** ** Register addresses *)
Definition val_tpm_crb_locality_base (locality : Z) : Z :=
  u64 (VAL_TPM_CRB_BASE + u64 (locality * VAL_TPM_CRB_LOCALITY_SIZE)).
Definition val_tpm_crb_loc_ctrl (locality : Z) : Z := u64 (val_tpm_crb_locality_base locality + 0x008).
Definition val_tpm_crb_loc_sts (locality : Z) : Z := u64 (val_tpm_crb_locality_base locality + 0x00c).
Definition val_tpm_crb_ctrl_start (locality : Z) : Z := u64 (val_tpm_crb_locality_base locality + 0x04c).
Definition val_tpm_crb_data_buffer (locality : Z) : Z := u64 (val_tpm_crb_locality_base locality + 0x080).
Definition val_tpm_crb_read8 (m : mem) (addr : Z) : Z := Mmio.pal_mmio_read8 m addr.
Definition val_tpm_crb_read32 (m : mem) (addr : Z) : Z := Mmio.pal_mmio_read32 m addr.
Definition val_tpm_crb_write8 (m : mem) (addr v : Z) : mem := Mmio.pal_mmio_write8 m addr v.
Definition val_tpm_crb_write32 (m : mem) (addr v : Z) : mem := Mmio.pal_mmio_write32 m addr v.

(** Byte-wise copies between the window and an array. *)
Fixpoint val_tpm_copy_from_mmio (n : nat) (m : mem) (src : Z) : list Z :=
  match n with
  | O => []
  | S n' => val_tpm_crb_read8 m src :: val_tpm_copy_from_mmio n' m (src + 1)
  end.
Fixpoint val_tpm_copy_to_mmio (m : mem) (dst : Z) (src : list Z) : mem :=
  match src with
  | [] => m
  | b :: src' => val_tpm_copy_to_mmio (val_tpm_crb_write8 m dst b) (dst + 1) src'
  end.
(** [for (i = 0; i < size; i++) dst[i] = src[i];] *)
Definition val_tpm_copy (dst src : list Z) (size : Z) : list Z := splice dst 0 (slice src 0 size).

(** ** State *)

(** The notification variables. *)
Record notif := Notif {
  n_client : Z; n_service : Z; n_id : Z; n_registered : Z; n_outstanding : Z;
  n_loc_valid : Z; n_loc : Z; n_loc_ctrl : Z;
  n_cmd_valid : Z; n_cmd_loc : Z; n_cmd_size : Z; n_cmd : list Z
}.

Definition notif_zero : notif :=
  Notif 0 0 0 0 0 0 0 0 0 0 0 (zeros VAL_TPM_CRB_DATA_BUFFER_SIZE).

Definition set_outstanding (v : Z) (n : notif) : notif :=
  Notif (n_client n) (n_service n) (n_id n) (n_registered n) v (n_loc_valid n) (n_loc n) (n_loc_ctrl n)
    (n_cmd_valid n) (n_cmd_loc n) (n_cmd_size n) (n_cmd n).
Definition set_pending_loc (valid loc ctrl : Z) (n : notif) : notif :=
  Notif (n_client n) (n_service n) (n_id n) (n_registered n) (n_outstanding n) valid loc ctrl
    (n_cmd_valid n) (n_cmd_loc n) (n_cmd_size n) (n_cmd n).
Definition set_pending_cmd (valid loc size : Z) (cmd : list Z) (n : notif) : notif :=
  Notif (n_client n) (n_service n) (n_id n) (n_registered n) (n_outstanding n) (n_loc_valid n) (n_loc n)
    (n_loc_ctrl n) valid loc size cmd.
Definition set_registration (client service id : Z) (n : notif) : notif :=
  Notif client service id 1 0 (n_loc_valid n) (n_loc n) (n_loc_ctrl n)
    (n_cmd_valid n) (n_cmd_loc n) (n_cmd_size n) (n_cmd n).

Section Service.
Context `{TpmCore} {W : Type} (conduit : ffa_args -> W -> ffa_args * W).

(** [ep_info[TPM_SP].ep_properties]; [None] when the table pointer is null. *)
Context (tpm_sp_properties : option Z).
(** [PLATFORM_NS_HYPERVISOR_PRESENT] or [TARGET_LINUX]: build options. *)
Context (hypervisor_or_linux : bool).

Record svc := Svc {
  crb : mem; g_tpm_cmd : list Z; g_tpm_rsp : list Z; g_tpm_active_locality : Z;
  ntf : notif; tpm : pal_tpm; world : W
}.

Definition set_crb (m : mem) (s : svc) : svc :=
  Svc m (g_tpm_cmd s) (g_tpm_rsp s) (g_tpm_active_locality s) (ntf s) (tpm s) (world s).
Definition set_active (l : Z) (s : svc) : svc :=
  Svc (crb s) (g_tpm_cmd s) (g_tpm_rsp s) l (ntf s) (tpm s) (world s).
Definition set_ntf (f : notif -> notif) (s : svc) : svc :=
  Svc (crb s) (g_tpm_cmd s) (g_tpm_rsp s) (g_tpm_active_locality s) (f (ntf s)) (tpm s) (world s).
Definition set_cmd (c : list Z) (s : svc) : svc :=
  Svc (crb s) c (g_tpm_rsp s) (g_tpm_active_locality s) (ntf s) (tpm s) (world s).
Definition set_rsp_tpm (r : list Z) (t : pal_tpm) (s : svc) : svc :=
  Svc (crb s) (g_tpm_cmd s) r (g_tpm_active_locality s) (ntf s) t (world s).
Definition set_world (w : W) (s : svc) : svc :=
  Svc (crb s) (g_tpm_cmd s) (g_tpm_rsp s) (g_tpm_active_locality s) (ntf s) (tpm s) w.

Definition ffa {A} (c : cmd W A) : cmd svc A := zoom world set_world c.

Definition val_tpm_notif_supported : Z :=
  match tpm_sp_properties with
  | None => 0
  | Some p => if Z.land p FFA_PARTITION_NOTIFICATION =? 0 then 0 else 1
  end.

(** ** Executing a command

    [own] says whether [cmd] is [g_tpm_cmd] itself.  The second component is
    what the function stores through [rsp_size_out] and [rc_out]. *)
Definition val_tpm_execute_command_buffer (own : bool) (cmd : list Z) (cmd_size : Z) (s : svc)
    : Z * option (Z * Z) * svc :=
  if VAL_TPM_CRB_DATA_BUFFER_SIZE <? cmd_size then (CRB_INV_CRB_CTRL_DATA, None, s)
  else
    let s := if own then s
             else set_cmd (val_tpm_copy (zeros VAL_TPM_CRB_DATA_BUFFER_SIZE) cmd cmd_size) s in
    let rsp := zeros VAL_TPM_CRB_DATA_BUFFER_SIZE in
    let '(status, rsp_size, r, t) :=
      pal_tpm_execute_command cmd_size (g_tpm_cmd s) VAL_TPM_CRB_DATA_BUFFER_SIZE rsp (tpm s) in
    let s := set_rsp_tpm (match r with RspSame b => b | _ => rsp end) t s in
    match r with
    | RspNull => (CRB_INV_CRB_CTRL_DATA, None, s)
    | RspSame _ | RspOther _ =>
        if negb (status =? PAL_TPM_SUCCESS) || (VAL_TPM_CRB_DATA_BUFFER_SIZE <? rsp_size)
        then (CRB_INV_CRB_CTRL_DATA, None, s)
        else
          let s := match r with
                   | RspOther b => set_rsp_tpm (val_tpm_copy (g_tpm_rsp s) b rsp_size) t s
                   | _ => s
                   end in
          let rc := if TPM_RSP_HEADER_SIZE <=? rsp_size
                    then val_tpm_be32_read (g_tpm_rsp s) TPM_RSP_RC_OFFSET else CRB_INV_CRB_CTRL_DATA in
          (CRB_OK, Some (rsp_size, rc), s)
    end.

Definition sts_granted (s : svc) (locality : Z) : bool :=
  negb (Z.land (val_tpm_crb_read32 (crb s) (val_tpm_crb_loc_sts locality)) TPM_LOC_STS_GRANTED =? 0).
Definition start_set (s : svc) (locality : Z) : bool :=
  negb (Z.land (val_tpm_crb_read32 (crb s) (val_tpm_crb_ctrl_start locality)) TPM_CRB_CTRL_START =? 0).

Definition val_tpm_crb_command_notify_eligible (s : svc) (locality : Z) : Z :=
  if negb (g_tpm_active_locality s =? locality) || negb (sts_granted s locality) || negb (start_set s locality)
  then 0 else 1.

(** ** Localities *)
Definition val_tpm_crb_apply_locality_request (locality ctrl : Z) (s : svc) : Z * svc :=
  let loc_sts := val_tpm_crb_loc_sts locality in
  let ctrl_bits := Z.land ctrl TPM_LOC_CTRL_VALID_MASK in
  if ctrl_bits =? 0 then
    (CRB_OK, set_crb (val_tpm_crb_write32 (crb s) loc_sts
               (if g_tpm_active_locality s =? locality then TPM_LOC_STS_GRANTED else 0)) s)
  else if negb (Z.land ctrl_bits TPM_LOC_CTRL_REQUEST_ACCESS =? 0) then
    if (CRB_LOCALITY_MAX <? g_tpm_active_locality s) || (g_tpm_active_locality s =? locality) then
      let s := set_active locality s in
      (CRB_OK, set_crb (val_tpm_crb_write32 (crb s) loc_sts TPM_LOC_STS_GRANTED) s)
    else (CRB_OK, set_crb (val_tpm_crb_write32 (crb s) loc_sts 0) s)
  else if g_tpm_active_locality s =? locality then
    let s := set_crb (val_tpm_crb_write32 (crb s) loc_sts 0) s in
    (CRB_OK, set_active (CRB_LOCALITY_MAX + 1) s)
  else (CRB_OK, set_crb (val_tpm_crb_write32 (crb s) loc_sts 0) s).

Definition val_tpm_crb_start_locality_request (locality : Z) (s : svc) : Z * svc :=
  let loc_ctrl := val_tpm_crb_loc_ctrl locality in
  let ctrl := val_tpm_crb_read32 (crb s) loc_ctrl in
  let s := set_crb (val_tpm_crb_write32 (crb s) loc_ctrl 0) s in
  val_tpm_crb_apply_locality_request locality ctrl s.

Definition val_tpm_clear_notification_registration (s : svc) : svc := set_ntf (fun _ => notif_zero) s.

(** ** Signalling the client

    [1ULL << id] is undefined for an id of 64 or more. *)
Definition val_tpm_signal_notification (client service : Z) : cmd svc Z :=
  s ← gets id;
  let n := ntf s in
  if (val_tpm_notif_supported =? 0) || (n_registered n =? 0) || negb (n_outstanding n =? 0)
     || negb (n_client n =? client) || negb (n_service n =? service)
  then mret 0
  else if 64 <=? n_id n then (fun _ => Fault)
  else
    let bitmap := u64 (Z.shiftl 1 (n_id n)) in
    let arg2 := Z.lor CRB_NOTIFICATION_TYPE_GLOBAL
                  (if hypervisor_or_linux then 0 else FFA_NOTIFICATIONS_FLAG_DELAY_SRI) in
    notification ← ffa (val_ffa_notification_set conduit
      (FfaArgs 0 (Z.lor (u32 (Z.shiftl service 16)) client) arg2 (u32 (Z.land bitmap 0xffffffff))
         (u32 (Z.shiftr bitmap 32)) 0 0 0 0 0 0 0 0 0 0 0 0 0));
    if negb (fid notification =? FFA_ERROR_32) then
      _ ← modify (set_ntf (set_outstanding 1)); mret 1
    else mret 0.

(** ** START(COMMAND) *)

(** The response, written back with CTRL_START cleared. *)
Definition write_response (locality : Z) (out : option (Z * Z)) (s : svc) : svc :=
  let size := match out with Some (n, _) => n | None => 0 end in
  let m := val_tpm_copy_to_mmio (crb s) (val_tpm_crb_data_buffer locality) (slice (g_tpm_rsp s) 0 size) in
  set_crb (val_tpm_crb_write32 m (val_tpm_crb_ctrl_start locality) 0) s.

Definition val_tpm_crb_start_command (locality : Z) (s : svc) : Z * option (Z * Z) * svc :=
  if negb (g_tpm_active_locality s =? locality) || negb (sts_granted s locality) then (CRB_OK, None, s)
  else if negb (start_set s locality) then (CRB_OK, None, s)
  else
    let s := set_cmd (val_tpm_copy_from_mmio (Z.to_nat VAL_TPM_CRB_DATA_BUFFER_SIZE) (crb s)
                        (val_tpm_crb_data_buffer locality)) s in
    let cmd_size := val_tpm_be32_read (g_tpm_cmd s) TPM_CMD_SIZE_OFFSET in
    let '(status, out, s) := val_tpm_execute_command_buffer true (g_tpm_cmd s) cmd_size s in
    if status =? CRB_OK then (status, out, write_response locality out s) else (status, out, s).

Definition val_tpm_crb_complete_pending_command (locality cmd_size : Z) (s : svc) : Z * option (Z * Z) * svc :=
  let '(status, out, s) := val_tpm_execute_command_buffer false (n_cmd (ntf s)) cmd_size s in
  if status =? CRB_OK then (status, out, write_response locality out s) else (status, out, s).

(** ** Dispatch *)

Definition val_tpm_crb_service_is_request (payload : ffa_args) : Z :=
  let service_func := u32 (arg4 payload) in
  if ((fid payload =? FFA_MSG_SEND_DIRECT_REQ_64) || (fid payload =? FFA_MSG_SEND_DIRECT_REQ_32))
     && (Z.land service_func CRB_FUNCTION_ID_MASK =? CRB_FUNCTION_ID_BASE)
  then 1 else 0.

(** What a branch yields: status, value, rc. *)
Abbreviation reply := (Z * Z * Z)%type.

Definition with_out (r : Z * option (Z * Z) * svc) : cmd svc reply :=
  match r with
  | (status, Some (value, rc), s) => retst (status, value, rc) s
  | (status, None, s) => retst (status, 0, 0) s
  end.

Definition handle_feature (payload : ffa_args) : Z :=
  if u32 (arg5 payload) =? CRB_FEATURE_NOTIFICATION then
    if negb (val_tpm_notif_supported =? 0) then CRB_OK else CRB_NOTSUP
  else CRB_INVARG.

(** The client's notification is registered and idle. *)
Definition can_defer (s : svc) (sender receiver : Z) : bool :=
  negb (n_registered (ntf s) =? 0) && (n_client (ntf s) =? sender) && (n_service (ntf s) =? receiver)
  && (n_outstanding (ntf s) =? 0).

Definition handle_start_locality (sender receiver locality : Z) : cmd svc reply :=
  s ← gets id;
  if can_defer s sender receiver then
    let ctrl := val_tpm_crb_read32 (crb s) (val_tpm_crb_loc_ctrl locality) in
    _ ← modify (fun s => set_ntf (set_pending_loc 1 locality ctrl)
                           (set_crb (val_tpm_crb_write32 (crb s) (val_tpm_crb_loc_ctrl locality) 0) s));
    signalled ← val_tpm_signal_notification sender receiver;
    if negb (signalled =? 0) then mret (CRB_OK, 0, 0)
    else
      s ← gets id;
      let s := set_ntf (set_pending_loc 0 (n_loc (ntf s)) (n_loc_ctrl (ntf s))) s in
      let '(status, s) := val_tpm_crb_apply_locality_request locality (n_loc_ctrl (ntf s)) s in
      retst (status, 0, 0) (set_ntf (set_pending_loc 0 (n_loc (ntf s)) 0) s)
  else
    let '(status, s) := val_tpm_crb_start_locality_request locality s in
    retst (status, 0, 0) s.

Definition handle_start_command (sender receiver locality : Z) : cmd svc reply :=
  s ← gets id;
  if can_defer s sender receiver && negb (val_tpm_crb_command_notify_eligible s locality =? 0) then
    let cmd := val_tpm_copy_from_mmio (Z.to_nat VAL_TPM_CRB_DATA_BUFFER_SIZE) (crb s)
                 (val_tpm_crb_data_buffer locality) in
    _ ← modify (set_ntf (set_pending_cmd 1 locality (val_tpm_be32_read cmd TPM_CMD_SIZE_OFFSET) cmd));
    signalled ← val_tpm_signal_notification sender receiver;
    if negb (signalled =? 0) then mret (CRB_OK, 0, 0)
    else
      s ← gets id;
      let s := set_ntf (set_pending_cmd 0 locality 0 (zeros VAL_TPM_CRB_DATA_BUFFER_SIZE)) s in
      with_out (val_tpm_crb_start_command locality s)
  else with_out (val_tpm_crb_start_command locality s).

Definition handle_start (sender receiver : Z) (payload : ffa_args) : cmd svc reply :=
  if (0xff <? arg5 payload) || (CRB_LOCALITY_MAX <? arg6 payload) then mret (CRB_INVARG, 0, 0)
  else if u32 (arg5 payload) =? CRB_START_TYPE_LOCALITY_REQUEST then
    handle_start_locality sender receiver (u32 (arg6 payload))
  else if u32 (arg5 payload) =? CRB_START_TYPE_COMMAND then
    handle_start_command sender receiver (u32 (arg6 payload))
  else mret (CRB_INVARG, 0, 0).

Definition handle_register (sender receiver : Z) (payload : ffa_args) : cmd svc reply :=
  s ← gets id;
  if (0x1ffff <? arg5 payload) || (CRB_NOTIFICATION_ID_MASK <? arg6 payload)
     || negb (Z.shiftr (u32 (arg5 payload)) CRB_NOTIFICATION_TYPE_SHIFT =? CRB_NOTIFICATION_TYPE_GLOBAL)
     || negb (Z.land (u32 (arg5 payload)) 0xffff =? 0)
  then mret (CRB_INVARG, 0, 0)
  else if val_tpm_notif_supported =? 0 then mret (CRB_NOTSUP, 0, 0)
  else if negb (n_registered (ntf s) =? 0) then mret (CRB_ALREADY, 0, 0)
  else
    _ ← modify (set_ntf (set_registration sender receiver (u32 (arg6 payload))));
    mret (CRB_OK, 0, 0).

Definition handle_unregister (sender : Z) : cmd svc reply :=
  s ← gets id;
  if val_tpm_notif_supported =? 0 then mret (CRB_NOTSUP, 0, 0)
  else if (n_registered (ntf s) =? 0) || negb (n_client (ntf s) =? sender) then mret (CRB_DENIED, 0, 0)
  else if negb (n_outstanding (ntf s) =? 0) then mret (CRB_DENIED, 0, 0)
  else
    _ ← modify val_tpm_clear_notification_registration;
    mret (CRB_OK, 0, 0).

Definition handle_finish (sender : Z) : cmd svc reply :=
  s ← gets id;
  let n := ntf s in
  if val_tpm_notif_supported =? 0 then mret (CRB_NOTSUP, 0, 0)
  else if (n_registered n =? 0) || negb (n_client n =? sender) || (n_outstanding n =? 0)
  then mret (CRB_DENIED, 0, 0)
  else
    reply ← (if negb (n_loc_valid n =? 0) then
               let '(status, s) := val_tpm_crb_apply_locality_request (n_loc n) (n_loc_ctrl n) s in
               retst (status, 0, 0) (set_ntf (set_pending_loc 0 0 0) s)
             else if negb (n_cmd_valid n =? 0) then
               let '(status, out, s) := val_tpm_crb_complete_pending_command (n_cmd_loc n) (n_cmd_size n) s in
               with_out (status, out,
                   set_ntf (set_pending_cmd 0 0 0 (zeros VAL_TPM_CRB_DATA_BUFFER_SIZE)) s)
             else mret (CRB_OK, 0, 0));
    _ ← modify (set_ntf (set_outstanding 0));
    mret reply.

Definition dispatch (sender receiver : Z) (payload : ffa_args) : cmd svc reply :=
  let service_func := u32 (arg4 payload) in
  if service_func =? CRB_GET_INTERFACE_VERSION then mret (CRB_OK_RESULTS_RETURNED, CRB_SERVICE_VERSION, 0)
  else if service_func =? CRB_GET_FEATURE_INFO then mret (handle_feature payload, 0, 0)
  else if service_func =? CRB_START then handle_start sender receiver payload
  else if service_func =? CRB_REGISTER_NOTIFICATION then handle_register sender receiver payload
  else if service_func =? CRB_UNREGISTER_NOTIFICATION then handle_unregister sender
  else if service_func =? CRB_FINISH_NOTIFIED then handle_finish sender
  else mret (CRB_NOFUNC, 0, 0).

(** The direct response; its reply is the next message for the partition. *)
Definition val_tpm_crb_service_handle_request (payload : ffa_args) : cmd svc ffa_args :=
  let sender := u16 (Z.land (Z.shiftr (arg1 payload) 16) 0xffff) in
  let receiver := u16 (Z.land (arg1 payload) 0xffff) in
  '(status, value, rc) ← dispatch sender receiver payload;
  let resp := FfaArgs 0 (Z.lor (u32 (Z.shiftl receiver 16)) sender) 0 0 status value rc 0 0 0 0 0 0 0 0 0 0 0 in
  if fid payload =? FFA_MSG_SEND_DIRECT_REQ_64 then ffa (val_ffa_msg_send_direct_resp_64 conduit resp)
  else ffa (val_ffa_msg_send_direct_resp_32 conduit resp).

End Service.
