(* ===== verification/TpmCrbProof.v ===== *)
(** * The TPM service keeps its promises

    The service answers every request, never holds two localities at once, keeps
    the notification variables consistent, and runs a put-off command as it would
    have run at once. *)

From S2P Require Import Prelude ValCommon CMem Bytes FfaAbi TpmPlatform TpmCrb.

(** ** The CRB window *)

Definition valid_loc (l : Z) : Prop := 0 <= l <= CRB_LOCALITY_MAX.

Lemma locality_base_eq l : valid_loc l -> val_tpm_crb_locality_base l = 0x88f00000 + l * 0x1000.
Proof.
  unfold valid_loc, CRB_LOCALITY_MAX, val_tpm_crb_locality_base, VAL_TPM_CRB_BASE, VAL_TPM_CRB_LOCALITY_SIZE.
  intros. usmall. lia.
Qed.

Lemma crb_addrs l : valid_loc l ->
  val_tpm_crb_loc_ctrl l = 0x88f00008 + l * 0x1000 /\ val_tpm_crb_loc_sts l = 0x88f0000c + l * 0x1000 /\
  val_tpm_crb_ctrl_start l = 0x88f0004c + l * 0x1000 /\ val_tpm_crb_data_buffer l = 0x88f00080 + l * 0x1000.
Proof.
  intros Hl. unfold val_tpm_crb_loc_ctrl, val_tpm_crb_loc_sts, val_tpm_crb_ctrl_start, val_tpm_crb_data_buffer.
  rewrite locality_base_eq by done. unfold valid_loc, CRB_LOCALITY_MAX in Hl.
  usmall. lia.
Qed.

(** Turning the addresses of two localities into numbers. *)
Ltac crb_numbers l :=
  match goal with
  | H : valid_loc l |- _ =>
      let E := fresh "E" in
      pose proof (crb_addrs l H) as (?E & ?E & ?E & ?E); unfold valid_loc, CRB_LOCALITY_MAX in H
  end.

Lemma copy_to_mmio_frame src m dst : frame dst (zlen src) m (val_tpm_copy_to_mmio m dst src).
Proof.
  unfold zlen. revert m dst; induction src as [|b src IH]; intros m dst; [apply frame_refl|].
  cbn [val_tpm_copy_to_mmio length]. eapply frame_trans.
  - eapply (frame_widen dst 1); [apply (frame_stn 1)|lia|lia].
  - eapply frame_widen; [apply IH|lia|lia].
Qed.

Lemma copy_to_mmio_read src m dst i :
  is_bytes src -> 0 <= i < zlen src -> ld8 (val_tpm_copy_to_mmio m dst src) (dst + i) = byte_at src i.
Proof.
  unfold is_bytes, zlen. intros Hb. revert m dst i; induction Hb as [|b src Hx Hb IH]; intros m dst i Hi; [simpl in Hi; lia|].
  cbn [val_tpm_copy_to_mmio length] in *. destruct (decide (i = 0)) as [->|].
  - rewrite copy_to_mmio_frame by lia. rewrite Z.add_0_r. unfold val_tpm_crb_write8, Mmio.pal_mmio_write8.
    cbn [stn]. rewrite ld8_st8_eq. apply uwrap_small, Hx.
  - replace (dst + i) with (dst + 1 + (i - 1)) by lia. rewrite IH by lia.
    unfold byte_at. replace (Z.to_nat i) with (S (Z.to_nat (i - 1))) by lia. done.
Qed.

Lemma is_bytes_zeros n : is_bytes (zeros n).
Proof. unfold zeros, is_bytes. induction (Z.to_nat n); cbn; constructor; auto. unfold is_uint. lia. Qed.

Lemma zlen_copy_from n m src : zlen (val_tpm_copy_from_mmio n m src) = Z.of_nat n.
Proof.
  unfold zlen. f_equal. revert src; induction n as [|n IH]; intros src; [done|]. simpl. by rewrite IH.
Qed.

Lemma byte_at_copy_from n m src i : 0 <= i < Z.of_nat n -> byte_at (val_tpm_copy_from_mmio n m src) i = ld8 m (src + i).
Proof.
  revert src i. induction n as [|n IH]; intros src i Hi; [lia|]. cbn [val_tpm_copy_from_mmio].
  destruct (decide (i = 0)) as [->|]; [change (ld8 m src + 256 * 0 = ld8 m (src + 0)); rewrite !Z.add_0_r; lia|].
  specialize (IH (src + 1) (i - 1) ltac:(lia)). replace (src + 1 + (i - 1)) with (src + i) in IH by lia. rewrite <- IH.
  unfold byte_at. by replace (Z.to_nat i) with (S (Z.to_nat (i - 1))) by lia.
Qed.

Lemma zlen_slice_le l off n : zlen (slice l off n) <= Z.max 0 n.
Proof. unfold zlen, slice. rewrite length_take. lia. Qed.

Section Proofs.
Context `{TpmCore} {W : Type} (conduit : ffa_args -> W -> ffa_args * W).
Context (props : option Z) (hyp : bool).

Abbreviation tstate := (@svc H W).
Abbreviation handle := (val_tpm_crb_service_handle_request conduit props hyp).
Abbreviation supported := (val_tpm_notif_supported props).

(** ** Invariant *)

Record notif_ok (n : notif) : Prop := {
  no_reg : n_registered n = 0 \/ n_registered n = 1;
  no_out : n_outstanding n <> 0 -> n_registered n = 1;
  no_loc : n_loc_valid n <> 0 -> n_outstanding n <> 0 /\ valid_loc (n_loc n);
  no_cmd : n_cmd_valid n <> 0 -> n_outstanding n <> 0 /\ valid_loc (n_cmd_loc n);
  no_one : n_loc_valid n = 0 \/ n_cmd_valid n = 0;
  no_id : 0 <= n_id n < 64
}.

Record svc_inv (s : tstate) : Prop := {
  si_active : 0 <= g_tpm_active_locality s <= CRB_LOCALITY_MAX + 1;
  si_granted : forall l, valid_loc l -> sts_granted s l = true -> g_tpm_active_locality s = l;
  si_notif : notif_ok (ntf s)
}.

(** The status registers after a write elsewhere. *)
Lemma sts_granted_frame (s : tstate) m a n l :
  valid_loc l -> frame a n (crb s) m ->
  a + n <= val_tpm_crb_loc_sts l \/ val_tpm_crb_loc_sts l + 4 <= a ->
  sts_granted (set_crb m s) l = sts_granted s l.
Proof.
  intros Hl HF Ha. unfold sts_granted, val_tpm_crb_read32, Mmio.pal_mmio_read32. cbn [crb set_crb].
  rewrite (frame_ldn a n (crb s) m 4) by (done || lia). done.
Qed.

Lemma sts_granted_write (s : tstate) l l' v :
  valid_loc l -> valid_loc l' -> v = 0 \/ v = TPM_LOC_STS_GRANTED ->
  sts_granted (set_crb (val_tpm_crb_write32 (crb s) (val_tpm_crb_loc_sts l) v) s) l' =
  if decide (l = l') then bool_decide (v = TPM_LOC_STS_GRANTED) else sts_granted s l'.
Proof.
  intros Hl Hl' Hv. destruct (decide (l = l')) as [<-|Hne].
  - unfold sts_granted, val_tpm_crb_read32, val_tpm_crb_write32, Mmio.pal_mmio_read32, Mmio.pal_mmio_write32.
    cbn [crb set_crb]. unfold TPM_LOC_STS_GRANTED in *. rewrite ldn_stn_same_small by (destruct Hv as [-> | ->]; lia).
    by destruct Hv as [-> | ->].
  - eapply sts_granted_frame; [done | apply (frame_stn 4) |]. crb_numbers l. crb_numbers l'. lia.
Qed.

(** ** Localities *)

Lemma set_crb_sts_inv (s : tstate) l v a :
  svc_inv s -> valid_loc l -> v = 0 \/ v = TPM_LOC_STS_GRANTED ->
  (v = TPM_LOC_STS_GRANTED -> a = l) -> 0 <= a <= CRB_LOCALITY_MAX + 1 ->
  (a = g_tpm_active_locality s \/ g_tpm_active_locality s = l \/ CRB_LOCALITY_MAX < g_tpm_active_locality s) ->
  svc_inv (set_active a (set_crb (val_tpm_crb_write32 (crb s) (val_tpm_crb_loc_sts l) v) s)).
Proof.
  intros [Ha Hg Hn] Hl Hv Hva Hab Hor. constructor; [done| |done]. intros l' Hl' Hg'.
  cbn [g_tpm_active_locality set_active].
  change (sts_granted (set_active a (set_crb (val_tpm_crb_write32 (crb s) (val_tpm_crb_loc_sts l) v) s)) l')
    with (sts_granted (set_crb (val_tpm_crb_write32 (crb s) (val_tpm_crb_loc_sts l) v) s) l') in Hg'.
  rewrite sts_granted_write in Hg' by done. destruct (decide (l = l')) as [<-|Hne].
  - apply bool_decide_eq_true in Hg'. auto.
  - specialize (Hg l' Hl' Hg'). unfold valid_loc, CRB_LOCALITY_MAX in *. lia.
Qed.

Lemma apply_locality_inv (s : tstate) l ctrl :
  svc_inv s -> valid_loc l ->
  exists s', val_tpm_crb_apply_locality_request l ctrl s = (CRB_OK, s') /\ svc_inv s' /\ ntf s' = ntf s.
Proof.
  intros Hs Hl. pose proof Hs as [Ha Hg Hn]. unfold val_tpm_crb_apply_locality_request.
  assert (Hw : forall v a, v = 0 \/ v = TPM_LOC_STS_GRANTED -> (v = TPM_LOC_STS_GRANTED -> a = l) ->
     0 <= a <= CRB_LOCALITY_MAX + 1 ->
     (a = g_tpm_active_locality s \/ g_tpm_active_locality s = l \/ CRB_LOCALITY_MAX < g_tpm_active_locality s) ->
     svc_inv (set_active a (set_crb (val_tpm_crb_write32 (crb s) (val_tpm_crb_loc_sts l) v) s))).
  { intros v a ????. by apply set_crb_sts_inv. }
  assert (Hself : forall m, set_crb m s = set_active (g_tpm_active_locality s) (set_crb m s)) by (by intros; destruct s).
  unfold valid_loc, CRB_LOCALITY_MAX in *.
  destruct (Z.land ctrl TPM_LOC_CTRL_VALID_MASK =? 0).
  { eexists. split; [reflexivity|]. split; [|done]. rewrite Hself. apply Hw; auto.
    - destruct (_ =? l); auto.
    - destruct (Z.eqb_spec (g_tpm_active_locality s) l); [done | discriminate]. }
  destruct (negb _).
  - destruct ((4 <? g_tpm_active_locality s) || (g_tpm_active_locality s =? l)) eqn:Hfree.
    + eexists. split; [reflexivity|]. split; [|done]. apply (Hw TPM_LOC_STS_GRANTED l); auto; [lia|].
      apply orb_true_iff in Hfree as [?%Z.ltb_lt|?%Z.eqb_eq]; auto.
    + eexists. split; [reflexivity|]. split; [|done]. rewrite Hself. apply Hw; auto. discriminate.
  - destruct (Z.eqb_spec (g_tpm_active_locality s) l).
    + eexists. split; [reflexivity|]. split; [|done]. apply (Hw 0 (CRB_LOCALITY_MAX + 1)); auto; [discriminate|].
      unfold CRB_LOCALITY_MAX. lia.
    + eexists. split; [reflexivity|]. split; [|done]. rewrite Hself. apply Hw; auto. discriminate.
Qed.

(** ** Commands *)

(** Executing a command touches neither the window nor the bookkeeping. *)
Lemma execute_keeps own c n (s : tstate) :
  let '(_, _, s') := val_tpm_execute_command_buffer own c n s in
  crb s' = crb s /\ g_tpm_active_locality s' = g_tpm_active_locality s /\ ntf s' = ntf s /\ world s' = world s.
Proof.
  unfold val_tpm_execute_command_buffer. destruct (_ <? n); [done|].
  set (s0 := if own then s else _).
  assert (H0 : crb s0 = crb s /\ g_tpm_active_locality s0 = g_tpm_active_locality s /\ ntf s0 = ntf s /\ world s0 = world s)
    by (unfold s0; by destruct own).
  destruct (pal_tpm_execute_command _ _ _ _ _) as [[[st rsz] r] t].
  destruct r; [exact H0|..]; (destruct (negb _ || _); exact H0).
Qed.

Lemma execute_size own c n (s : tstate) st k rc s' :
  val_tpm_execute_command_buffer own c n s = (st, Some (k, rc), s') -> k <= VAL_TPM_CRB_DATA_BUFFER_SIZE.
Proof.
  unfold val_tpm_execute_command_buffer. destruct (_ <? n); [done|].
  destruct (pal_tpm_execute_command _ _ _ _ _) as [[[st0 rsz] r] t].
  destruct r; [done|..]; (destruct (negb _ || (_ <? rsz)) eqn:E; [done|]; intros [= <- <- <-];
    apply orb_false_iff in E as [_ E%Z.ltb_ge]; exact E).
Qed.

(** Writing a response changes only the data buffer and CTRL_START of a locality. *)
Lemma write_response_inv l out (s : tstate) :
  svc_inv s -> valid_loc l -> (forall k rc, out = Some (k, rc) -> k <= VAL_TPM_CRB_DATA_BUFFER_SIZE) ->
  svc_inv (write_response l out s) /\ ntf (write_response l out s) = ntf s.
Proof.
  intros [Ha Hg Hn] Hl Hout. split; [|done]. unfold write_response.
  set (sz := match out with Some (n, _) => n | None => 0 end).
  assert (Hsz : sz <= 1024) by (unfold sz; destruct out as [[k rc]|]; [by apply (Hout k rc)|lia]).
  pose proof (zlen_slice_le (g_tpm_rsp s) 0 sz) as Hz.
  constructor; [done| |done]. intros l' Hl' Hg'. apply Hg; [done|]. rewrite <- Hg'. symmetry.
  set (m1 := val_tpm_copy_to_mmio _ _ _).
  eapply (sts_granted_frame s _ (val_tpm_crb_ctrl_start l) (0x34 + 1024)); [done| |].
  - eapply (frame_trans _ _ _ m1).
    + eapply frame_widen; [apply copy_to_mmio_frame|..]; crb_numbers l; lia.
    + eapply frame_widen; [apply (frame_stn 4)|lia|lia].
  - crb_numbers l. crb_numbers l'. lia.
Qed.

Lemma svc_inv_same (s s' : tstate) :
  svc_inv s -> crb s' = crb s -> g_tpm_active_locality s' = g_tpm_active_locality s -> ntf s' = ntf s -> svc_inv s'.
Proof.
  intros [Ha Hg Hn] E1 E2 E3. constructor; rewrite ?E2, ?E3; auto.
  intros l Hl. unfold sts_granted. rewrite E1. by apply Hg.
Qed.

Lemma start_command_inv l (s : tstate) :
  svc_inv s -> valid_loc l ->
  let '(_, _, s') := val_tpm_crb_start_command l s in svc_inv s' /\ ntf s' = ntf s.
Proof.
  intros Hs Hl. unfold val_tpm_crb_start_command. destruct (negb _ || negb _); [done|].
  destruct (negb (start_set s l)); [done|]. set (s1 := set_cmd _ s).
  pose proof (execute_keeps true (g_tpm_cmd s1) (val_tpm_be32_read (g_tpm_cmd s1) TPM_CMD_SIZE_OFFSET) s1) as HK.
  pose proof (execute_size true (g_tpm_cmd s1) (val_tpm_be32_read (g_tpm_cmd s1) TPM_CMD_SIZE_OFFSET) s1) as HS.
  destruct (val_tpm_execute_command_buffer _ _ _ _) as [[st out] s2]. destruct HK as (K1 & K2 & K3 & _).
  assert (Hs2 : svc_inv s2) by (by apply (svc_inv_same s)).
  destruct (st =? CRB_OK); [|done].
  destruct (write_response_inv l out s2 Hs2 Hl) as [? E]; [intros k rc ->; by eapply HS|].
  split; [done|]. by rewrite E, K3.
Qed.

(** Running a command leaves the notification variables alone. *)
Lemma start_command_ntf l (s : tstate) : ntf (val_tpm_crb_start_command l s).2 = ntf s.
Proof.
  unfold val_tpm_crb_start_command. destruct (negb _ || negb _); [done|]. destruct (negb (start_set s l)); [done|].
  set (s1 := set_cmd _ s).
  pose proof (execute_keeps true (g_tpm_cmd s1) (val_tpm_be32_read (g_tpm_cmd s1) TPM_CMD_SIZE_OFFSET) s1) as HK.
  destruct (val_tpm_execute_command_buffer _ _ _ _) as [[st out] s2]. destruct HK as (_ & _ & K3 & _).
  by destruct (st =? CRB_OK).
Qed.

Lemma complete_pending_inv l n (s : tstate) :
  svc_inv s -> valid_loc l ->
  let '(_, _, s') := val_tpm_crb_complete_pending_command l n s in svc_inv s' /\ ntf s' = ntf s.
Proof.
  intros Hs Hl. unfold val_tpm_crb_complete_pending_command.
  pose proof (execute_keeps false (n_cmd (ntf s)) n s) as HK. pose proof (execute_size false (n_cmd (ntf s)) n s) as HS.
  destruct (val_tpm_execute_command_buffer _ _ _ _) as [[st out] s2]. destruct HK as (K1 & K2 & K3 & _).
  assert (Hs2 : svc_inv s2) by (by apply (svc_inv_same s)).
  destruct (st =? CRB_OK); [|done].
  destruct (write_response_inv l out s2 Hs2 Hl) as [? E]; [intros k rc ->; by eapply HS|].
  split; [done|]. by rewrite E, K3.
Qed.

(** ** Notifications *)

Lemma set_ntf_inv f (s : tstate) : svc_inv s -> notif_ok (f (ntf s)) -> svc_inv (set_ntf f s).
Proof. intros [Ha Hg Hn] Hf. by constructor. Qed.

Lemma set_world_inv w (s : tstate) : svc_inv s -> svc_inv (set_world w s).
Proof. intros Hs. by apply (svc_inv_same s). Qed.

(** Signalling returns; it only sets [outstanding], and only when it succeeds. *)
Lemma signal_returns c v (s : tstate) :
  0 <= n_id (ntf s) < 64 ->
  exists r w, (r = 0 \/ r = 1) /\
    val_tpm_signal_notification conduit props hyp c v s =
    Ret (r, set_world w (if r =? 0 then s else set_ntf (set_outstanding 1) s)) /\
    (r = 1 -> n_registered (ntf s) <> 0).
Proof.
  intros Hid. unfold val_tpm_signal_notification, mbind, cmd_bind, gets, id. cbn beta iota.
  destruct (_ || _ || _ || _ || _) eqn:E.
  - exists 0, (world s). split; [by left|]. split; [by destruct s | discriminate].
  - replace (64 <=? n_id (ntf s)) with false by lia. unfold ffa, zoom, val_ffa_notification_set, smccc_w32, ffa_smccc.
    destruct (conduit _ _) as [reply w]. destruct (negb (fid reply =? FFA_ERROR_32)).
    + exists 1, w. split; [by right|]. split; [done|]. intros _ Hr. rewrite Hr in E. cbn in E.
      by rewrite orb_true_r in E.
    + exists 0, w. split; [by left|]. split; [done | discriminate].
Qed.

(** A handler that returns in a state that satisfies the invariant. *)
Definition serves {A} (c : cmd tstate A) (s : tstate) : Prop := exists a s', c s = Ret (a, s') /\ svc_inv s'.

Lemma serves_ret {A} (a : A) s : svc_inv s -> serves (mret a) s.
Proof. intros. by exists a, s. Qed.

Lemma serves_retst {A} (a : A) s s' : svc_inv s' -> serves (retst a s') s.
Proof. intros. by exists a, s'. Qed.

Lemma serves_bind {A B} (c : cmd tstate A) (f : A -> cmd tstate B) s a s1 :
  c s = Ret (a, s1) -> serves (f a) s1 -> serves (c ≫= f) s.
Proof. intros E (b & s2 & E2 & Hi). exists b, s2. split; [|done]. by rewrite (cmd_bind_eq _ _ _ _ _ E). Qed.

Lemma serves_gets {B} (f : tstate -> cmd tstate B) s : serves (f s) s -> serves (gets id ≫= f) s.
Proof. by apply serves_bind. Qed.

Lemma serves_with_out r s : svc_inv r.2 -> serves (with_out r) s.
Proof. destruct r as [[st [[v rc]|]] s']; cbn; intros; by apply serves_retst. Qed.

Lemma can_defer_facts (s : tstate) a b : svc_inv s -> can_defer s a b = true ->
  n_registered (ntf s) = 1 /\ n_outstanding (ntf s) = 0 /\ n_loc_valid (ntf s) = 0 /\ n_cmd_valid (ntf s) = 0.
Proof.
  intros [_ _ []] Hd. unfold can_defer in Hd.
  apply andb_true_iff in Hd as [Hd Ho%Z.eqb_eq]. apply andb_true_iff in Hd as [Hd _].
  apply andb_true_iff in Hd as [Hr _]. rewrite negb_true_iff, Z.eqb_neq in Hr.
  destruct (decide (n_loc_valid (ntf s) = 0)), (decide (n_cmd_valid (ntf s) = 0)); intuition lia.
Qed.


(** ** Every handler serves *)

(** Changing notification variables: the conditions that remain are decided. *)
Ltac notif_ok_tac Hs := destruct Hs as [_ _ []]; constructor; cbn; intuition (congruence || lia).

Lemma clear_loc_ctrl_inv (s : tstate) l :
  svc_inv s -> valid_loc l -> svc_inv (set_crb (val_tpm_crb_write32 (crb s) (val_tpm_crb_loc_ctrl l) 0) s).
Proof.
  intros [Ha Hg Hn] Hl. constructor; [done| |done]. intros l' Hl' Hg'. apply Hg; [done|].
  rewrite <- Hg'. symmetry. eapply sts_granted_frame; [done | apply (frame_stn 4) |].
  crb_numbers l. crb_numbers l'. lia.
Qed.

Lemma start_locality_serves a b l (s : tstate) :
  svc_inv s -> valid_loc l -> serves (handle_start_locality conduit props hyp a b l) s.
Proof.
  intros Hs Hl. unfold handle_start_locality. apply serves_gets.
  pose proof (clear_loc_ctrl_inv s l Hs Hl) as Hc. destruct (can_defer s a b) eqn:Hd.
  - destruct (can_defer_facts s a b Hs Hd) as (Hr & Ho & Hlv & Hcv).
    set (ctrl := val_tpm_crb_read32 _ _). set (m1 := val_tpm_crb_write32 (crb s) (val_tpm_crb_loc_ctrl l) 0) in *.
    set (s1 := set_ntf (set_pending_loc 1 l ctrl) (set_crb m1 s)).
    eapply serves_bind; [reflexivity|]. fold m1 s1.
    destruct (signal_returns a b s1) as (r & w & Hr01 & E & Hreg); [apply Hs|].
    eapply serves_bind; [exact E|]. destruct Hr01 as [-> | ->]; cbn [Z.eqb negb].
    + apply serves_gets. set (s2 := set_ntf _ _).
      assert (Hs2 : svc_inv s2).
      { apply (svc_inv_same (set_ntf (set_pending_loc 0 l ctrl) (set_crb m1 s))); [|done..].
        apply set_ntf_inv; [done|]. notif_ok_tac Hs. }
      destruct (apply_locality_inv s2 l (n_loc_ctrl (ntf s2)) Hs2 Hl) as (s3 & -> & Hs3 & En).
      apply serves_retst, set_ntf_inv; [done|]. notif_ok_tac Hs3.
    + apply serves_ret, set_world_inv.
      apply (svc_inv_same (set_ntf (fun n => set_outstanding 1 (set_pending_loc 1 l ctrl n)) (set_crb m1 s))); [|done..].
      apply set_ntf_inv; [done|]. notif_ok_tac Hs.
  - unfold val_tpm_crb_start_locality_request.
    destruct (apply_locality_inv _ l (val_tpm_crb_read32 (crb s) (val_tpm_crb_loc_ctrl l)) Hc Hl) as (s3 & -> & Hs3 & _).
    by apply serves_retst.
Qed.

Lemma start_command_serves a b l (s : tstate) :
  svc_inv s -> valid_loc l -> serves (handle_start_command conduit props hyp a b l) s.
Proof.
  intros Hs Hl. unfold handle_start_command. apply serves_gets.
  destruct (can_defer s a b && negb (val_tpm_crb_command_notify_eligible s l =? 0)) eqn:Hd.
  - apply andb_true_iff in Hd as [Hd _]. destruct (can_defer_facts s a b Hs Hd) as (Hr & Ho & Hlv & Hcv).
    set (c := val_tpm_copy_from_mmio _ _ _). set (n := val_tpm_be32_read c TPM_CMD_SIZE_OFFSET).
    eapply serves_bind; [reflexivity|]. set (s1 := set_ntf (set_pending_cmd 1 l n c) s).
    destruct (signal_returns a b s1) as (r & w & Hr01 & E & Hreg); [apply Hs|].
    eapply serves_bind; [exact E|]. destruct Hr01 as [-> | ->]; cbn [Z.eqb negb].
    + apply serves_gets. set (s2 := set_ntf _ _).
      assert (Hs2 : svc_inv s2).
      { apply (svc_inv_same (set_ntf (set_pending_cmd 0 l 0 (zeros VAL_TPM_CRB_DATA_BUFFER_SIZE)) s)); [|done..].
        apply set_ntf_inv; [done|]. notif_ok_tac Hs. }
      pose proof (start_command_inv l s2 Hs2 Hl) as HI. destruct (val_tpm_crb_start_command l s2) as [[st out] s3].
      apply serves_with_out, HI.
    + apply serves_ret, set_world_inv.
      apply (svc_inv_same (set_ntf (fun x => set_outstanding 1 (set_pending_cmd 1 l n c x)) s)); [|done..].
      apply set_ntf_inv; [done|]. notif_ok_tac Hs.
  - pose proof (start_command_inv l s Hs Hl) as HI. destruct (val_tpm_crb_start_command l s) as [[st out] s3].
    apply serves_with_out, HI.
Qed.

Lemma finish_serves a (s : tstate) : svc_inv s -> serves (handle_finish props a) s.
Proof.
  intros Hs. unfold handle_finish. apply serves_gets. destruct (supported =? 0); [by apply serves_ret|].
  destruct (_ || _ || _); [by apply serves_ret|].
  assert (Hfin : forall (r : Z * Z * Z) s1, svc_inv s1 -> n_loc_valid (ntf s1) = 0 -> n_cmd_valid (ntf s1) = 0 ->
    serves (_ ← modify (set_ntf (set_outstanding 0)); mret r) s1).
  { intros r s1 Hs1 ??. eapply serves_bind; [reflexivity|]. apply serves_ret, set_ntf_inv; [done|]. notif_ok_tac Hs1. }
  pose proof (si_notif _ Hs) as [? ? Hno_loc Hno_cmd Hone ?].
  destruct (Z.eqb_spec (n_loc_valid (ntf s)) 0) as [El|El]; cbn [negb].
  - destruct (Z.eqb_spec (n_cmd_valid (ntf s)) 0) as [Ec|Ec]; cbn [negb].
    + eapply serves_bind; [reflexivity|]. by apply Hfin.
    + pose proof (complete_pending_inv (n_cmd_loc (ntf s)) (n_cmd_size (ntf s)) s Hs (proj2 (Hno_cmd Ec))) as HI.
      destruct (val_tpm_crb_complete_pending_command _ _ s) as [[st out] s1]. destruct HI as [Hs1 En].
      assert (Hs2 : svc_inv (set_ntf (set_pending_cmd 0 0 0 (zeros VAL_TPM_CRB_DATA_BUFFER_SIZE)) s1)).
      { apply set_ntf_inv; [done|]. notif_ok_tac Hs1. }
      destruct out as [[v rc]|]; (eapply serves_bind; [reflexivity|]; apply Hfin; [done| |done]; cbn; by rewrite En).
  - destruct (apply_locality_inv s (n_loc (ntf s)) (n_loc_ctrl (ntf s)) Hs (proj2 (Hno_loc El))) as (s1 & -> & Hs1 & En).
    eapply serves_bind; [reflexivity|]. apply Hfin; [|done|cbn; rewrite En; by destruct Hone].
    apply set_ntf_inv; [done|]. notif_ok_tac Hs1.
Qed.

(** A request as the registers can carry it, with a notification id below 64. *)
Definition request_ok (payload : ffa_args) : Prop :=
  is_uint 64 (arg5 payload) /\ is_uint 64 (arg6 payload) /\
  (u32 (arg4 payload) = CRB_REGISTER_NOTIFICATION -> arg6 payload < 64).

Lemma dispatch_serves a b payload (s : tstate) :
  svc_inv s -> request_ok payload -> serves (dispatch conduit props hyp a b payload) s.
Proof.
  intros Hs (H5 & H6 & Hid). unfold dispatch, is_uint in *.
  repeat (match goal with |- serves (if ?c then _ else _) _ => destruct c eqn:? end; [try by apply serves_ret|]);
    try by apply serves_ret.
  - unfold handle_start. destruct (_ || _) eqn:Hr; [by apply serves_ret|].
    apply orb_false_iff in Hr as [H5' H6']. apply Z.ltb_ge in H6'. unfold CRB_LOCALITY_MAX in H6'.
    assert (Hl : valid_loc (u32 (arg6 payload))) by (rewrite uwrap_small by lia; unfold valid_loc, CRB_LOCALITY_MAX; lia).
    destruct (_ =? CRB_START_TYPE_LOCALITY_REQUEST); [by apply start_locality_serves|].
    destruct (_ =? CRB_START_TYPE_COMMAND); [by apply start_command_serves | by apply serves_ret].
  - unfold handle_register. apply serves_gets. destruct (_ || _ || _ || _); [by apply serves_ret|].
    destruct (supported =? 0); [by apply serves_ret|].
    destruct (Z.eqb_spec (n_registered (ntf s)) 0) as [Er|]; cbn [negb]; [|by apply serves_ret].
    eapply serves_bind; [reflexivity|]. apply serves_ret, set_ntf_inv; [done|].
    assert (Hi : 0 <= u32 (arg6 payload) < 64) by (rewrite uwrap_small; [|lia]; split; [lia|]; apply Hid; by apply Z.eqb_eq).
    notif_ok_tac Hs.
  - unfold handle_unregister. apply serves_gets. destruct (supported =? 0); [by apply serves_ret|].
    destruct (_ || _); [by apply serves_ret|]. destruct (negb _); [by apply serves_ret|].
    eapply serves_bind; [reflexivity|]. apply serves_ret, set_ntf_inv; [done|].
    constructor; cbn; intuition (congruence || lia).
  - by apply finish_serves.
Qed.


(** ** Claims *)

(** The direct response of a request: back to the sender, in the request's width. *)
Definition response_regs (payload : ffa_args) (status value rc : Z) : ffa_args :=
  let sender := u16 (Z.land (Z.shiftr (arg1 payload) 16) 0xffff) in
  let receiver := u16 (Z.land (arg1 payload) 0xffff) in
  FfaArgs (if fid payload =? FFA_MSG_SEND_DIRECT_REQ_64
           then FFA_MSG_SEND_DIRECT_RESP_64 else FFA_MSG_SEND_DIRECT_RESP_32)
    (Z.lor (u32 (Z.shiftl receiver 16)) sender) 0 0 status value rc 0 0 0 0 0 0 0 0 0 0 0.

Lemma handle_eq payload (s : tstate) st v rc s1 :
  let sender := u16 (Z.land (Z.shiftr (arg1 payload) 16) 0xffff) in
  let receiver := u16 (Z.land (arg1 payload) 0xffff) in
  dispatch conduit props hyp sender receiver payload s = Ret ((st, v, rc), s1) ->
  handle payload s = let '(a, w) := conduit (response_regs payload st v rc) (world s1) in Ret (a, set_world w s1).
Proof.
  intros sender receiver E. unfold val_tpm_crb_service_handle_request. fold sender receiver.
  rewrite (cmd_bind_eq _ _ _ _ _ E). unfold response_regs. fold sender receiver.
  destruct (fid payload =? FFA_MSG_SEND_DIRECT_REQ_64); unfold ffa, zoom; cbn;
    unfold ffa_smccc; destruct (conduit _ _); done.
Qed.

Lemma handle_serves payload (s : tstate) :
  svc_inv s -> request_ok payload ->
  exists st v rc s1, let '(next, w) := conduit (response_regs payload st v rc) (world s1) in
    handle payload s = Ret (next, set_world w s1) /\ svc_inv (set_world w s1).
Proof.
  intros Hs Hp.
  destruct (dispatch_serves (u16 (Z.land (Z.shiftr (arg1 payload) 16) 0xffff)) (u16 (Z.land (arg1 payload) 0xffff))
              payload s Hs Hp) as ([[st v] rc] & s1 & E & Hs1).
  exists st, v, rc, s1. pose proof (handle_eq payload s st v rc s1 E) as HE.
  destruct (conduit _ _) as [next w]. split; [done | by apply set_world_inv].
Qed.

(** *** What a handler sends to the manager *)

(** From [s], no call. *)
Definition quiet {A} (c : cmd tstate A) (s : tstate) : Prop := forall a s', c s = Ret (a, s') -> world s' = world s.
(** From [s], at most one call, of FFA_NOTIFICATION_SET. *)
Definition signals (w w' : W) : Prop := w' = w \/ exists n, fid n = FFA_NOTIFICATION_SET /\ w' = (conduit n w).2.
Definition may_signal {A} (c : cmd tstate A) (s : tstate) : Prop := forall a s', c s = Ret (a, s') -> signals (world s) (world s').

Lemma quiet_ret {A} (a : A) s : quiet (mret a) s.
Proof. by intros b s' [= _ <-]. Qed.
Lemma quiet_retst {A} (a : A) s s1 : world s1 = world s -> quiet (retst a s1) s.
Proof. by intros E b s' [= _ <-]. Qed.
Lemma quiet_with_out r s : world r.2 = world s -> quiet (with_out r) s.
Proof. destruct r as [[st [[v rc]|]] s1]; cbn; apply quiet_retst. Qed.
Lemma quiet_modify f s : world (f s) = world s -> quiet (modify f) s.
Proof. by intros E b s' [= _ <-]. Qed.
Lemma quiet_bind {A B} (c : cmd tstate A) (f : A -> cmd tstate B) s :
  quiet c s -> (forall a s1, world s1 = world s -> quiet (f a) s1) -> quiet (c ≫= f) s.
Proof.
  intros Hc Hf b s' E. unfold mbind, cmd_bind in E. destruct (c s) as [[a s1]| | |] eqn:Ec; try done.
  rewrite (Hf a s1 (Hc _ _ Ec) b s' E). exact (Hc _ _ Ec).
Qed.
Lemma quiet_gets {B} (f : tstate -> cmd tstate B) s : quiet (f s) s -> quiet (gets id ≫= f) s.
Proof. done. Qed.
Lemma may_quiet {A} (c : cmd tstate A) s : quiet c s -> may_signal c s.
Proof. intros Hc a s' E. left. exact (Hc a s' E). Qed.
Lemma may_gets {B} (f : tstate -> cmd tstate B) s : may_signal (f s) s -> may_signal (gets id ≫= f) s.
Proof. done. Qed.
Lemma may_bind {A B} (c : cmd tstate A) (f : A -> cmd tstate B) s :
  may_signal c s -> (forall a s1, quiet (f a) s1) -> may_signal (c ≫= f) s.
Proof.
  intros Hc Hf b s' E. unfold mbind, cmd_bind in E. destruct (c s) as [[a s1]| | |] eqn:Ec; try done.
  rewrite (Hf a s1 b s' E). exact (Hc _ _ Ec).
Qed.
Lemma may_modify {B} (f : tstate -> tstate) (c : cmd tstate B) s :
  world (f s) = world s -> may_signal c (f s) -> may_signal (_ ← modify f; c) s.
Proof. intros E Hc b s' Eb. rewrite <- E. exact (Hc b s' Eb). Qed.

Lemma signal_may c v s : may_signal (val_tpm_signal_notification conduit props hyp c v) s.
Proof.
  unfold val_tpm_signal_notification. apply may_gets. destruct (_ || _ || _ || _ || _); [by apply may_quiet, quiet_ret|].
  destruct (64 <=? _); [by intros ? ?|]. cbn zeta. apply may_bind.
  - intros a s'. unfold ffa, zoom, val_ffa_notification_set, smccc_w32, ffa_smccc.
    match goal with |- context [conduit ?n ?w] => destruct (conduit n w) as [r w'] eqn:E; intros [= _ <-]; right; exists n; by rewrite E end.
  - intros a s1. destruct (negb _); [|apply quiet_ret]. by apply quiet_bind; [apply quiet_modify | intros; apply quiet_ret].
Qed.

Lemma apply_locality_world l ctrl (s : tstate) : world (val_tpm_crb_apply_locality_request l ctrl s).2 = world s.
Proof. unfold val_tpm_crb_apply_locality_request. by repeat destruct (_ : bool). Qed.

Lemma start_command_world l (s : tstate) : world (val_tpm_crb_start_command l s).2 = world s.
Proof.
  unfold val_tpm_crb_start_command. destruct (_ || _); [done|]. destruct (negb _); [done|].
  match goal with |- context [val_tpm_execute_command_buffer ?a ?b ?c ?d] =>
    pose proof (execute_keeps a b c d) as H1; destruct (val_tpm_execute_command_buffer a b c d) as [[st out] s1] end.
  destruct H1 as (_ & _ & _ & H1). by destruct (st =? CRB_OK).
Qed.

Lemma complete_pending_world l n (s : tstate) : world (val_tpm_crb_complete_pending_command l n s).2 = world s.
Proof.
  unfold val_tpm_crb_complete_pending_command.
  match goal with |- context [val_tpm_execute_command_buffer ?a ?b ?c ?d] =>
    pose proof (execute_keeps a b c d) as H1; destruct (val_tpm_execute_command_buffer a b c d) as [[st out] s1] end.
  destruct H1 as (_ & _ & _ & H1). by destruct (st =? CRB_OK).
Qed.

Lemma finish_quiet a s : quiet (handle_finish props a) s.
Proof.
  unfold handle_finish. apply quiet_gets. destruct (_ =? 0); [apply quiet_ret|]. destruct (_ || _ || _); [apply quiet_ret|].
  apply quiet_bind; [|intros r s1 E; by apply quiet_bind; [apply quiet_modify | intros; apply quiet_ret]].
  destruct (negb _).
  - pose proof (apply_locality_world (n_loc (ntf s)) (n_loc_ctrl (ntf s)) s) as Hw.
    destruct (val_tpm_crb_apply_locality_request _ _ s) as [st s1]. by apply quiet_retst.
  - destruct (negb _); [|apply quiet_ret]. pose proof (complete_pending_world (n_cmd_loc (ntf s)) (n_cmd_size (ntf s)) s) as Hw.
    destruct (val_tpm_crb_complete_pending_command _ _ s) as [[st out] s1]. by apply quiet_with_out.
Qed.

Lemma start_locality_may a b l s : may_signal (handle_start_locality conduit props hyp a b l) s.
Proof.
  unfold handle_start_locality. apply may_gets. destruct (can_defer s a b).
  - apply may_modify; [done|]. apply may_bind; [apply signal_may|]. intros r s1. destruct (negb _); [apply quiet_ret|].
    apply quiet_gets. cbn zeta. match goal with |- context [val_tpm_crb_apply_locality_request ?x ?y ?z] =>
      pose proof (apply_locality_world x y z) as Hw; destruct (val_tpm_crb_apply_locality_request x y z) as [st s2] end.
    by apply quiet_retst.
  - apply may_quiet. unfold val_tpm_crb_start_locality_request.
    match goal with |- context [val_tpm_crb_apply_locality_request ?x ?y ?z] =>
      pose proof (apply_locality_world x y z) as Hw; destruct (val_tpm_crb_apply_locality_request x y z) as [st s2] end.
    by apply quiet_retst.
Qed.

Lemma start_command_may a b l s : may_signal (handle_start_command conduit props hyp a b l) s.
Proof.
  unfold handle_start_command. apply may_gets. destruct (_ && _); [|apply may_quiet, quiet_with_out, start_command_world].
  cbn zeta. apply may_modify; [done|]. apply may_bind; [apply signal_may|]. intros r s1. destruct (negb _); [apply quiet_ret|].
  apply quiet_gets, quiet_with_out. cbn zeta. by rewrite start_command_world.
Qed.

Lemma dispatch_may a b payload s : may_signal (dispatch conduit props hyp a b payload) s.
Proof.
  unfold dispatch. repeat (match goal with |- may_signal (if ?c then _ else _) _ => destruct c end; try by apply may_quiet, quiet_ret).
  - unfold handle_start. destruct (_ || _); [by apply may_quiet, quiet_ret|].
    destruct (_ =? CRB_START_TYPE_LOCALITY_REQUEST); [apply start_locality_may|].
    destruct (_ =? CRB_START_TYPE_COMMAND); [apply start_command_may | by apply may_quiet, quiet_ret].
  - apply may_quiet. unfold handle_register. apply quiet_gets. destruct (_ || _ || _ || _); [apply quiet_ret|].
    destruct (_ =? 0); [apply quiet_ret|]. destruct (negb _); [apply quiet_ret|].
    by apply quiet_bind; [apply quiet_modify | intros; apply quiet_ret].
  - apply may_quiet. unfold handle_unregister. apply quiet_gets. destruct (_ =? 0); [apply quiet_ret|].
    destruct (_ || _); [apply quiet_ret|]. destruct (negb _); [apply quiet_ret|].
    by apply quiet_bind; [apply quiet_modify | intros; apply quiet_ret].
  - by apply may_quiet, finish_quiet.
Qed.

(** Claim C6: For every direct request whose x5 and x6 are 64-bit values and whose
    notification id is below 64 when it registers one, in a state that satisfies the
    service invariant, the request handler terminates without fault and returns the
    next message; its calls of the manager are, in order, at most one
    FFA_NOTIFICATION_SET and then exactly one direct response, of the same width as
    the request, with sender and receiver swapped, the status, value and return code
    dispatch computes in x4 to x6 and zero in the other registers; the service
    invariant holds afterwards. *)
Theorem request_served (log : W -> list ffa_args) payload (s : tstate) :
  (forall a w, log (conduit a w).2 = log w ++ [a]) -> svc_inv s -> request_ok payload ->
  let sender := u16 (Z.land (Z.shiftr (arg1 payload) 16) 0xffff) in
  let receiver := u16 (Z.land (arg1 payload) 0xffff) in
  exists st v rc s1 signal, let response := response_regs payload st v rc in
    dispatch conduit props hyp sender receiver payload s = Ret ((st, v, rc), s1) /\
    handle payload s = Ret ((conduit response (world s1)).1, set_world (conduit response (world s1)).2 s1) /\
    log (conduit response (world s1)).2 = log (world s) ++ signal ++ [response] /\
    (signal = [] \/ exists n, signal = [n] /\ fid n = FFA_NOTIFICATION_SET) /\
    svc_inv (set_world (conduit response (world s1)).2 s1).
Proof.
  intros Hlog Hs Hp sender receiver.
  destruct (dispatch_serves sender receiver payload s Hs Hp) as ([[st v] rc] & s1 & E & Hs1).
  assert (Hsig : exists signal, log (world s1) = log (world s) ++ signal /\
    (signal = [] \/ exists n, signal = [n] /\ fid n = FFA_NOTIFICATION_SET)).
  { destruct (dispatch_may sender receiver payload s _ _ E) as [->|(n & Hn & ->)].
    - exists []. rewrite app_nil_r. auto.
    - exists [n]. split; [apply Hlog | eauto]. }
  destruct Hsig as (signal & Hl & Hsig). exists st, v, rc, s1, signal. pose proof (handle_eq payload s st v rc s1 E) as HE. cbn zeta.
  rewrite Hlog, Hl, <- app_assoc. split; [done|]. split; [|split; [done|]; split; [done | by apply set_world_inv]].
  rewrite HE. by destruct (conduit _ _).
Qed.

(** ** Reachable states *)

(** A client writes anywhere in the window but the status registers. *)
Inductive svc_step : tstate -> tstate -> Prop :=
| step_request payload next s s' :
    request_ok payload -> handle payload s = Ret (next, s') -> svc_step s s'
| step_client m s :
    (forall l, valid_loc l -> ldn 4 m (val_tpm_crb_loc_sts l) = ldn 4 (crb s) (val_tpm_crb_loc_sts l)) ->
    svc_step s (set_crb m s).

(** The initial values of the static variables. *)
Definition svc_boot (t : pal_tpm) (w : W) : tstate :=
  Svc ∅ (zeros VAL_TPM_CRB_DATA_BUFFER_SIZE) (zeros VAL_TPM_CRB_DATA_BUFFER_SIZE) (CRB_LOCALITY_MAX + 1)
    notif_zero t w.

Lemma svc_boot_inv t w : svc_inv (svc_boot t w).
Proof.
  constructor; [cbn; unfold CRB_LOCALITY_MAX; lia | |].
  - intros l Hl Hg. crb_numbers l. unfold sts_granted, val_tpm_crb_read32, Mmio.pal_mmio_read32 in Hg.
    assert (Hz : forall a, ldn 4 ∅ a = 0) by done. cbn [crb svc_boot] in Hg. by rewrite Hz in Hg.
  - constructor; cbn; intuition (congruence || lia).
Qed.

Lemma svc_step_inv s s' : svc_inv s -> svc_step s s' -> svc_inv s'.
Proof.
  intros Hs Hst. destruct Hst as [payload next s s' Hp E | m s Hm].
  - destruct (handle_serves payload s Hs Hp) as (st & v & rc & s1 & HX).
    destruct (conduit _ _) as [next' w]. destruct HX as [E' Hi]. rewrite E in E'. by injection E' as _ ->.
  - destruct Hs as [Ha Hg Hn]. constructor; [done| |done]. intros l Hl Hg'. apply Hg; [done|].
    unfold sts_granted, val_tpm_crb_read32, Mmio.pal_mmio_read32 in *. cbn [crb set_crb] in Hg'. by rewrite Hm in Hg'.
Qed.

Lemma svc_reach_inv t w s : rtc svc_step (svc_boot t w) s -> svc_inv s.
Proof.
  intros Hr. pose proof (svc_boot_inv t w) as Hi. revert Hi. induction Hr; [done|]. intros Hi.
  apply IHHr. by eapply svc_step_inv.
Qed.

(** Claim C8: In every state the CRB service reaches through requests and client
    writes to the control registers, at most one locality has the granted bit set in
    its LOC_STS register. *)
Theorem one_locality_granted t w s l l' :
  rtc svc_step (svc_boot t w) s -> valid_loc l -> valid_loc l' ->
  sts_granted s l = true -> sts_granted s l' = true -> l = l'.
Proof.
  intros Hr Hl Hl' Hg Hg'. destruct (svc_reach_inv t w s Hr) as [_ Hi _].
  rewrite <- (Hi l Hl Hg). by apply Hi.
Qed.

(** Claim C9: In every reachable state of the CRB service the notification variables
    agree: an outstanding notification implies a registration, a pending locality or
    a pending command implies an outstanding notification, and never are a locality
    and a command pending at once. *)
Theorem notification_state t w s :
  rtc svc_step (svc_boot t w) s ->
  (n_outstanding (ntf s) <> 0 -> n_registered (ntf s) = 1) /\
  (n_loc_valid (ntf s) <> 0 -> n_outstanding (ntf s) <> 0) /\
  (n_cmd_valid (ntf s) <> 0 -> n_outstanding (ntf s) <> 0) /\
  ~ (n_loc_valid (ntf s) <> 0 /\ n_cmd_valid (ntf s) <> 0).
Proof.
  intros Hr. destruct (svc_reach_inv t w s Hr) as [_ _ []]. intuition lia.
Qed.

(** ** Deferring does not change the result *)

(** The TPM reads [request_size] bytes of the request. *)
Definition exec_reads_prefix : Prop :=
  forall n req req' cap buf c, slice req 0 n = slice req' 0 n ->
    ExecuteCommand n req cap buf c = ExecuteCommand n req' cap buf c.

Lemma pal_exec_prefix n req req' cap buf t :
  exec_reads_prefix -> slice req 0 n = slice req' 0 n ->
  pal_tpm_execute_command n req cap buf t = pal_tpm_execute_command n req' cap buf t.
Proof.
  intros Hx E. unfold pal_tpm_execute_command. destruct (_ || _); [done|].
  destruct (pal_tpm_init t) as [st t1]. destruct (negb _); [done|]. by rewrite (Hx n req req').
Qed.

(** What matters of a state after a command. *)
Definition same_result (s s' : tstate) : Prop :=
  crb s' = crb s /\ g_tpm_rsp s' = g_tpm_rsp s /\ tpm s' = tpm s.

Lemma execute_own_or_copy c n (s s' : tstate) :
  exec_reads_prefix -> zlen c = VAL_TPM_CRB_DATA_BUFFER_SIZE -> 0 <= n ->
  same_result s s' -> g_tpm_cmd s = c ->
  let '(st, out, s1) := val_tpm_execute_command_buffer true c n s in
  let '(st', out', s1') := val_tpm_execute_command_buffer false c n s' in
  st' = st /\ out' = out /\ same_result s1 s1'.
Proof.
  intros Hx Hlen Hn (E1 & E2 & E3) Hc. unfold val_tpm_execute_command_buffer, VAL_TPM_CRB_DATA_BUFFER_SIZE in *.
  destruct (Z.ltb_spec 1024 n) as [|Hle]; [done|]. cbn [g_tpm_cmd set_cmd tpm].
  rewrite E3, Hc. rewrite (pal_exec_prefix n (val_tpm_copy (zeros 1024) c n) c); [|done|].
  2:{ unfold val_tpm_copy. assert (Hz : zlen (slice c 0 n) = n) by (apply zlen_slice; lia).
      rewrite <- Hz at 2. rewrite slice_splice_same; [done|lia|]. rewrite Hz, zlen_zeros by lia. lia. }
  destruct (pal_tpm_execute_command n c _ _ _) as [[[st rsz] r] t].
  destruct r; (destruct (negb _ || _); done) || done.
Qed.

Lemma write_response_same l out (s s' : tstate) :
  same_result s s' -> same_result (write_response l out s) (write_response l out s').
Proof. intros (E1 & E2 & E3). unfold write_response, same_result. cbn. by rewrite E1, E2. Qed.

Lemma be32_read_nonneg p i : is_bytes p -> 0 <= val_tpm_be32_read p i.
Proof.
  intros Hp. assert (Hb : forall j, 0 <= byte_at p j).
  { intros j. unfold byte_at. destruct (p !! Z.to_nat j) as [b|] eqn:E; [|done]. cbn.
    eapply Forall_lookup_1 in Hp; [|exact E]. apply Hp. }
  unfold val_tpm_be32_read. rewrite !Z.lor_nonneg, !Z.shiftl_nonneg. repeat split; auto.
  apply uwrap_range. lia.
Qed.

Lemma copy_from_bytes n m a : is_bytes (val_tpm_copy_from_mmio n m a).
Proof.
  revert a; induction n as [|n IH]; intros a; cbn [val_tpm_copy_from_mmio]; [constructor|].
  constructor; [|apply IH]. apply (ldn_range 1).
Qed.

(** Claim C7: Running a TPM command in the deferred way (start with a notification
    outstanding, completed by finish_notified) gives the client the same status,
    response size and return code, and the same CRB registers and TPM state, as
    executing the same command at once with val_tpm_crb_start_command. *)
Theorem deferred_equals_immediate client service l (s s1 : tstate) :
  exec_reads_prefix -> svc_inv s -> can_defer s client service = true ->
  val_tpm_crb_command_notify_eligible s l = 1 -> supported <> 0 ->
  handle_start_command conduit props hyp client service l s = Ret ((CRB_OK, 0, 0), s1) ->
  n_outstanding (ntf s1) = 1 ->
  let '(st, out, s2) := val_tpm_crb_start_command l s in
  exists s3, handle_finish props client s1 =
               Ret ((st, from_option fst 0 out, from_option snd 0 out), s3) /\ same_result s2 s3.
Proof.
  intros Hx Hs Hd Hel Hsup E Ho.
  destruct (can_defer_facts s client service Hs Hd) as (Hr & Hos & Hlv & Hcv).
  set (c := val_tpm_copy_from_mmio (Z.to_nat VAL_TPM_CRB_DATA_BUFFER_SIZE) (crb s) (val_tpm_crb_data_buffer l)).
  set (n := val_tpm_be32_read c TPM_CMD_SIZE_OFFSET).
  assert (Hs1 : exists w, s1 = set_world w (set_ntf (set_outstanding 1) (set_ntf (set_pending_cmd 1 l n c) s))).
  { unfold handle_start_command in E. rewrite (cmd_bind_eq _ _ _ s s eq_refl) in E. rewrite Hd, Hel in E.
    cbn [Z.eqb negb andb] in E. fold c in E. fold n in E.
    rewrite (cmd_bind_eq _ _ _ tt (set_ntf (set_pending_cmd 1 l n c) s) eq_refl) in E.
    destruct (signal_returns client service (set_ntf (set_pending_cmd 1 l n c) s)) as (r & w & Hr01 & Es & _); [apply Hs|].
    rewrite (cmd_bind_eq _ _ _ _ _ Es) in E. destruct Hr01 as [-> | ->]; cbn [Z.eqb negb] in E; [|by injection E as <-; exists w].
    exfalso. rewrite (cmd_bind_eq _ _ _ _ _ eq_refl) in E.
    match type of E with with_out (val_tpm_crb_start_command l ?x) _ = _ =>
      pose proof (start_command_ntf l x) as HN; destruct (val_tpm_crb_start_command l x) as [[? [[? ?]|]] s9] end;
    injection E; intros; subst; cbn [snd] in HN; rewrite HN in Ho; cbn in Ho; lia. }
  destruct Hs1 as [w ->].
  assert (Hcl : n_client (ntf s) = client).
  { unfold can_defer in Hd. apply andb_true_iff in Hd as [Hd _]. apply andb_true_iff in Hd as [Hd _].
    apply andb_true_iff in Hd as [_ Hd]. by apply Z.eqb_eq. }
  assert (Hc : is_bytes c) by apply copy_from_bytes.
  assert (Hlc : zlen c = VAL_TPM_CRB_DATA_BUFFER_SIZE) by (unfold c; by rewrite zlen_copy_from).
  unfold val_tpm_crb_command_notify_eligible in Hel.
  unfold val_tpm_crb_start_command.
  destruct (negb (g_tpm_active_locality s =? l) || negb (sts_granted s l)); [done|].
  destruct (negb (start_set s l)); [done|]. cbn [orb] in Hel. fold c. cbn [g_tpm_cmd set_cmd]. fold n.
  set (s4 := set_world w _).
  pose proof (execute_own_or_copy c n (set_cmd c s) s4 Hx Hlc (be32_read_nonneg c _ Hc)
                (conj eq_refl (conj eq_refl eq_refl)) eq_refl) as HX.
  unfold handle_finish. rewrite (cmd_bind_eq _ _ _ s4 s4 eq_refl).
  replace (supported =? 0) with false by lia. unfold val_tpm_crb_complete_pending_command.
  cbn [ntf s4 set_world set_ntf set_outstanding set_pending_cmd n_registered n_client n_outstanding n_loc_valid
       n_cmd_valid n_cmd_loc n_cmd_size n_cmd]. rewrite Hr, Hcl, Hlv, Z.eqb_refl. cbn [Z.eqb negb orb].
  destruct (val_tpm_execute_command_buffer true c n (set_cmd c s)) as [[st out] s5].
  destruct (val_tpm_execute_command_buffer false c n s4) as [[st' out'] s6]. destruct HX as (-> & -> & HR).
  destruct (st =? CRB_OK); (destruct out as [[v rc]|]; eexists; (split; [reflexivity|]));
    done || by apply write_response_same.
Qed.


Lemma crb_write_response l k rc (s : tstate) :
  crb (write_response l (Some (k, rc)) s) =
  stn 4 (val_tpm_copy_to_mmio (crb s) (val_tpm_crb_data_buffer l) (slice (g_tpm_rsp s) 0 k))
    (val_tpm_crb_ctrl_start l) 0.
Proof. reflexivity. Qed.

Lemma rsp_write_response l out (s : tstate) : g_tpm_rsp (write_response l out s) = g_tpm_rsp s.
Proof. reflexivity. Qed.

Lemma start_set_read (s : tstate) l : ldn 4 (crb s) (val_tpm_crb_ctrl_start l) = 0 -> start_set s l = false.
Proof. intros E. unfold start_set, val_tpm_crb_read32, Mmio.pal_mmio_read32. by rewrite E. Qed.

(** The window after a response of [k] bytes. *)
Lemma response_start l k rc (s : tstate) : start_set (write_response l (Some (k, rc)) s) l = false.
Proof. apply start_set_read. rewrite crb_write_response. by rewrite ldn_stn_same_small by lia. Qed.

Lemma response_window l k rc (s : tstate) :
  valid_loc l -> is_bytes (g_tpm_rsp s) -> k <= zlen (g_tpm_rsp s) ->
  (forall i, 0 <= i < k -> ld8 (crb (write_response l (Some (k, rc)) s)) (val_tpm_crb_data_buffer l + i) =
                           byte_at (g_tpm_rsp s) i).
Proof.
  intros Hl Hb Hk i Hi. rewrite crb_write_response, ld8_stn_out by (crb_numbers l; lia).
  assert (Hz : zlen (slice (g_tpm_rsp s) 0 k) = k) by (apply zlen_slice; lia).
  rewrite copy_to_mmio_read; [|by apply Forall_take, Forall_drop|lia].
  rewrite byte_at_slice by lia. by rewrite Z.add_0_l.
Qed.

(** What the function stores through its pointers and leaves in the response buffer,
    when it succeeds. *)
Lemma execute_response c n (s s' : tstate) k rc :
  val_tpm_execute_command_buffer true c n s = (CRB_OK, Some (k, rc), s') ->
  exists b r t, pal_tpm_execute_command n (g_tpm_cmd s) VAL_TPM_CRB_DATA_BUFFER_SIZE (zeros VAL_TPM_CRB_DATA_BUFFER_SIZE) (tpm s) =
      (PAL_TPM_SUCCESS, k, r, t) /\ (r = RspSame b \/ r = RspOther b) /\ tpm s' = t /\ n <= VAL_TPM_CRB_DATA_BUFFER_SIZE /\
    (is_bytes b -> 0 <= k <= zlen b ->
      is_bytes (g_tpm_rsp s') /\ k <= zlen (g_tpm_rsp s') /\ (forall i, 0 <= i < k -> byte_at (g_tpm_rsp s') i = byte_at b i) /\
      rc = if TPM_RSP_HEADER_SIZE <=? k then val_tpm_be32_read b TPM_RSP_RC_OFFSET else CRB_INV_CRB_CTRL_DATA).
Proof.
  unfold val_tpm_execute_command_buffer. destruct (Z.ltb_spec VAL_TPM_CRB_DATA_BUFFER_SIZE n); [done|].
  destruct (pal_tpm_execute_command _ _ _ _ _) as [[[st0 rsz] r] t].
  destruct r as [|b|b]; [done|..]; (destruct (negb _ || (_ <? rsz)) eqn:E; [done|]; intros [= <- <- <-];
    apply orb_false_iff in E as [E1%negb_false_iff%Z.eqb_eq E2%Z.ltb_ge]; subst st0; eexists b, _, t; split; [reflexivity|];
    split; [by auto|]; split; [done|]; split; [done|]; intros Hb Hk).
  - split_and!; [done | cbn; lia | done | done].
  - assert (Hz : zlen (slice b 0 rsz) = rsz) by (apply zlen_slice; lia).
    assert (Hz1 : zlen (zeros VAL_TPM_CRB_DATA_BUFFER_SIZE) = VAL_TPM_CRB_DATA_BUFFER_SIZE) by (by rewrite zlen_zeros).
    assert (Hat : forall i, 0 <= i < rsz -> byte_at (val_tpm_copy (zeros VAL_TPM_CRB_DATA_BUFFER_SIZE) b rsz) i = byte_at b i).
    { intros i Hi. unfold val_tpm_copy. rewrite byte_at_splice by lia. rewrite Hz. destruct (_ && _) eqn:Ei; [|lia].
      rewrite byte_at_slice by lia. f_equal. lia. }
    cbn [g_tpm_rsp set_rsp_tpm]. split_and!.
    + unfold val_tpm_copy, splice, is_bytes. rewrite !list.Forall_app. split_and!.
      * apply Forall_take, is_bytes_zeros.
      * by apply Forall_take, Forall_drop.
      * apply Forall_drop, is_bytes_zeros.
    + unfold val_tpm_copy. rewrite zlen_splice by lia. lia.
    + exact Hat.
    + destruct (Z.leb_spec TPM_RSP_HEADER_SIZE rsz) as [Hh|]; [|done]. unfold TPM_RSP_HEADER_SIZE in Hh. unfold val_tpm_be32_read, TPM_RSP_RC_OFFSET.
      by rewrite !Hat by lia.
Qed.

#[local] Opaque val_tpm_copy_from_mmio val_tpm_copy_to_mmio val_tpm_execute_command_buffer.

(** Claim C34: A val_tpm_crb_start_command for a locality 0 to 4 that returned
    CRB_OK with a response size k and return code rc ran for the active, granted
    locality whose START bit was set, and clears that bit. It had the TPM execute,
    once, the command whose bytes are those of the data buffer of the locality, of
    the size its header says, with a response buffer of the size of the data buffer;
    the TPM answered with success, k and a response; and when the response array has
    at least k bytes, all of them bytes, the first k bytes of the data buffer are
    those k bytes and rc is the return code of the response header (an error code
    when k is shorter than the header). *)
Theorem command_response_delivered l (s s' : tstate) k rc :
  valid_loc l -> val_tpm_crb_start_command l s = (CRB_OK, Some (k, rc), s') ->
  g_tpm_active_locality s = l /\ sts_granted s l = true /\ start_set s l = true /\ start_set s' l = false /\
  exists cmd b r,
    zlen cmd = VAL_TPM_CRB_DATA_BUFFER_SIZE /\
    (forall i, 0 <= i < VAL_TPM_CRB_DATA_BUFFER_SIZE -> byte_at cmd i = ld8 (crb s) (val_tpm_crb_data_buffer l + i)) /\
    val_tpm_be32_read cmd TPM_CMD_SIZE_OFFSET <= VAL_TPM_CRB_DATA_BUFFER_SIZE /\ k <= VAL_TPM_CRB_DATA_BUFFER_SIZE /\
    pal_tpm_execute_command (val_tpm_be32_read cmd TPM_CMD_SIZE_OFFSET) cmd VAL_TPM_CRB_DATA_BUFFER_SIZE
      (zeros VAL_TPM_CRB_DATA_BUFFER_SIZE) (tpm s) = (PAL_TPM_SUCCESS, k, r, tpm s') /\
    (r = RspSame b \/ r = RspOther b) /\
    (is_bytes b -> 0 <= k <= zlen b ->
      (forall i, 0 <= i < k -> ld8 (crb s') (val_tpm_crb_data_buffer l + i) = byte_at b i) /\
      rc = if TPM_RSP_HEADER_SIZE <=? k then val_tpm_be32_read b TPM_RSP_RC_OFFSET else CRB_INV_CRB_CTRL_DATA).
Proof.
  intros Hl E. unfold val_tpm_crb_start_command in E.
  destruct (Z.eqb_spec (g_tpm_active_locality s) l) as [Ha|]; [|discriminate].
  destruct (sts_granted s l); [|discriminate]. destruct (start_set s l); [|discriminate]. cbn [negb orb] in E.
  set (cmd := val_tpm_copy_from_mmio _ _ _) in E.
  destruct (val_tpm_execute_command_buffer _ _ _ _) as [[st out] s2] eqn:Ex.
  destruct (Z.eqb_spec st CRB_OK) as [->|]; [|congruence].
  assert (Eo : out = Some (k, rc)) by congruence. assert (Es : s' = write_response l out s2) by congruence.
  subst out s'. pose proof (execute_size _ _ _ _ _ _ _ _ Ex) as Hk. apply execute_response in Ex as (b & r & t & Ep & Hr & Ht & Hn & Hb).
  split_and!; try done; [apply response_start|]. exists cmd, b, r. cbn [g_tpm_cmd set_cmd tpm] in Ep, Hn.
  rewrite <- Ht in Ep. split; [apply zlen_copy_from|]. split; [intros i Hi; apply byte_at_copy_from; by rewrite Z2Nat.id|].
  split; [done|]. split; [done|]. split; [done|]. split; [done|].
  intros Hbb Hkb. destruct (Hb Hbb Hkb) as (H1 & H2 & H3 & H4). pose proof (response_window l k rc s2 Hl H1 H2) as H5.
  split; [|done]. intros i Hi. by rewrite H5, H3.
Qed.

(** Claim C35: Unknown function ids, out-of-range START arguments, a second
    registration, and unregister or finish calls by a partition that is not the
    registered client (or in the wrong state) get the documented error code and do
    not change the state at all. *)
Theorem bad_requests_rejected a b payload (s : tstate) :
  let run := dispatch conduit props hyp a b payload s in
  let f := u32 (arg4 payload) in
  (~ f ∈ [CRB_GET_INTERFACE_VERSION; CRB_GET_FEATURE_INFO; CRB_START; CRB_REGISTER_NOTIFICATION;
          CRB_UNREGISTER_NOTIFICATION; CRB_FINISH_NOTIFIED] -> run = Ret ((CRB_NOFUNC, 0, 0), s)) /\
  (f = CRB_START -> 0xff < arg5 payload \/ CRB_LOCALITY_MAX < arg6 payload -> run = Ret ((CRB_INVARG, 0, 0), s)) /\
  (f = CRB_REGISTER_NOTIFICATION -> arg5 payload = 0 -> 0 <= arg6 payload <= 0xff -> supported <> 0 ->
     n_registered (ntf s) <> 0 -> run = Ret ((CRB_ALREADY, 0, 0), s)) /\
  (f = CRB_UNREGISTER_NOTIFICATION -> supported <> 0 ->
     n_registered (ntf s) = 0 \/ n_client (ntf s) <> a \/ n_outstanding (ntf s) <> 0 ->
     run = Ret ((CRB_DENIED, 0, 0), s)) /\
  (f = CRB_FINISH_NOTIFIED -> supported <> 0 ->
     n_registered (ntf s) = 0 \/ n_client (ntf s) <> a \/ n_outstanding (ntf s) = 0 ->
     run = Ret ((CRB_DENIED, 0, 0), s)).
Proof.
  cbn zeta. unfold dispatch. split; [|split; [|split; [|split]]].
  - intros Hn. rewrite !not_elem_of_cons in Hn. destruct Hn as (H1 & H2 & H3 & H4 & H5 & H6 & _).
    by rewrite !(proj2 (Z.eqb_neq _ _)) by done.
  - intros -> Hbad. cbn [Z.eqb]. unfold handle_start.
    destruct (Z.ltb_spec 0xff (arg5 payload)), (Z.ltb_spec CRB_LOCALITY_MAX (arg6 payload)); done || lia.
  - intros -> H5 H6 Hsup Hreg. unfold handle_register. rewrite H5. cbn.
    unfold mbind, cmd_bind, gets, id. unfold CRB_NOTIFICATION_ID_MASK.
    replace (255 <? arg6 payload) with false by lia. cbn.
    replace (supported =? 0) with false by lia. by replace (n_registered (ntf s) =? 0) with false by lia.
  - intros -> Hsup Hbad. unfold handle_unregister. cbn. unfold mbind, cmd_bind, gets, id.
    replace (supported =? 0) with false by lia.
    destruct (Z.eqb_spec (n_registered (ntf s)) 0), (Z.eqb_spec (n_client (ntf s)) a),
      (Z.eqb_spec (n_outstanding (ntf s)) 0); cbn; done || lia.
  - intros -> Hsup Hbad. unfold handle_finish. cbn. unfold mbind, cmd_bind, gets, id.
    replace (supported =? 0) with false by lia.
    destruct (Z.eqb_spec (n_registered (ntf s)) 0), (Z.eqb_spec (n_client (ntf s)) a),
      (Z.eqb_spec (n_outstanding (ntf s)) 0); cbn; done || lia.
Qed.

End Proofs.

(** ** Examples *)

#[local] Transparent val_tpm_copy_from_mmio val_tpm_copy_to_mmio val_tpm_execute_command_buffer.

(** A partition manager that accepts everything. *)
Definition accepting (a : ffa_args) (w : unit) : ffa_args * unit :=
  (FfaArgs FFA_SUCCESS_32 0 0 0 0 0 0 0 0 0 0 0 0 0 0 0 0 0, w).

Definition demo_tpm : @pal_tpm sample_core := sample_tpm 0 (Plat [] [] 0 1 0 0 0 0 8 0 0 0 0 0).
Definition demo_boot : @svc sample_core unit := svc_boot demo_tpm tt.

Definition demo_req (f a5 a6 : Z) : ffa_args :=
  FfaArgs FFA_MSG_SEND_DIRECT_REQ_64 0x00018002 0 0 f a5 a6 0 0 0 0 0 0 0 0 0 0 0.

Abbreviation demo_handle := (@val_tpm_crb_service_handle_request sample_core unit accepting (Some 8) false).

Definition after (payload : ffa_args) (s : @svc sample_core unit) : @svc sample_core unit :=
  match demo_handle payload s with Ret (_, s') => s' | _ => s end.

(** The client writes a register or a byte string of locality 0. *)
Definition poke (a v : Z) (s : @svc sample_core unit) : @svc sample_core unit := set_crb (stn 4 (crb s) a v) s.

(** Locality 0 requested and granted, then a notification registered and a
    command of 22 bytes placed with CTRL_START set. *)
Definition demo_granted : @svc sample_core unit :=
  after (demo_req CRB_START CRB_START_TYPE_LOCALITY_REQUEST 0) (poke 0x88f00008 1 demo_boot).
Definition demo_armed : @svc sample_core unit :=
  poke 0x88f0004c 1 (poke 0x88f00082 0x16000000
    (after (demo_req CRB_REGISTER_NOTIFICATION 0 5) demo_granted)).
Definition demo_deferred : @svc sample_core unit :=
  match @handle_start_command sample_core unit accepting (Some 8) false 1 0x8002 0 demo_armed with
  | Ret (_, s) => s
  | _ => demo_armed
  end.

Lemma demo_boot_inv : svc_inv demo_boot.
Proof. apply svc_boot_inv. Qed.

Lemma demo_req_ok f a5 a6 : is_uint 64 a5 -> 0 <= a6 < 64 -> request_ok (demo_req f a5 a6).
Proof. intros. unfold request_ok, is_uint in *. cbn. lia. Qed.

Lemma after_step payload s :
  svc_inv s -> request_ok payload -> svc_step accepting (Some 8) false s (after payload s).
Proof.
  intros Hs Hp. destruct (handle_serves accepting (Some 8) false payload s Hs Hp) as (st & v & rc & s1 & E & _).
  unfold after. rewrite E. by eapply step_request.
Qed.

Lemma poke_step a v s : (a = 0x88f00008 \/ 0x88f00010 <= a < 0x88f01000) -> a + 4 <= 0x88f01000 ->
  svc_step accepting (Some 8) false s (poke a v s).
Proof.
  intros Ha Hb. apply step_client. intros l Hl. crb_numbers l. apply ldn_stn_out. lia.
Qed.

Lemma demo_reach : rtc (svc_step accepting (Some 8) false) demo_boot demo_armed /\
  rtc (svc_step accepting (Some 8) false) demo_boot demo_granted.
Proof.
  assert (S1 : svc_step accepting (Some 8) false demo_boot (poke 0x88f00008 1 demo_boot)) by (apply poke_step; lia).
  pose proof (svc_step_inv _ _ _ _ _ demo_boot_inv S1) as I1.
  assert (S2 : svc_step accepting (Some 8) false (poke 0x88f00008 1 demo_boot) demo_granted)
    by (apply after_step; [done | by apply demo_req_ok]).
  pose proof (svc_step_inv _ _ _ _ _ I1 S2) as I2.
  assert (S3 : svc_step accepting (Some 8) false demo_granted (after (demo_req CRB_REGISTER_NOTIFICATION 0 5) demo_granted))
    by (apply after_step; [done | by apply demo_req_ok]).
  split; [|by eapply rtc_l, rtc_once].
  eapply rtc_l; [exact S1|]. eapply rtc_l; [exact S2|]. eapply rtc_l; [exact S3|].
  eapply rtc_l; [apply (poke_step 0x88f00082 0x16000000); lia|].
  apply rtc_once, (poke_step 0x88f0004c 1); lia.
Qed.

(** The same with a log of the calls. *)
Definition logging (a : ffa_args) (w : list ffa_args) : ffa_args * list ffa_args := ((accepting a tt).1, w ++ [a]).
Definition demo_boot_logged : @svc sample_core (list ffa_args) := svc_boot demo_tpm [].

Lemma request_served_witness :
  exists st v rc s' signal,
    @val_tpm_crb_service_handle_request sample_core _ logging (Some 8) false (demo_req CRB_GET_INTERFACE_VERSION 0 0) demo_boot_logged =
      Ret ((accepting (response_regs (demo_req CRB_GET_INTERFACE_VERSION 0 0) st v rc) tt).1, s') /\
    world s' = signal ++ [response_regs (demo_req CRB_GET_INTERFACE_VERSION 0 0) st v rc].
Proof.
  destruct (request_served logging (Some 8) false id (demo_req CRB_GET_INTERFACE_VERSION 0 0) demo_boot_logged)
    as (st & v & rc & s1 & signal & _ & E & L & _).
  - done.
  - apply svc_boot_inv.
  - apply demo_req_ok; [done | lia].
  - eexists st, v, rc, _, signal. split; [exact E | exact L].
Defined.

Lemma one_locality_granted_witness :
  sts_granted demo_granted 0 = true /\ 0 = 0.
Proof.
  split; [vm_compute; reflexivity|].
  apply (one_locality_granted accepting (Some 8) false demo_tpm tt demo_granted 0 0);
    [apply demo_reach | by vm_compute | by vm_compute | vm_compute; reflexivity | vm_compute; reflexivity].
Defined.

Lemma notification_state_witness :
  n_registered (ntf demo_armed) = 1 /\ ~ (n_loc_valid (ntf demo_armed) <> 0 /\ n_cmd_valid (ntf demo_armed) <> 0).
Proof.
  split; [vm_compute; reflexivity|].
  apply (notification_state accepting (Some 8) false demo_tpm tt demo_armed). apply demo_reach.
Defined.

Lemma deferred_equals_immediate_witness :
  let '(st, out, s2) := val_tpm_crb_start_command 0 demo_armed in
  exists s3, @handle_finish sample_core unit (Some 8) 1 demo_deferred =
               Ret ((st, from_option fst 0 out, from_option snd 0 out), s3) /\ same_result s2 s3.
Proof.
  apply (deferred_equals_immediate accepting (Some 8) false 1 0x8002 0 demo_armed demo_deferred).
  - intros n req req' cap buf c _. reflexivity.
  - apply (svc_reach_inv accepting (Some 8) false demo_tpm tt), demo_reach.
  - vm_compute. reflexivity.
  - vm_compute. reflexivity.
  - vm_compute. discriminate.
  - vm_compute. reflexivity.
  - vm_compute. reflexivity.
Defined.

Definition demo_done : @svc sample_core unit := (val_tpm_crb_start_command 0 demo_armed).2.

Lemma command_response_delivered_witness :
  start_set demo_armed 0 = true /\ start_set demo_done 0 = false.
Proof.
  destruct (command_response_delivered 0 demo_armed demo_done 12 0) as (_ & _ & H1 & H2 & _).
  - by vm_compute.
  - vm_compute. reflexivity.
  - split; [exact H1 | exact H2].
Defined.

Lemma bad_requests_rejected_witness :
  @dispatch sample_core unit accepting (Some 8) false 1 2 (demo_req 0x0f00ffff 0 0) demo_boot =
  Ret ((CRB_NOFUNC, 0, 0), demo_boot).
Proof.
  destruct (@bad_requests_rejected sample_core unit accepting (Some 8) false 1 2 (demo_req 0x0f00ffff 0 0) demo_boot)
    as [HN _].
  apply HN. apply (bool_decide_unpack _). vm_compute. exact I.
Defined.

(** The register accepts notification ids up to 255, but the bitmap is
    [1ULL << id]: with id 64 the next START shifts by the width of the type. *)
Theorem notification_id_64_undefined :
  demo_handle (demo_req CRB_START CRB_START_TYPE_LOCALITY_REQUEST 0)
    (after (demo_req CRB_REGISTER_NOTIFICATION 0 64) demo_boot) = Fault.
Proof. vm_compute. reflexivity. Qed.
