(* ===== verification/EndpointInfo.v ===== *)
(** * The endpoint table ([val_endpoint_info.c], [val_def.h])

    Every image carries a table that says, for each logical endpoint id, the
    FF-A id, the exception level, the translation granule and whether the
    partition is deployed.  The table itself is generated at build time
    ([val_endpoints.h]); here it is a list of records indexed by logical id.
    The id FFA_ID_GET answers, fixed for the life of an endpoint, is the section
    parameter [curr_id]. *)

From stdpp Require Import strings.
From S2P Require Import Prelude ValCommon.
#[local] Open Scope Z_scope.

(** ** Build options *)
Class ValConfig := {
  ENABLE_TPM_CRB : bool;
  PLATFORM_NS_HYP_MULTI_VM : bool;
  PLATFORM_NS_HYPERVISOR_PRESENT : bool;
  PLATFORM_SP_EL : Z;
  PLATFORM_SPMC_EL : Z;
  PLATFORM_SP_SEND_DIRECT_REQ : bool;
  PLATFORM_VM_SEND_DIRECT_RESP : bool
}.

(** ** Logical ids *)
Definition NO_SERVER_EP : Z := 0.

Section Ids.
Context `{ValConfig}.
Definition TPM_SP : Z := 1.
Definition SP1 : Z := if ENABLE_TPM_CRB then 0xff else 1.
Definition SP2 : Z := if ENABLE_TPM_CRB then 0xfe else 2.
Definition SP3 : Z := if ENABLE_TPM_CRB then 0xfd else 3.
Definition SP4 : Z := if ENABLE_TPM_CRB then 0xfc else 4.
Definition VM1 : Z := if ENABLE_TPM_CRB then 2 else 5.
Definition VM2 : Z := if ENABLE_TPM_CRB then 0xfb else 6.
Definition VM3 : Z := if ENABLE_TPM_CRB then 0xfa else 7.

Definition VAL_S_EP_COUNT : Z :=
  if PLATFORM_NS_HYPERVISOR_PRESENT && (PLATFORM_SP_EL =? -1) then 0
  else if ENABLE_TPM_CRB then 1 else 4.
End Ids.

Definition VAL_TG0_4K : Z := 0x0.
Definition VAL_TG0_64K : Z := 0x1.
Definition VAL_TG0_16K : Z := 0x2.
Definition EL0 : Z := 0.
Definition EL1 : Z := 1.
Definition EL2 : Z := 2.
Definition GET_EL_NUM (x : Z) : Z := Z.land x 0xf.
Definition GET_EL_WIDTH (x : Z) : Z := Z.shiftr (Z.land x 0xf0) 4.

Definition VAL_PARTITION_NOT_PRESENT : Z := 0x0.
Definition VAL_PARTITION_PRESENT : Z := 0xF.

(** ** val_endpoint_info_t *)
Record ep_info := EpInfo {
  ep_name : list Z;        (* char name[5] *)
  is_valid : Z;            (* low four bits of partition_status *)
  is_secure : Z;           (* high four bits *)
  ep_id : Z;
  tg0 : Z;
  el_info : Z;
  ec_count : Z;
  ep_properties : Z;
  ep_uuid : list Z         (* uint32_t uuid[4] *)
}.

Definition set_valid (v : Z) (e : ep_info) : ep_info :=
  EpInfo (ep_name e) v (is_secure e) (ep_id e) (tg0 e) (el_info e) (ec_count e) (ep_properties e) (ep_uuid e).
Definition set_tg0 (v : Z) (e : ep_info) : ep_info :=
  EpInfo (ep_name e) (is_valid e) (is_secure e) (ep_id e) v (el_info e) (ec_count e) (ep_properties e) (ep_uuid e).
Definition set_ids (id count : Z) (e : ep_info) : ep_info :=
  EpInfo (ep_name e) (is_valid e) (is_secure e) id (tg0 e) (el_info e) count (ep_properties e) (ep_uuid e).

Abbreviation ep_table := (list ep_info).

(** [endpoint_info_table[i]] without a bounds check of its own. *)
Definition ep_at (t : ep_table) (i : Z) : outcome ep_info :=
  match t !! Z.to_nat i with Some e => Ret e | None => Fault end.

Definition ep_set (t : ep_table) (i : Z) (f : ep_info -> ep_info) : outcome ep_table :=
  match t !! Z.to_nat i with Some e => Ret (<[Z.to_nat i := f e]> t) | None => Fault end.

Definition val_get_endpoint_info_table_count (t : ep_table) : Z := u32 (Z.of_nat (length t)).

Definition val_get_endpoint_id (t : ep_table) (logical_id : Z) : outcome Z :=
  if val_get_endpoint_info_table_count t <=? logical_id then Panic
  else let! e := ep_at t logical_id in Ret (ep_id e).

(** The search of both logical id functions: the index at which [id] is found,
    or the length of the table. *)
Fixpoint logical_id_loop (fuel : nat) (t : ep_table) (id logical_id : Z) : outcome (bool * Z) :=
  if logical_id <? Z.of_nat (length t) then
    match fuel with
    | O => Diverge
    | S fuel' =>
        let! e := ep_at t logical_id in
        if ep_id e =? id then Ret (true, logical_id)
        else logical_id_loop fuel' t id (u16 (logical_id + 1))
    end
  else Ret (false, logical_id).

Definition val_get_endpoint_logical_id (t : ep_table) (endpoint_id : Z) : outcome Z :=
  let! (found, logical_id) := logical_id_loop (length t) t endpoint_id 1 in
  if found then Ret logical_id else Panic.

Section Names.
Context `{ValConfig}.
Definition val_get_endpoint_name (logical_id : Z) : string :=
  if logical_id =? 0 then "NO_SERVER_EP"
  else if ENABLE_TPM_CRB then
    if logical_id =? 1 then "TPM_SP" else if logical_id =? 2 then "VM1" else "INV"
  else if logical_id =? 1 then "SP1" else if logical_id =? 2 then "SP2"
  else if logical_id =? 3 then "SP3" else if logical_id =? 4 then "SP4"
  else if logical_id =? 5 then "VM1" else if logical_id =? 6 then "VM2"
  else if logical_id =? 7 then "VM3" else "INV".
End Names.

Definition val_set_endpoint_tt_tg0 (t : ep_table) (logical_id v : Z) : outcome ep_table :=
  if val_get_endpoint_info_table_count t <=? logical_id then Panic
  else ep_set t logical_id (set_tg0 v).

Definition val_get_endpoint_el_info (t : ep_table) (logical_id : Z) : outcome Z :=
  if val_get_endpoint_info_table_count t <=? logical_id then Panic
  else let! e := ep_at t logical_id in Ret (el_info e).

Definition val_get_secure_partition_count (t : ep_table) : Z :=
  fold_left (fun count e => if negb (is_valid e =? 0) && negb (is_secure e =? 0) then u32 (count + 1) else count) t 0.

Definition val_is_partition_valid (t : ep_table) (logical_id : Z) : outcome Z :=
  if val_get_endpoint_info_table_count t <=? logical_id then Ret 0
  else let! e := ep_at t logical_id in Ret (if negb (is_valid e =? 0) then 1 else 0).

Section Current.
Context (curr_id : Z).

Definition val_get_curr_endpoint_logical_id (t : ep_table) : outcome Z :=
  let! (_, logical_id) := logical_id_loop (length t) t curr_id 1 in Ret logical_id.

Definition val_get_curr_endpoint_name (t : ep_table) : outcome (list Z) :=
  let! l := val_get_curr_endpoint_logical_id t in let! e := ep_at t l in Ret (ep_name e).
Definition val_get_curr_endpoint_tt_tg0 (t : ep_table) : outcome Z :=
  let! l := val_get_curr_endpoint_logical_id t in let! e := ep_at t l in Ret (tg0 e).
Definition val_get_curr_endpoint_el_info (t : ep_table) : outcome Z :=
  let! l := val_get_curr_endpoint_logical_id t in let! e := ep_at t l in Ret (el_info e).

Definition val_curr_endpoint_page_size (t : ep_table) : outcome Z :=
  let! g := val_get_curr_endpoint_tt_tg0 t in
  Ret (if u8 g =? 0 then 4 * 1024 else if u8 g =? 1 then 64 * 1024 else 16 * 1024).
End Current.

(** ** Choosing the granule *)
Section Granule.
Context `{ValCommon} `{ValConfig}.

(** The endpoints of a build, in the order their entries are updated. *)
Definition tg0_endpoints : list Z :=
  (if ENABLE_TPM_CRB then [TPM_SP] else [SP1; SP2; SP3; SP4]) ++ [VM1]
  ++ (if PLATFORM_NS_HYP_MULTI_VM then [VM2; VM3] else []).

Fixpoint set_all_tg0 (ids : list Z) (v : Z) (t : ep_table) : outcome ep_table :=
  match ids with
  | [] => Ret t
  | l :: ids' => let! t := val_set_endpoint_tt_tg0 t l v in set_all_tg0 ids' v t
  end.

(** [mmfr0] is what [val_id_aa64mmfr0_el1_read] gives. *)
Definition val_assign_tg0_to_endpoint (mmfr0 : Z) (t : ep_table) : outcome (Z * ep_table) :=
  let tg0_4k := Z.land (Z.shiftr mmfr0 28) 0xf =? 0x0 in
  let tg0_64k := Z.land (Z.shiftr mmfr0 24) 0xf =? 0x0 in
  let tg0_16k := Z.land (Z.shiftr mmfr0 20) 0xf =? 0x1 in
  if tg0_4k then Ret (VAL_SUCCESS, t)
  else if tg0_64k then
    let! t := set_all_tg0 tg0_endpoints VAL_TG0_64K t in Ret (VAL_SUCCESS, t)
  else if tg0_16k then
    let! t := set_all_tg0 tg0_endpoints VAL_TG0_16K t in Ret (VAL_SUCCESS, t)
  else Ret (VAL_ERROR, t).
End Granule.

(** ** Logical ids *)

Lemma ep_at_lookup t i e : 0 <= i -> t !! Z.to_nat i = Some e -> ep_at t i = Ret e.
Proof. unfold ep_at. by intros _ ->. Qed.

Lemma table_count t : Z.of_nat (length t) < 2 ^ 16 -> val_get_endpoint_info_table_count t = Z.of_nat (length t).
Proof. intros. unfold val_get_endpoint_info_table_count. by usmall. Qed.

Lemma logical_id_loop_found fuel t id k l e :
  Z.of_nat (length t) < 2 ^ 16 -> 0 <= k <= l -> t !! Z.to_nat l = Some e -> ep_id e = id ->
  (forall j e', k <= j < l -> t !! Z.to_nat j = Some e' -> ep_id e' <> id) ->
  (Z.to_nat (l - k) < fuel)%nat ->
  logical_id_loop fuel t id k = Ret (true, l).
Proof.
  intros Hlen Hk Hl Hid Hne. pose proof (lookup_lt_Some _ _ _ Hl) as Hlt.
  revert k Hk Hne. induction fuel as [|fuel IH]; intros k Hk Hne Hf; [lia|]. cbn [logical_id_loop].
  rewrite (proj2 (Z.ltb_lt _ _)) by lia.
  destruct (lookup_lt_is_Some_2 t (Z.to_nat k) ltac:(lia)) as [e' He'].
  rewrite (ep_at_lookup _ _ e') by (done || lia). cbn [obind].
  destruct (decide (k = l)) as [->|Hkl].
  - rewrite Hl in He'. injection He' as <-. by rewrite Hid, Z.eqb_refl.
  - rewrite (proj2 (Z.eqb_neq _ _)) by (apply (Hne k e'); [lia | done]).
    rewrite (uwrap_small 16) by lia. apply IH; [lia| |lia]. intros j e1 Hj. apply Hne. lia.
Qed.

(** The ids of the deployed entries; entry 0 stands for the hypervisor. *)
Definition ep_ids (t : ep_table) : list Z := ep_id <$> drop 1 t.

Lemma ep_ids_distinct t i j e e' :
  NoDup (ep_ids t) -> 1 <= i -> 1 <= j -> i <> j ->
  t !! Z.to_nat i = Some e -> t !! Z.to_nat j = Some e' -> ep_id e <> ep_id e'.
Proof.
  intros Hnd Hi Hj Hij He He' Heq. apply Hij.
  enough (Z.to_nat i - 1 = Z.to_nat j - 1)%nat by lia.
  apply (NoDup_lookup (ep_ids t) _ _ (ep_id e) Hnd).
  - unfold ep_ids. rewrite list_lookup_fmap, lookup_drop.
    replace (1 + (Z.to_nat i - 1))%nat with (Z.to_nat i) by lia. by rewrite He.
  - unfold ep_ids. rewrite list_lookup_fmap, lookup_drop.
    replace (1 + (Z.to_nat j - 1))%nat with (Z.to_nat j) by lia. rewrite He', Heq. done.
Qed.

(** The table lookups by logical id and by partition id are inverse to each other
    when the partition ids are distinct. *)
Theorem logical_id_roundtrip t l :
  NoDup (ep_ids t) -> 1 <= l < Z.of_nat (length t) -> Z.of_nat (length t) < 2 ^ 16 ->
  exists id, val_get_endpoint_id t l = Ret id /\
             val_get_endpoint_logical_id t id = Ret l /\ val_get_curr_endpoint_logical_id id t = Ret l.
Proof.
  intros Hnd Hl Hlen. destruct (lookup_lt_is_Some_2 t (Z.to_nat l) ltac:(lia)) as [e He].
  exists (ep_id e).
  assert (Hloop : logical_id_loop (length t) t (ep_id e) 1 = Ret (true, l)).
  { apply logical_id_loop_found with e; try done; try lia.
    intros j e' Hj Hj'. apply (ep_ids_distinct t j l e' e Hnd); (done || lia). }
  split; [|split].
  - unfold val_get_endpoint_id. rewrite table_count, (proj2 (Z.leb_gt _ _)) by lia.
    by rewrite (ep_at_lookup t l e) by (done || lia).
  - unfold val_get_endpoint_logical_id. by rewrite Hloop.
  - unfold val_get_curr_endpoint_logical_id. by rewrite Hloop.
Qed.

Definition demo_ep (id : Z) : ep_info := EpInfo [83; 80; 0; 0; 0] 0 15 id 0 17 8 0 [1; 2; 3; 4].
Definition demo_table : ep_table :=
  [demo_ep 0; demo_ep 0x8001; demo_ep 0x8002; demo_ep 0x8003; demo_ep 0x8004; demo_ep 1; demo_ep 2; demo_ep 3].

Lemma logical_id_roundtrip_witness :
  exists id, val_get_endpoint_id demo_table 3 = Ret id /\
             val_get_endpoint_logical_id demo_table id = Ret 3 /\
             val_get_curr_endpoint_logical_id id demo_table = Ret 3.
Proof.
  apply (logical_id_roundtrip demo_table 3); [apply (bool_decide_unpack _); vm_compute; exact I| |];
    vm_compute; intuition congruence.
Defined.

(** ** The granule *)

Lemma set_all_tg0_spec `{ValConfig} ids v t :
  Z.of_nat (length t) < 2 ^ 16 -> Forall (fun l => 0 <= l < Z.of_nat (length t)) ids ->
  exists t', set_all_tg0 ids v t = Ret t' /\ length t' = length t /\
    forall i e, t !! i = Some e ->
      t' !! i = Some (if decide (Z.of_nat i ∈ ids) then set_tg0 v e else e).
Proof.
  intros Hlen Hids. revert t Hlen Hids. induction ids as [|l ids IH]; intros t Hlen Hids.
  { exists t. split; [done|]. split; [done|]. intros i e He. rewrite decide_False by apply not_elem_of_nil.
    done. }
  apply List.Forall_cons_iff in Hids as [Hl Hids]. cbn [set_all_tg0]. unfold val_set_endpoint_tt_tg0.
  rewrite table_count, (proj2 (Z.leb_gt _ _)) by lia.
  destruct (lookup_lt_is_Some_2 t (Z.to_nat l) ltac:(lia)) as [e0 He0].
  unfold ep_set. rewrite He0. cbn [obind].
  destruct (IH (<[Z.to_nat l := set_tg0 v e0]> t)) as (t' & -> & Hlen' & Ht').
  1,2: by rewrite length_insert.
  exists t'. split; [done|]. rewrite length_insert in Hlen'. split; [done|]. intros i e He.
  destruct (decide (i = Z.to_nat l)) as [->|Hne].
  - rewrite He in He0. injection He0 as ->. rewrite (Ht' _ (set_tg0 v e0)).
    2:{ apply list_lookup_insert_eq, lookup_lt_Some with e0. done. }
    rewrite Z2Nat.id by lia. rewrite (decide_True (P := l ∈ l :: ids)) by left.
    by case_decide.
  - rewrite (Ht' i e) by (by rewrite list_lookup_insert_ne). f_equal.
    destruct (decide (Z.of_nat i ∈ ids)) as [Hi|Hi].
    + rewrite decide_True; [done | by right].
    + rewrite decide_False; [done|]. intros [Heq|]%elem_of_cons; [lia|done].
Qed.

Lemma logical_id_loop_ids fuel t t' id k :
  length t' = length t -> (forall i, ep_id <$> t' !! i = ep_id <$> t !! i) ->
  logical_id_loop fuel t' id k = logical_id_loop fuel t id k.
Proof.
  intros Hlen Hid. revert k. induction fuel as [|fuel IH]; intros k; cbn [logical_id_loop];
    rewrite Hlen; destruct (k <? _); try done.
  unfold ep_at. specialize (Hid (Z.to_nat k)).
  destruct (t' !! _), (t !! _); try done. cbn in Hid. injection Hid as Hid. cbn [obind]. by rewrite Hid, IH.
Qed.

(** [ID_AA64MMFR0_EL1]: the granule fields TGran4, TGran64, TGran16. *)
Definition granule_supported (mmfr0 page_size : Z) : Prop :=
  (page_size = 4 * 1024 /\ Z.land (Z.shiftr mmfr0 28) 0xf = 0) \/
  (page_size = 64 * 1024 /\ Z.land (Z.shiftr mmfr0 24) 0xf = 0) \/
  (page_size = 16 * 1024 /\ Z.land (Z.shiftr mmfr0 20) 0xf = 1).

Section GranuleProof.
Context `{ValCommon} `{ValConfig}.

Lemma page_size_set id l v t t' :
  val_get_curr_endpoint_logical_id id t = Ret l -> 0 <= l < Z.of_nat (length t) ->
  l ∈ tg0_endpoints -> Z.of_nat (length t) < 2 ^ 16 ->
  Forall (fun l => 0 <= l < Z.of_nat (length t)) tg0_endpoints ->
  set_all_tg0 tg0_endpoints v t = Ret t' ->
  val_get_curr_endpoint_tt_tg0 id t' = Ret v.
Proof.
  intros Hl Hlr Hin Hlen Hall Hset.
  destruct (set_all_tg0_spec tg0_endpoints v t Hlen Hall) as (t1 & Hset' & Hlen' & Ht1).
  rewrite Hset in Hset'. injection Hset' as <-.
  destruct (lookup_lt_is_Some_2 t (Z.to_nat l) ltac:(lia)) as [e He].
  unfold val_get_curr_endpoint_tt_tg0, val_get_curr_endpoint_logical_id in *.
  rewrite Hlen', (logical_id_loop_ids _ t t'), Hl; [|done|].
  - cbn [obind]. unfold ep_at. rewrite (Ht1 _ e He), Z2Nat.id, decide_True by (done || lia). done.
  - intros i. destruct (t !! i) as [e'|] eqn:Ei.
    + rewrite (Ht1 _ _ Ei). cbn. by case_decide.
    + apply lookup_ge_None in Ei. rewrite lookup_ge_None_2 by lia. done.
Qed.

(** For an endpoint that sets up its own translation tables and whose table entry
    still has the default granule, val_assign_tg0_to_endpoint either returns
    VAL_SUCCESS and the page size the endpoint then reports is a granule
    ID_AA64MMFR0 says the CPU supports, or returns VAL_ERROR, changes nothing, and
    the CPU supports none. *)
Theorem assigned_granule_supported mmfr0 t id l e :
  Z.of_nat (length t) < 2 ^ 16 -> Forall (fun l => 0 <= l < Z.of_nat (length t)) tg0_endpoints ->
  val_get_curr_endpoint_logical_id id t = Ret l -> l ∈ tg0_endpoints ->
  t !! Z.to_nat l = Some e -> tg0 e = VAL_TG0_4K ->
  exists s t', val_assign_tg0_to_endpoint mmfr0 t = Ret (s, t') /\
    (s = VAL_SUCCESS -> exists n, val_curr_endpoint_page_size id t' = Ret n /\ granule_supported mmfr0 n) /\
    (s <> VAL_SUCCESS -> s = VAL_ERROR /\ t' = t /\ forall n, ~ granule_supported mmfr0 n).
Proof.
  intros Hlen Hall Hl Hin He Htg. unfold val_assign_tg0_to_endpoint.
  assert (Hlr : 0 <= l < Z.of_nat (length t))
    by (rewrite List.Forall_forall in Hall; by apply Hall, list_elem_of_In).
  pose proof (fun v => set_all_tg0_spec tg0_endpoints v t Hlen Hall) as Hset.
  pose proof (fun v t' => page_size_set id l v t t' Hl Hlr Hin Hlen Hall) as Hpage.
  unfold granule_supported, val_curr_endpoint_page_size.
  destruct (Z.eqb_spec (Z.land (Z.shiftr mmfr0 28) 0xf) 0) as [E4|E4];
    [|destruct (Z.eqb_spec (Z.land (Z.shiftr mmfr0 24) 0xf) 0) as [E64|E64];
      [|destruct (Z.eqb_spec (Z.land (Z.shiftr mmfr0 20) 0xf) 1) as [E16|E16]]].
  - exists VAL_SUCCESS, t. split; [done|]. split; [|done]. intros _. exists (4 * 1024). split; [|by left].
    unfold val_get_curr_endpoint_tt_tg0. rewrite Hl. cbn [obind]. unfold ep_at. rewrite He. cbn [obind].
    by rewrite Htg.
  - destruct (Hset VAL_TG0_64K) as (t' & E & _). rewrite E. cbn [obind]. exists VAL_SUCCESS, t'.
    split; [done|]. split; [|done]. intros _. exists (64 * 1024). rewrite (Hpage _ _ E).
    split; [reflexivity | right; left; by split].
  - destruct (Hset VAL_TG0_16K) as (t' & E & _). rewrite E. cbn [obind]. exists VAL_SUCCESS, t'.
    split; [done|]. split; [|done]. intros _. exists (16 * 1024). rewrite (Hpage _ _ E).
    split; [reflexivity | right; right; by split].
  - exists VAL_ERROR, t. split; [done|]. split; [intros Hc; by destruct (VAL_ERROR_not_success Hc)|].
    intros _. split; [done|]. split; [done|]. tauto.
Qed.
End GranuleProof.

Definition demo_config : ValConfig := {|
  ENABLE_TPM_CRB := false; PLATFORM_NS_HYP_MULTI_VM := true; PLATFORM_NS_HYPERVISOR_PRESENT := true;
  PLATFORM_SP_EL := 1; PLATFORM_SPMC_EL := 2; PLATFORM_SP_SEND_DIRECT_REQ := true;
  PLATFORM_VM_SEND_DIRECT_RESP := true |}.

(** A core with the 16K granule only. *)
Lemma assigned_granule_supported_witness :
  exists s t', @val_assign_tg0_to_endpoint sample_val_common demo_config 0xf_1f10_0000 demo_table = Ret (s, t') /\
    (s = 0 -> exists n, val_curr_endpoint_page_size 0x8002 t' = Ret n /\ granule_supported 0xf_1f10_0000 n) /\
    (s <> 0 -> s = VAL_ERROR /\ t' = demo_table /\ forall n, ~ granule_supported 0xf_1f10_0000 n).
Proof.
  apply (@assigned_granule_supported sample_val_common demo_config 0xf_1f10_0000 demo_table 0x8002 2 (demo_ep 0x8002));
    [reflexivity | | reflexivity | | reflexivity | reflexivity].
  - apply (bool_decide_unpack _). vm_compute. exact I.
  - apply (bool_decide_unpack _). vm_compute. exact I.
Defined.
