(* ===== verification/TpmClient.v ===== *)
(** * The client of the TPM service (val_tpm_crb_common_abi.c)

    What the TPM tests call in VM1: requests to the TPM partition, the buffer of a
    locality, the header of a response, and the life of a notification: bitmap,
    binding, interrupt, registration and their release.

    The client reaches the outside in four ways: the FF-A conduit, the CRB window
    it shares with the partition ([get_crb], [put_crb]), FFA_ID_GET, and the
    interrupt controller, whose operations it knows through the class [IrqOps]. *)

From S2P Require Import Prelude ValCommon CMem Bytes EndpointInfo FfaAbi FfaHelpers TpmPlatform TpmCrb.

(** ** The interrupt controller, as its clients see it (val_irq.c) *)
Class IrqOps (S : Type) := {
  val_irq_register_handler : Z -> cmd S Z;
  val_irq_unregister_handler : Z -> cmd S Z;
  val_irq_enable : Z -> Z -> cmd S unit;
  val_irq_disable : Z -> cmd S unit
}.

(** ** Constants *)
Definition VAL_TPM_ENDPOINT_ID_SHIFT : Z := 16.
Definition VAL_TPM_NOTIFICATION_ID : Z := 1.
Definition FFA_NOTIFICATION (id : Z) : Z := u64 (Z.shiftl 1 id).
Definition VAL_TPM_NOTIFICATION_BITMAP : Z := FFA_NOTIFICATION VAL_TPM_NOTIFICATION_ID.
Definition VAL_TPM_NOTIFICATION_VCPU_COUNT : Z := 1.
Definition VAL_TPM_NOTIFICATION_PRESENT : Z := 1.
Definition VAL_TPM_NOTIFICATION_ABSENT : Z := 0.
Definition TPM_GET_CAPABILITY_CMD_SIZE : Z := 22.
Definition TPM_MALFORMED_GET_CAPABILITY_CMD_SIZE : Z := 18.
Definition TPM_CMD_TAG_OFFSET : Z := 0.
Definition TPM_CMD_CODE_OFFSET : Z := 6.
Definition TPM_RSP_TAG_OFFSET : Z := 0.
Definition TPM_RSP_SIZE_OFFSET : Z := 2.
Definition TPM2_ST_NO_SESSIONS : Z := 0x8001.
Definition TPM2_CC_GET_CAPABILITY : Z := 0x17a.
Definition TPM2_CAP_TPM_PROPERTIES : Z := 6.
Definition TPM2_PT_FIXED : Z := 0x100.
Definition FFA_FEATURE_SRI : Z := 2.
Definition FFA_NOTIFICATIONS_FLAG_BITMAP_SP : Z := 1.
Definition FFA_NOTIFICATIONS_BITMAP (lo hi : Z) : Z := Z.lor lo (u64 (Z.shiftl hi 32)).

(** ** Buffers *)

(** [cmd] is [None] for a null pointer; the bytes past [cmd_size] stay. *)
Definition val_tpm_prepare_get_capability (cmd : option (list Z)) (cmd_size : Z) : option (list Z) :=
  match cmd with
  | None => None
  | Some cmd =>
      let cmd := splice cmd 0 (zeros cmd_size) in
      if cmd_size <? TPM_MALFORMED_GET_CAPABILITY_CMD_SIZE then Some cmd
      else
        let cmd := val_tpm_be16_write cmd TPM_CMD_TAG_OFFSET TPM2_ST_NO_SESSIONS in
        let cmd := val_tpm_be32_write cmd TPM_CMD_SIZE_OFFSET cmd_size in
        let cmd := val_tpm_be32_write cmd TPM_CMD_CODE_OFFSET TPM2_CC_GET_CAPABILITY in
        let cmd := val_tpm_be32_write cmd 10 TPM2_CAP_TPM_PROPERTIES in
        let cmd := val_tpm_be32_write cmd 14 TPM2_PT_FIXED in
        Some (if TPM_GET_CAPABILITY_CMD_SIZE <=? cmd_size then val_tpm_be32_write cmd 18 1 else cmd)
  end.

Section Client.
Context `{ValCommon} `{ValConfig}.
Context {S : Type} (conduit : ffa_args -> S -> ffa_args * S) `{!IrqOps S}.
Context (resume_on_interrupt : bool) (fuel : nat).
Context (get_crb : S -> mem) (put_crb : mem -> S -> S).
(** The build option TARGET_LINUX. *)
Context (TARGET_LINUX : bool).

(** [PLATFORM_NS_HYPERVISOR_PRESENT == 0]: VM1 manages its notifications itself;
    outside Linux it also takes the schedule receiver interrupt (SRI). *)
Definition own_bitmap : bool := negb PLATFORM_NS_HYPERVISOR_PRESENT.
Definition own_sri : bool := negb PLATFORM_NS_HYPERVISOR_PRESENT && negb TARGET_LINUX.

(** The static variable of the file and the outside. *)
Record client := Client { g_tpm_sri_seen : Z; outside : S }.
Definition set_seen (v : Z) (s : client) : client := Client v (outside s).
Definition set_outside (w : S) (s : client) : client := Client (g_tpm_sri_seen s) w.
Definition out {A} (c : cmd S A) : cmd client A := zoom outside set_outside c.

Definition val_tpm_sri_irq_handler : cmd client Z := _ ← modify (set_seen 1); mret 0.

(** ** Requests *)

(** The two ids, or an error; [None] stands for a null pointer argument or a null
    endpoint table. *)
Definition val_tpm_get_endpoint_ids (client_id tpm_sp_id : option Z) (ep_info : option ep_table)
  : cmd client (Z * option (Z * Z)) :=
  match client_id, tpm_sp_id, ep_info with
  | Some _, Some _, Some t =>
      id ← out (val_get_curr_endpoint_id conduit);
      sp ← lift (ep_at t TPM_SP);
      mret (VAL_SUCCESS, Some (id, ep_id sp))
  | _, _, _ => mret (VAL_ERROR, None)
  end.

(** The request; the answer of the service is the second component. *)
Definition val_tpm_send_abi (sender_id tpm_sp_id function_id a0 a1 a2 : Z) (payload : option ffa_args)
  : cmd client (Z * option ffa_args) :=
  match payload with
  | None => mret (VAL_ERROR, None)
  | Some _ =>
      r ← out (val_ffa_msg_send_direct_req_64 conduit resume_on_interrupt fuel
            (FfaArgs 0 (Z.lor (u32 (Z.shiftl sender_id VAL_TPM_ENDPOINT_ID_SHIFT)) tpm_sp_id) 0 0
               function_id a0 a1 a2 0 0 0 0 0 0 0 0 0 0));
      mret (VAL_SUCCESS, Some r)
  end.

Definition val_tpm_send_and_expect (sender_id tpm_sp_id function_id a0 a1 a2 expected_status : Z) : cmd client Z :=
  '(st, r) ← val_tpm_send_abi sender_id tpm_sp_id function_id a0 a1 a2 (Some ffa_args_zero);
  let payload := default ffa_args_zero r in
  if negb (st =? VAL_SUCCESS) then mret VAL_ERROR
  else if negb (fid payload =? FFA_MSG_SEND_DIRECT_RESP_64) then mret VAL_ERROR
  else if negb (u32 (arg4 payload) =? expected_status) then mret VAL_ERROR
  else mret VAL_SUCCESS.

Definition val_tpm_relinquish_locality (sender_id tpm_sp_id locality : Z) : cmd client Z :=
  if CRB_LOCALITY_MAX <? locality then mret VAL_ERROR
  else
    _ ← modify (fun s => set_outside (put_crb (val_tpm_crb_write32 (get_crb (outside s))
                           (val_tpm_crb_loc_ctrl locality) TPM_LOC_CTRL_RELINQUISH) (outside s)) s);
    val_tpm_send_and_expect sender_id tpm_sp_id CRB_START CRB_START_TYPE_LOCALITY_REQUEST locality 0 CRB_OK.

(** ** The CRB window *)

Definition val_tpm_crb_mmio_range_valid (addr size : Z) : Z :=
  if size =? 0 then VAL_SUCCESS
  else
    let crb_base := VAL_TPM_CRB_BASE in
    let crb_size := (CRB_LOCALITY_MAX + 1) * VAL_TPM_CRB_LOCALITY_SIZE in
    let crb_end := u64 (crb_base + crb_size) in
    if (crb_end <? crb_base) || (addr <? crb_base) || (crb_end <=? addr) then VAL_ERROR
    else if crb_end - addr <? size then VAL_ERROR
    else VAL_SUCCESS.

(** [src] has at least [size] bytes, or is the null pointer. *)
Definition val_tpm_crb_copy_to_mmio (dst : Z) (src : option (list Z)) (size : Z) : cmd client Z := fun s =>
  match src with
  | None => Ret (VAL_ERROR, s)
  | Some src =>
      if negb (val_tpm_crb_mmio_range_valid dst size =? VAL_SUCCESS) then Ret (VAL_ERROR, s)
      else Ret (VAL_SUCCESS, set_outside (put_crb (val_tpm_copy_to_mmio (get_crb (outside s)) dst (slice src 0 size))
                                            (outside s)) s)
  end.

Definition val_tpm_crb_copy_from_mmio (dst : option (list Z)) (dst_size src size : Z)
  : cmd client (Z * option (list Z)) := fun s =>
  match dst with
  | None => Ret (VAL_ERROR, None, s)
  | Some dst =>
      if (dst_size <? size) || negb (val_tpm_crb_mmio_range_valid src size =? VAL_SUCCESS)
      then Ret (VAL_ERROR, Some dst, s)
      else Ret (VAL_SUCCESS, Some (splice dst 0 (val_tpm_copy_from_mmio (Z.to_nat size) (get_crb (outside s)) src)), s)
  end.

(** The size and the code of a response whose header is valid. *)
Definition val_tpm_validate_response_header (rsp : option (list Z)) (rsp_buf_size : Z) : Z * option (Z * Z) :=
  match rsp with
  | None => (VAL_ERROR, None)
  | Some rsp =>
      if rsp_buf_size <? TPM_RSP_HEADER_SIZE then (VAL_ERROR, None)
      else if negb (val_tpm_be16_read rsp TPM_RSP_TAG_OFFSET =? TPM2_ST_NO_SESSIONS) then (VAL_ERROR, None)
      else
        let size := val_tpm_be32_read rsp TPM_RSP_SIZE_OFFSET in
        if (size <? TPM_RSP_HEADER_SIZE) || (rsp_buf_size <? size) then (VAL_ERROR, None)
        else (VAL_SUCCESS, Some (size, val_tpm_be32_read rsp TPM_RSP_RC_OFFSET))
  end.

(** ** Notifications *)

Record notification_context := Ctx {
  client_id : Z; tpm_sp_id : Z; bitmap : Z;
  bitmap_created : Z; bound : Z; registered : Z;
  sri_id : Z; sri_registered : Z; sri_enabled : Z
}.
Definition set_created (v : Z) (c : notification_context) : notification_context :=
  Ctx (client_id c) (tpm_sp_id c) (bitmap c) v (bound c) (registered c) (sri_id c) (sri_registered c) (sri_enabled c).
Definition set_bound (v : Z) (c : notification_context) : notification_context :=
  Ctx (client_id c) (tpm_sp_id c) (bitmap c) (bitmap_created c) v (registered c) (sri_id c) (sri_registered c) (sri_enabled c).
Definition set_registered (v : Z) (c : notification_context) : notification_context :=
  Ctx (client_id c) (tpm_sp_id c) (bitmap c) (bitmap_created c) (bound c) v (sri_id c) (sri_registered c) (sri_enabled c).
Definition set_sri (id reg en : Z) (c : notification_context) : notification_context :=
  Ctx (client_id c) (tpm_sp_id c) (bitmap c) (bitmap_created c) (bound c) (registered c) id reg en.

(** An operation on [*ctx]; [None] is the null pointer and gives the status [err]. *)
Definition with_ctx (err : Z) (ctx : option notification_context)
    (k : notification_context -> cmd client (Z * notification_context)) : cmd client (Z * option notification_context) :=
  match ctx with
  | None => mret (err, None)
  | Some c => '(st, c) ← k c; mret (st, Some c)
  end.

Definition args1 (a1 : Z) : ffa_args := FfaArgs 0 a1 0 0 0 0 0 0 0 0 0 0 0 0 0 0 0 0.

Definition val_tpm_notification_feature_supported (sender_id tpm_sp_id : Z) : cmd client Z :=
  '(status, r) ← val_tpm_send_abi sender_id tpm_sp_id CRB_GET_FEATURE_INFO CRB_FEATURE_NOTIFICATION 0 0 (Some ffa_args_zero);
  let payload := default ffa_args_zero r in
  if negb (status =? VAL_SUCCESS) then mret status
  else if negb (fid payload =? FFA_MSG_SEND_DIRECT_RESP_64) then mret VAL_ERROR
  else if u32 (arg4 payload) =? CRB_OK then mret VAL_SUCCESS
  else if (u32 (arg4 payload) =? CRB_NOTSUP) || (u32 (arg4 payload) =? CRB_NOFUNC) then mret VAL_SKIP_CHECK
  else mret VAL_ERROR.

Definition val_tpm_notification_create_bitmap (ctx : option notification_context)
  : cmd client (Z * option notification_context) :=
  if own_bitmap then with_ctx VAL_ERROR ctx (fun c =>
    payload ← out (val_ffa_notification_bitmap_create conduit
      (FfaArgs 0 (client_id c) VAL_TPM_NOTIFICATION_VCPU_COUNT 0 0 0 0 0 0 0 0 0 0 0 0 0 0 0));
    if fid payload =? FFA_ERROR_32 then
      mret (if u32 (arg2 payload) =? FFA_ERROR_NOT_SUPPORTED then VAL_SKIP_CHECK else VAL_ERROR, c)
    else mret (VAL_SUCCESS, set_created 1 c))
  else mret (VAL_SUCCESS, ctx).

Definition val_tpm_notification_bitmap_destroy (id : Z) : cmd client Z :=
  payload ← out (val_ffa_notification_bitmap_destroy conduit (args1 id));
  mret (if fid payload =? FFA_ERROR_32 then VAL_ERROR else VAL_SUCCESS).

(** The two ids and the bitmap in two halves. *)
Definition bind_args (c : notification_context) : ffa_args :=
  FfaArgs 0 (Z.lor (u32 (Z.shiftl (tpm_sp_id c) VAL_TPM_ENDPOINT_ID_SHIFT)) (client_id c)) 0
    (u32 (Z.land (bitmap c) 0xffffffff)) (u32 (Z.shiftr (bitmap c) 32)) 0 0 0 0 0 0 0 0 0 0 0 0 0.

Definition val_tpm_notification_bind (ctx : option notification_context)
  : cmd client (Z * option notification_context) :=
  with_ctx VAL_ERROR ctx (fun c =>
    payload ← out (val_ffa_notification_bind conduit (bind_args c));
    if fid payload =? FFA_ERROR_32 then
      mret (if u32 (arg2 payload) =? FFA_ERROR_NOT_SUPPORTED then VAL_SKIP_CHECK else VAL_ERROR, c)
    else mret (VAL_SUCCESS, set_bound 1 c)).

Definition val_tpm_notification_unbind (c : notification_context) : cmd client (Z * notification_context) :=
  payload ← out (val_ffa_notification_unbind conduit (bind_args c));
  if fid payload =? FFA_ERROR_32 then mret (VAL_ERROR, c) else mret (VAL_SUCCESS, set_bound 0 c).

Definition val_tpm_notification_setup_interrupt (ctx : option notification_context)
  : cmd client (Z * option notification_context) :=
  if own_sri then with_ctx VAL_ERROR ctx (fun c =>
    payload ← out (val_ffa_features conduit (args1 FFA_FEATURE_SRI));
    if fid payload =? FFA_ERROR_32 then mret (VAL_SKIP_CHECK, c)
    else
      let c := set_sri (ffa_feature_intid payload) (sri_registered c) (sri_enabled c) c in
      st ← out (val_irq_register_handler (sri_id c));
      if negb (st =? 0) then mret (VAL_ERROR, c)
      else
        _ ← modify (set_seen 0);
        mret (VAL_SUCCESS, set_sri (sri_id c) 1 (sri_enabled c) c))
  else mret (VAL_SUCCESS, ctx).

(** The context is cleared first; the ids stay 0 when they are not found. *)
Definition val_tpm_notification_init (ctx : option notification_context) (ep_info : option ep_table)
  : cmd client (Z * option notification_context) :=
  with_ctx VAL_ERROR ctx (fun _ =>
    '(st, ids) ← val_tpm_get_endpoint_ids (Some 0) (Some 0) ep_info;
    let '(id, sp) := default (0, 0) ids in
    mret (st, Ctx id sp VAL_TPM_NOTIFICATION_BITMAP 0 0 0 0 0 0)).

Definition val_tpm_notification_register (ctx : option notification_context)
    (notification_type vcpu_id notification_id expected_status : Z) : cmd client (Z * option notification_context) :=
  with_ctx VAL_ERROR ctx (fun c =>
    if negb (Z.land vcpu_id 0xffff0000 =? 0) then mret (VAL_ERROR, c)
    else
      let a0 := Z.lor (u32 (Z.shiftl notification_type CRB_NOTIFICATION_TYPE_SHIFT)) (Z.land vcpu_id 0xffff) in
      status ← val_tpm_send_and_expect (client_id c) (tpm_sp_id c) CRB_REGISTER_NOTIFICATION
                 a0 notification_id 0 expected_status;
      mret (status, if (status =? VAL_SUCCESS) && (expected_status =? CRB_OK) then set_registered 1 c else c)).

Definition unregister (c : notification_context) (expected_status : Z) : cmd client (Z * notification_context) :=
  status ← val_tpm_send_and_expect (client_id c) (tpm_sp_id c) CRB_UNREGISTER_NOTIFICATION 0 0 0 expected_status;
  mret (status, if (status =? VAL_SUCCESS) && (expected_status =? CRB_OK) then set_registered 0 c else c).
Definition val_tpm_notification_unregister (ctx : option notification_context) (expected_status : Z)
  : cmd client (Z * option notification_context) :=
  with_ctx VAL_ERROR ctx (fun c => unregister c expected_status).

(** The five steps of the clean-up: each leaves the status of those before it
    unless it fails. *)
Definition cleanup_sri_enabled (c : notification_context) : cmd client notification_context :=
  if own_sri && negb (sri_enabled c =? 0)
  then _ ← out (val_irq_disable (sri_id c)); mret (set_sri (sri_id c) (sri_registered c) 0 c)
  else mret c.
Definition cleanup_registered (st : Z) (c : notification_context) : cmd client (Z * notification_context) :=
  if negb (registered c =? 0)
  then '(status, c) ← unregister c CRB_OK; mret (if negb (status =? VAL_SUCCESS) then status else st, c)
  else mret (st, c).
Definition cleanup_bound (st : Z) (c : notification_context) : cmd client (Z * notification_context) :=
  if negb (bound c =? 0)
  then '(status, c) ← val_tpm_notification_unbind c; mret (if negb (status =? VAL_SUCCESS) then status else st, c)
  else mret (st, c).
Definition cleanup_bitmap (st : Z) (c : notification_context) : cmd client (Z * notification_context) :=
  if own_bitmap && negb (bitmap_created c =? 0)
  then status ← val_tpm_notification_bitmap_destroy (client_id c);
       mret (if negb (status =? VAL_SUCCESS) then status else st, set_created 0 c)
  else mret (st, c).
Definition cleanup_sri_registered (st : Z) (c : notification_context) : cmd client (Z * notification_context) :=
  if own_sri && negb (sri_registered c =? 0)
  then status ← out (val_irq_unregister_handler (sri_id c));
       mret (if negb (status =? 0) then VAL_ERROR else st, set_sri (sri_id c) 0 (sri_enabled c) c)
  else mret (st, c).

Definition val_tpm_notification_cleanup (ctx : option notification_context)
  : cmd client (Z * option notification_context) :=
  with_ctx VAL_SUCCESS ctx (fun c =>
    c ← cleanup_sri_enabled c;
    '(st, c) ← cleanup_registered VAL_SUCCESS c;
    '(st, c) ← cleanup_bound st c;
    '(st, c) ← cleanup_bitmap st c;
    cleanup_sri_registered st c).

Definition val_tpm_notification_prepare_interrupt (ctx : option notification_context)
  : cmd client (Z * option notification_context) :=
  if own_sri then with_ctx VAL_ERROR ctx (fun c =>
    if sri_registered c =? 0 then mret (VAL_ERROR, c)
    else
      _ ← modify (set_seen 0);
      _ ← out (val_irq_enable (sri_id c) 0xA);
      mret (VAL_SUCCESS, set_sri (sri_id c) (sri_registered c) 1 c))
  else mret (VAL_SUCCESS, ctx).

Definition val_tpm_notification_complete_interrupt (ctx : option notification_context)
  : cmd client (Z * option notification_context) :=
  if own_sri then with_ctx VAL_ERROR ctx (fun c =>
    if sri_registered c =? 0 then mret (VAL_ERROR, c)
    else
      seen ← gets g_tpm_sri_seen;
      if seen =? 0 then
        if negb (sri_enabled c =? 0) then
          _ ← out (val_irq_disable (sri_id c)); mret (VAL_ERROR, set_sri (sri_id c) (sri_registered c) 0 c)
        else mret (VAL_ERROR, c)
      else _ ← out (val_irq_disable (sri_id c)); mret (VAL_SUCCESS, set_sri (sri_id c) (sri_registered c) 0 c))
  else mret (VAL_SUCCESS, ctx).

Definition val_tpm_finish_notified (sender_id tpm_sp_id expected_status : Z) : cmd client Z :=
  val_tpm_send_and_expect sender_id tpm_sp_id CRB_FINISH_NOTIFIED 0 0 0 expected_status.

Definition val_tpm_check_pending_notification (ctx : option notification_context) (expected_present : Z) : cmd client Z :=
  match ctx with
  | None => mret VAL_ERROR
  | Some c =>
      payload ← out (val_ffa_notification_get conduit
        (FfaArgs 0 (client_id c) FFA_NOTIFICATIONS_FLAG_BITMAP_SP 0 0 0 0 0 0 0 0 0 0 0 0 0 0 0));
      if fid payload =? FFA_ERROR_32 then
        mret (if (expected_present =? VAL_TPM_NOTIFICATION_ABSENT) && (u32 (arg2 payload) =? FFA_ERROR_NODATA)
              then VAL_SUCCESS else VAL_ERROR)
      else
        let pending := FFA_NOTIFICATIONS_BITMAP (u32 (arg2 payload)) (u32 (arg3 payload)) in
        let here := negb (Z.land pending (bitmap c) =? 0) in
        mret (if expected_present =? VAL_TPM_NOTIFICATION_PRESENT
              then if here then VAL_SUCCESS else VAL_ERROR
              else if here then VAL_ERROR else VAL_SUCCESS)
  end.
End Client.
