(* ===== verification/TpmClientProof.v ===== *)
(** * The client of the TPM service

    Copies to and from the CRB window stay in the window; the client's requests,
    delivered to [val_tpm_crb_service_handle_request], get the status the service
    decides on, and both sides agree on what is registered and which locality is
    held; the clean-up of a notification releases everything the context holds. *)

From S2P Require Import Prelude ValCommon CMem Bytes EndpointInfo FfaAbi FfaHelpers TpmPlatform TpmCrb TpmCrbProof TpmClient.

(** ** Copies *)

Definition in_window (addr size : Z) : Prop :=
  size = 0 \/ (VAL_TPM_CRB_BASE <= addr /\
               addr + size <= VAL_TPM_CRB_BASE + (CRB_LOCALITY_MAX + 1) * VAL_TPM_CRB_LOCALITY_SIZE).

#[export] Instance in_window_dec addr size : Decision (in_window addr size).
Proof. unfold in_window. apply _. Defined.

Lemma copy_from_reads n m src l :
  length l = n -> (forall i, 0 <= i < Z.of_nat n -> ld8 m (src + i) = byte_at l i) -> val_tpm_copy_from_mmio n m src = l.
Proof.
  revert src l; induction n as [|n IH]; intros src [|b l] Hl Hr; try done.
  cbn [val_tpm_copy_from_mmio]. f_equal.
  - specialize (Hr 0). rewrite Z.add_0_r in Hr. unfold val_tpm_crb_read8, Mmio.pal_mmio_read8.
    transitivity (ld8 m src); [unfold ldn; lia|]. by rewrite Hr by lia.
  - apply IH; [by injection Hl|]. intros i Hi. rewrite <- Z.add_assoc, Hr by lia. unfold byte_at.
    by replace (Z.to_nat (1 + i)) with (S (Z.to_nat i)) by lia.
Qed.

Lemma mmio_range_valid_spec `{ValCommon} addr size :
  is_uint 64 addr -> 0 <= size ->
  val_tpm_crb_mmio_range_valid addr size = if decide (in_window addr size) then VAL_SUCCESS else VAL_ERROR.
Proof.
  intros Ha Hs. unfold val_tpm_crb_mmio_range_valid.
  assert (E : u64 (VAL_TPM_CRB_BASE + (CRB_LOCALITY_MAX + 1) * VAL_TPM_CRB_LOCALITY_SIZE) = 0x88f05000) by done.
  rewrite E. unfold in_window in *. unfold VAL_TPM_CRB_BASE, CRB_LOCALITY_MAX, VAL_TPM_CRB_LOCALITY_SIZE in *.
  destruct (Z.eqb_spec size 0); [by rewrite decide_True by auto|].
  destruct (Z.ltb_spec 0x88f05000 0x88f00000); [lia|].
  destruct (Z.ltb_spec addr 0x88f00000), (Z.leb_spec 0x88f05000 addr); cbn [orb];
    try (rewrite decide_False by lia; done).
  destruct (Z.ltb_spec (0x88f05000 - addr) size); case_decide; done || lia.
Qed.

Section Copies.
Context `{ValCommon} {S : Type} (get_crb : S -> mem) (put_crb : mem -> S -> S).
Context (get_put : forall m w, get_crb (put_crb m w) = m).

Abbreviation window := (fun c : @client S => get_crb (outside c)).

(** Claim C30: The copies to and from the CRB reject a range that does not lie in
    the window of five localities and then change nothing; inside the window only
    the bytes of the range change and copying back gives the bytes that were
    written. *)
Theorem crb_copy_confined dst src size buf n (c : @client S) :
  is_uint 64 dst -> is_bytes src -> 0 <= size <= zlen src -> size <= n -> n = zlen buf ->
  if decide (in_window dst size) then
    exists c', val_tpm_crb_copy_to_mmio get_crb put_crb dst (Some src) size c = Ret (VAL_SUCCESS, c') /\
      frame dst size (window c) (window c') /\
      val_tpm_crb_copy_from_mmio get_crb (Some buf) n dst size c' =
        Ret (VAL_SUCCESS, Some (splice buf 0 (slice src 0 size)), c')
  else
    val_tpm_crb_copy_to_mmio get_crb put_crb dst (Some src) size c = Ret (VAL_ERROR, c) /\
    val_tpm_crb_copy_from_mmio get_crb (Some buf) n dst size c = Ret (VAL_ERROR, Some buf, c).
Proof.
  intros Hd Hb Hs Hn ->. unfold val_tpm_crb_copy_to_mmio, val_tpm_crb_copy_from_mmio.
  rewrite mmio_range_valid_spec by lia || done. replace (zlen buf <? size) with false by lia.
  case_decide as Hw; cbn [orb].
  2:{ rewrite (proj2 (Z.eqb_neq _ _)) by apply VAL_ERROR_not_success. done. }
  rewrite Z.eqb_refl. cbn [negb]. eexists. split; [reflexivity|]. cbn [outside set_outside]. rewrite get_put.
  assert (Hz : zlen (slice src 0 size) = size) by (apply zlen_slice; lia).
  split; [rewrite <- Hz at 1; apply copy_to_mmio_frame|]. do 5 f_equal.
  apply copy_from_reads; [unfold zlen in Hz; lia|]. intros i Hi.
  apply copy_to_mmio_read; [|lia]. by apply Forall_take, Forall_drop.
Qed.
End Copies.

(** ** The client and the service *)

Section Both.
Context `{ValCommon} `{TpmCore}.
Context (props : option Z) (hyp : bool).

(** The outside of the client is the partition: its service and its window.  The
    conduit of the service keeps the last message the service sent. *)
Abbreviation tstate := (@svc H0 ffa_args).
Definition keep_last (a : ffa_args) (w : ffa_args) : ffa_args * ffa_args := (ffa_args_zero, a).
Abbreviation sdispatch := (dispatch keep_last props hyp).

(** The partition manager hands a direct request to the service and the response
    of the service back to the client; what it does with other calls is open. *)
Context (conduit : ffa_args -> tstate -> ffa_args * tstate).
Context (delivers : forall a s next s', fid a = FFA_MSG_SEND_DIRECT_REQ_64 ->
  val_tpm_crb_service_handle_request keep_last props hyp a s = Ret (next, s') -> conduit a s = (world s', s')).
Context (resume : bool) (fuel : nat).

(** The request the service gets. *)
Definition client_request (cid sp f a0 a1 a2 : Z) : ffa_args :=
  FfaArgs FFA_MSG_SEND_DIRECT_REQ_64 (Z.lor (u32 (Z.shiftl cid 16)) sp) 0 0 f a0 a1 a2 0 0 0 0 0 0 0 0 0 0.

Abbreviation expect := (val_tpm_send_and_expect conduit resume fuel).

(** The client succeeds exactly when the service answers with the expected status. *)
Lemma send_and_expect_dispatch cid sp f a0 a1 a2 expected (c : client) st v rc s1 :
  is_uint 16 cid -> is_uint 16 sp ->
  sdispatch cid sp (client_request cid sp f a0 a1 a2) (outside c) = Ret ((st, v, rc), s1) ->
  exists w, expect cid sp f a0 a1 a2 expected c =
    Ret (if u32 st =? expected then VAL_SUCCESS else VAL_ERROR, set_outside (set_world w s1) c).
Proof.
  intros Hc Hsp E. set (req := client_request cid sp f a0 a1 a2) in *.
  destruct (route_fields cid sp Hc Hsp) as (_ & ES & ER).
  assert (ES' : u16 (Z.land (Z.shiftr (arg1 req) 16) 0xffff) = cid).
  { unfold req, client_request. cbn [arg1]. fold (SENDER_ID (Z.lor (u32 (Z.shiftl cid 16)) sp)).
    rewrite ES. by apply uwrap_small. }
  assert (ER' : u16 (Z.land (arg1 req) 0xffff) = sp).
  { unfold req, client_request. cbn [arg1]. fold (RECEIVER_ID (Z.lor (u32 (Z.shiftl cid 16)) sp)).
    rewrite ER. by apply uwrap_small. }
  pose proof (handle_eq keep_last props hyp req (outside c) st v rc s1) as HE. cbv zeta in HE.
  rewrite ES', ER' in HE. specialize (HE E). cbn [keep_last] in HE.
  set (resp := response_regs req st v rc) in *. exists resp.
  pose proof (delivers req (outside c) _ _ eq_refl HE) as HD. cbn [world set_world] in HD.
  assert (HR : val_ffa_msg_send_direct_req_64 conduit resume fuel
     (FfaArgs 0 (Z.lor (u32 (Z.shiftl cid VAL_TPM_ENDPOINT_ID_SHIFT)) sp) 0 0 f a0 a1 a2 0 0 0 0 0 0 0 0 0 0) (outside c)
     = Ret (resp, set_world resp s1)).
  { unfold val_ffa_msg_send_direct_req_64, ffa_msg_send_direct_req, mbind, cmd_bind, smccc_x7, ffa_smccc.
    change (FfaArgs FFA_MSG_SEND_DIRECT_REQ_64 _ _ _ _ _ _ _ _ _ _ _ _ _ _ _ _ _) with req. rewrite HD.
    destruct resume; [|done]. by apply resume_loop_0. }
  unfold val_tpm_send_and_expect, val_tpm_send_abi, out, zoom, mbind, cmd_bind. rewrite HR.
  cbn [mret cmd_ret default from_option]. unfold id. rewrite Z.eqb_refl. cbn [negb].
  change (fid resp) with FFA_MSG_SEND_DIRECT_RESP_64. rewrite Z.eqb_refl. cbn [negb].
  change (arg4 resp) with st. by destruct (u32 st =? expected).
Qed.

(** *** Registration *)

(** The context says registered exactly when the service has this client's
    registration. *)
Definition agree (ctx : notification_context) (s : tstate) : Prop :=
  is_uint 16 (client_id ctx) /\ is_uint 16 (tpm_sp_id ctx) /\ (n_registered (ntf s) = 0 \/ n_registered (ntf s) = 1) /\
  registered ctx = if (n_registered (ntf s) =? 1) && (n_client (ntf s) =? client_id ctx) then 1 else 0.

(** The service answered with an error [st]. *)
Ltac refused st := exists st; split; [reflexivity|]; split; [split || idtac|reflexivity]; intros; try (discriminate || tauto).

Lemma register_dispatch cid sp a0 nid (s : tstate) :
  is_uint 64 nid ->
  exists st, sdispatch cid sp (client_request cid sp CRB_REGISTER_NOTIFICATION a0 nid 0) s =
    Ret ((st, 0, 0), if st =? CRB_OK then set_ntf (set_registration cid sp nid) s else s) /\
    (st = CRB_OK -> n_registered (ntf s) = 0 /\ 0 <= nid <= 0xff) /\ u32 st = st.
Proof.
  intros Hn. unfold is_uint in *.
  change (sdispatch _ _ _ s) with (handle_register props cid sp (client_request cid sp CRB_REGISTER_NOTIFICATION a0 nid 0) s).
  unfold handle_register, mbind, cmd_bind, gets, id. cbn [arg5 arg6 client_request]. cbn beta iota.
  destruct (_ || _ || _ || _) eqn:E; [refused CRB_INVARG|].
  destruct (val_tpm_notif_supported props =? 0); [refused CRB_NOTSUP|].
  destruct (Z.eqb_spec (n_registered (ntf s)) 0) as [Er|]; cbn [negb]; [|refused CRB_ALREADY].
  exists CRB_OK. rewrite !orb_false_iff in E. destruct E as (((_ & E%Z.ltb_ge) & _) & _).
  unfold CRB_NOTIFICATION_ID_MASK in E. unfold modify. rewrite (uwrap_small 32 nid) by lia.
  split; [done|]. split; [|done]. intros _. lia.
Qed.

Lemma unregister_dispatch cid sp (s : tstate) :
  exists st, sdispatch cid sp (client_request cid sp CRB_UNREGISTER_NOTIFICATION 0 0 0) s =
    Ret ((st, 0, 0), if st =? CRB_OK then val_tpm_clear_notification_registration s else s) /\
    (st = CRB_OK <-> val_tpm_notif_supported props <> 0 /\ n_registered (ntf s) <> 0 /\
                     n_client (ntf s) = cid /\ n_outstanding (ntf s) = 0) /\ u32 st = st.
Proof.
  change (sdispatch _ _ _ s) with (handle_unregister props cid s).
  unfold handle_unregister, mbind, cmd_bind, gets, id. cbn beta iota.
  destruct (Z.eqb_spec (val_tpm_notif_supported props) 0); [refused CRB_NOTSUP|].
  destruct (Z.eqb_spec (n_registered (ntf s)) 0); [refused CRB_DENIED|].
  destruct (Z.eqb_spec (n_client (ntf s)) cid); [|refused CRB_DENIED].
  destruct (Z.eqb_spec (n_outstanding (ntf s)) 0); [|refused CRB_DENIED].
  exists CRB_OK. split; [done|]. split; [tauto | done].
Qed.

Abbreviation reg := (val_tpm_notification_register conduit resume fuel).
Abbreviation unreg := (val_tpm_notification_unregister conduit resume fuel).

(** Claim C29: The notification context of the client and the CRB service agree on
    whether a notification of this client is registered:
    val_tpm_notification_register and val_tpm_notification_unregister, run through
    the service with any 32-bit arguments and any expected status, return and keep
    the agreement; the one exception is a call that expects another status than
    CRB_OK and whose request the service accepts, which returns VAL_ERROR with the
    service changed and the context not (unexpected_registration_kept). Where CRB_OK
    is expected, registering with VAL_SUCCESS leaves both registered with the given
    id, and unregistering succeeds exactly when notifications are supported, the
    client is registered and none is outstanding. *)
Theorem registration_agrees ctx type_ vcpu nid expected (c : @client tstate) :
  agree ctx (outside c) -> is_uint 32 type_ -> is_uint 32 vcpu -> is_uint 32 nid ->
  (exists st ctx1 c1, reg (Some ctx) type_ vcpu nid expected c = Ret ((st, Some ctx1), c1) /\
     (agree ctx1 (outside c1) \/
      (expected <> CRB_OK /\ st = VAL_ERROR /\ registered ctx1 = 0 /\ n_registered (ntf (outside c1)) = 1)) /\
     (st = VAL_SUCCESS -> expected = CRB_OK -> registered ctx1 = 1 /\ n_id (ntf (outside c1)) = nid)) /\
  (exists st ctx1 c1, unreg (Some ctx) expected c = Ret ((st, Some ctx1), c1) /\
     (agree ctx1 (outside c1) \/
      (expected <> CRB_OK /\ st = VAL_ERROR /\ registered ctx1 = 1 /\ n_registered (ntf (outside c1)) = 0)) /\
     (expected = CRB_OK -> (st = VAL_SUCCESS <-> val_tpm_notif_supported props <> 0 /\ registered ctx = 1 /\
                                                 n_outstanding (ntf (outside c)) = 0) /\
                           (st = VAL_SUCCESS -> registered ctx1 = 0))).
Proof.
  intros (Hc & Hs & Hok & Hr) Ht Hv Hn. set (s := outside c) in *. pose proof VAL_ERROR_not_success as Hne. split.
  - unfold val_tpm_notification_register, with_ctx, mbind, cmd_bind.
    destruct (Z.land vcpu 0xffff0000 =? 0); cbn [negb].
    2:{ eexists _, _, _. split; [reflexivity|]. split; [by left|]. by intros E%Hne. }
    set (a0 := Z.lor _ _).
    destruct (register_dispatch (client_id ctx) (tpm_sp_id ctx) a0 nid s) as (st & E & Hst & Hu); [unfold is_uint in *; lia|].
    destruct (send_and_expect_dispatch _ _ _ _ _ _ expected c _ _ _ _ Hc Hs E) as [w ->]. rewrite Hu.
    eexists _, _, _. split; [reflexivity|]. destruct (Z.eqb_spec st CRB_OK) as [Hst'|Hbad].
    + destruct (Hst Hst') as [Hn0 Hn255]. rewrite Hst'. destruct (Z.eqb_spec CRB_OK expected) as [<-|He].
      * rewrite !Z.eqb_refl. cbn [andb]. split; [left|done].
        split; [done|]. split; [done|]. cbn. rewrite Z.eqb_refl. split; [by right|done].
      * rewrite (proj2 (Z.eqb_neq _ _) Hne). cbn [andb]. split; [right|by intros ?%Hne].
        split; [congruence|]. split; [done|]. split; [by rewrite Hr, Hn0 | done].
    + destruct (Z.eqb_spec expected CRB_OK) as [->|He].
      * rewrite (proj2 (Z.eqb_neq _ _) Hbad). rewrite (proj2 (Z.eqb_neq _ _) Hne). cbn [andb]. split; [by left | by intros ?%Hne].
      * rewrite andb_false_r. split; [by left | by intros _ ?%He].
  - unfold val_tpm_notification_unregister, with_ctx, TpmClient.unregister, mbind, cmd_bind.
    destruct (unregister_dispatch (client_id ctx) (tpm_sp_id ctx) s) as (st & E & Hst & Hu).
    destruct (send_and_expect_dispatch _ _ _ _ _ _ expected c _ _ _ _ Hc Hs E) as [w ->]. rewrite Hu.
    eexists _, _, _. split; [reflexivity|]. destruct (Z.eqb_spec st CRB_OK) as [Hst'|Hbad].
    + destruct (proj1 Hst Hst') as (Hsup & Hreg & Hcl & Hout). rewrite Hst'.
      assert (Hr1 : registered ctx = 1) by (rewrite Hr, Hcl, Z.eqb_refl; destruct Hok as [E1| ->]; [by rewrite E1 in Hreg | done]).
      destruct (Z.eqb_spec CRB_OK expected) as [<-|He].
      * rewrite !Z.eqb_refl. cbn [andb]. split; [left|done]. split; [done|]. split; [done|]. split; [by left | done].
      * rewrite (proj2 (Z.eqb_neq _ _) Hne). cbn [andb]. split; [right; split; [congruence | done] | by intros ?].
    + destruct (Z.eqb_spec expected CRB_OK) as [->|He].
      * rewrite (proj2 (Z.eqb_neq _ _) Hbad). rewrite (proj2 (Z.eqb_neq _ _) Hne). cbn [andb]. split; [by left|]. intros _.
        split; [|by intros ?%Hne]. split; [by intros ?%Hne|].
        intros (Hsup & Hreg & Hout). destruct Hbad. apply Hst. rewrite Hr in Hreg.
        destruct (Z.eqb_spec (n_registered (ntf s)) 1), (Z.eqb_spec (n_client (ntf s)) (client_id ctx)); done || lia.
      * rewrite andb_false_r. split; [by left | done].
Qed.

(** *** Localities *)

Abbreviation put_window := (fun (m : mem) (s : tstate) => set_crb m s).
Abbreviation relinquish := (val_tpm_relinquish_locality conduit resume fuel crb put_window).

(** Writing a control register leaves the invariant of the service true. *)
Lemma write_loc_ctrl_inv (s : tstate) l v :
  svc_inv s -> valid_loc l -> svc_inv (set_crb (val_tpm_crb_write32 (crb s) (val_tpm_crb_loc_ctrl l) v) s).
Proof.
  intros Hs Hl. eapply (svc_step_inv keep_last props hyp); [exact Hs|]. apply step_client. intros l' Hl'.
  apply ldn_stn_out. crb_numbers l. crb_numbers l'. lia.
Qed.

(** val_tpm_relinquish_locality, run through the CRB service, succeeds, keeps the
    invariant of the service and takes away the grant of that locality and of no
    other. *)
Theorem relinquish_releases cid sp l (c : @client tstate) :
  is_uint 16 cid -> is_uint 16 sp -> svc_inv (outside c) -> valid_loc l ->
  can_defer (outside c) cid sp = false ->
  exists c', relinquish cid sp l c = Ret (VAL_SUCCESS, c') /\ svc_inv (outside c') /\
    ntf (outside c') = ntf (outside c) /\
    sts_granted (outside c') l = false /\
    (forall l', valid_loc l' -> l' <> l -> sts_granted (outside c') l' = sts_granted (outside c) l') /\
    g_tpm_active_locality (outside c') =
      (if g_tpm_active_locality (outside c) =? l then CRB_LOCALITY_MAX + 1 else g_tpm_active_locality (outside c)).
Proof.
  intros Hc Hsp Hs Hl Hd. set (s := outside c) in *.
  pose proof (write_loc_ctrl_inv s l TPM_LOC_CTRL_RELINQUISH Hs Hl) as Hs1.
  set (s1 := set_crb _ s) in Hs1.
  set (s0 := set_crb (val_tpm_crb_write32 (crb s1) (val_tpm_crb_loc_ctrl l) 0) s1).
  assert (Hs0 : svc_inv s0) by (by apply write_loc_ctrl_inv).
  set (m2 := val_tpm_crb_write32 (crb s0) (val_tpm_crb_loc_sts l) 0).
  set (a2 := if g_tpm_active_locality s =? l then CRB_LOCALITY_MAX + 1 else g_tpm_active_locality s).
  assert (E2 : val_tpm_crb_apply_locality_request l TPM_LOC_CTRL_RELINQUISH s0 = (CRB_OK, set_active a2 (set_crb m2 s0))).
  { unfold val_tpm_crb_apply_locality_request. change (g_tpm_active_locality s0) with (g_tpm_active_locality s).
    unfold a2. by destruct (g_tpm_active_locality s =? l). }
  assert (E : sdispatch cid sp (client_request cid sp CRB_START CRB_START_TYPE_LOCALITY_REQUEST l 0) s1 =
              Ret ((CRB_OK, 0, 0), set_active a2 (set_crb m2 s0))).
  { change (sdispatch _ _ _ s1) with
      (handle_start keep_last props hyp cid sp (client_request cid sp CRB_START CRB_START_TYPE_LOCALITY_REQUEST l 0) s1).
    unfold handle_start. cbn [arg5 arg6 client_request]. rewrite (uwrap_small 32 l) by (unfold valid_loc, CRB_LOCALITY_MAX in Hl; lia).
    destruct (Z.ltb_spec CRB_LOCALITY_MAX l); [unfold valid_loc in Hl; lia|]. cbn [orb Z.ltb Z.compare].
    change (handle_start_locality keep_last props hyp cid sp l s1 = Ret ((CRB_OK, 0, 0), set_active a2 (set_crb m2 s0))).
    unfold handle_start_locality, mbind, cmd_bind, gets, id. change (can_defer s1 cid sp) with (can_defer s cid sp).
    rewrite Hd. unfold val_tpm_crb_start_locality_request.
    assert (ER : val_tpm_crb_read32 (crb s1) (val_tpm_crb_loc_ctrl l) = TPM_LOC_CTRL_RELINQUISH)
      by (apply ldn_stn_same_small; done).
    rewrite ER. fold s0. by rewrite E2. }
  destruct (send_and_expect_dispatch cid sp CRB_START CRB_START_TYPE_LOCALITY_REQUEST l 0 CRB_OK (set_outside s1 c)
              _ _ _ _ Hc Hsp E) as [w HX].
  exists (set_outside (set_world w (set_active a2 (set_crb m2 s0))) c). split.
  { unfold val_tpm_relinquish_locality. destruct (Z.ltb_spec CRB_LOCALITY_MAX l); [unfold valid_loc in Hl; lia|].
    exact HX. }
  cbn [outside set_outside]. split.
  { destruct (apply_locality_inv s0 l TPM_LOC_CTRL_RELINQUISH Hs0 Hl) as (s2 & E3 & Hs2 & _).
    rewrite E2 in E3. injection E3 as <-. by apply set_world_inv. }
  split; [done|].
  assert (HG : forall l', valid_loc l' -> sts_granted (set_world w (set_active a2 (set_crb m2 s0))) l' =
                 if decide (l = l') then false else sts_granted s l').
  { intros l' Hl'. transitivity (sts_granted (set_crb m2 s0) l'); [done|]. unfold m2.
    rewrite sts_granted_write by auto. destruct (decide (l = l')); [done|].
    transitivity (sts_granted s1 l'); unfold s0, s1;
      (eapply sts_granted_frame; [done | apply (frame_stn 4) |]; crb_numbers l; crb_numbers l'; lia). }
  split; [rewrite HG by done; by rewrite decide_True|]. split; [|done].
  intros l' Hl' Hne. rewrite HG by done. by rewrite decide_False.
Qed.
End Both.

(** ** Clean-up *)

(** The calls a client makes to the manager and to the interrupt controller, with the
    answers. *)
Inductive call := Ffa (a r : ffa_args) | IrqDisabled (id : Z) | IrqUnregistered (id status : Z).
Inductive request := FfaRequest (a : ffa_args) | IrqDisable (id : Z) | IrqUnregister (id : Z).
Definition requested (x : call) : request :=
  match x with Ffa a _ => FfaRequest a | IrqDisabled n => IrqDisable n | IrqUnregistered n _ => IrqUnregister n end.
(** The service answers a direct request with CRB_OK, the manager another call without
    an error, the controller with 0. *)
Definition accepted (x : call) : Prop :=
  match x with
  | Ffa a r => if fid a =? FFA_MSG_SEND_DIRECT_REQ_64
               then fid r = FFA_MSG_SEND_DIRECT_RESP_64 /\ u32 (arg4 r) = CRB_OK else fid r <> FFA_ERROR_32
  | IrqDisabled _ => True
  | IrqUnregistered _ status => status = 0
  end.

(** The registers of an SMC32 call. *)
Definition regs32 (f : Z) (a : ffa_args) : ffa_args :=
  FfaArgs f (u32 (arg1 a)) (u32 (arg2 a)) (u32 (arg3 a)) (u32 (arg4 a)) (u32 (arg5 a)) (u32 (arg6 a)) (u32 (arg7 a)) 0 0 0 0 0 0 0 0 0 0.

Section Cleanup.
Context `{ValCommon} `{ValConfig} {S : Type} (conduit : ffa_args -> S -> ffa_args * S) `{!IrqOps S}.
Context (resume : bool) (fuel : nat) (TARGET_LINUX : bool).
(** [made w x w']: the call [x] takes the outside from [w] to [w']; a log, say. *)
Context (made : S -> call -> S -> Prop).
(** [J] holds of the outside throughout: no call is cut short by an interrupt, and
    the interrupt operations return. *)
Context (J : S -> Prop) (sri_num : Z).
Context (completes : forall a w, J w -> fid (conduit a w).1 <> FFA_INTERRUPT_32 /\ J (conduit a w).2 /\
  made w (Ffa a (conduit a w).1) (conduit a w).2).
Context (irq_disables : forall w, J w -> exists w', val_irq_disable sri_num w = Ret (tt, w') /\ J w' /\
  made w (IrqDisabled sri_num) w').
Context (irq_unregisters : forall w, J w -> exists st w', val_irq_unregister_handler sri_num w = Ret (st, w') /\
  made w (IrqUnregistered sri_num st) w').

Abbreviation cleanup := (val_tpm_notification_cleanup conduit resume fuel TARGET_LINUX).
Abbreviation sri := (own_sri TARGET_LINUX).

(** What the context says is not held any more. *)
Definition released (ctx : notification_context) : Prop :=
  registered ctx = 0 /\ bound ctx = 0 /\ (own_bitmap = true -> bitmap_created ctx = 0) /\
  (sri = true -> sri_enabled ctx = 0 /\ sri_registered ctx = 0).

(** The requests that release what the context says is held. *)
Definition when (held : Z) (r : request) : list request := if held =? 0 then [] else [r].
Definition releases (ctx : notification_context) : list request :=
  (if sri then when (sri_enabled ctx) (IrqDisable (sri_id ctx)) else []) ++
  when (registered ctx) (FfaRequest (client_request (client_id ctx) (tpm_sp_id ctx) CRB_UNREGISTER_NOTIFICATION 0 0 0)) ++
  when (bound ctx) (FfaRequest (regs32 FFA_NOTIFICATION_UNBIND (bind_args ctx))) ++
  (if own_bitmap then when (bitmap_created ctx) (FfaRequest (regs32 FFA_NOTIFICATION_BITMAP_DESTROY (args1 (client_id ctx)))) else []) ++
  (if sri then when (sri_registered ctx) (IrqUnregister (sri_id ctx)) else []).

Lemma cleanup_released ctx c : released ctx -> cleanup (Some ctx) c = Ret ((VAL_SUCCESS, Some ctx), c).
Proof.
  intros (Hr & Hb & Hc & Hs). unfold val_tpm_notification_cleanup, with_ctx.
  unfold cleanup_sri_enabled, cleanup_registered, cleanup_bound, cleanup_bitmap, cleanup_sri_registered, mbind, cmd_bind.
  assert (E1 : sri && negb (sri_enabled ctx =? 0) = false) by (destruct sri; [destruct Hs as [-> _]|]; done).
  assert (E2 : own_bitmap && negb (bitmap_created ctx =? 0) = false) by (destruct own_bitmap; [rewrite Hc|]; done).
  assert (E3 : sri && negb (sri_registered ctx =? 0) = false) by (destruct sri; [destruct Hs as [_ ->]|]; done).
  rewrite E1. unfold mret, cmd_ret. rewrite Hr. cbn [Z.eqb negb]. rewrite Hb. cbn [Z.eqb negb]. rewrite E2. by rewrite E3.
Qed.

(** The outside goes from [w] to [w'] by these calls and no other. *)
Fixpoint makes (w : S) (xs : list call) (w' : S) : Prop :=
  match xs with [] => w' = w | x :: xs' => exists w1, made w x w1 /\ makes w1 xs' w' end.

(** [c'] is [c] after the calls [xs], which make the requests [rs]. *)
Definition after_calls (c c' : @client S) (rs : list request) (xs : list call) : Prop :=
  makes (outside c) xs (outside c') /\ requested <$> xs = rs.

Lemma after_nothing c : after_calls c c [] [].
Proof. done. Qed.
Lemma makes_one w x w' : made w x w' -> makes w [x] w'.
Proof. intros Hx. by exists w'. Qed.
Lemma makes_app w1 xs w2 ys w3 : makes w1 xs w2 -> makes w2 ys w3 -> makes w1 (xs ++ ys) w3.
Proof.
  revert w1. induction xs as [|x xs IH]; intros w1; [by intros -> |]. intros (w & Hx & Hxs) Hys. exists w. split; [done|].
  by apply IH.
Qed.

Lemma after_app c1 c2 c3 rs1 rs2 m1 m2 : after_calls c1 c2 rs1 m1 -> after_calls c2 c3 rs2 m2 -> after_calls c1 c3 (rs1 ++ rs2) (m1 ++ m2).
Proof. intros [E1 R1] [E2 R2]. split; [by eapply makes_app | by rewrite fmap_app, R1, R2]. Qed.

Lemma Forall_one {A} (P : A -> Prop) x : Forall P [x] <-> P x.
Proof. split; [by intros []%list.Forall_cons | by repeat constructor]. Qed.

Lemma send_and_expect_returns cid sp f a0 a1 a2 (c : @client S) :
  J (outside c) ->
  exists st c' r, val_tpm_send_and_expect conduit resume fuel cid sp f a0 a1 a2 CRB_OK c = Ret (st, c') /\ J (outside c') /\
    after_calls c c' [FfaRequest (client_request cid sp f a0 a1 a2)] [Ffa (client_request cid sp f a0 a1 a2) r] /\
    (st = VAL_SUCCESS <-> fid r = FFA_MSG_SEND_DIRECT_RESP_64 /\ u32 (arg4 r) = CRB_OK).
Proof.
  intros HJ. unfold val_tpm_send_and_expect, val_tpm_send_abi, out, zoom, mbind, cmd_bind.
  set (args := FfaArgs _ _ _ _ _ _ _ _ _ _ _ _ _ _ _ _ _ _). set (req := client_request cid sp f a0 a1 a2).
  assert (HR : val_ffa_msg_send_direct_req_64 conduit resume fuel args (outside c) = Ret (conduit req (outside c))).
  { unfold val_ffa_msg_send_direct_req_64, ffa_msg_send_direct_req, mbind, cmd_bind, smccc_x7, ffa_smccc.
    change (FfaArgs FFA_MSG_SEND_DIRECT_REQ_64 _ _ _ _ _ _ _ _ _ _ _ _ _ _ _ _ _) with req.
    destruct (completes req (outside c) HJ) as [Hn _]. destruct (conduit req (outside c)) as [r w'].
    destruct resume; [|done]. by apply resume_loop_0. }
  rewrite HR. destruct (completes req (outside c) HJ) as (_ & HJ' & HC). destruct (conduit req (outside c)) as [r w'].
  cbn beta iota delta [mret cmd_ret default from_option fst snd]. unfold id. rewrite Z.eqb_refl. cbn [negb].
  destruct (Z.eqb_spec (fid r) FFA_MSG_SEND_DIRECT_RESP_64), (Z.eqb_spec (u32 (arg4 r)) CRB_OK); cbn [negb]; eexists _, _, r;
    (split; [reflexivity|]); (split; [exact HJ'|]); (split; [split; [by apply makes_one | done]|]); pose proof VAL_ERROR_not_success; intuition.
Qed.

(** The steps: each makes its own request when there is something to release, changes
    its own flag, and leaves a failure status. *)
Lemma cleanup_registered_ok st ctx c : J (outside c) -> exists st' v c' xs,
  cleanup_registered conduit resume fuel st ctx c = Ret ((st', set_registered v ctx), c') /\ J (outside c') /\
  after_calls c c' (when (registered ctx) (FfaRequest (client_request (client_id ctx) (tpm_sp_id ctx) CRB_UNREGISTER_NOTIFICATION 0 0 0))) xs /\
  (st' = VAL_SUCCESS <-> st = VAL_SUCCESS /\ Forall accepted xs) /\ (Forall accepted xs -> v = 0).
Proof.
  intros HJ. unfold cleanup_registered, unregister, when. destruct (Z.eqb_spec (registered ctx) 0) as [E|]; cbn [negb].
  { exists st, 0, c, []. split; [rewrite <- E; by destruct ctx|]. split; [done|]. split; [apply after_nothing|]. pose proof (List.Forall_nil accepted). intuition congruence. }
  unfold mbind, cmd_bind.
  destruct (send_and_expect_returns (client_id ctx) (tpm_sp_id ctx) CRB_UNREGISTER_NOTIFICATION 0 0 0 c HJ)
    as (st1 & c1 & r & -> & HJ' & HC & Hst). cbn beta iota delta [mret cmd_ret].
  assert (HA : Forall accepted [Ffa (client_request (client_id ctx) (tpm_sp_id ctx) CRB_UNREGISTER_NOTIFICATION 0 0 0) r] <-> st1 = VAL_SUCCESS)
    by (rewrite Forall_one, Hst; done).
  destruct (Z.eqb_spec st1 VAL_SUCCESS) as [->|Hne]; cbn [negb].
  - eexists st, 0, c1, _. split; [reflexivity|]. split; [done|]. split; [exact HC|]. rewrite HA. intuition.
  - eexists st1, (registered ctx), c1, _. split; [by destruct ctx|]. split; [done|]. split; [exact HC|]. rewrite HA. intuition.
Qed.

Lemma cleanup_bound_ok st ctx c : J (outside c) -> exists st' v c' xs,
  cleanup_bound conduit st ctx c = Ret ((st', set_bound v ctx), c') /\ J (outside c') /\
  after_calls c c' (when (bound ctx) (FfaRequest (regs32 FFA_NOTIFICATION_UNBIND (bind_args ctx)))) xs /\
  (st' = VAL_SUCCESS <-> st = VAL_SUCCESS /\ Forall accepted xs) /\ (Forall accepted xs -> v = 0).
Proof.
  intros HJ. unfold cleanup_bound, val_tpm_notification_unbind, when. destruct (Z.eqb_spec (bound ctx) 0) as [E|]; cbn [negb].
  { exists st, 0, c, []. split; [rewrite <- E; by destruct ctx|]. split; [done|]. split; [apply after_nothing|]. pose proof (List.Forall_nil accepted). intuition congruence. }
  unfold mbind, cmd_bind, out, zoom, val_ffa_notification_unbind, smccc_w32, ffa_smccc.
  match goal with |- context [conduit ?a ?w] => destruct (completes a w HJ) as (_ & HJ' & HC); destruct (conduit a w) as [r w'] end.
  pose proof VAL_ERROR_not_success.
  destruct (Z.eqb_spec (fid r) FFA_ERROR_32) as [Er|Er]; cbn beta iota delta [mret cmd_ret].
  - rewrite (proj2 (Z.eqb_neq _ _) VAL_ERROR_not_success). cbn [negb]. eexists _, (bound ctx), _, _.
    split; [by destruct ctx|]. split; [exact HJ'|]. split; [split; [by apply makes_one | done]|]. rewrite Forall_one. cbn. intuition.
  - rewrite Z.eqb_refl. cbn [negb]. eexists _, 0, _, _. split; [reflexivity|]. split; [exact HJ'|]. split; [split; [by apply makes_one | done]|].
    rewrite Forall_one. cbn. intuition.
Qed.

Lemma cleanup_bitmap_ok st ctx c : J (outside c) -> exists st' v c' xs,
  cleanup_bitmap conduit st ctx c = Ret ((st', set_created v ctx), c') /\ J (outside c') /\
  after_calls c c' (if own_bitmap then when (bitmap_created ctx)
    (FfaRequest (regs32 FFA_NOTIFICATION_BITMAP_DESTROY (args1 (client_id ctx)))) else []) xs /\
  (own_bitmap = true -> v = 0) /\ (st' = VAL_SUCCESS <-> st = VAL_SUCCESS /\ Forall accepted xs).
Proof.
  intros HJ. unfold cleanup_bitmap, val_tpm_notification_bitmap_destroy, when. destruct own_bitmap; cbn [andb].
  2:{ exists st, (bitmap_created ctx), c, []. split; [by destruct ctx|]. split; [done|]. split; [apply after_nothing|]. pose proof (List.Forall_nil accepted). intuition congruence. }
  destruct (Z.eqb_spec (bitmap_created ctx) 0) as [E|]; cbn [negb].
  { exists st, 0, c, []. split; [rewrite <- E; by destruct ctx|]. split; [done|]. split; [apply after_nothing|]. pose proof (List.Forall_nil accepted). intuition congruence. }
  unfold mbind, cmd_bind, out, zoom, val_ffa_notification_bitmap_destroy, smccc_w32, ffa_smccc.
  match goal with |- context [conduit ?a ?w] => destruct (completes a w HJ) as (_ & HJ' & HC); destruct (conduit a w) as [r w'] end.
  pose proof VAL_ERROR_not_success. cbn beta iota delta [mret cmd_ret]. eexists _, 0, _, _. split; [reflexivity|].
  split; [exact HJ'|]. split; [split; [by apply makes_one | done]|]. split; [done|]. rewrite Forall_one. cbn.
  destruct (Z.eqb_spec (fid r) FFA_ERROR_32) as [Er|Er].
  - rewrite (proj2 (Z.eqb_neq _ _) VAL_ERROR_not_success). cbn [negb]. intuition.
  - rewrite Z.eqb_refl. cbn [negb]. intuition.
Qed.

Lemma cleanup_sri_registered_ok st ctx c : J (outside c) -> sri_id ctx = sri_num -> exists st' v c' xs,
  cleanup_sri_registered TARGET_LINUX st ctx c = Ret ((st', set_sri (sri_id ctx) v (sri_enabled ctx) ctx), c') /\
  after_calls c c' (if sri then when (sri_registered ctx) (IrqUnregister (sri_id ctx)) else []) xs /\
  (sri = true -> v = 0) /\ (st' = VAL_SUCCESS <-> st = VAL_SUCCESS /\ Forall accepted xs).
Proof.
  intros HJ Hid. unfold cleanup_sri_registered, when. destruct sri; cbn [andb].
  2:{ exists st, (sri_registered ctx), c, []. split; [by destruct ctx|]. split; [apply after_nothing|]. pose proof (List.Forall_nil accepted). intuition congruence. }
  destruct (Z.eqb_spec (sri_registered ctx) 0) as [E|]; cbn [negb].
  { exists st, 0, c, []. split; [rewrite <- E; by destruct ctx|]. split; [apply after_nothing|]. pose proof (List.Forall_nil accepted). intuition congruence. }
  unfold mbind, cmd_bind, out, zoom. rewrite Hid. destruct (irq_unregisters (outside c) HJ) as (st1 & w & -> & HC).
  pose proof VAL_ERROR_not_success. eexists _, 0, _, _. split; [reflexivity|]. split; [split; [by apply makes_one | done]|]. split; [done|].
  rewrite Forall_one. cbn. destruct (Z.eqb_spec st1 0); cbn [negb]; intuition.
Qed.

Lemma cleanup_sri_enabled_ok ctx c : J (outside c) -> sri_id ctx = sri_num -> exists v c' xs,
  cleanup_sri_enabled TARGET_LINUX ctx c = Ret (set_sri (sri_id ctx) (sri_registered ctx) v ctx, c') /\ J (outside c') /\
  after_calls c c' (if sri then when (sri_enabled ctx) (IrqDisable (sri_id ctx)) else []) xs /\ Forall accepted xs /\
  (sri = true -> v = 0).
Proof.
  intros HJ Hid. unfold cleanup_sri_enabled, when. destruct sri; cbn [andb].
  2:{ exists (sri_enabled ctx), c, []. split; [by destruct ctx|]. split; [done|]. split; [apply after_nothing | done]. }
  destruct (Z.eqb_spec (sri_enabled ctx) 0) as [E|]; cbn [negb].
  { exists 0, c, []. split; [rewrite <- E; by destruct ctx|]. split; [done|]. split; [apply after_nothing | done]. }
  unfold mbind, cmd_bind, out, zoom. rewrite Hid. destruct (irq_disables (outside c) HJ) as (w & -> & HJ' & HC).
  eexists 0, _, _. split; [reflexivity|]. split; [exact HJ'|]. split; [split; [by apply makes_one | done]|]. by rewrite Forall_one.
Qed.

Lemma cleanup_ok ctx c :
  J (outside c) -> sri_id ctx = sri_num ->
  exists st ctx' c' xs, cleanup (Some ctx) c = Ret ((st, Some ctx'), c') /\
    makes (outside c) xs (outside c') /\ requested <$> xs = releases ctx /\
    (st = VAL_SUCCESS <-> Forall accepted xs) /\
    (client_id ctx', tpm_sp_id ctx', bitmap ctx', sri_id ctx') =
      (client_id ctx, tpm_sp_id ctx, bitmap ctx, sri_id ctx) /\
    (own_bitmap = true -> bitmap_created ctx' = 0) /\
    (sri = true -> sri_enabled ctx' = 0 /\ sri_registered ctx' = 0) /\
    (st = VAL_SUCCESS -> released ctx' /\
       forall c2, cleanup (Some ctx') c2 = Ret ((VAL_SUCCESS, Some ctx'), c2)).
Proof.
  intros J0 Hid.
  destruct (cleanup_sri_enabled_ok ctx c J0 Hid) as (v1 & c1 & m1 & E1 & J1 & C1 & F1 & H1). set (x1 := set_sri _ _ v1 ctx) in *.
  destruct (cleanup_registered_ok VAL_SUCCESS x1 c1 J1) as (s2 & v2 & c2 & m2 & E2 & J2 & C2 & F2 & H2). set (x2 := set_registered v2 x1) in *.
  destruct (cleanup_bound_ok s2 x2 c2 J2) as (s3 & v3 & c3 & m3 & E3 & J3 & C3 & F3 & H3). set (x3 := set_bound v3 x2) in *.
  destruct (cleanup_bitmap_ok s3 x3 c3 J3) as (s4 & v4 & c4 & m4 & E4 & J4 & C4 & H4 & F4). set (x4 := set_created v4 x3) in *.
  destruct (cleanup_sri_registered_ok s4 x4 c4 J4 Hid) as (s5 & v5 & c5 & m5 & E5 & C5 & H5 & F5). set (x5 := set_sri _ v5 _ x4) in *.
  destruct (after_app _ _ _ _ _ _ _ C1 (after_app _ _ _ _ _ _ _ C2 (after_app _ _ _ _ _ _ _ C3 (after_app _ _ _ _ _ _ _ C4 C5))))
    as [HC HR].
  exists s5, x5, c5, (m1 ++ m2 ++ m3 ++ m4 ++ m5). split.
  { unfold val_tpm_notification_cleanup, with_ctx, mbind, cmd_bind. by rewrite E1, E2, E3, E4, E5. }
  assert (HF : s5 = VAL_SUCCESS <-> Forall accepted (m1 ++ m2 ++ m3 ++ m4 ++ m5)) by (rewrite !list.Forall_app; tauto).
  split; [exact HC|]. split; [exact HR|]. split; [exact HF|]. split; [done|]. split; [done|]. split; [auto|]. intros Hs.
  assert (HR' : released x5).
  { apply HF in Hs. rewrite !list.Forall_app in Hs. destruct Hs as (_ & G2 & G3 & _).
    split; [exact (H2 G2)|]. split; [exact (H3 G3)|]. auto. }
  split; [done|]. intros c6. by apply cleanup_released.
Qed.

(** Claim C28: val_tpm_notification_cleanup, when no call is answered with
    FFA_INTERRUPT and the interrupt operations return, returns; it makes exactly the
    calls that release what the context says is held, in this order: disable the
    interrupt, unregister at the service, unbind, destroy the bitmap, unregister the
    handler (bitmap and interrupt only where the image owns them), each also when an
    earlier one failed, and no other. It returns VAL_SUCCESS exactly when every one
    was accepted; the bitmap and the interrupt are marked released in any case;
    after success everything is, and a second clean-up makes no call at all. *)
Theorem cleanup_releases ctx c :
  J (outside c) -> sri_id ctx = sri_num ->
  exists st ctx' c' xs, cleanup (Some ctx) c = Ret ((st, Some ctx'), c') /\
    makes (outside c) xs (outside c') /\ requested <$> xs = releases ctx /\
    (st = VAL_SUCCESS <-> Forall accepted xs) /\
    (client_id ctx', tpm_sp_id ctx', bitmap ctx', sri_id ctx') =
      (client_id ctx, tpm_sp_id ctx, bitmap ctx, sri_id ctx) /\
    (own_bitmap = true -> bitmap_created ctx' = 0) /\
    (sri = true -> sri_enabled ctx' = 0 /\ sri_registered ctx' = 0) /\
    (st = VAL_SUCCESS -> released ctx' /\
       forall c2, cleanup (Some ctx') c2 = Ret ((VAL_SUCCESS, Some ctx'), c2)).
Proof. apply cleanup_ok. Qed.
End Cleanup.

(** ** Examples *)

Definition demo_conduit (a : ffa_args) (s : @svc sample_core ffa_args) : ffa_args * @svc sample_core ffa_args :=
  match val_tpm_crb_service_handle_request keep_last (Some 8) false a s with
  | Ret (_, s') => (world s', s')
  | _ => (ffa_args_zero, s)
  end.

Lemma demo_delivers a s next s' : fid a = FFA_MSG_SEND_DIRECT_REQ_64 ->
  val_tpm_crb_service_handle_request keep_last (Some 8) false a s = Ret (next, s') -> demo_conduit a s = (world s', s').
Proof. intros _ E. unfold demo_conduit. by rewrite E. Qed.

Definition demo_client : @client (@svc sample_core ffa_args) := Client 0 (svc_boot demo_tpm ffa_args_zero).
Definition demo_ctx : notification_context := Ctx 1 0x8002 2 0 0 0 0 0 0.

Lemma demo_client_inv : svc_inv (outside demo_client).
Proof. apply svc_boot_inv. Qed.

Lemma crb_copy_confined_witness :
  exists c', @val_tpm_crb_copy_to_mmio sample_val_common _ crb (fun m s => set_crb m s) 0x88f00080 (Some [1; 2; 3]) 2 demo_client
    = Ret (0, c') /\ frame 0x88f00080 2 (crb (outside demo_client)) (crb (outside c')).
Proof.
  destruct (@crb_copy_confined sample_val_common (@svc sample_core ffa_args) crb (fun m s => set_crb m s)
    (fun m s => eq_refl) 0x88f00080 [1; 2; 3] 2 [0; 0; 0; 0] 4 demo_client) as (c' & E & F & _).
  - done.
  - apply is_bytes_forallb. reflexivity.
  - by vm_compute.
  - lia.
  - reflexivity.
  - exists c'. split; [exact E | exact F].
Defined.

Lemma registration_agrees_witness :
  exists st ctx1 c1, @val_tpm_notification_register sample_val_common _ demo_conduit false 0 (Some demo_ctx) 0 0 5 CRB_OK demo_client
    = Ret ((st, Some ctx1), c1) /\ @agree sample_core ctx1 (outside c1) /\ st = 0.
Proof.
  destruct (@registration_agrees sample_val_common sample_core (Some 8) false demo_conduit demo_delivers false 0
    demo_ctx 0 0 5 CRB_OK demo_client) as [(st & ctx1 & c1 & E & HA & _) _].
  - split; [done|]. split; [done|]. split; [by left | reflexivity].
  - done.
  - done.
  - done.
  - exists st, ctx1, c1. split; [exact E|]. split; [destruct HA as [HA|[HA _]]; [exact HA | by destruct HA]|].
    vm_compute in E. congruence.
Defined.

(** A request that a test expects the service to refuse, and that it accepts: the
    service has a registration that the context of the client does not know of, and
    the clean-up will not remove it. *)
Theorem unexpected_registration_kept :
  exists ctx1 c1, @val_tpm_notification_register sample_val_common _ demo_conduit false 0 (Some demo_ctx) 0 0 5 CRB_INVARG demo_client
    = Ret ((VAL_ERROR, Some ctx1), c1) /\ registered ctx1 = 0 /\ n_registered (ntf (outside c1)) = 1.
Proof. eexists _, _. split; [vm_compute; reflexivity | split; reflexivity]. Qed.

Lemma relinquish_releases_witness :
  exists c', @val_tpm_relinquish_locality sample_val_common _ demo_conduit false 0 crb (fun m s => set_crb m s) 1 0x8002 3 demo_client
    = Ret (0, c') /\ sts_granted (outside c') 3 = false.
Proof.
  destruct (@relinquish_releases sample_val_common sample_core (Some 8) false demo_conduit demo_delivers false 0
    1 0x8002 3 demo_client) as (c' & E & _ & _ & G & _).
  - done.
  - done.
  - apply demo_client_inv.
  - by vm_compute.
  - reflexivity.
  - exists c'. split; [exact E | exact G].
Defined.

(** An interrupt controller that accepts everything, and a manager that too; both keep
    the log. *)
Definition quiet_irq : IrqOps (list call) :=
  {| val_irq_register_handler := fun _ w => Ret (0, w);
     val_irq_unregister_handler := fun n w => Ret (0, w ++ [IrqUnregistered n 0]);
     val_irq_enable := fun _ _ w => Ret (tt, w); val_irq_disable := fun n w => Ret (tt, w ++ [IrqDisabled n]) |}.
Definition demo_ctx_full : notification_context := Ctx 1 0x8002 2 1 1 1 8 1 1.
Definition bare_config : ValConfig := {|
  ENABLE_TPM_CRB := true; PLATFORM_NS_HYP_MULTI_VM := false; PLATFORM_NS_HYPERVISOR_PRESENT := false;
  PLATFORM_SP_EL := 1; PLATFORM_SPMC_EL := 2; PLATFORM_SP_SEND_DIRECT_REQ := true;
  PLATFORM_VM_SEND_DIRECT_RESP := true |}.
Definition served (a : ffa_args) (w : list call) : ffa_args * list call :=
  let r := FfaArgs FFA_MSG_SEND_DIRECT_RESP_64 0 0 0 CRB_OK 0 0 0 0 0 0 0 0 0 0 0 0 0 in (r, w ++ [Ffa a r]).
Abbreviation demo_cleanup :=
  (@val_tpm_notification_cleanup sample_val_common bare_config (list call) served quiet_irq false 0 false).

(** The log of the calls. *)
Definition in_log (w : list call) (x : call) (w' : list call) : Prop := w' = w ++ [x].

Lemma cleanup_releases_witness :
  exists st ctx' c' xs, demo_cleanup (Some demo_ctx_full) (Client 0 []) = Ret ((st, Some ctx'), c') /\
    makes in_log [] xs (outside c') /\ length (requested <$> xs) = 5%nat /\ st = 0 /\ bitmap_created ctx' = 0 /\
    demo_cleanup (Some ctx') c' = Ret ((0, Some ctx'), c').
Proof.
  destruct (@cleanup_releases sample_val_common bare_config (list call) served quiet_irq false 0 false in_log (fun _ => True) 8
    ltac:(intros a w _; split; [cbn; discriminate | split; [exact I | reflexivity]])
    ltac:(intros w _; eexists; split; [reflexivity | split; [exact I | reflexivity]])
    ltac:(intros w _; eexists 0, _; split; reflexivity) demo_ctx_full (Client 0 []) I eq_refl)
    as (st & ctx' & c' & xs & E & C & R & _ & _ & Hb & _ & Hr).
  exists st, ctx', c', xs. split; [exact E|]. split; [exact C|]. rewrite R. split; [reflexivity|].
  assert (Hs : st = 0) by (vm_compute in E; congruence).
  split; [exact Hs|]. split; [apply Hb; reflexivity|]. apply Hr. exact Hs.
Defined.
