(* ===== verification/Irq.v ===== *)
(** * Interrupt handlers (pal_irq.c, val_irq.c, pal_spm_helpers.c, val_exceptions.c)

    A table of handlers for the shared interrupts and one per core for the banked
    ones, kept in step with the controller by registering, unregistering and the
    dispatcher.  The handlers are addresses; what a call does is the parameter
    [call_handler], with 0 the null pointer. *)

From S2P Require Import Prelude Machine Gic TpmClient.

(** ** The partition manager's interrupt calls (pal_spm_helpers.c) *)
Definition SPM_INTERRUPT_ENABLE : Z := 0xff03.
Definition SPM_INTERRUPT_GET : Z := 0xff04.
Definition SPM_INTERRUPT_DEACTIVATE : Z := 0xff08.
Definition PAL_FFA_ID_GET_32 : Z := 0x84000069.

Section Spm.
Context {S : Type} `{!Machine S}.
(** The two conduits of pal_misc_asm.S and pal_asm_smc.S: function id, the seven
    arguments, the eight results. *)
Context (asm_hvc64 asm_smc64 : Z -> list Z -> S -> list Z * S).
(** [(PLATFORM_SP_EL == 1) || defined(VM1_COMPILE)]. *)
Context (own_masks : bool).

Definition pal_hvc (fid : Z) (args : list Z) : cmd S (list Z) := fun s => Ret (asm_hvc64 fid args s).
Definition pal_smc (fid : Z) (args : list Z) : cmd S (list Z) := fun s => Ret (asm_smc64 fid args s).

Definition spm_interrupt_get : cmd S Z := ret ← pal_hvc SPM_INTERRUPT_GET [0; 0; 0; 0; 0; 0; 0]; mret (u32 (nth 0 ret 0)).

Definition spm_interrupt_enable (int_id : Z) (enable : bool) (pin : Z) : cmd S Z :=
  ret ← pal_hvc SPM_INTERRUPT_ENABLE [int_id; if enable then 1 else 0; pin; 0; 0; 0; 0];
  _ ← (if own_masks then
         if enable then _ ← enable_irq; enable_fiq else _ ← disable_irq; disable_fiq
       else mret tt);
  mret (sint 64 (nth 0 ret 0)).

Definition spm_interrupt_deactivate (vint_id : Z) : cmd S Z :=
  ret ← pal_hvc SPM_INTERRUPT_DEACTIVATE [vint_id; vint_id; 0; 0; 0; 0; 0];
  _ ← (if own_masks then disable_irq else mret tt);
  mret (sint 64 (nth 0 ret 0)).

(** pal_sp_helpers.c *)
Definition pal_get_current_ep_id : cmd S Z := ret ← pal_smc PAL_FFA_ID_GET_32 [0; 0; 0; 0; 0; 0; 0]; mret (u32 (nth 2 ret 0)).
End Spm.

(** ** State *)
Definition PLAT_MAX_SPI_OFFSET_ID : Z := 107.
Definition IS_PLAT_SPI (irq_num : Z) : bool := (MIN_SPI_ID <=? irq_num) && (irq_num <=? MIN_SPI_ID + PLAT_MAX_SPI_OFFSET_ID).
Definition GICC_BASE : Z := 0x2c000000.
Definition GICD_BASE : Z := 0x2f000000.
Definition GICR_BASE : Z := 0x2f100000.

Record handlers := Handlers {
  spi_desc_table : list Z; ppi_desc_table : list (list Z); sgi_desc_table : list (list Z);
  spurious_desc_handler : Z; spi_lock : Z
}.
Definition no_handlers : handlers :=
  Handlers (replicate 108 0) (replicate 8 (replicate 16 0)) (replicate 8 (replicate 16 0)) 0 0.

(** What the pointer [get_irq_handler] returns points to. *)
Inductive slot := SpiSlot (i : Z) | PpiSlot (core i : Z) | SgiSlot (core i : Z) | SpuriousSlot.
#[export] Instance slot_eq_dec : EqDecision slot.
Proof. solve_decision. Defined.

Definition slot_get (h : handlers) (p : slot) : option Z :=
  match p with
  | SpiSlot i => spi_desc_table h !! Z.to_nat i
  | PpiSlot c i => row ← ppi_desc_table h !! Z.to_nat c; row !! Z.to_nat i
  | SgiSlot c i => row ← sgi_desc_table h !! Z.to_nat c; row !! Z.to_nat i
  | SpuriousSlot => Some (spurious_desc_handler h)
  end.
Definition slot_set (p : slot) (v : Z) (h : handlers) : handlers :=
  match p with
  | SpiSlot i => Handlers (aset (spi_desc_table h) i v) (ppi_desc_table h) (sgi_desc_table h) (spurious_desc_handler h) (spi_lock h)
  | PpiSlot c i => Handlers (spi_desc_table h) (alter (fun row => aset row i v) (Z.to_nat c) (ppi_desc_table h))
                     (sgi_desc_table h) (spurious_desc_handler h) (spi_lock h)
  | SgiSlot c i => Handlers (spi_desc_table h) (ppi_desc_table h)
                     (alter (fun row => aset row i v) (Z.to_nat c) (sgi_desc_table h)) (spurious_desc_handler h) (spi_lock h)
  | SpuriousSlot => Handlers (spi_desc_table h) (ppi_desc_table h) (sgi_desc_table h) v (spi_lock h)
  end.
Definition set_lock (v : Z) (h : handlers) : handlers :=
  Handlers (spi_desc_table h) (ppi_desc_table h) (sgi_desc_table h) (spurious_desc_handler h) v.

(** What a handler gets: the number of a shared or private interrupt, the SGI's
    data, or nothing. *)
Inductive irq_data := IrqNum (n : Z) | SgiData (n : Z) | NoData.

Section Irq.
Context {S : Type} `{!Machine S} (fuel : nat).
Context (asm_hvc64 : Z -> list Z -> S -> list Z * S).
Context (call_handler : Z -> irq_data -> cmd S Z).
(** [VM1_COMPILE]: interrupts come from the controller, not from the manager. *)
Context (VM1_COMPILE : bool).

Record irq := IrqSt { tables : handlers; gic : Arm.arm_gic S }.
Definition on_gic {A} (c : cmd (Arm.arm_gic S) A) : cmd irq A := zoom gic (fun g s => IrqSt (tables s) g) c.
Definition on_hw {A} (c : cmd S A) : cmd irq A :=
  on_gic (zoom Arm.machine (fun m g => Arm.ArmGic S (Arm.gicv3_detected g) (Arm.v2 g) (Arm.v3 g) m) c).
Definition set_tables (f : handlers -> handlers) : cmd irq unit := modify (fun s => IrqSt (f (tables s)) (gic s)).

Definition get_irq_handler (irq_num : Z) : cmd irq slot :=
  if IS_PLAT_SPI irq_num then mret (SpiSlot (irq_num - MIN_SPI_ID))
  else
    linear_id ← on_hw (mpid ← read_sysreg MPIDR_EL1; mret (platform_get_core_pos (u32 mpid)));
    if IS_PPI irq_num then mret (PpiSlot linear_id (irq_num - MIN_PPI_ID))
    else if IS_SGI irq_num then mret (SgiSlot linear_id (irq_num - MIN_SGI_ID))
    else _ ← assert (irq_num =? GIC_SPURIOUS_INTERRUPT); mret SpuriousSlot.

(** [*p]. *)
Definition deref (p : slot) : cmd irq Z := fun s =>
  match slot_get (tables s) p with Some v => Ret (v, s) | None => Fault end.

Definition pal_send_sgi (sgi_id core_pos : Z) : cmd irq unit :=
  _ ← assert (IS_SGI sgi_id);
  _ ← on_gic (Arm.arm_gic_send_sgi sgi_id core_pos); on_hw enable_irq.

Definition pal_irq_enable (irq_num irq_priority : Z) : cmd irq unit :=
  _ ← on_hw disable_irq;
  _ ← (if IS_PLAT_SPI irq_num then
         core ← on_hw my_core_pos; on_gic (Arm.arm_gic_set_intr_target irq_num core)
       else mret tt);
  _ ← on_gic (Arm.arm_gic_set_intr_priority irq_num irq_priority);
  _ ← on_gic (Arm.arm_gic_intr_enable irq_num);
  _ ← on_hw enable_irq; on_hw enable_fiq.

Definition pal_irq_disable (irq_num : Z) : cmd irq unit := on_gic (Arm.arm_gic_intr_disable irq_num).

(** [pal_spin_lock] on a lock nobody releases spins for ever. *)
Definition take_lock : cmd irq unit := fun s =>
  if spi_lock (tables s) =? 0 then set_tables (set_lock 1) s else Diverge.

Definition HANDLER_VALID (handler : Z) (expect_handler : bool) : bool :=
  if expect_handler then negb (handler =? 0) else handler =? 0.

Definition pal_irq_update_handler (irq_num irq_handler : Z) (expect_handler : bool) : cmd irq Z :=
  cur_handler ← get_irq_handler irq_num;
  _ ← (if IS_PLAT_SPI irq_num then take_lock else mret tt);
  v ← deref cur_handler; _ ← assert (HANDLER_VALID v expect_handler);
  ret ← (if HANDLER_VALID v expect_handler then _ ← set_tables (slot_set cur_handler irq_handler); mret 0
         else mret (-1));
  _ ← (if IS_PLAT_SPI irq_num then set_tables (set_lock 0) else mret tt);
  mret ret.

Definition pal_irq_register_handler (irq_num irq_handler : Z) : cmd irq Z := pal_irq_update_handler irq_num irq_handler false.
Definition pal_irq_unregister_handler (irq_num : Z) : cmd irq Z := pal_irq_update_handler irq_num 0 true.

Definition pal_get_irq_num : cmd irq Z := '(n, _) ← on_gic Arm.arm_gic_intr_ack; mret n.
Definition pal_gic_end_of_intr (irq_num : Z) : cmd irq unit := on_gic (Arm.arm_gic_end_of_intr irq_num).

Definition irq_data_of (irq_num : Z) : irq_data :=
  if IS_PLAT_SPI irq_num || IS_PPI irq_num then IrqNum irq_num
  else if IS_SGI irq_num then SgiData irq_num else NoData.

Definition pal_irq_handler_dispatcher : cmd irq Z :=
  '(irq_num, raw_iar) ← (if VM1_COMPILE then on_gic Arm.arm_gic_intr_ack
                         else n ← on_hw (spm_interrupt_get asm_hvc64); mret (n, 0));
  handler ← get_irq_handler irq_num;
  h ← deref handler;
  if negb (h =? 0) then
    _ ← on_hw (call_handler h (irq_data_of irq_num));
    _ ← (if VM1_COMPILE && negb (irq_num =? GIC_SPURIOUS_INTERRUPT) then on_gic (Arm.arm_gic_end_of_intr raw_iar) else mret tt);
    mret PAL_SUCCESS
  else mret PAL_ERROR.

Definition pal_irq_setup : cmd irq unit :=
  _ ← on_gic (Arm.arm_gic_init fuel GICC_BASE GICD_BASE GICR_BASE); set_tables (fun _ => no_handlers).

(** val_irq.c *)
Definition val_irq_setup : cmd irq unit := pal_irq_setup.

(** The interface of the TPM client; [sri_handler] is the address of its handler. *)
Definition irq_ops (sri_handler : Z) : IrqOps irq := {|
  val_irq_register_handler n := pal_irq_register_handler n sri_handler;
  val_irq_unregister_handler := pal_irq_unregister_handler;
  val_irq_enable := pal_irq_enable;
  val_irq_disable := pal_irq_disable
|}.

(** val_exceptions.c: the IRQ vector. *)
Definition val_irq_current : cmd irq bool := r ← pal_irq_handler_dispatcher; mret (r =? PAL_SUCCESS).
End Irq.
