(* ===== verification/IrqProof.v ===== *)
(** * The handler tables

    Registering and unregistering are insertion and deletion in a map from
    interrupts to handlers (per core for the banked ones); an interrupt that is
    taken runs the handler registered for it and is then completed; the interrupt
    controller serves the client of the TPM partition through [IrqOps]. *)

From S2P Require Import Prelude ValCommon EndpointInfo FfaAbi Machine Gic GicProof TpmClient TpmClientProof Irq.

(** ** The tables as a map *)

Record tables_wf (h : handlers) : Prop := {
  tw_spi : length (spi_desc_table h) = 108%nat;
  tw_ppi : length (ppi_desc_table h) = 8%nat /\ Forall (fun row => length row = 16%nat) (ppi_desc_table h);
  tw_sgi : length (sgi_desc_table h) = 8%nat /\ Forall (fun row => length row = 16%nat) (sgi_desc_table h)
}.

Definition slot_ok (p : slot) : Prop :=
  match p with
  | SpiSlot i => 0 <= i < 108
  | PpiSlot c i | SgiSlot c i => 0 <= c < 8 /\ 0 <= i < 16
  | SpuriousSlot => True
  end.

(** The slot of an interrupt on a core. *)
Definition slot_of (core irq_num : Z) : slot :=
  if IS_PLAT_SPI irq_num then SpiSlot (irq_num - MIN_SPI_ID)
  else if IS_PPI irq_num then PpiSlot core (irq_num - MIN_PPI_ID)
  else if IS_SGI irq_num then SgiSlot core (irq_num - MIN_SGI_ID)
  else SpuriousSlot.

(** The interrupts that have a slot. *)
Definition handled (irq_num : Z) : Prop :=
  0 <= irq_num <= MIN_SPI_ID + PLAT_MAX_SPI_OFFSET_ID \/ irq_num = GIC_SPURIOUS_INTERRUPT.

Lemma slot_of_ok core n : 0 <= core < 8 -> 0 <= n -> slot_ok (slot_of core n).
Proof.
  intros Hc Hn. unfold slot_of, IS_PLAT_SPI, IS_PPI, IS_SGI, MIN_SPI_ID, MIN_PPI_ID, MAX_PPI_ID, MIN_SGI_ID, MAX_SGI_ID, PLAT_MAX_SPI_OFFSET_ID.
  destruct (Z.leb_spec 32 n), (Z.leb_spec n (32 + 107)), (Z.leb_spec 16 n), (Z.leb_spec n 31), (Z.leb_spec n 15); cbn; lia.
Qed.

Lemma banked_lookup (rows : list (list Z)) c i :
  length rows = 8%nat -> Forall (fun row => length row = 16%nat) rows -> 0 <= c < 8 -> 0 <= i < 16 ->
  exists row v, rows !! Z.to_nat c = Some row /\ row !! Z.to_nat i = Some v.
Proof.
  intros Hl Hr Hc Hi. destruct (lookup_lt_is_Some_2 rows (Z.to_nat c)) as [row Er]; [lia|].
  pose proof (Forall_lookup_1 _ _ _ _ Hr Er) as Hlen. cbn in Hlen.
  destruct (lookup_lt_is_Some_2 row (Z.to_nat i)) as [v Ev]; [lia|]. eauto.
Qed.

Lemma slot_get_some h p : tables_wf h -> slot_ok p -> exists v, slot_get h p = Some v.
Proof.
  intros [H1 [H2 H2'] [H3 H3']] Hp. destruct p as [i|c i|c i|]; cbn in *.
  - apply lookup_lt_is_Some_2. lia.
  - destruct (banked_lookup (ppi_desc_table h) c i) as (row & v & E1 & E2); [done|done|lia|lia|].
    exists v. rewrite E1. exact E2.
  - destruct (banked_lookup (sgi_desc_table h) c i) as (row & v & E1 & E2); [done|done|lia|lia|].
    exists v. rewrite E1. exact E2.
  - eauto.
Qed.

Lemma banked_set_wf (rows : list (list Z)) c i v :
  length rows = 8%nat /\ Forall (fun row => length row = 16%nat) rows ->
  length (alter (fun row => aset row i v) c rows) = 8%nat /\
  Forall (fun row => length row = 16%nat) (alter (fun row => aset row i v) c rows).
Proof.
  intros [Hl Hr]. split; [by rewrite length_alter|]. apply Forall_alter; [done|].
  intros row _ Hrow. unfold aset. by rewrite length_insert.
Qed.

Lemma slot_set_wf h p v : tables_wf h -> tables_wf (slot_set p v h).
Proof.
  intros [H1 H2 H3]. destruct p as [i|c i|c i|]; constructor; cbn; auto using banked_set_wf.
  unfold aset. by rewrite length_insert.
Qed.

Lemma banked_get_set (rows : list (list Z)) c i c' i' v :
  length rows = 8%nat -> Forall (fun row => length row = 16%nat) rows -> 0 <= c < 8 -> 0 <= i < 16 -> 0 <= c' < 8 -> 0 <= i' < 16 ->
  (row ← alter (fun row => aset row i v) (Z.to_nat c) rows !! Z.to_nat c'; row !! Z.to_nat i') =
  if decide (c = c' /\ i = i') then Some v else (row ← rows !! Z.to_nat c'; row !! Z.to_nat i').
Proof.
  intros Hl Hr Hc Hi Hc' Hi'. destruct (banked_lookup rows c i) as (row & w & E1 & E2); [done|done|lia|lia|].
  destruct (decide (c = c')) as [->|Hne].
  - rewrite list_lookup_alter_eq, E1. cbn. unfold aset. destruct (decide (i = i')) as [->|Hi2].
    + rewrite list_lookup_insert_eq by (eapply lookup_lt_Some; done). by rewrite decide_True.
    + rewrite list_lookup_insert_ne by lia. by rewrite decide_False by (intros [_ ?]; done).
  - rewrite list_lookup_alter_ne by lia. by rewrite decide_False by (intros [? _]; done).
Qed.

(** Reading a slot after a write. *)
Lemma slot_get_set h p q v : tables_wf h -> slot_ok p -> slot_ok q ->
  slot_get (slot_set p v h) q = if decide (p = q) then Some v else slot_get h q.
Proof.
  intros [H1 [H2 H2'] [H3 H3']] Hp Hq.
  destruct p as [i|c i|c i|], q as [i'|c' i'|c' i'|]; cbn in *; try (by rewrite decide_False by congruence).
  - unfold aset. destruct (decide (SpiSlot i = SpiSlot i')) as [[= ->]|Hne].
    + by rewrite list_lookup_insert_eq by lia.
    + rewrite list_lookup_insert_ne; [done|]. intros E. apply Hne. f_equal. lia.
  - rewrite (banked_get_set (ppi_desc_table h)) by (done || lia).
    destruct (decide (c = c' /\ i = i')) as [[-> ->]|Hne]; [by rewrite decide_True|].
    rewrite decide_False; [done|]. intros [= -> ->]. by apply Hne.
  - rewrite (banked_get_set (sgi_desc_table h)) by (done || lia).
    destruct (decide (c = c' /\ i = i')) as [[-> ->]|Hne]; [by rewrite decide_True|].
    rewrite decide_False; [done|]. intros [= -> ->]. by apply Hne.
  - by rewrite decide_True.
Qed.

Lemma aset_undo (row : list Z) i v w : row !! Z.to_nat i = Some v -> aset (aset row i w) i v = row.
Proof. intros E. unfold aset. rewrite list_insert_insert_eq. by apply list_insert_id. Qed.

Lemma banked_undo (rows : list (list Z)) c i v w :
  (row ← rows !! Z.to_nat c; row !! Z.to_nat i) = Some v ->
  alter (fun row => aset row i v) (Z.to_nat c) (alter (fun row => aset row i w) (Z.to_nat c) rows) = rows.
Proof.
  intros E. rewrite list_alter_alter_eq. rewrite <- (list_alter_id id rows (Z.to_nat c)) at 2 by done.
  apply list_alter_ext; [|done]. intros row Er. rewrite Er in E. cbn. by apply aset_undo.
Qed.

Lemma slot_set_undo h p v w : slot_get h p = Some v -> slot_set p v (slot_set p w h) = h.
Proof.
  destruct h as [a b c d l]. destruct p as [i|cc i|cc i|]; cbn; intros E.
  - by rewrite aset_undo.
  - by rewrite banked_undo.
  - by rewrite banked_undo.
  - by injection E as ->.
Qed.

Section Handlers.
Context {S : Type} `{HM : !Machine S} `{!GicDevice S}.
Abbreviation st_t := (@irq S).

Definition this_core (st : st_t) : Z := platform_get_core_pos (u32 (core_mpidr (Arm.machine (gic st)))).
Definition with_tables (h : handlers) (st : st_t) : st_t := IrqSt h (gic st).

(** The tables between two calls: complete, the lock free. *)
Record irq_ok (st : st_t) : Prop := {
  io_wf : tables_wf (tables st);
  io_lock : spi_lock (tables st) = 0;
  io_core : 0 <= this_core st < 8
}.

Definition handler_of (st : st_t) (irq_num : Z) : option Z := slot_get (tables st) (slot_of (this_core st) irq_num).

Lemma on_hw_eq {A} (c : cmd S A) (st : st_t) a m :
  c (Arm.machine (gic st)) = Ret (a, m) -> on_hw c st = Ret (a, IrqSt (tables st) (with_machine m (gic st))).
Proof. intros E. unfold on_hw, on_gic, zoom. by rewrite E. Qed.

Lemma with_own_machine (g : Arm.arm_gic S) : with_machine (Arm.machine g) g = g.
Proof. by destruct g. Qed.

Lemma get_irq_handler_spec (st : st_t) n : handled n -> get_irq_handler n st = Ret (slot_of (this_core st) n, st).
Proof.
  intros Hn. unfold get_irq_handler, slot_of. destruct (IS_PLAT_SPI n) eqn:Ep; [done|].
  erewrite cmd_bind_eq.
  2:{ apply on_hw_eq. unfold read_sysreg, mbind, cmd_bind. rewrite read_mpidr. reflexivity. }
  rewrite with_own_machine. fold (this_core st).
  assert (Est : IrqSt (tables st) (gic st) = st) by (by destruct st). rewrite Est.
  destruct (IS_PPI n) eqn:Epp; [done|]. destruct (IS_SGI n) eqn:Es; [done|].
  assert (n = GIC_SPURIOUS_INTERRUPT).
  { unfold handled, IS_PLAT_SPI, IS_SGI, IS_PPI, MIN_SPI_ID, MAX_SGI_ID, MIN_PPI_ID, MAX_PPI_ID, PLAT_MAX_SPI_OFFSET_ID in *. lia. }
  by subst n.
Qed.

Lemma deref_spec (st : st_t) p v : slot_get (tables st) p = Some v -> deref p st = Ret (v, st).
Proof. intros E. unfold deref. by rewrite E. Qed.

(** Updating a handler: an insertion when the slot is as expected, and the end of
    the run when it is not. *)
Lemma update_handler_spec (st : st_t) n h expect v :
  irq_ok st -> handled n -> handler_of st n = Some v ->
  pal_irq_update_handler n h expect st =
    if HANDLER_VALID v expect then Ret (0, with_tables (slot_set (slot_of (this_core st) n) h (tables st)) st) else Panic.
Proof.
  intros [Hwf Hl Hc] Hn Hv. unfold pal_irq_update_handler. rewrite (cmd_bind_eq _ _ _ _ _ (get_irq_handler_spec st n Hn)).
  unfold handler_of in Hv. set (p := slot_of (this_core st) n) in *. destruct (IS_PLAT_SPI n) eqn:Ep.
  - erewrite cmd_bind_eq; [|unfold take_lock; rewrite Hl; reflexivity].
    erewrite cmd_bind_eq; [|apply deref_spec; destruct p; exact Hv].
    unfold assert, mbind, cmd_bind. destruct (HANDLER_VALID v expect); [|done].
    unfold mret, cmd_ret, set_tables, modify, with_tables. cbn [tables gic]. do 3 f_equal.
    destruct st as [[t1 t2 t3 t4 lk] g]. cbn in Hl. subst lk. by destruct p.
  - erewrite cmd_bind_eq; [|reflexivity]. erewrite cmd_bind_eq; [|by apply deref_spec].
    unfold assert, mbind, cmd_bind. by destruct (HANDLER_VALID v expect).
Qed.

Lemma with_tables_ok (st : st_t) p v : irq_ok st -> irq_ok (with_tables (slot_set p v (tables st)) st).
Proof.
  intros [Hwf Hl Hc]. constructor; [by apply slot_set_wf| |done]. destruct p; exact Hl.
Qed.

(** Registering a handler for an interrupt without one returns 0 and changes the
    slot of that interrupt on this core only; unregistering it restores the state
    exactly; registering over a handler or unregistering none stops the endpoint. *)
Theorem handler_table (st : st_t) n h :
  irq_ok st -> handled n -> h <> 0 ->
  exists old, handler_of st n = Some old /\
    (old <> 0 -> pal_irq_register_handler n h st = Panic) /\
    (old = 0 -> pal_irq_unregister_handler n st = Panic) /\
    (old = 0 -> exists st', pal_irq_register_handler n h st = Ret (0, st') /\ irq_ok st' /\
       (forall n', handled n' -> handler_of st' n' =
          if decide (slot_of (this_core st) n' = slot_of (this_core st) n) then Some h else handler_of st n') /\
       pal_irq_unregister_handler n st' = Ret (0, st)).
Proof.
  intros Hok Hn Hh. assert (Hpos : 0 <= n) by (unfold handled, GIC_SPURIOUS_INTERRUPT in Hn; lia).
  pose proof (slot_of_ok (this_core st) n (io_core st Hok) Hpos) as Hp.
  destruct (slot_get_some (tables st) _ (io_wf st Hok) Hp) as [old Hold]. exists old. split; [done|].
  unfold pal_irq_register_handler, pal_irq_unregister_handler.
  split; [|split].
  - intros Ho. rewrite (update_handler_spec st n h false old) by done. unfold HANDLER_VALID. by rewrite (proj2 (Z.eqb_neq _ _) Ho).
  - intros ->. by rewrite (update_handler_spec st n 0 true 0).
  - intros ->. rewrite (update_handler_spec st n h false 0) by done. set (p := slot_of (this_core st) n) in *.
    exists (with_tables (slot_set p h (tables st)) st). split; [done|]. pose proof (with_tables_ok st p h Hok) as Hok'.
    split; [done|]. split.
    + intros n' Hn'. unfold handler_of. change (this_core (with_tables _ st)) with (this_core st). cbn [tables with_tables].
      assert (Hp' : slot_ok (slot_of (this_core st) n')) by (apply slot_of_ok; [apply Hok|]; unfold handled, GIC_SPURIOUS_INTERRUPT in Hn'; lia).
      rewrite (slot_get_set _ _ _ _ (io_wf st Hok) Hp Hp'). destruct (decide (p = slot_of (this_core st) n')) as [E|E].
      * by rewrite decide_True.
      * by rewrite decide_False.
    + rewrite (update_handler_spec _ n 0 true h); [| done | done |].
      * unfold HANDLER_VALID. rewrite (proj2 (Z.eqb_neq _ _) Hh). cbn [negb]. do 2 f_equal.
        change (this_core (with_tables _ st)) with (this_core st). fold p.
        unfold with_tables at 1. cbn [tables gic with_tables]. rewrite slot_set_undo by exact Hold. by destruct st.
      * unfold handler_of. change (this_core (with_tables _ st)) with (this_core st). cbn [tables with_tables].
        rewrite (slot_get_set _ _ _ _ (io_wf st Hok) Hp Hp). by rewrite decide_True.
Qed.

Section Delivery.
Context (asm_hvc64 : Z -> list Z -> S -> list Z * S) (call_handler : Z -> irq_data -> cmd S Z).
(** Whether the image is that of VM1. *)
Context (vm1 : bool).
Abbreviation dispatcher := (pal_irq_handler_dispatcher asm_hvc64 call_handler vm1).

(** Interrupt [n] is acknowledged at the controller, or is the answer of the manager;
    [raw]: what the controller is given back. *)
Definition takes (g : Arm.arm_gic S) (n raw : Z) (g1 : Arm.arm_gic S) : Prop :=
  if vm1 then Arm.arm_gic_intr_ack g = Ret ((n, raw), g1)
  else exists ret m, asm_hvc64 SPM_INTERRUPT_GET [0; 0; 0; 0; 0; 0; 0] (Arm.machine g) = (ret, m) /\
         n = u32 (nth 0 ret 0) /\ raw = 0 /\ g1 = with_machine m g /\ core_mpidr m = core_mpidr (Arm.machine g).
(** The interrupt is ended at the controller; a partition leaves that to the manager. *)
Definition completes (n raw : Z) (g g2 : Arm.arm_gic S) : Prop :=
  if vm1 && negb (n =? GIC_SPURIOUS_INTERRUPT) then Arm.arm_gic_end_of_intr raw g = Ret (tt, g2) else g2 = g.

Lemma takes_core g n raw g1 : takes g n raw g1 -> core_mpidr (Arm.machine g1) = core_mpidr (Arm.machine g).
Proof.
  unfold takes. destruct vm1; [by apply intr_ack_core|]. by intros (ret & m & _ & _ & _ & -> & Hm).
Qed.

Lemma completes_core n raw g g2 : completes n raw g g2 -> core_mpidr (Arm.machine g2) = core_mpidr (Arm.machine g).
Proof. unfold completes. destruct (_ && _); [by apply end_of_intr_core | by intros ->]. Qed.

Lemma dispatcher_takes (st : st_t) n raw g1 : takes (gic st) n raw g1 ->
  dispatcher st = (handler ← get_irq_handler n; h ← deref handler;
    if negb (h =? 0) then
      _ ← on_hw (call_handler h (irq_data_of n));
      _ ← (if vm1 && negb (n =? GIC_SPURIOUS_INTERRUPT) then on_gic (Arm.arm_gic_end_of_intr raw) else mret tt);
      mret PAL_SUCCESS
    else mret PAL_ERROR) (IrqSt (tables st) g1).
Proof.
  unfold takes, pal_irq_handler_dispatcher. destruct vm1.
  - intros Ea. erewrite cmd_bind_eq; [|unfold on_gic, zoom; rewrite Ea; reflexivity]. done.
  - intros (ret & m & E & -> & -> & -> & _). erewrite cmd_bind_eq.
    2:{ erewrite cmd_bind_eq; [reflexivity|]. apply on_hw_eq. unfold spm_interrupt_get, pal_hvc, mbind, cmd_bind. rewrite E. reflexivity. }
    done.
Qed.

(** An interrupt that was taken, on every branch. *)
Lemma dispatcher_none (st : st_t) n raw g1 : handled n -> takes (gic st) n raw g1 -> handler_of st n = Some 0 ->
  dispatcher st = Ret (PAL_ERROR, IrqSt (tables st) g1).
Proof.
  intros Hn Ea Eh. rewrite (dispatcher_takes _ _ _ _ Ea). apply takes_core in Ea. set (s1 := IrqSt (tables st) g1).
  assert (Ec : this_core s1 = this_core st) by (unfold this_core, s1; cbn [gic]; by rewrite Ea).
  erewrite cmd_bind_eq; [|by apply get_irq_handler_spec]. rewrite Ec.
  erewrite cmd_bind_eq; [|apply deref_spec; exact Eh]. done.
Qed.

Lemma dispatcher_runs (st : st_t) n raw g1 h r m g2 : handled n -> takes (gic st) n raw g1 -> handler_of st n = Some h -> h <> 0 ->
  call_handler h (irq_data_of n) (Arm.machine g1) = Ret (r, m) -> completes n raw (with_machine m g1) g2 ->
  dispatcher st = Ret (PAL_SUCCESS, IrqSt (tables st) g2).
Proof.
  intros Hn Ea Eh Hh Er Ee. rewrite (dispatcher_takes _ _ _ _ Ea). apply takes_core in Ea. set (s1 := IrqSt (tables st) g1).
  assert (Ec : this_core s1 = this_core st) by (unfold this_core, s1; cbn [gic]; by rewrite Ea).
  erewrite cmd_bind_eq; [|by apply get_irq_handler_spec]. rewrite Ec.
  erewrite cmd_bind_eq; [|apply deref_spec; exact Eh]. rewrite (proj2 (Z.eqb_neq _ _) Hh). cbn [negb].
  erewrite cmd_bind_eq; [|apply on_hw_eq; exact Er]. unfold completes in Ee. destruct (vm1 && _).
  - erewrite cmd_bind_eq; [reflexivity|]. unfold on_gic, zoom, s1. cbn [gic tables].
    change (Arm.ArmGic S _ _ _ m) with (with_machine m g1). by rewrite Ee.
  - by rewrite Ee.
Qed.

Lemma get_irq_handler_unhandled (st : st_t) n : 0 <= n -> ~ handled n -> get_irq_handler n st = Panic.
Proof.
  intros H0 Hn. unfold handled in Hn. unfold get_irq_handler.
  assert (IS_PLAT_SPI n = false /\ IS_PPI n = false /\ IS_SGI n = false /\ (n =? GIC_SPURIOUS_INTERRUPT) = false) as (-> & E2 & E3 & E4).
  { unfold IS_PLAT_SPI, IS_SGI, IS_PPI, MIN_SPI_ID, MAX_SGI_ID, MIN_PPI_ID, MAX_PPI_ID, PLAT_MAX_SPI_OFFSET_ID in *. lia. }
  erewrite cmd_bind_eq.
  2:{ apply on_hw_eq. unfold read_sysreg, mbind, cmd_bind. rewrite read_mpidr. reflexivity. }
  rewrite E2, E3. unfold assert, mbind, cmd_bind. by rewrite E4.
Qed.

(** Claim C25: An interrupt that pal_irq_handler_dispatcher takes (VM1: acknowledged
    at the controller; a partition: answered by SPM_INTERRUPT_GET): a number that is
    neither an SGI, a PPI, an SPI of the handler table nor the spurious one stops
    the endpoint at an assertion; without a handler the dispatcher returns PAL_ERROR
    and changes nothing but what the taking did; between registering a handler and
    unregistering it the same interrupt calls that handler, which returns and stays
    on its core, with the data of the interrupt, the dispatcher returns PAL_SUCCESS,
    VM1 then ends the interrupt at the controller unless it is the spurious one (a
    partition leaves that to the manager), and the handler table is as before. The
    lock of the table is free and the core is one of the platform. *)
Theorem interrupt_delivered (st : st_t) n raw g1 :
  irq_ok st -> 0 <= n -> takes (gic st) n raw g1 ->
  (~ handled n -> dispatcher st = Panic) /\
  (handled n -> handler_of st n = Some 0 -> dispatcher st = Ret (PAL_ERROR, IrqSt (tables st) g1) /\
   forall h r m g2, h <> 0 ->
     call_handler h (irq_data_of n) (Arm.machine g1) = Ret (r, m) -> core_mpidr m = core_mpidr (Arm.machine g1) ->
     completes n raw (with_machine m g1) g2 ->
     exists st1 st2 st3,
       pal_irq_register_handler n h st = Ret (0, st1) /\
       dispatcher st1 = Ret (PAL_SUCCESS, st2) /\ gic st2 = g2 /\ tables st2 = tables st1 /\
       pal_irq_unregister_handler n st2 = Ret (0, st3) /\ tables st3 = tables st /\ gic st3 = g2).
Proof.
  intros Hok Hpos Ea. split.
  { intros Hn. rewrite (dispatcher_takes _ _ _ _ Ea). unfold mbind, cmd_bind. by rewrite get_irq_handler_unhandled. }
  intros Hn H0. split; [by eapply dispatcher_none|]. intros h r m g2 Hh Eh Em Ee.
  pose proof (slot_of_ok (this_core st) n (io_core st Hok) Hpos) as Hp.
  set (p := slot_of (this_core st) n) in *. set (st1 := with_tables (slot_set p h (tables st)) st).
  assert (Hst1 : handler_of st1 n = Some h).
  { unfold handler_of. change (this_core st1) with (this_core st). cbn [tables st1 with_tables]. fold p.
    rewrite (slot_get_set _ _ _ _ (io_wf st Hok) Hp Hp). by rewrite decide_True. }
  set (st2 := IrqSt (tables st1) g2).
  assert (Ec : this_core st2 = this_core st).
  { unfold this_core. cbn [gic st2]. rewrite (completes_core _ _ _ _ Ee). cbn [Arm.machine with_machine].
    by rewrite Em, (takes_core _ _ _ _ Ea). }
  assert (Hok2 : irq_ok st2).
  { destruct (with_tables_ok st p h Hok) as [W L C]. constructor; [exact W | exact L |]. rewrite Ec. apply Hok. }
  exists st1, st2, (with_tables (tables st) st2). split.
  { unfold pal_irq_register_handler. by rewrite (update_handler_spec st n h false 0). }
  split; [exact (dispatcher_runs st1 n raw g1 h r m g2 Hn Ea Hst1 Hh Eh Ee)|].
  split; [done|]. split; [done|]. split; [|done].
  unfold pal_irq_unregister_handler. rewrite (update_handler_spec st2 n 0 true h); [|done|done|].
  - unfold HANDLER_VALID. rewrite (proj2 (Z.eqb_neq _ _) Hh). cbn [negb]. rewrite Ec. fold p.
    cbn [tables st2 st1 with_tables]. by rewrite slot_set_undo.
  - unfold handler_of. rewrite Ec. exact Hst1.
Qed.
End Delivery.

(** ** Serving the TPM client *)

(** The controller is up and interrupt [n] has a handler. *)
Definition serves_sri (n : Z) (st : st_t) : Prop :=
  irq_ok st /\ gic_ready (gic st) /\ exists h, h <> 0 /\ handler_of st n = Some h.

Lemma irq_disable_serves n (st : st_t) : 0 <= n <= MIN_SPI_ID + PLAT_MAX_SPI_OFFSET_ID -> serves_sri n st ->
  exists st', pal_irq_disable n st = Ret (tt, st') /\ serves_sri n st'.
Proof.
  intros Hn ([Hwf Hl Hc] & Hg & h & Hh & Eh).
  destruct (intr_disable_spec (gic st) n Hg) as (m & E & Hm & He).
  { unfold MAX_SPI_ID, MIN_SPI_ID, PLAT_MAX_SPI_OFFSET_ID in *. lia. }
  set (st' := IrqSt (tables st) (with_machine m (gic st))).
  assert (Ec : this_core st' = this_core st) by (unfold this_core, st'; cbn [gic Arm.machine with_machine]; by rewrite Hm).
  exists st'. split; [unfold pal_irq_disable, on_gic, zoom; by rewrite E|].
  split; [constructor; [done|done|by rewrite Ec]|]. split; [by apply gic_ready_machine|].
  exists h. split; [done|]. unfold handler_of. rewrite Ec. exact Eh.
Qed.

Lemma irq_unregister_serves n (st : st_t) : 0 <= n <= MIN_SPI_ID + PLAT_MAX_SPI_OFFSET_ID -> serves_sri n st ->
  exists r st', pal_irq_unregister_handler n st = Ret (r, st').
Proof.
  intros Hn (Hok & _ & h & Hh & Eh). unfold pal_irq_unregister_handler.
  rewrite (update_handler_spec st n 0 true h); [|done|by left|done].
  unfold HANDLER_VALID. rewrite (proj2 (Z.eqb_neq _ _) Hh). cbn [negb]. eauto.
Qed.

(** The clean-up of the client of the TPM partition, run on this interrupt driver. *)
Corollary cleanup_on_controller `{ValCommon} `{ValConfig} (conduit : ffa_args -> st_t -> ffa_args * st_t)
    (resume : bool) (fuel : nat) (TARGET_LINUX : bool) (sri_handler : Z) (ctx : notification_context) (c : @client st_t) :
  (forall a w, serves_sri (sri_id ctx) w -> fid (conduit a w).1 <> FFA_INTERRUPT_32 /\ serves_sri (sri_id ctx) (conduit a w).2) ->
  0 <= sri_id ctx <= MIN_SPI_ID + PLAT_MAX_SPI_OFFSET_ID -> serves_sri (sri_id ctx) (outside c) ->
  exists st ctx' c', @val_tpm_notification_cleanup _ _ st_t conduit (irq_ops sri_handler) resume fuel TARGET_LINUX (Some ctx) c =
    Ret ((st, Some ctx'), c') /\ (st = VAL_SUCCESS -> released TARGET_LINUX ctx').
Proof.
  intros Hcon Hid Hs.
  destruct (@cleanup_ok _ _ st_t conduit (irq_ops sri_handler) resume fuel TARGET_LINUX (fun _ _ _ => True) (serves_sri (sri_id ctx)) (sri_id ctx))
    with (ctx := ctx) (c := c) as (st & ctx' & c' & xs & E & _ & _ & _ & _ & _ & _ & Hr); try done.
  - intros a w Hw. by destruct (Hcon a w Hw).
  - intros w Hw. destruct (irq_disable_serves (sri_id ctx) w Hid Hw) as (w' & E & Hw'). by exists w'.
  - intros w Hw. destruct (irq_unregister_serves (sri_id ctx) w Hid Hw) as (r & w' & E). by exists r, w'.
  - exists st, ctx', c'. split; [exact E|]. intros E1. by apply Hr.
Qed.
End Handlers.

(** ** Examples *)
Definition demo_irq : @irq sim_gic := IrqSt no_handlers demo_gic.

Lemma demo_irq_ok : irq_ok demo_irq.
Proof.
  constructor; [|done|vm_compute; split; congruence].
  constructor; [done|split; [done|]..]; apply Forall_replicate; done.
Qed.

Lemma handler_table_witness : exists st', pal_irq_register_handler 40 0x8800 demo_irq = Ret (0, st') /\
  pal_irq_unregister_handler 40 st' = Ret (0, demo_irq).
Proof.
  destruct (handler_table demo_irq 40 0x8800) as (old & Eo & _ & _ & H0).
  - apply demo_irq_ok.
  - left. vm_compute. split; congruence.
  - discriminate.
  - destruct H0 as (st' & E & _ & _ & U); [vm_compute in Eo; congruence|]. exists st'. split; [exact E | exact U].
Defined.

(** A handler that leaves the machine alone; interrupt 40 is pending. *)
Lemma interrupt_delivered_witness :
  exists st1 st2, pal_irq_register_handler 40 0x8800 demo_irq = Ret (0, st1) /\
    pal_irq_handler_dispatcher (fun _ _ m => ([], m)) (fun _ _ m => Ret (0, m)) true st1 = Ret (PAL_SUCCESS, st2).
Proof.
  destruct (interrupt_delivered (fun _ _ m => ([], m)) (fun _ _ m => Ret (0, m)) true demo_irq 40 40 demo_gic)
    as [_ H].
  - apply demo_irq_ok.
  - lia.
  - reflexivity.
  - destruct H as [_ H]; [left; vm_compute; split; congruence | reflexivity |].
    destruct (H 0x8800 0 ∅ demo_gic) as (st1 & st2 & st3 & E1 & E2 & _); [discriminate | reflexivity | reflexivity | reflexivity |].
    exists st1, st2. split; [exact E1 | exact E2].
Defined.
