(* ===== verification/VectorsProof.v ===== *)
(** * Exceptions are transparent

    What an exception vector leaves of the interrupted program: all its registers; the
    exception state is restored as the C handler asks for.  The interrupt vector runs
    the dispatcher of [Irq]. *)

From S2P Require Import Prelude CMem Machine Asm Gic Vectors Irq IrqProof.

(** ** Entry and exit *)
Section Vector.
Context {W : Type} (call : handler -> astate W -> outcome (astate W)) (conduit : astate W -> outcome (astate W)).

(** The words a vector pushes: their place in the frame and their value. *)
Definition pushed (e : elx) (s : astate W) : list (Z * Z) :=
  [(0, rf s X0); (1, rf s X1); (2, rf s X2); (3, rf s X3); (4, rf s X4); (5, rf s X5); (6, rf s X6);
   (7, rf s X7); (8, rf s X8); (9, rf s X9); (10, rf s X10); (11, rf s X11); (12, rf s X12);
   (13, rf s X13); (14, rf s X14); (15, rf s X15); (16, rf s X16); (17, rf s X17); (18, rf s X18);
   (20, rf s X29); (21, rf s X30); (22, sys s (elr e)); (23, sys s (spsr e))].

(** A frame at [sp] holds what was pushed in [s]. *)
Definition holds_frame (e : elx) (s : astate W) (m : mem) (sp : Z) : Prop :=
  Forall (fun '(i, v) => ldn 8 m (sp + 8 * i) = v) (pushed e s).

Definition words (s : astate W) : Prop := (forall r, is_uint 64 (rf s r)) /\ (forall r, is_uint 64 (sys s r)).

Lemma save_reaches e p s :
  frame_size <= rf s SP < 2 ^ 64 -> words s ->
  exists s1, reaches call conduit (save_volatile_to_stack e ++ p) 0 s 14 s1 /\
    rf s1 SP = rf s SP - frame_size /\
    Forall (fun r => rf s1 r = rf s r) [X19; X20; X21; X22; X23; X24; X25; X26; X27; X28; X29; X30] /\
    sys s1 = sys s /\ world s1 = world s /\
    frame (rf s SP - frame_size) frame_size (amem s) (amem s1) /\
    holds_frame e s (amem s1) (rf s SP - frame_size).
Proof.
  intros Hsp [Hr Hs]. eexists. split.
  { unfold save_volatile_to_stack. cbn [app]. do 14 anext. apply reaches_refl. }
  asimpl. unfold frame_size in *. change (8 * 24) with 192. usmall.
  split_and!; try done; [by repeat constructor | |].
  - intros b Hb. memsimp. done.
  - unfold holds_frame, pushed. repeat constructor.
    all: memsimp; apply uwrap_small; first [apply Hr | apply Hs].
Qed.

Lemma restore_returns e h ra s s2 :
  holds_frame e s (amem s2) (rf s2 SP) -> 0 <= rf s2 SP < 2 ^ 64 - frame_size ->
  exists s', ends call conduit (vector_code (Some (current_exception_spx e h ra))) 16 s2 (Ret s') /\
    rf s' SP = rf s2 SP + frame_size /\
    Forall (fun r => rf s' r = rf s r) [X0; X1; X2; X3; X4; X5; X6; X7; X8; X9; X10; X11; X12; X13; X14; X15; X16; X17; X18; X29; X30] /\
    Forall (fun r => rf s' r = rf s2 r) [X19; X20; X21; X22; X23; X24; X25; X26; X27; X28] /\
    amem s' = amem s2 /\ world s' = world s2 /\
    forall r, sys s' r = if decide (r = SPSR_EL1) then sys s (spsr e)
      else if decide (r = ELR_EL1) then if rf s2 X0 =? 0 then sys s (elr e) else sys s2 ELR_EL1
      else sys s2 r.
Proof.
  intros Hf Hsp. unfold frame_size, holds_frame, pushed in *. rewrite !List.Forall_cons_iff in Hf. destruct_and! Hf.
  destruct (Z.eqb_spec (rf s2 X0) 0) as [E|E]; eexists; (split;
    [unfold vector_code, current_exception_spx, save_volatile_to_stack, restore_from_stack_and_return; cbn [app];
     do 11 anext; [askip ltac:(rewrite E) || agoto ltac:(rewrite (proj2 (Z.eqb_neq _ _) E)); repeat first [astop | anext]] |]);
    asimpl; usmall.
  all: split_and!; try done;
    [repeat constructor; asimpl; match goal with H : ldn 8 _ _ = ?v |- ldn 8 _ _ = ?v => rewrite <- H; f_equal; lia end
    | by repeat constructor
    | intros r; unfold upd_sys; repeat case_decide; congruence].
Qed.

(** Every register a program can name. *)
Lemma all_regs (P : reg -> Prop) :
  Forall P [X0; X1; X2; X3; X4; X5; X6; X7; X8; X9; X10; X11; X12; X13; X14; X15; X16; X17; X18; X29; X30] ->
  Forall P [X19; X20; X21; X22; X23; X24; X25; X26; X27; X28] -> P SP -> forall r, r <> XZR -> P r.
Proof.
  rewrite !List.Forall_cons_iff. intros H H' Hsp r Hr. destruct_and! H. destruct_and! H'. by destruct r.
Qed.

(** A vector from entry to [eret]: [s1] is the state the handler is called in, [s2] the
    one it returns in. *)
Lemma vector_returns f b w e h ra s :
  frame_size <= rf s SP < 2 ^ 64 -> words s -> compiled call h f -> f (world s) = Ret (b, w) ->
  exists s1 s2 s', call h s1 = Ret s2 /\
    rf s2 X0 = Z.b2z b /\ world s2 = w /\
    world s1 = world s /\ sys s1 = sys s /\ frame (rf s SP - frame_size) frame_size (amem s) (amem s1) /\
    ends call conduit (vector_code (Some (current_exception_spx e h ra))) 0 s (Ret s') /\
    (forall r, r <> XZR -> rf s' r = rf s r) /\ amem s' = amem s2 /\ world s' = world s2 /\
    forall r, sys s' r = if decide (r = SPSR_EL1) then sys s (spsr e)
      else if decide (r = ELR_EL1) then if rf s2 X0 =? 0 then sys s (elr e) else sys s2 ELR_EL1
      else sys s2 r.
Proof.
  intros Hsp Hw Hh Hret0.
  destruct (save_reaches e ([Bl h ra; B (L L_restore)] ++ restore_from_stack_and_return) s Hsp Hw)
    as (s1 & Hsave & Hsp1 & Hcs & Hsys & Hworld & Hfr & Hf).
  destruct (Hh (set X30 (u64 ra) s1) b w) as (s2 & Hcall & [Hcs2 Hm2] & Hx0 & Hw2); [cbn [set world]; by rewrite Hworld|].
  cbn [callee_saved set rf amem] in Hcs2, Hm2. unfold upd_reg in Hm2. cbn [reg_num Z.eqb Pos.eqb] in Hm2.
  unfold callee_saved in Hcs2. rewrite !List.Forall_cons_iff in Hcs, Hcs2. destruct_and! Hcs. destruct_and! Hcs2.
  unfold upd_reg in *. cbn [reg_num Z.eqb Pos.eqb] in *.
  assert (Hsp2 : rf s2 SP = rf s SP - frame_size) by congruence.
  assert (Hf2 : holds_frame e s (amem s2) (rf s2 SP)).
  { unfold holds_frame in *. rewrite List.Forall_forall in *. intros [i v] Hi. rewrite <- (Hf _ Hi).
    assert (0 <= i <= 23).
    { clear - Hi. unfold pushed in Hi. repeat (destruct Hi as [[= <- _]|Hi]; [lia|]). destruct Hi. }
    rewrite Hsp2.
    apply ldn_ext. intros j Hj. apply Hm2. unfold frame_size in *. lia. }
  destruct (restore_returns e h ra s s2 Hf2) as (s' & Hret & Hsp' & Hv & Hc & Hm & Hwd & Hsr); [rewrite Hsp2; unfold frame_size in *; lia|].
  exists (set X30 (u64 ra) s1), s2, s'. split_and!; try done.
  - eapply ends_reaches; [exact Hsave|].
    eapply ends_next; [reflexivity | cbn [exec]; rewrite Hcall; reflexivity |].
    eapply ends_goto; [reflexivity | reflexivity | destruct e; reflexivity | exact Hret].
  - apply all_regs; [exact Hv | | lia].
    rewrite !List.Forall_cons_iff in Hc |- *. destruct_and! Hc. split_and!; (done || congruence).
Qed.
End Vector.

(** ** Theorems *)

(** The C function behind a vector. *)
Definition vector_handler (n : Z) : handler := if n =? 4 then h_val_sync_exception_current else h_val_irq_current.

Lemma vector_table_cases at_el2 ra n c : vector_table at_el2 ra n = Some c ->
  exists e, c = current_exception_spx e (vector_handler n) ra /\ e = if n =? 4 then el1 else irq_el at_el2.
Proof.
  unfold vector_table, vector_handler. intros H.
  destruct (Z.eqb_spec n 4); [injection H as <-; by eexists|].
  destruct (Z.eqb_spec n 5); [injection H as <-; by eexists|].
  destruct (Z.eqb_spec n 6); [injection H as <-; by eexists|]. done.
Qed.

Section Transparent.
Context {W : Type} (call : handler -> astate W -> outcome (astate W)) (conduit : astate W -> outcome (astate W)).

(** Claim C10: In every image but VM1 without a hypervisor, an exception taken from
    the current level on SPx returns to the interrupted code as if it had not
    happened: whatever the C handler did within the procedure call standard, all
    general registers, the stack pointer and SPSR hold what they held, and ELR does
    when the handler returned false; besides what the handler itself changed, only
    the 192 bytes below the stack pointer differ. *)
Theorem exception_transparent f b w n c ra s :
  vector_table false ra n = Some c -> frame_size <= rf s SP < 2 ^ 64 -> words s ->
  compiled call (vector_handler n) f -> f (world s) = Ret (b, w) ->
  exists s1 s2 s', call (vector_handler n) s1 = Ret s2 /\ world s1 = world s /\
    frame (rf s SP - frame_size) frame_size (amem s) (amem s1) /\
    ends call conduit (vector_code (Some c)) 0 s (Ret s') /\
    (forall r, r <> XZR -> rf s' r = rf s r) /\ amem s' = amem s2 /\ world s' = w /\
    sys s' SPSR_EL1 = sys s SPSR_EL1 /\
    sys s' ELR_EL1 = if b : bool then sys s2 ELR_EL1 else sys s ELR_EL1.
Proof.
  intros Hn Hsp Hw Hc Hf. destruct (vector_table_cases _ _ _ _ Hn) as (e & -> & He).
  assert (e = el1) as -> by (by destruct (n =? 4)).
  destruct (vector_returns call conduit f b w el1 _ ra s Hsp Hw Hc Hf)
    as (s1 & s2 & s' & Hcall & Hx0 & Hw2 & Hw1 & _ & Hfr & Hret & Hr & Hm & Hwd & Hs).
  exists s1, s2, s'. split_and!; try done.
  - congruence.
  - rewrite Hs, decide_False, decide_True, Hx0 by done. by destruct b.
Qed.

(** In VM1 without a hypervisor the vectors save the EL2 registers and restore the EL1
    ones: the return address of an interrupt is what the handler left in ELR_EL2, even
    when it returned false, and ELR_EL1 and SPSR_EL1 hold the interrupted EL2 state. *)
Theorem el2_return_state_lost f w ra s :
  frame_size <= rf s SP < 2 ^ 64 -> words s -> compiled call h_val_irq_current f -> f (world s) = Ret (false, w) ->
  exists s1 s2 s', call h_val_irq_current s1 = Ret s2 /\
    ends call conduit (vector_code (vector_table true ra 5)) 0 s (Ret s') /\
    sys s' ELR_EL2 = sys s2 ELR_EL2 /\ sys s' SPSR_EL2 = sys s2 SPSR_EL2 /\
    sys s' ELR_EL1 = sys s ELR_EL2 /\ sys s' SPSR_EL1 = sys s SPSR_EL2.
Proof.
  intros Hsp Hw Hc Hf.
  destruct (vector_returns call conduit f false w el2 _ ra s Hsp Hw Hc Hf)
    as (s1 & s2 & s' & Hcall & Hx0 & Hw2 & Hw1 & _ & Hfr & Hret & Hr & Hm & Hwd & Hs).
  exists s1, s2, s'. split_and!; try done. by rewrite Hs, decide_False, decide_True, Hx0 by done.
Qed.
End Transparent.

(** ** A compiled handler that does nothing *)
Definition idle_call (_ : handler) (s : astate unit) : outcome (astate unit) := Ret (set X0 0 s).
Definition no_conduit (s : astate unit) : outcome (astate unit) := Ret s.
Definition demo_astate : astate unit :=
  AState (fun r => 4096 + reg_num r) (fun _ => 0x80000) (Flags false false false false) ∅ tt.

Lemma idle_compiled h : compiled idle_call h (fun w => Ret (false, w)).
Proof.
  intros s b w [= <- <-]. exists (set X0 0 s). split; [done|]. split; [|done]. split; [by repeat constructor|]. done.
Qed.

Lemma exception_transparent_witness :
  exists c s', vector_table false 0x1000 5 = Some c /\
    ends idle_call no_conduit (vector_code (Some c)) 0 demo_astate (Ret s') /\ rf s' X7 = 4096 + 7 /\ sys s' ELR_EL1 = 0x80000.
Proof.
  destruct (exception_transparent idle_call no_conduit (fun w => Ret (false, w)) false tt 5
    (current_exception_spx el1 h_val_irq_current 0x1000) 0x1000 demo_astate)
    as (s1 & s2 & s' & _ & _ & _ & Hret & Hr & _ & _ & _ & He).
  - reflexivity.
  - vm_compute. split; congruence.
  - split; [intros r; destruct r; vm_compute; split; congruence | intros r; vm_compute; split; congruence].
  - apply idle_compiled.
  - reflexivity.
  - eexists _, s'. split; [reflexivity|]. split; [exact Hret|]. split; [by rewrite Hr | exact He].
Defined.

(** ** Interrupts *)
Section Interrupts.
Context {S : Type} `{!Machine S}.
Context (asm_hvc64 : Z -> list Z -> S -> list Z * S) (call_handler : Z -> irq_data -> cmd S Z) (VM1_COMPILE : bool).
Context (call : handler -> astate (irq (S := S)) -> outcome (astate (irq (S := S))))
        (conduit : astate (irq (S := S)) -> outcome (astate (irq (S := S)))).

(** The IRQ and FIQ vectors of an endpoint at EL1 run the dispatcher on the interrupt
    that is pending and resume the interrupted program with its registers.  When the
    dispatcher found a handler, val_irq_current returns true, so ELR_EL1 is not
    restored: it is what a nested exception may have left there. *)
Theorem irq_vector_dispatches n ra c s r st' :
  (n = 5 \/ n = 6) -> vector_table false ra n = Some c -> frame_size <= rf s SP < 2 ^ 64 -> words s ->
  compiled call h_val_irq_current (Irq.val_irq_current asm_hvc64 call_handler VM1_COMPILE) ->
  pal_irq_handler_dispatcher asm_hvc64 call_handler VM1_COMPILE (world s) = Ret (r, st') ->
  exists s1 s2 s', call h_val_irq_current s1 = Ret s2 /\
    ends call conduit (vector_code (Some c)) 0 s (Ret s') /\ world s' = st' /\
    (forall q, q <> XZR -> rf s' q = rf s q) /\
    sys s' ELR_EL1 = if r =? PAL_SUCCESS then sys s2 ELR_EL1 else sys s ELR_EL1.
Proof.
  intros Hn Hv Hsp Hw Hc Hd.
  assert (Hf : Irq.val_irq_current asm_hvc64 call_handler VM1_COMPILE (world s) = Ret (r =? PAL_SUCCESS, st')).
  { unfold Irq.val_irq_current. by erewrite cmd_bind_eq by exact Hd. }
  destruct (vector_table_cases _ _ _ _ Hv) as (e & -> & He).
  assert (e = el1 /\ vector_handler n = h_val_irq_current) as [-> Eh] by (by destruct Hn as [-> | ->]).
  rewrite Eh.
  destruct (vector_returns call conduit _ _ st' el1 _ ra s Hsp Hw Hc Hf)
    as (s1 & s2 & s' & Hcall & Hx0 & Hw2 & _ & _ & _ & Hret & Hr & _ & Hwd & Hs).
  exists s1, s2, s'. split_and!; try done; [congruence|].
  rewrite Hs, decide_False, decide_True, Hx0 by done. by destruct (r =? PAL_SUCCESS).
Qed.
End Interrupts.

(** ** The report of a synchronous exception *)

(** A data abort taken at EL2 is reported with the fault address register of EL1. *)
Theorem data_abort_far_of_el1 {W} (s : astate W) :
  sys s SYS_CurrentEL = 0x8 -> sys s ESR_EL2 = Z.shiftl EC_DATA_ABORT_SAME_EL 26 ->
  r_pc (default_sync_report s) = sys s ELR_EL2 /\ r_far (default_sync_report s) = Some (sys s FAR_EL1).
Proof. intros Hel Hesr. unfold default_sync_report, val_read_current_el. rewrite Hel, Hesr. by vm_compute. Qed.

(** Without a callback a synchronous exception stops the endpoint, with one it does
    what the callback does. *)
Theorem sync_exception_callback {W} (call_ptr : Z -> astate W -> outcome (bool * astate W)) irq exc c s :
  val_sync_exception_current call_ptr (val_exception_setup irq exc c) s = if exc =? 0 then Panic else call_ptr exc s.
Proof. unfold val_sync_exception_current. cbn. by destruct (exc =? 0). Qed.

(** Every vector fits the 32 instructions of its slot. *)
Lemma vectors_fit at_el2 ra n c : vector_table at_el2 ra n = Some c -> (length c <= 32)%nat.
Proof. intros (e & -> & _)%vector_table_cases. destruct e; cbn; lia. Qed.
