(* ===== verification/Drivers.v ===== *)
(** * Device drivers

    pal_pl011_uart.c, pal_sp805_watchdog.c, pal_ap_refclk_timer.c, pal_nvm.c,
    pal_smmuv3_testengine.c, pal_sp_helpers.c and the layer above them, pal_driver.c
    with val_wd.c and val_timer.c.  The registers are those of the machine. *)

From S2P Require Import Prelude Machine Irq.

Section Drivers.
Context {S : Type} `{!Machine S} (fuel : nat).
Context (asm_hvc64 : Z -> list Z -> S -> list Z * S) (own_masks : bool).
(** [XEN_SUPPORT]: the emulated UART needs no set-up. *)
Context (XEN_SUPPORT : bool) (PLATFORM_UART_BASE : Z).

(** ** PL011 UART *)
Definition UARTDR : Z := 0.
Definition UARTECR : Z := 4.
Definition UARTFR : Z := 0x18.
Definition UARTIBRD : Z := 0x24.
Definition UARTFBRD : Z := 0x28.
Definition UARTLCR_H : Z := 0x2c.
Definition UARTCR : Z := 0x30.
Definition UART_PL011_UARTCR_EN_MASK : Z := 1.
Definition UART_PL011_UARTCR_TX_EN_MASK : Z := Z.shiftl 1 8.
Definition UART_PL011_UARTFR_TX_FIFO_FULL : Z := Z.shiftl 1 5.
Definition UART_PL011_CLK_IN_HZ : Z := 24000000.
Definition UART_PL011_BAUDRATE : Z := 115200.
Definition UART_PL011_LINE_CONTROL : Z := Z.lor (Z.shiftl 1 4) (Z.shiftl 3 5).

Definition uart_read (r : Z) : cmd S Z := mmio_read 4 (PLATFORM_UART_BASE + r).
Definition uart_write (r v : Z) : cmd S unit := mmio_write 4 (PLATFORM_UART_BASE + r) v.

Definition driver_uart_pl011_init : cmd S unit :=
  if XEN_SUPPORT then mret tt
  else
    let bauddiv := u32 (UART_PL011_CLK_IN_HZ * 4) / UART_PL011_BAUDRATE in
    cr ← uart_read UARTCR;
    _ ← uart_write UARTCR (Z.land cr (u32 (Z.lnot UART_PL011_UARTCR_EN_MASK)));
    _ ← uart_write UARTIBRD (Z.shiftr bauddiv 6);
    _ ← uart_write UARTFBRD (Z.land bauddiv 0x3f);
    _ ← uart_write UARTLCR_H UART_PL011_LINE_CONTROL;
    _ ← uart_write UARTECR 0;
    uart_write UARTCR (Z.lor UART_PL011_UARTCR_EN_MASK UART_PL011_UARTCR_TX_EN_MASK).

(** [r & mask] of a register, as a truth value. *)
Definition uart_bit (r mask : Z) : cmd S bool := v ← uart_read r; mret (negb (Z.land v mask =? 0)).
Definition and_then (a b : cmd S bool) : cmd S bool := x ← a; if (x : bool) then b else mret false.

Definition driver_uart_pl011_is_tx_empty : cmd S bool :=
  let not_full : cmd S bool := full ← uart_bit UARTFR UART_PL011_UARTFR_TX_FIFO_FULL; mret (negb full) in
  if XEN_SUPPORT then not_full
  else and_then (uart_bit UARTCR UART_PL011_UARTCR_EN_MASK)
         (and_then (uart_bit UARTCR UART_PL011_UARTCR_TX_EN_MASK) not_full).

Fixpoint uart_wait (fuel : nat) : cmd S unit :=
  match fuel with
  | O => fun _ => Diverge
  | Datatypes.S fuel' => empty ← driver_uart_pl011_is_tx_empty; if negb empty then uart_wait fuel' else mret tt
  end.

(** The flag is [is_uart_init_done]. *)
Definition driver_uart_pl011_putc (c : Z) : cmd (Z * S) unit :=
  done ← getv (fun d => d);
  _ ← (if done =? 0 then _ ← hw driver_uart_pl011_init; setv (fun _ => 1) else mret tt);
  _ ← hw (uart_wait fuel);
  hw (uart_write UARTDR (u8 c)).

(** ** SP805 watchdogs *)
Definition SP805_WDOG_LOAD_OFF : Z := 0.
Definition SP805_WDOG_CTRL_OFF : Z := 8.
Definition SP805_WDOG_INT_CLR_OFF : Z := 0xc.
Definition SP805_WDOG_LOCK_OFF : Z := 0xc00.
Definition SP805_WDOG_UNLOCK_ACCESS : Z := 0x1acce551.
Definition SP805_WDOG_CTRL_RESEN : Z := Z.shiftl 1 1.
Definition SP805_WDOG_CTRL_INTEN : Z := 1.
Definition PLATFORM_WDOG_LOAD_VALUE : Z := 0x3e7 * 100 * 1000.
Definition SP805_WDOG_LOAD_VALUE : Z := PLATFORM_WDOG_LOAD_VALUE.
Definition ARM_SP805_TWDG_CLK_HZ : Z := 32768.
Definition PLATFORM_WDOG_BASE : Z := 0x1c0f0000.
Definition PLATFORM_SP805_TWDOG_BASE : Z := 0x2a490000.
Definition PLATFORM_TWDOG_INTID : Z := 56.
Definition PLATFORM_NS_WD_BASE : Z := 0x2a440000.
Definition PLATFORM_NS_WD_INTR : Z := 59.
Definition INTERRUPT_TYPE_IRQ : Z := 0.

Definition sp805_write_wdog_load (base v : Z) : cmd S unit := mmio_write 4 (base + SP805_WDOG_LOAD_OFF) v.
Definition sp805_write_wdog_ctrl (base v : Z) : cmd S unit := mmio_write 4 (base + SP805_WDOG_CTRL_OFF) v.
Definition sp805_write_wdog_int_clr (base v : Z) : cmd S unit := mmio_write 4 (base + SP805_WDOG_INT_CLR_OFF) v.
Definition sp805_write_wdog_lock (base v : Z) : cmd S unit := mmio_write 4 (base + SP805_WDOG_LOCK_OFF) v.

(** [ms * ARM_SP805_TWDG_CLK_HZ] wraps in 32 bits. *)
Definition driver_sp805_twdog_start (base ms : Z) : cmd S unit :=
  let wd_cycles := u32 (ms * ARM_SP805_TWDG_CLK_HZ) / 1000 in
  _ ← sp805_write_wdog_lock base SP805_WDOG_UNLOCK_ACCESS;
  _ ← sp805_write_wdog_load base wd_cycles;
  _ ← sp805_write_wdog_ctrl base (Z.lor SP805_WDOG_CTRL_RESEN SP805_WDOG_CTRL_INTEN);
  sp805_write_wdog_lock base 0.
Definition driver_sp805_wdog_start (base : Z) : cmd S unit :=
  _ ← sp805_write_wdog_lock base SP805_WDOG_UNLOCK_ACCESS;
  _ ← sp805_write_wdog_load base SP805_WDOG_LOAD_VALUE;
  _ ← sp805_write_wdog_ctrl base (Z.lor SP805_WDOG_CTRL_RESEN SP805_WDOG_CTRL_INTEN);
  sp805_write_wdog_lock base 0.
Definition driver_sp805_wdog_stop (base : Z) : cmd S unit :=
  _ ← sp805_write_wdog_lock base SP805_WDOG_UNLOCK_ACCESS;
  _ ← sp805_write_wdog_ctrl base 0;
  sp805_write_wdog_lock base 0.
Definition driver_sp805_wdog_refresh (base : Z) : cmd S unit :=
  _ ← sp805_write_wdog_lock base SP805_WDOG_UNLOCK_ACCESS;
  _ ← sp805_write_wdog_int_clr base 1;
  sp805_write_wdog_lock base 0.
Definition driver_ns_wdog_start (ms : Z) : cmd S unit :=
  _ ← mmio_write 4 (PLATFORM_NS_WD_BASE + 8) ms; mmio_write 4 PLATFORM_NS_WD_BASE 1.
Definition driver_ns_wdog_stop : cmd S unit := mmio_write 4 PLATFORM_NS_WD_BASE 0.

(** ** AP_REFCLK timer *)
Definition AP_REFCLK_BASE : Z := 0x2a830000.
Definition AP_REFCLK_CNTPCT_OFF : Z := 0.
Definition AP_REFCLK_CNTVCT_0FF : Z := 8.
Definition AP_REFCLK_CNTFRQ_OFF : Z := 0x10.
Definition AP_REFCLK_CNTP_CVAL_OFF : Z := 0x20.
Definition AP_REFCLK_CNTP_CTL_OFF : Z := 0x2c.
Definition AP_REFCLK_CNTV_CVAL_OFF : Z := 0x30.
Definition AP_REFCLK_CNTV_CTL_OFF : Z := 0x3c.
Definition AP_REFCLK_CNT_CTL_ENABLE : Z := 1.
Definition AP_REFCLK_CNT_CTL_IMASK : Z := Z.shiftl 1 1.
Definition PALTFORM_AP_REFCLK_CNTPSIRQ1 : Z := 58.

(** The two counters are read with 32-bit loads. *)
Definition ap_refclk_read_cntfrq : cmd S Z := mmio_read 4 (AP_REFCLK_BASE + AP_REFCLK_CNTFRQ_OFF).
Definition ap_refclk_read_cntpct : cmd S Z := mmio_read 4 (AP_REFCLK_BASE + AP_REFCLK_CNTPCT_OFF).
Definition ap_refclk_read_cntvct : cmd S Z := mmio_read 4 (AP_REFCLK_BASE + AP_REFCLK_CNTVCT_0FF).
Definition ap_refclk_read_cntp_ctl : cmd S Z := mmio_read 4 (AP_REFCLK_BASE + AP_REFCLK_CNTP_CTL_OFF).
Definition ap_refclk_read_cntv_ctl : cmd S Z := mmio_read 4 (AP_REFCLK_BASE + AP_REFCLK_CNTV_CTL_OFF).
Definition ap_refclk_write_cntp_cval (v : Z) : cmd S unit := mmio_write 8 (AP_REFCLK_BASE + AP_REFCLK_CNTP_CVAL_OFF) v.
Definition ap_refclk_write_cntv_cval (v : Z) : cmd S unit := mmio_write 8 (AP_REFCLK_BASE + AP_REFCLK_CNTV_CVAL_OFF) v.
Definition ap_refclk_write_cntp_ctl (v : Z) : cmd S unit := mmio_write 4 (AP_REFCLK_BASE + AP_REFCLK_CNTP_CTL_OFF) v.
Definition ap_refclk_write_cntv_ctl (v : Z) : cmd S unit := mmio_write 4 (AP_REFCLK_BASE + AP_REFCLK_CNTV_CTL_OFF) v.

(** The control word of a stopped timer. *)
Definition disabled_ctl (int_mask : bool) (ctl : Z) : Z :=
  if int_mask then Z.land (Z.lor ctl AP_REFCLK_CNT_CTL_IMASK) (u32 (Z.lnot AP_REFCLK_CNT_CTL_ENABLE))
  else Z.land ctl (u32 (Z.lnot (Z.lor AP_REFCLK_CNT_CTL_ENABLE AP_REFCLK_CNT_CTL_IMASK))).
(** The control word of a running timer. *)
Definition enabled_ctl (irq_enable : bool) (ctl : Z) : Z :=
  Z.lor (if negb irq_enable then Z.lor ctl AP_REFCLK_CNT_CTL_IMASK else Z.land ctl (u32 (Z.lnot AP_REFCLK_CNT_CTL_IMASK)))
    AP_REFCLK_CNT_CTL_ENABLE.

Definition driver_ap_refclk_p_disable (int_mask : bool) : cmd S unit :=
  ctl ← ap_refclk_read_cntp_ctl; ap_refclk_write_cntp_ctl (disabled_ctl int_mask ctl).
Definition driver_ap_refclk_v_disable (int_mask : bool) : cmd S unit :=
  ctl ← ap_refclk_read_cntv_ctl; ap_refclk_write_cntv_ctl (disabled_ctl int_mask ctl).

(** [freq * us_timeout] is a product of two [uint32_t]. *)
Definition driver_ap_refclk_p_set (us_timeout : Z) (irq_enable : bool) : cmd S unit :=
  _ ← driver_ap_refclk_p_disable false;
  f ← ap_refclk_read_cntfrq;
  let freq := u32 (f / 1000000) in
  _ ← assert (negb (freq =? 0));
  cnt ← ap_refclk_read_cntpct;
  _ ← ap_refclk_write_cntp_cval (u64 (cnt + u32 (freq * us_timeout)));
  ctl ← ap_refclk_read_cntp_ctl;
  ap_refclk_write_cntp_ctl (enabled_ctl irq_enable ctl).
Definition driver_ap_refclk_v_set (us_timeout : Z) (irq_enable : bool) : cmd S unit :=
  _ ← driver_ap_refclk_v_disable false;
  f ← ap_refclk_read_cntfrq;
  let freq := u32 (f / 1000000) in
  _ ← assert (negb (freq =? 0));
  cnt ← ap_refclk_read_cntvct;
  _ ← ap_refclk_write_cntv_cval (u64 (cnt + u32 (freq * us_timeout)));
  ctl ← ap_refclk_read_cntv_ctl;
  ap_refclk_write_cntv_ctl (enabled_ctl irq_enable ctl).

(** ** Non-volatile memory *)
Definition PLATFORM_NVM_BASE : Z := 0x80000000 + 0x2800000.

Fixpoint nvm_write_loop (offset : Z) (buffer : list Z) : cmd S unit :=
  match buffer with
  | [] => mret tt
  | b :: buffer' => _ ← mmio_write 1 (PLATFORM_NVM_BASE + offset) b; nvm_write_loop (offset + 1) buffer'
  end.
Fixpoint nvm_read_loop (size : nat) (offset : Z) : cmd S (list Z) :=
  match size with
  | O => mret []
  | Datatypes.S n => b ← mmio_read 1 (PLATFORM_NVM_BASE + offset); bs ← nvm_read_loop n (offset + 1); mret (b :: bs)
  end.
Definition driver_nvm_write (offset : Z) (buffer : list Z) : cmd S Z := _ ← nvm_write_loop offset buffer; mret PAL_SUCCESS.
Definition driver_nvm_read (offset : Z) (size : nat) : cmd S (Z * list Z) := bs ← nvm_read_loop size offset; mret (PAL_SUCCESS, bs).

(** ** Sleeping (pal_sp_helpers.c) *)

(** [while ((time2 - time1) < (ms * freq) / 1000) time2 = counter;] *)
Fixpoint sleep_loop (fuel : nat) (time1 time2 ticks : Z) : cmd S Z :=
  if u64 (time2 - time1) <? ticks then
    match fuel with
    | O => fun _ => Diverge
    | Datatypes.S fuel' => time2 ← read_sysreg CNTVCT_EL0; sleep_loop fuel' time1 time2 ticks
    end
  else mret time2.

(** The division by the frequency faults on a timer that reports 0. *)
Definition sp_sleep_elapsed_time (ms : Z) : cmd S Z :=
  timer_freq ← read_sysreg CNTFRQ_EL0;
  time1 ← read_sysreg CNTVCT_EL0;
  time2 ← sleep_loop fuel time1 time1 (u64 (ms * timer_freq) / 1000);
  if timer_freq =? 0 then ((fun _ => Fault) : cmd S Z) else mret (u64 (u64 (time2 - time1) * 1000) / timer_freq).

(** [(PLATFORM_SP_EL == 0) && !defined(VM1_COMPILE)]: count instead of looking at the clock. *)
Definition sp_sleep (count_only : bool) (ms : Z) : cmd S unit :=
  if count_only then mret tt else _ ← sp_sleep_elapsed_time ms; mret tt.

(** ** SMMUv3 test engine *)
Definition P_FRAME_BASE : Z := 0x2bff0000.
Definition U_FRAME_BASE : Z := 0x2bfe0000.
Definition FRAME_SIZE : Z := 0x80.
Definition F_IDX (n : Z) : Z := n * FRAME_SIZE.
Definition TIME_OUT : Z := 0x100000.
Definition NO_SUBSTREAMID : Z := 0xffffffff.
Definition ENGINE_HALTED : Z := 1.
Definition ENGINE_MEMCPY : Z := 2.

(** The thirteen words of frame [i]: the privileged frame, the user frame and the
    command that starts the copy. *)
Definition setup_frame (stream_id ssd_ns i begin end_ctrl o_buf : Z) : cmd S unit :=
  _ ← mmio_write 4 (P_FRAME_BASE + 0 + F_IDX i) ssd_ns;
  _ ← mmio_write 4 (P_FRAME_BASE + 4 + F_IDX i) 0;
  _ ← mmio_write 4 (P_FRAME_BASE + 8 + F_IDX i) stream_id;
  _ ← mmio_write 4 (P_FRAME_BASE + 0xc + F_IDX i) NO_SUBSTREAMID;
  _ ← mmio_write 4 (U_FRAME_BASE + 4 + F_IDX i) 0;
  _ ← mmio_write 4 (U_FRAME_BASE + 0x24 + F_IDX i) 0;
  _ ← mmio_write 8 (U_FRAME_BASE + 0x28 + F_IDX i) begin;
  _ ← mmio_write 8 (U_FRAME_BASE + 0x30 + F_IDX i) end_ctrl;
  _ ← mmio_write 4 (U_FRAME_BASE + 0x38 + F_IDX i) 1;
  _ ← mmio_write 8 (U_FRAME_BASE + 0x40 + F_IDX i) o_buf;
  mmio_write 4 (U_FRAME_BASE + 0 + F_IDX i) ENGINE_MEMCPY.

(** [while (--time_out)]: [polls] more reads; true when the engine halted. *)
Fixpoint engine_wait (polls : nat) (i : Z) : cmd S bool :=
  match polls with
  | O => mret false
  | Datatypes.S polls' =>
      data ← mmio_read 4 (U_FRAME_BASE + 0 + F_IDX i);
      if data =? ENGINE_MEMCPY then engine_wait polls' i else mret (data =? ENGINE_HALTED)
  end.

(** The frames from [i], [n] of them: the address of the last page, or an error. *)
Fixpoint engine_frames (n : nat) (stream_id ssd_ns source dest i begin : Z) : cmd S (option Z) :=
  match n with
  | O => mret (Some begin)
  | Datatypes.S n' =>
      let begin := u64 (source + u32 (i * PAGE_SIZE_4K)) in
      _ ← setup_frame stream_id ssd_ns i begin (u64 (begin + (PAGE_SIZE_4K - 1))) (u64 (dest + u32 (i * PAGE_SIZE_4K)));
      halted ← engine_wait (Z.to_nat (TIME_OUT - 1)) i;
      if negb halted then mret None else engine_frames n' stream_id ssd_ns source dest (i + 1) begin
  end.

(** pal_memcmp on the memory of the machine. *)
Fixpoint memcmp_m (len : nat) (s1 s2 : Z) : cmd S Z :=
  match len with
  | O => mret 0
  | Datatypes.S len' =>
      a ← mmio_read 1 s1; b ← mmio_read 1 s2;
      if negb (a - b =? 0) then mret (a - b) else memcmp_m len' (s1 + 1) (s2 + 1)
  end.

Definition smmuv3_configure_testengine (stream_id source dest size : Z) (secure : bool) : cmd S Z :=
  let num_frames := u32 size / PAGE_SIZE_4K in
  if (source =? 0) || (dest =? 0) then mret PAL_ERROR
  else if num_frames <? 1 then mret PAL_ERROR
  else
    begin ← engine_frames (Z.to_nat num_frames) stream_id (if secure then 0 else 1) source dest 0 0;
    match begin with
    | None => mret PAL_ERROR
    | Some begin => d ← memcmp_m (Z.to_nat size) begin dest; mret (if negb (d =? 0) then PAL_ERROR else PAL_SUCCESS)
    end.

(** ** pal_driver.c and the callers in val_wd.c, val_timer.c, val_irq.c *)
Abbreviation spm_enable := (spm_interrupt_enable asm_hvc64 own_masks).
Abbreviation spm_deactivate := (spm_interrupt_deactivate asm_hvc64 own_masks).

Definition pal_nvm_write (offset : Z) (buffer : list Z) : cmd S Z := driver_nvm_write offset buffer.
Definition pal_nvm_read (offset : Z) (size : nat) : cmd S (Z * list Z) := driver_nvm_read offset size.
Definition pal_watchdog_enable : cmd S Z := _ ← driver_sp805_wdog_start PLATFORM_WDOG_BASE; mret PAL_SUCCESS.
Definition pal_watchdog_disable : cmd S Z := _ ← driver_sp805_wdog_stop PLATFORM_WDOG_BASE; mret PAL_SUCCESS.
Definition pal_ap_phy_refclk_en (us : Z) : cmd S Z :=
  _ ← spm_enable PALTFORM_AP_REFCLK_CNTPSIRQ1 true INTERRUPT_TYPE_IRQ; _ ← driver_ap_refclk_p_set us true; mret PAL_SUCCESS.
Definition pal_ap_phy_refclk_dis (int_mask : bool) : cmd S Z :=
  _ ← spm_deactivate PALTFORM_AP_REFCLK_CNTPSIRQ1; _ ← driver_ap_refclk_p_disable int_mask; mret PAL_SUCCESS.
(** The virtual timer's functions drive the physical timer. *)
Definition pal_ap_virt_refclk_en (us : Z) : cmd S Z :=
  _ ← spm_enable PALTFORM_AP_REFCLK_CNTPSIRQ1 true INTERRUPT_TYPE_IRQ; _ ← driver_ap_refclk_p_set us true; mret PAL_SUCCESS.
Definition pal_ap_virt_refclk_dis (int_mask : bool) : cmd S Z :=
  _ ← spm_deactivate PALTFORM_AP_REFCLK_CNTPSIRQ1; _ ← driver_ap_refclk_p_disable int_mask; mret PAL_SUCCESS.
Definition pal_twdog_enable (ms : Z) : cmd S Z :=
  _ ← driver_sp805_wdog_refresh PLATFORM_SP805_TWDOG_BASE;
  _ ← driver_sp805_twdog_start PLATFORM_SP805_TWDOG_BASE ms;
  _ ← spm_enable PLATFORM_TWDOG_INTID true INTERRUPT_TYPE_IRQ; mret PAL_SUCCESS.
Definition pal_twdog_disable : cmd S Z := _ ← driver_sp805_wdog_stop PLATFORM_SP805_TWDOG_BASE; mret PAL_SUCCESS.
Definition pal_twdog_intr_enable : cmd S unit := _ ← spm_enable PLATFORM_TWDOG_INTID true INTERRUPT_TYPE_IRQ; mret tt.
Definition pal_twdog_intr_disable : cmd S unit := _ ← spm_deactivate PLATFORM_TWDOG_INTID; mret tt.
Definition pal_ns_wdog_enable (ms : Z) : cmd S unit := driver_ns_wdog_start ms.
Definition pal_ns_wdog_disable : cmd S unit := driver_ns_wdog_stop.
Definition pal_ns_wdog_intr_enable : cmd S unit := _ ← spm_enable PLATFORM_NS_WD_INTR true INTERRUPT_TYPE_IRQ; mret tt.
Definition pal_ns_wdog_intr_disable : cmd S unit := _ ← spm_deactivate PLATFORM_NS_WD_INTR; mret tt.
Definition pal_secure_intr_enable (int_id pin : Z) : cmd S unit := _ ← spm_enable int_id true pin; mret tt.
Definition pal_secure_intr_disable (int_id pin : Z) : cmd S unit := _ ← spm_enable int_id false pin; mret tt.
Definition pal_sleep (ms : Z) : cmd S Z := sp_sleep_elapsed_time ms.
Definition pal_smmu_device_configure (stream_id source dest size : Z) (secure : bool) : cmd S Z :=
  smmuv3_configure_testengine stream_id source dest size secure.

Definition val_twdog_enable (ms : Z) : cmd S Z := pal_twdog_enable ms.
Definition val_twdog_disable : cmd S Z := pal_twdog_disable.
Definition val_twdog_intr_enable : cmd S unit := pal_twdog_intr_enable.
Definition val_twdog_intr_disable : cmd S unit := pal_twdog_intr_disable.
Definition val_ns_wdog_enable (ms : Z) : cmd S unit := pal_ns_wdog_enable ms.
Definition val_ns_wdog_disable : cmd S unit := pal_ns_wdog_disable.
Definition val_ns_wdog_intr_enable : cmd S unit := pal_ns_wdog_intr_enable.
Definition val_ns_wdog_intr_disable : cmd S unit := pal_ns_wdog_intr_disable.
Definition val_sys_phy_timer_en (timeout : Z) : cmd S Z := pal_ap_phy_refclk_en timeout.
Definition val_sys_phy_timer_dis (int_mask : bool) : cmd S Z := pal_ap_phy_refclk_dis int_mask.
Definition val_sys_virt_timer_en (timeout : Z) : cmd S Z := pal_ap_virt_refclk_en timeout.
Definition val_sys_virt_timer_dis (int_mask : bool) : cmd S Z := pal_ap_virt_refclk_dis int_mask.
Definition val_secure_intr_enable (int_id pin : Z) : cmd S unit := pal_secure_intr_enable int_id pin.
Definition val_secure_intr_disable (int_id pin : Z) : cmd S unit := pal_secure_intr_disable int_id pin.
Definition val_sleep (ms : Z) : cmd S Z := pal_sleep ms.
Definition val_interrupt_get (TARGET_LINUX : bool) : cmd S Z := if TARGET_LINUX then mret 0 else spm_interrupt_get asm_hvc64.
(** val_framework.c *)
Definition val_smmu_device_configure (stream_id source dest size : Z) (secure : bool) : cmd S Z :=
  pal_smmu_device_configure stream_id source dest size secure.
Definition val_sp_sleep (TARGET_LINUX count_only : bool) (ms : Z) : cmd S unit :=
  if TARGET_LINUX then mret tt else sp_sleep count_only ms.
End Drivers.
