(* ===== verification/DriversProof.v ===== *)
(** * Correctness of the device drivers

    Sleeping: the loop ends and has waited long enough, for a counter that advances.
    The SMMU test engine compares the wrong page when it copied more than one. *)

From S2P Require Import Prelude Machine Irq Drivers.

(** ** The counter

    [counter] does not wrap; the register shows it modulo 2^64.  A read comes back
    at least one tick and at most [max_tick] ticks after the state it starts from. *)
Class CounterDevice (S : Type) `{!Machine S} := {
  counter : S -> Z;
  frequency : Z;
  max_tick : Z;
  frequency_read s : (mrs CNTFRQ_EL0 s).1 = frequency;
  frequency_time s : counter s <= counter (mrs CNTFRQ_EL0 s).2;
  counter_read s : (mrs CNTVCT_EL0 s).1 = u64 (counter (mrs CNTVCT_EL0 s).2);
  counter_time s : counter s + 1 <= counter (mrs CNTVCT_EL0 s).2 <= counter s + max_tick
}.

Section Sleep.
Context {S : Type} `{!Machine S} `{!CounterDevice S}.

Lemma u64_diff a b : 0 <= a - b < 2 ^ 64 -> u64 (u64 a - u64 b) = a - b.
Proof. intros H. unfold uwrap. rewrite <- Zminus_mod. by apply Z.mod_small. Qed.

(** The loop, from a state whose counter is [start + d]. *)
Lemma sleep_loop_returns fuel start ticks s :
  0 <= counter s - start <= ticks + max_tick -> 1 <= max_tick -> 0 <= ticks -> ticks + max_tick < 2 ^ 64 ->
  ticks - (counter s - start) <= Z.of_nat fuel ->
  exists s', sleep_loop fuel (u64 start) (u64 (counter s)) ticks s = Ret (u64 (counter s'), s') /\
    ticks <= counter s' - start <= ticks + max_tick /\ counter s <= counter s'.
Proof.
  revert s. induction fuel as [|fuel IH]; intros s Hs Hm Ht Hb Hf; cbn [sleep_loop];
    rewrite u64_diff by lia; destruct (Z.ltb_spec (counter s - start) ticks); try lia; try (exists s; split; [done | lia]).
  unfold mbind, cmd_bind, read_sysreg. pose proof (counter_read s) as Hr. pose proof (counter_time s) as Hc.
  destruct (mrs CNTVCT_EL0 s) as [t s1]. cbn [fst snd] in Hr, Hc. subst t.
  destruct (IH s1) as (s' & E & H1 & H2); [lia..|]. exists s'. split; [exact E | lia].
Qed.

(** For a counter that advances at every read, sp_sleep_elapsed_time returns with a
    number of loop turns bounded by the ticks to wait, the counter has advanced by
    ms * frequency / 1000 ticks or more, and the time it reports is at least ms when
    the frequency is a multiple of 1000. *)
Theorem sleep_long_enough fuel ms s :
  let ticks := ms * frequency / 1000 in
  0 <= ms -> 0 < frequency -> 1 <= max_tick -> ms * frequency < 2 ^ 64 -> (ticks + max_tick) * 1000 < 2 ^ 64 ->
  (Z.to_nat ticks <= fuel)%nat ->
  exists elapsed s', sp_sleep_elapsed_time fuel ms s = Ret (elapsed, s') /\
    counter s + ticks <= counter s' /\
    ticks * 1000 / frequency <= elapsed <= (ticks + max_tick) * 1000 / frequency /\
    ((1000 | frequency) -> ms <= elapsed).
Proof.
  intros ticks Hms Hf Hm Hw Hb Hfuel. unfold sp_sleep_elapsed_time, mbind, cmd_bind, read_sysreg.
  pose proof (frequency_read s) as Er. pose proof (frequency_time s) as Et.
  destruct (mrs CNTFRQ_EL0 s) as [f s0]. cbn [fst snd] in Er, Et. subst f.
  pose proof (counter_read s0) as Hr. pose proof (counter_time s0) as Hc.
  destruct (mrs CNTVCT_EL0 s0) as [t s1]. cbn [fst snd] in Hr, Hc. subst t.
  rewrite (uwrap_small 64 (ms * frequency)) by nia. fold ticks.
  assert (Ht : 0 <= ticks) by (apply Z.div_pos; nia).
  destruct (sleep_loop_returns fuel (counter s1) ticks s1) as (s' & -> & Hd & Hle); [lia..|].
  replace (frequency =? 0) with false by lia. rewrite u64_diff, (uwrap_small 64 ((_ - _) * 1000)) by lia.
  eexists _, s'. split; [reflexivity|]. split; [lia|].
  split; [split; apply Z.div_le_mono; lia|]. intros [k Hk].
  apply Z.div_le_lower_bound; [done|]. assert (ticks = ms * k); [|nia].
  unfold ticks. rewrite Hk, Z.mul_assoc. by apply Z.div_mul.
Qed.
End Sleep.

(** A counter of 1 MHz that advances by 10 ticks at each read. *)
#[local] Instance demo_clock : Machine Z := {
  load _ _ s := (0, s); store _ _ _ s := s; msr _ _ s := s; set_irq_mask _ s := s; set_fiq_mask _ s := s;
  mrs r s := match r with CNTFRQ_EL0 => (1000000, s) | CNTVCT_EL0 => (u64 (s + 10), s + 10) | _ => (0, s) end
}.
#[local] Program Instance demo_counter : CounterDevice Z := { counter s := s; frequency := 1000000; max_tick := 10 }.
Solve Obligations with (intros; cbn; first [done | lia]).

Lemma sleep_long_enough_witness :
  exists elapsed s', sp_sleep_elapsed_time (S := Z) 2000 2 5 = Ret (elapsed, s') /\
    5 + 2 * 1000000 / 1000 <= s' /\
    2 * 1000000 / 1000 * 1000 / 1000000 <= elapsed <= (2 * 1000000 / 1000 + 10) * 1000 / 1000000 /\
    ((1000 | 1000000) -> 2 <= elapsed).
Proof.
  apply (@sleep_long_enough Z demo_clock demo_counter 2000 2 5);
    [lia | reflexivity | cbn; lia | reflexivity | reflexivity | apply Nat.leb_le; vm_compute; reflexivity].
Defined.

(** ** The SMMU test engine on two pages

    An engine that copies what it is told to: bytes are memory, words registers. *)
Record engine := { regs : gmap Z Z; bytes : gmap Z Z }.
Definition reg_of (e : engine) (a : Z) : Z := default 0 (regs e !! a).
Definition byte_of (e : engine) (a : Z) : Z := default 0 (bytes e !! a).
Fixpoint copy_bytes (n : nat) (src dst : Z) (m : gmap Z Z) : gmap Z Z :=
  match n with
  | O => m
  | Datatypes.S n' => copy_bytes n' (src + 1) (dst + 1) (match m !! src with Some b => <[dst := b]> m | None => delete dst m end)
  end.
(** Frame [i] runs when its command is written, and halts. *)
Definition engine_store (a v : Z) (e : engine) : engine :=
  if (v =? ENGINE_MEMCPY) && ((a - U_FRAME_BASE) mod FRAME_SIZE =? 0) && (U_FRAME_BASE <=? a) && (a <? P_FRAME_BASE) then
    let begin := reg_of e (a + 0x28) in
    {| regs := <[a := ENGINE_HALTED]> (regs e);
       bytes := copy_bytes (Z.to_nat (reg_of e (a + 0x30) - begin + 1)) begin (reg_of e (a + 0x40)) (bytes e) |}
  else {| regs := <[a := v]> (regs e); bytes := bytes e |}.

#[local] Instance engine_machine : Machine engine := {
  load n a e := (if (n =? 1)%nat then byte_of e a else reg_of e a, e);
  store n a v e := if (n =? 1)%nat then {| regs := regs e; bytes := <[a := v]> (bytes e) |} else engine_store a v e;
  mrs _ e := (0, e); msr _ _ e := e; set_irq_mask _ e := e; set_fiq_mask _ e := e
}.

(** Two pages at 0x10000, the second with one byte that is not zero. *)
Definition two_pages : engine := {| regs := ∅; bytes := {[0x11000 := 7]} |}.
Definition copied (n : nat) (src dst : Z) (e : engine) : bool :=
  forallb (fun i => byte_of e (src + Z.of_nat i) =? byte_of e (dst + Z.of_nat i)) (seq 0 n).

(** The engine copied both pages and the driver says it did not. *)
Theorem two_page_copy_rejected :
  exists e, smmuv3_configure_testengine 1 0x10000 0x20000 8192 true two_pages = Ret (PAL_ERROR, e) /\
    copied (Z.to_nat 8192) 0x10000 0x20000 e = true.
Proof.
  assert (E : (match smmuv3_configure_testengine 1 0x10000 0x20000 8192 true two_pages with
    | Ret (r, e) => (r =? PAL_ERROR) && copied (Z.to_nat 8192) 0x10000 0x20000 e | _ => false end) = true) by (by vm_compute).
  destruct (smmuv3_configure_testengine _ _ _ _ _ _) as [[r e]| | |]; try done.
  apply andb_true_iff in E as [Er E]. apply Z.eqb_eq in Er as ->. by exists e.
Qed.
