(* ===== verification/Console.v ===== *)
(** * Consoles

    Where a character of [pal_printf] goes: pal_driver_intf.c picks the UART of
    Drivers.v or, for VM1 on Xen, the paravirtual console of pal_xen_pvconsole.c with
    pal_xen_console.c as its fallback; pal_ffa_console_log.c is the console call of
    FF-A.  The ring of the paravirtual console is shared memory: the backend on the
    other side takes characters out whenever it likes. *)

From S2P Require Import Prelude Machine Irq Drivers.

(** The hypercalls of hypercall.S: a result and the state after the call. *)
Class Hypervisor (S : Type) := {
  HYPERVISOR_console_io : Z -> list Z -> S -> Z * S;
  (** HVMOP_get_param: the result and the value field of the parameter block. *)
  HYPERVISOR_hvm_get_param : Z -> Z -> S -> (Z * Z) * S;
  (** EVTCHNOP_send on a port, and SCHEDOP_yield. *)
  HYPERVISOR_evtchn_send : Z -> S -> Z * S;
  HYPERVISOR_sched_yield : S -> Z * S
}.

(** ** xen/public/io/console.h *)
Definition CONSOLEIO_write : Z := 0.
Definition HVM_PARAM_CONSOLE_PFN : Z := 17.
Definition HVM_PARAM_CONSOLE_EVTCHN : Z := 18.
Definition DOMID_SELF : Z := 0x7ff0.
Definition XEN_PAGE_SHIFT : Z := 12.
Definition OUT_SIZE : Z := 2048.
Definition OUT_OFF : Z := 1024.
Definition OUT_CONS_OFF : Z := 1024 + 2048 + 8.
Definition OUT_PROD_OFF : Z := 1024 + 2048 + 12.
(** [idx & (sizeof(ring) - 1)]. *)
Definition MASK_XENCONS_IDX (idx size : Z) : Z := Z.land idx (size - 1).
Definition ch_newline : Z := 10.

Record pvconsole := { cons_ring : Z; cons_evtchn : Z }.

Section Console.
Context {S : Type} `{!Machine S} `{!Hypervisor S} (fuel : nat).
Context (asm_smc64 : Z -> list Z -> S -> list Z * S).
Abbreviation cm := (cmd (pvconsole * S)).

Definition driver_xen_console_putc (c : Z) : cmd S unit := fun s =>
  let (_, s) := HYPERVISOR_console_io CONSOLEIO_write [u8 c; 0] s in Ret (tt, s).

Definition hvm_get_parameter (idx domid : Z) : cmd S (Z * Z) := fun s => Ret (HYPERVISOR_hvm_get_param idx domid s).
Definition evtchn_send (port : Z) : cmd S Z := fun s => Ret (HYPERVISOR_evtchn_send port s).
Definition sched_yield : cmd S Z := fun s => Ret (HYPERVISOR_sched_yield s).

(** A failed query leaves the ring null. *)
Definition driver_xen_pvconsole_init : cm unit :=
  '(ret, port) ← hw (hvm_get_parameter HVM_PARAM_CONSOLE_EVTCHN DOMID_SELF);
  if negb (ret =? 0) then mret tt
  else
    '(ret, console_pfn) ← hw (hvm_get_parameter HVM_PARAM_CONSOLE_PFN DOMID_SELF);
    if negb (ret =? 0) then mret tt
    else setv (fun _ => {| cons_ring := u64 (Z.shiftl console_pfn XEN_PAGE_SHIFT); cons_evtchn := u32 port |}).

(** [while (ring->out_cons != ring->out_prod) yield;] *)
Fixpoint drain (fuel : nat) (ring : Z) : cmd S unit :=
  out_cons ← mmio_read 4 (ring + OUT_CONS_OFF);
  out_prod ← mmio_read 4 (ring + OUT_PROD_OFF);
  if (out_cons =? out_prod : bool) then mret tt
  else match fuel with
       | O => (fun _ => Diverge) : cmd S unit
       | Datatypes.S fuel' => sched_yield ≫= fun _ => drain fuel' ring
       end.

(** The ring is not checked for room. *)
Definition ring_putc (ring port c : Z) : cmd S unit :=
  prod ← mmio_read 4 (ring + OUT_PROD_OFF);
  let out_idx := MASK_XENCONS_IDX prod OUT_SIZE in
  _ ← mmio_write 1 (ring + OUT_OFF + out_idx) c;
  _ ← mmio_write 4 (ring + OUT_PROD_OFF) (prod + 1);
  if c =? ch_newline then _ ← evtchn_send port; drain fuel ring else mret tt.

Definition driver_xen_pvconsole_putc (c : Z) : cm unit :=
  ring ← getv cons_ring;
  _ ← (if ring =? 0 then driver_xen_pvconsole_init else mret tt);
  ring ← getv cons_ring;
  if ring =? 0 then hw (driver_xen_console_putc c)
  else port ← getv cons_evtchn; hw (ring_putc ring port c).

(** ** pal_driver_intf.c

    The static variables of the two drivers; [xen_vm1] is
    [defined(VM1_COMPILE) && defined(XEN_SUPPORT)]. *)
Definition on_uart {A} (c : cmd (Z * S) A) : cmd (Z * pvconsole * S) A :=
  zoom (fun s => (s.1.1, s.2)) (fun t s => (t.1, s.1.2, t.2)) c.
Definition on_pvconsole {A} (c : cm A) : cmd (Z * pvconsole * S) A :=
  zoom (fun s => (s.1.2, s.2)) (fun t s => (s.1.1, t.1, t.2)) c.
Definition pal_print_driver (xen_vm1 XEN_SUPPORT : bool) (PLATFORM_UART_BASE c : Z) : cmd (Z * pvconsole * S) Z :=
  _ ← (if xen_vm1 then on_pvconsole (driver_xen_pvconsole_putc c)
       else on_uart (driver_uart_pl011_putc fuel XEN_SUPPORT PLATFORM_UART_BASE c));
  mret PAL_SUCCESS.

(** ** pal_ffa_console_log.c *)
Definition PAL_FFA_CONSOLE_LOG_32 : Z := 0x8400008a.
Definition PAL_FFA_CONSOLE_LOG_SUCCESS_32 : Z := 0x84000061.
Definition PAL_FFA_CONSOLE_LOG_CHAR_COUNT : Z := 1.

Definition driver_ffa_console_log_putc (x : Z) : cmd S unit :=
  retargs ← pal_smc asm_smc64 PAL_FFA_CONSOLE_LOG_32 [PAL_FFA_CONSOLE_LOG_CHAR_COUNT; x; 0; 0; 0; 0; 0];
  assert (nth 0 retargs 0 =? PAL_FFA_CONSOLE_LOG_SUCCESS_32).
End Console.
