(* ===== verification/ConsoleProof.v ===== *)
(** * The paravirtual console delivers lines

    The backend is any that takes characters out of the ring in order and, when it is
    given the CPU, takes at least one ([PvBackend]).  A line that fits the ring reaches
    it complete and in order, and the driver returns only when it did; a line that
    does not fit loses characters. *)

From S2P Require Import Prelude Machine Irq Drivers Console.

(** ** The ring as the backend sees it

    The indices do not wrap here; the registers show them modulo 2^32. *)
Record ring_view := { prod : Z; cons : Z; cell : Z -> Z; seen : list Z }.

Definition chars (v : ring_view) (from n : Z) : list Z := (fun k => cell v (k mod OUT_SIZE)) <$> seqZ from n.
(** What the backend took and what is still in the ring. *)
Definition stream (v : ring_view) : list Z := seen v ++ chars v (cons v) (prod v - cons v).

(** The backend takes some characters. *)
Definition takes (v v' : ring_view) : Prop :=
  prod v' = prod v /\ cell v' = cell v /\ cons v <= cons v' <= prod v /\
  seen v' = seen v ++ chars v (cons v) (cons v' - cons v).

Class PvBackend (S : Type) `{!Machine S} `{!Hypervisor S} (ring port : Z) := {
  view : S -> ring_view;
  view_ok s : cons (view s) <= prod (view s);
  load_cons s : takes (view s) (view (load 4 (u64 (ring + OUT_CONS_OFF)) s).2) /\
    (load 4 (u64 (ring + OUT_CONS_OFF)) s).1 = u32 (cons (view (load 4 (u64 (ring + OUT_CONS_OFF)) s).2));
  load_prod s : takes (view s) (view (load 4 (u64 (ring + OUT_PROD_OFF)) s).2) /\
    (load 4 (u64 (ring + OUT_PROD_OFF)) s).1 = u32 (prod (view s));
  store_cell s i c : 0 <= i < OUT_SIZE -> exists v, takes (view s) v /\
    view (store 1 (u64 (ring + OUT_OFF + i)) c s) =
      {| prod := prod v; cons := cons v; cell := fun j => if j =? i then c else cell v j; seen := seen v |};
  store_prod s : exists v, takes (view s) v /\
    view (store 4 (u64 (ring + OUT_PROD_OFF)) (u32 (prod (view s) + 1)) s) =
      {| prod := prod v + 1; cons := cons v; cell := cell v; seen := seen v |};
  send_takes s : takes (view s) (view (HYPERVISOR_evtchn_send port s).2);
  yield_takes s : takes (view s) (view (HYPERVISOR_sched_yield s).2) /\
    (cons (view s) < prod (view s) -> cons (view s) < cons (view (HYPERVISOR_sched_yield s).2))
}.

(** ** Taking does not change the stream *)

Lemma chars_app v from m n : 0 <= m -> 0 <= n -> chars v from (m + n) = chars v from m ++ chars v (from + m) n.
Proof. intros Hm Hn. unfold chars. by rewrite seqZ_app, fmap_app by lia. Qed.

Lemma takes_refl v : cons v <= prod v -> takes v v.
Proof. intros H. split_and!; try done; [lia..|]. by rewrite Z.sub_diag, app_nil_r. Qed.

Lemma takes_stream v v' : takes v v' -> stream v' = stream v.
Proof.
  intros (Hp & Hc & Hle & Hs). unfold stream. rewrite Hs, Hp, <- app_assoc. f_equal.
  replace (prod v - cons v) with ((cons v' - cons v) + (prod v - cons v')) by lia.
  rewrite chars_app by lia. unfold chars. rewrite Hc. repeat f_equal; lia.
Qed.

Lemma takes_trans v1 v2 v3 : takes v1 v2 -> takes v2 v3 -> takes v1 v3.
Proof.
  intros (Hp & Hc & Hle & Hs) (Hp' & Hc' & Hle' & Hs'). split_and!; [congruence | congruence | lia | lia |].
  rewrite Hs', Hs, <- app_assoc. f_equal.
  replace (cons v3 - cons v1) with ((cons v2 - cons v1) + (cons v3 - cons v2)) by lia.
  rewrite chars_app by lia. unfold chars. rewrite Hc. repeat f_equal; lia.
Qed.

Lemma mask_idx p : MASK_XENCONS_IDX (u32 p) OUT_SIZE = p mod OUT_SIZE.
Proof.
  unfold MASK_XENCONS_IDX, OUT_SIZE, uwrap. change (2048 - 1) with (Z.ones 11).
  rewrite Z.land_ones by lia. change (2 ^ 11) with 2048. change (2 ^ 32) with (2048 * 2097152).
  by rewrite Z.rem_mul_r, Z.mul_comm, Z.mod_add, Z.mod_mod by lia.
Qed.

(** A cell that is not pending is not part of the stream. *)
Lemma chars_other v i c from n :
  (forall k, from <= k < from + n -> k mod OUT_SIZE <> i) ->
  chars {| prod := prod v; cons := cons v; cell := fun j => if j =? i then c else cell v j; seen := seen v |} from n = chars v from n.
Proof.
  intros H. unfold chars. apply list_fmap_ext. intros j k Hk. cbn.
  apply lookup_seqZ in Hk as [-> Hj]. rewrite (proj2 (Z.eqb_neq _ _)); [done|]. apply H. lia.
Qed.

(** Writing the cell of the next index and advancing the index appends the character. *)
Lemma stream_push v v' c :
  cons v <= prod v -> prod v - cons v < OUT_SIZE ->
  takes {| prod := prod v; cons := cons v; cell := fun j => if j =? prod v mod OUT_SIZE then c else cell v j; seen := seen v |} v' ->
  stream {| prod := prod v' + 1; cons := cons v'; cell := cell v'; seen := seen v' |} = stream v ++ [c].
Proof.
  intros Hle Hroom Ht. pose proof (takes_stream _ _ Ht) as Hst. destruct Ht as (Hp & Hc & Hle' & Hs). cbn in Hp, Hc, Hle'.
  assert (E : stream {| prod := prod v' + 1; cons := cons v'; cell := cell v'; seen := seen v' |} = stream v' ++ [cell v' (prod v' mod OUT_SIZE)]).
  { unfold stream; cbn. replace (prod v' + 1 - cons v') with ((prod v' - cons v') + 1) by lia.
    rewrite chars_app by lia. rewrite <- app_assoc. f_equal. f_equal.
    replace (cons v' + (prod v' - cons v')) with (prod v') by lia. done. }
  rewrite E, Hst, Hc, Hp, Z.eqb_refl. f_equal. unfold stream. cbn. f_equal. apply chars_other.
  intros k Hk Ek. assert (Hd : (prod v - k) mod OUT_SIZE = 0) by (rewrite Zminus_mod, Ek, Z.sub_diag; done).
  rewrite Z.mod_small in Hd by lia. lia.
Qed.

Section Delivery.
Context {S : Type} `{!Machine S} `{!Hypervisor S} (ring port : Z) `{!PvBackend S ring port}.

(** The driver yields until the backend took everything. *)
Lemma drain_returns fuel s :
  prod (view s) - cons (view s) <= Z.of_nat fuel -> prod (view s) - cons (view s) <= OUT_SIZE ->
  exists s', drain fuel ring s = Ret (tt, s') /\ takes (view s) (view s') /\ cons (view s') = prod (view s').
Proof.
  revert s. induction fuel as [|fuel IH]; intros s Hf Hsz; cbn [drain];
    unfold mbind, cmd_bind, mmio_read;
    pose proof (load_cons s) as [Ht1 Hv1]; destruct (load 4 (u64 (ring + OUT_CONS_OFF)) s) as [oc s1]; cbn [fst snd] in Ht1, Hv1;
    pose proof (load_prod s1) as [Ht2 Hv2]; destruct (load 4 (u64 (ring + OUT_PROD_OFF)) s1) as [op s2]; cbn [fst snd] in Ht2, Hv2;
    pose proof (takes_trans _ _ _ Ht1 Ht2) as Ht; pose proof Ht1 as (Hp1 & _ & Hc1 & _); pose proof Ht2 as (Hp2 & _ & Hc2 & _);
    pose proof (view_ok s) as Hok; subst oc op; unfold OUT_SIZE in Hsz.
  - rewrite (proj2 (Z.eqb_eq _ _)) by (f_equal; lia). exists s2. split_and!; [done | done | lia].
  - destruct (Z.eqb_spec (u32 (cons (view s1))) (u32 (prod (view s1)))) as [E|E].
    + exists s2. split_and!; [done | done |]. rewrite Hp2.
      assert (D : u32 (prod (view s1) - cons (view s1)) = 0) by (unfold uwrap in *; rewrite Zminus_mod, <- E, Z.sub_diag; done).
      rewrite uwrap_small in D by lia. lia.
    + assert (Hne : cons (view s1) <> prod (view s1)) by (intros Ee; by rewrite Ee in E).
      pose proof (yield_takes s2) as [Ht3 Hy]. unfold sched_yield.
      destruct (HYPERVISOR_sched_yield s2) as [r s3]. cbn [fst snd] in *. pose proof Ht3 as (Hp3 & _ & Hc3 & _).
      destruct (IH s3) as (s' & E' & Ht' & Hd).
      { destruct (decide (cons (view s2) < prod (view s2))) as [Hlt|]; [specialize (Hy Hlt)|]; lia. }
      { unfold OUT_SIZE. lia. }
      exists s'. split; [exact E'|]. split; [|done]. eapply takes_trans; [exact Ht|]. by eapply takes_trans.
Qed.

(** One character: appended to the stream, and delivered when it ends a line. *)
Lemma ring_putc_returns fuel c s :
  0 <= c < 256 -> prod (view s) - cons (view s) < OUT_SIZE -> OUT_SIZE <= Z.of_nat fuel ->
  exists s', ring_putc fuel ring port c s = Ret (tt, s') /\ stream (view s') = stream (view s) ++ [c] /\
    prod (view s') = prod (view s) + 1 /\ cons (view s) <= cons (view s') /\
    (c = ch_newline -> seen (view s') = stream (view s) ++ [c]).
Proof.
  intros Hc Hroom Hfuel. unfold ring_putc, mbind, cmd_bind, mmio_read, mmio_write.
  pose proof (load_prod s) as [Ht1 Hv1]. destruct (load 4 (u64 (ring + OUT_PROD_OFF)) s) as [op s1]. cbn [fst snd] in Ht1, Hv1. subst op.
  rewrite mask_idx. pose proof Ht1 as (Hp1 & _ & Hc1 & _). rewrite <- Hp1.
  change (8 * Z.of_nat 1) with 8. change (8 * Z.of_nat 4) with 32. rewrite (uwrap_small 8 c) by done.
  destruct (store_cell s1 (prod (view s1) mod OUT_SIZE) c) as (v1 & Ht2 & E2); [apply Z.mod_pos_bound; done|].
  set (s2 := store 1 _ c s1) in *. pose proof Ht2 as (Hp2 & _ & Hc2 & _).
  replace (u32 (u32 (prod (view s1)) + 1)) with (u32 (prod (view s2) + 1))
    by (rewrite E2; cbn [prod]; rewrite Hp2; unfold uwrap; by rewrite Zplus_mod_idemp_l).
  destruct (store_prod s2) as (v2 & Ht3 & E3). set (s3 := store 4 _ _ s2) in *.
  rewrite E2 in Ht3. rewrite <- Hp2 in Ht3. assert (Hst : stream (view s3) = stream (view s) ++ [c]).
  { rewrite E3, (stream_push v1 v2 c); [|lia..|exact Ht3].
    by rewrite (takes_stream _ _ Ht2), (takes_stream _ _ Ht1). }
  destruct Ht3 as (Hp3 & _ & Hc3 & _). cbn [prod cons] in Hp3, Hc3.
  assert (Hpr : prod (view s3) = prod (view s) + 1) by (rewrite E3; cbn [prod]; lia).
  assert (Hco : cons (view s) <= cons (view s3)) by (rewrite E3; cbn [cons]; lia).
  destruct (Z.eqb_spec c ch_newline) as [->|Hn].
  - pose proof (send_takes s3) as Ht4. unfold evtchn_send. destruct (HYPERVISOR_evtchn_send port s3) as [r s4].
    cbn [fst snd] in Ht4. pose proof Ht4 as (Hp4 & _ & Hc4 & _). unfold OUT_SIZE in *.
    destruct (drain_returns fuel s4) as (s' & E & Ht5 & Hd); [lia | unfold OUT_SIZE; lia |].
    pose proof Ht5 as (Hp5 & _ & Hc5 & _). pose proof (takes_stream _ _ Ht5) as Hs5. rewrite (takes_stream _ _ Ht4), Hst in Hs5.
    exists s'. split_and!; [exact E | done | lia | lia |]. intros _.
    unfold stream in Hs5 at 1. by rewrite Hd, Z.sub_diag, app_nil_r in Hs5.
  - exists s3. split_and!; try done. congruence.
Qed.

(** Printing with the driver, once the ring is known. *)
Fixpoint puts (fuel : nat) (l : list Z) : cmd (pvconsole * S) unit :=
  match l with
  | [] => mret tt
  | c :: l' => _ ← driver_xen_pvconsole_putc fuel c; puts fuel l'
  end.

Lemma putc_ring fuel c s :
  ring <> 0 -> driver_xen_pvconsole_putc fuel c ({| cons_ring := ring; cons_evtchn := port |}, s) =
    hw (ring_putc fuel ring port c) ({| cons_ring := ring; cons_evtchn := port |}, s).
Proof.
  intros Hr. unfold driver_xen_pvconsole_putc, mbind, cmd_bind, getv, gets. cbn.
  rewrite (proj2 (Z.eqb_neq _ _) Hr). cbn. by rewrite (proj2 (Z.eqb_neq _ _) Hr).
Qed.

Lemma puts_returns fuel l s :
  ring <> 0 -> Forall (fun c => 0 <= c < 256) l ->
  prod (view s) - cons (view s) + Z.of_nat (length l) <= OUT_SIZE -> OUT_SIZE <= Z.of_nat fuel ->
  exists s', puts fuel l ({| cons_ring := ring; cons_evtchn := port |}, s) = Ret (tt, ({| cons_ring := ring; cons_evtchn := port |}, s')) /\
    stream (view s') = stream (view s) ++ l /\ prod (view s') - cons (view s') <= prod (view s) - cons (view s) + Z.of_nat (length l).
Proof.
  intros Hr. revert s. induction l as [|c l IH]; intros s Hl Hroom Hf.
  { exists s. rewrite app_nil_r. split_and!; [done | done | cbn; lia]. }
  apply List.Forall_cons_iff in Hl as [Hc Hl]. cbn [length] in Hroom.
  destruct (ring_putc_returns fuel c s Hc) as (s1 & E & Hst & Hp & Hco & _); [lia | done |].
  destruct (IH s1 Hl) as (s' & E' & Hst' & Hp'); [lia | done |].
  exists s'. split_and!.
  - cbn [puts]. unfold mbind, cmd_bind. rewrite putc_ring by done. unfold hw, zoom. cbn [fst snd]. rewrite E. exact E'.
  - by rewrite Hst', Hst, <- app_assoc.
  - cbn [length]. lia.
Qed.

(** Claim C40: For any backend that takes characters in order and takes at least one
    when the driver yields, a line that fits the 2048 bytes of the ring is printed
    without blocking for ever, and when the driver returns from its newline the
    backend has seen everything before it and the line, complete and in order. *)
Theorem line_delivered fuel l s :
  ring <> 0 -> Forall (fun c => 0 <= c < 256) l ->
  prod (view s) - cons (view s) + Z.of_nat (length l) < OUT_SIZE -> OUT_SIZE <= Z.of_nat fuel ->
  exists s', puts fuel (l ++ [ch_newline]) ({| cons_ring := ring; cons_evtchn := port |}, s) =
      Ret (tt, ({| cons_ring := ring; cons_evtchn := port |}, s')) /\
    seen (view s') = stream (view s) ++ l ++ [ch_newline].
Proof.
  intros Hr Hl Hroom Hf. destruct (puts_returns fuel l s) as (s1 & E1 & Hst & Hp); [done | done | lia | done |].
  destruct (ring_putc_returns fuel ch_newline s1) as (s' & E' & _ & _ & _ & Hs); [done | lia | done |].
  exists s'. split; [|by rewrite (Hs eq_refl), Hst, app_assoc].
  assert (Happ : forall l l2 x, puts fuel (l ++ l2) x = (puts fuel l ≫= fun _ => puts fuel l2) x).
  { induction l0 as [|c l0 IH]; intros l2 x; [done|]. cbn. unfold mbind, cmd_bind in *.
    destruct (driver_xen_pvconsole_putc fuel c x) as [[[] x']| | |]; [apply IH | done..]. }
  rewrite Happ. unfold mbind, cmd_bind. rewrite E1. cbn [puts]. unfold mbind, cmd_bind.
  rewrite putc_ring by done. unfold hw, zoom. cbn [fst snd]. by rewrite E'.
Qed.
End Delivery.

(** ** A backend that runs when the driver yields *)
Record pvsim := { p_cons : Z; p_pending : nat; p_cells : Z -> Z; p_seen : list Z }.
Definition demo_ring : Z := 0x40000000.
Definition demo_port : Z := 3.
Definition pv_view (s : pvsim) : ring_view :=
  {| prod := p_cons s + Z.of_nat (p_pending s); cons := p_cons s; cell := p_cells s; seen := p_seen s |}.
Definition take_all (s : pvsim) : pvsim :=
  {| p_cons := p_cons s + Z.of_nat (p_pending s); p_pending := 0; p_cells := p_cells s;
     p_seen := p_seen s ++ chars (pv_view s) (p_cons s) (Z.of_nat (p_pending s)) |}.
Definition sim_store (n : nat) (a v : Z) (s : pvsim) : pvsim :=
  if (n =? 1)%nat then
    {| p_cons := p_cons s; p_pending := p_pending s; p_cells := (let i := a - (demo_ring + OUT_OFF) in fun j => if j =? i then v else p_cells s j); p_seen := p_seen s |}
  else if v =? u32 (prod (pv_view s) + 1) then
    {| p_cons := p_cons s; p_pending := Datatypes.S (p_pending s); p_cells := p_cells s; p_seen := p_seen s |}
  else s.

#[local] Instance pv_machine : Machine pvsim := {
  load _ a s := (if a =? demo_ring + OUT_CONS_OFF then u32 (p_cons s) else u32 (prod (pv_view s)), s);
  store := sim_store;
  mrs _ s := (0, s); msr _ _ s := s; set_irq_mask _ s := s; set_fiq_mask _ s := s
}.
#[local] Instance pv_hypervisor : Hypervisor pvsim := {
  HYPERVISOR_console_io _ _ s := (0, s);
  HYPERVISOR_hvm_get_param idx _ s := ((0, if idx =? HVM_PARAM_CONSOLE_PFN then Z.shiftr demo_ring XEN_PAGE_SHIFT else demo_port), s);
  HYPERVISOR_evtchn_send _ s := (0, s);
  HYPERVISOR_sched_yield s := (0, take_all s)
}.

Lemma pv_ok s : cons (pv_view s) <= prod (pv_view s).
Proof. cbn. lia. Qed.

Lemma take_all_takes s : takes (pv_view s) (pv_view (take_all s)) /\ (cons (pv_view s) < prod (pv_view s) -> cons (pv_view s) < cons (pv_view (take_all s))).
Proof.
  split; [|cbn; lia]. split_and!; cbn; try done; try lia.
  do 2 f_equal. lia.
Qed.

#[local] Program Instance pv_backend : PvBackend pvsim demo_ring demo_port := { view := pv_view; view_ok := pv_ok }.
Next Obligation. intros s. split; [apply takes_refl, pv_ok | done]. Qed.
Next Obligation. intros s. split; [apply takes_refl, pv_ok | done]. Qed.
Next Obligation.
  intros s i c Hi. exists (pv_view s). split; [apply takes_refl, pv_ok|]. unfold OUT_SIZE in Hi.
  rewrite uwrap_small by (unfold demo_ring, OUT_OFF; lia). cbn -[demo_ring OUT_OFF].
  replace (demo_ring + OUT_OFF + i - (demo_ring + OUT_OFF)) with i by lia. done.
Qed.
Next Obligation.
  intros s. exists (pv_view s). split; [apply takes_refl, pv_ok|]. unfold store, pv_machine, sim_store. cbn [Nat.eqb].
  rewrite Z.eqb_refl. unfold pv_view. cbn [p_cons p_pending p_cells p_seen prod cons cell seen]. f_equal. lia.
Qed.
Next Obligation. intros s. apply takes_refl, pv_ok. Qed.
Next Obligation. intros s. apply take_all_takes. Qed.

Definition demo_console : pvconsole := {| cons_ring := demo_ring; cons_evtchn := demo_port |}.
Definition empty_ring : pvsim := {| p_cons := 0; p_pending := 0; p_cells := fun _ => 0; p_seen := [] |}.

Lemma line_delivered_witness :
  exists s', puts (Z.to_nat 2048) [79; 75; 10] (demo_console, empty_ring) = Ret (tt, (demo_console, s')) /\ p_seen s' = [79; 75; 10].
Proof.
  apply (@line_delivered pvsim pv_machine pv_hypervisor demo_ring demo_port pv_backend (Z.to_nat 2048) [79; 75] empty_ring);
    [done | repeat constructor; lia | by vm_compute | by vm_compute].
Defined.

(** The first character puts the ring in place. *)
Example console_found :
  match driver_xen_pvconsole_putc 0 79 ({| cons_ring := 0; cons_evtchn := 0 |}, empty_ring) with
  | Ret (_, (d, s)) => d = demo_console /\ stream (pv_view s) = [79]
  | _ => False
  end.
Proof. by vm_compute. Qed.

(** A line longer than the ring overwrites what the backend has not taken yet. *)
Theorem long_line_lost :
  exists s', puts 1 (repeat 65 (Z.to_nat 2048) ++ [66; ch_newline]) (demo_console, empty_ring) = Ret (tt, (demo_console, s')) /\
    take 3 (p_seen s') = [66; 10; 65].
Proof.
  assert (E : (match puts 1 (repeat 65 (Z.to_nat 2048) ++ [66; ch_newline]) (demo_console, empty_ring) with
    | Ret (_, (d, s')) => (cons_ring d =? demo_ring) && (cons_evtchn d =? demo_port) && bool_decide (take 3 (p_seen s') = [66; 10; 65])
    | _ => false end) = true) by (by vm_compute).
  destruct (puts _ _ _) as [[[] [[r p] s']]| | |]; try done. rewrite !andb_true_iff, bool_decide_eq_true in E.
  destruct E as [[Er Ep] E]. cbn in Er, Ep. apply Z.eqb_eq in Er as ->. apply Z.eqb_eq in Ep as ->. by exists s'.
Qed.
