(* ===== verification/PageTable.v ===== *)
(** * Translation tables ([val_memory.c])

    Each endpoint builds its own stage 1 tables before it turns the MMU on.  The
    tables lie in [.bss.tt] ([val_vtable.S]): one table for level 0, one for
    level 1 and two pools, of 12 and 24 tables, for levels 2 and 3.  Their
    addresses are parameters (the linker chooses them); their contents are in the
    byte memory of [CMem]; the [tt_l*_base_*_used] flags are two lists of flags in
    the order in which the code tries them.

    [fill_translation_table] calls itself once per level below; [depth] bounds
    that recursion.  Its [for] loop moves to the next block in each round, so the
    number of blocks the range meets bounds it ([fill_fuel]). *)

From S2P Require Import Prelude ValCommon CMem EndpointInfo.

Definition PGT_STAGE1 : Z := 1.
Definition PGT_STAGE2 : Z := 2.
Definition PGT_IAS : Z := 40.
Definition PAGT_OAS : Z := 40.
Definition PGT_IPS : Z := 0x2.
Definition PGT_T0SZ : Z := 64 - PGT_IAS.
Definition PGT_ENTRY_TABLE_MASK : Z := Z.shiftl 0x1 1.
Definition PGT_ENTRY_VALID_MASK : Z := 0x1.
Definition PGT_ENTRY_PAGE_MASK : Z := Z.shiftl 0x1 1.
Definition PGT_ENTRY_BLOCK_MASK : Z := Z.shiftl 0x0 1.
Definition IS_PGT_ENTRY_BLOCK (val : Z) : bool := Z.land val 0x2 =? 0.
Definition PGT_DESC_ATTR_UPPER_MASK : Z := Z.shiftl (Z.shiftl 0x1 12 - 1) 52.
Definition PGT_DESC_ATTR_LOWER_MASK : Z := Z.shiftl (Z.shiftl 0x1 10 - 1) 2.
Definition PGT_DESC_ATTRIBUTES_MASK : Z := Z.lor PGT_DESC_ATTR_UPPER_MASK PGT_DESC_ATTR_LOWER_MASK.
Definition PGT_DESC_ATTRIBUTES (val : Z) : Z := Z.land val PGT_DESC_ATTRIBUTES_MASK.

(** Memory attributes ([pal_memory.h]); [ns] says whether the image is one of
    the virtual machines. *)
Definition ATTR_NORMAL_WB_WA_RA : Z := Z.shiftl 0x1 2.
Definition ATTR_DEVICE : Z := Z.shiftl 0x2 2.
Definition ATTR_NS : Z := Z.shiftl 0x1 5.
Definition ATTR_S : Z := Z.shiftl 0x0 5.
Definition ATTR_STAGE1_AP_RW : Z := Z.shiftl 0x1 6.
Definition ATTR_STAGE2_AP_RW : Z := Z.shiftl 0x3 6.
Definition ATTR_INNER_SHARED : Z := Z.shiftl 0x3 8.
Definition ATTR_AF : Z := Z.shiftl 0x1 10.
Definition ATTR_UXN : Z := Z.shiftl 0x1 54.
Definition ATTR_PXN : Z := Z.shiftl 0x1 53.
Definition ATTR_USER_RW : Z := Z.shiftl 0x1 6.
Definition ATTR_USER_RO : Z := Z.shiftl 0x3 6.
Definition ADD_NS_BIT (ns : bool) : Z := if ns then ATTR_NS else ATTR_S.
Definition ors (l : list Z) : Z := fold_left Z.lor l 0.
Definition ATTR_CODE (ns : bool) : Z :=
  ors [ATTR_NORMAL_WB_WA_RA; ATTR_USER_RO; ATTR_AF; ATTR_INNER_SHARED; ADD_NS_BIT ns].
Definition ATTR_RO_DATA (ns : bool) : Z :=
  ors [ATTR_NORMAL_WB_WA_RA; ATTR_USER_RO; ATTR_UXN; ATTR_PXN; ATTR_AF; ATTR_INNER_SHARED; ADD_NS_BIT ns].
Definition ATTR_RW_DATA (ns : bool) : Z :=
  ors [ATTR_NORMAL_WB_WA_RA; ATTR_USER_RW; ATTR_UXN; ATTR_PXN; ATTR_AF; ATTR_INNER_SHARED; ADD_NS_BIT ns].
Definition ATTR_DEVICE_RW : Z :=
  ors [ATTR_DEVICE; ATTR_USER_RW; ATTR_UXN; ATTR_PXN; ATTR_AF; ATTR_INNER_SHARED; ATTR_NS].

Record memory_region_descriptor := Region {
  virtual_address : Z; physical_address : Z; length_ : Z; attributes : Z }.
Record pgt_descriptor := PgtDesc { ias : Z; oas : Z; stage : Z; ttbr : Z }.
Record tt_descriptor := TtDesc {
  tt_base : Z; input_base : Z; input_top : Z; output_base : Z;
  level : Z; size_log2 : Z; nbits : Z }.

(** The static variables of the file and the tables. *)
Record tt_state := TtState {
  tt_mem : mem;
  tt_l2_used : list Z;
  tt_l3_used : list Z;
  bits_per_level : Z;
  pgt_addr_mask : Z
}.
Definition set_tt_mem (m : mem) (s : tt_state) : tt_state :=
  TtState m (tt_l2_used s) (tt_l3_used s) (bits_per_level s) (pgt_addr_mask s).

(** [if (!tt_l2_base_1_used) .. else if (!tt_l2_base_2_used) .. else]: the first
    table whose flag is clear, with its flag set. *)
Fixpoint first_unused (bases used : list Z) : option (Z * list Z) :=
  match bases, used with
  | b :: bases', u :: used' =>
      if u =? 0 then Some (b, 1 :: used')
      else match first_unused bases' used' with
           | Some (x, used'') => Some (x, u :: used'')
           | None => None
           end
  | _, _ => None
  end.

Section Tables.
Context `{ValCommon}.
Context (tt_l0_base tt_l1_base : Z) (tt_l2_bases tt_l3_bases : list Z).
(** [val_curr_endpoint_page_size()]; the granule is fixed before the tables are built. *)
Context (page_size : Z).

(** [tt_base[index]]. *)
Definition rd_desc (m : mem) (base index : Z) : Z := ldn 8 m (base + 8 * index).
Definition wr_desc (m : mem) (base index v : Z) : mem := stn 8 m (base + 8 * index) v.

(** The table for the level below [lvl]. *)
Definition next_table (lvl : Z) (s : tt_state) : option (Z * tt_state) :=
  if lvl =? 1 then
    match first_unused tt_l2_bases (tt_l2_used s) with
    | Some (b, used) => Some (b, TtState (tt_mem s) used (tt_l3_used s) (bits_per_level s) (pgt_addr_mask s))
    | None => None
    end
  else if lvl =? 2 then
    match first_unused tt_l3_bases (tt_l3_used s) with
    | Some (b, used) => Some (b, TtState (tt_mem s) (tt_l2_used s) used (bits_per_level s) (pgt_addr_mask s))
    | None => None
    end
  else Some (tt_l1_base, s).

Definition leaf_desc (kind out block_size attrs : Z) : Z :=
  Z.lor (Z.lor (Z.lor kind PGT_ENTRY_VALID_MASK) (Z.land out (u64 (Z.lnot (block_size - 1))))) attrs.

Definition fill_fuel (d : tt_descriptor) : nat :=
  let block_size := Z.shiftl 1 (size_log2 d) in
  Z.to_nat (input_top d / block_size - input_base d / block_size + 1).

(** The [for] loop; [rec] is the call for the level below. *)
Fixpoint fill_loop (rec : tt_descriptor -> tt_state -> outcome (Z * tt_state))
    (d : tt_descriptor) (attrs : Z) (fuel : nat) (input_address output_address : Z)
    (s : tt_state) : outcome (Z * tt_state) :=
  if input_address <? input_top d then
    match fuel with
    | O => Diverge
    | S fuel' =>
        let block_size := Z.shiftl 1 (size_log2 d) in
        let table_entries := Z.shiftl 1 (bits_per_level s) in
        let block_base := Z.land input_address (u64 (Z.lnot (block_size - 1))) in
        if 2 ^ 64 - 1 - (block_size - 1) <? block_base then Ret (VAL_ERROR, s)
        else
          let block_top := u64 (block_base + block_size - 1) in
          let chunk_top := if input_top d <? block_top then input_top d else block_top in
          let chunk_size := u64 (chunk_top - input_address + 1) in
          let table_index := Z.land (Z.shiftr input_address (size_log2 d)) (Z.shiftl 1 (nbits d) - 1) in
          let next := fill_loop rec d attrs fuel' (u64 (input_address + chunk_size))
                        (u64 (output_address + chunk_size)) in
          if table_entries <=? table_index then Ret (VAL_ERROR, s)
          else if level d =? 3 then
            next (set_tt_mem (wr_desc (tt_mem s) (tt_base d) table_index
                    (leaf_desc PGT_ENTRY_PAGE_MASK output_address page_size attrs)) s)
          else if (Z.land input_address (block_size - 1) =? 0)
                  && (Z.land output_address (block_size - 1) =? 0)
                  && (u64 (input_address + block_size - 1) <=? input_top d) then
            next (set_tt_mem (wr_desc (tt_mem s) (tt_base d) table_index
                    (leaf_desc PGT_ENTRY_BLOCK_MASK output_address block_size attrs)) s)
          else
            let desc := rd_desc (tt_mem s) (tt_base d) table_index in
            match (if (desc =? 0) || IS_PGT_ENTRY_BLOCK desc then next_table (level d) s
                   else Some (Z.land desc (pgt_addr_mask s), s)) with
            | None => Ret (VAL_ERROR, s)
            | Some (base, s) =>
                let s := set_tt_mem (wr_desc (tt_mem s) (tt_base d) table_index
                           (Z.lor (Z.lor PGT_ENTRY_TABLE_MASK PGT_ENTRY_VALID_MASK)
                                  (Z.land base (u64 (Z.lnot (page_size - 1)))))) s in
                let! (r, s) := rec (TtDesc base input_address chunk_top output_address (u32 (level d + 1))
                                     (u32 (size_log2 d - bits_per_level s)) (bits_per_level s)) s in
                if negb (r =? 0) then Ret (VAL_ERROR, s) else next s
            end
    end
  else Ret (VAL_SUCCESS, s).

Fixpoint fill_translation_table (depth : nat) (d : tt_descriptor) (attrs : Z) (s : tt_state)
  : outcome (Z * tt_state) :=
  match depth with
  | O => Diverge
  | S depth' =>
      if (tt_base d =? 0) || (64 <=? size_log2 d) || (nbits d =? 0) || (64 <=? nbits d)
         || (64 <=? bits_per_level s) || (bits_per_level s <? nbits d)
      then Ret (VAL_ERROR, s)
      else fill_loop (fun d' => fill_translation_table depth' d' attrs) d attrs (fill_fuel d)
             (input_base d) (output_base d) s
  end.

(** The position of the lowest set bit, 0 for 0. *)
Fixpoint ilog2_loop (fuel : nat) (size bit : Z) : Z :=
  match fuel with
  | O => 0
  | S fuel' =>
      if size =? 0 then 0
      else if negb (Z.land size 1 =? 0) then bit
      else ilog2_loop fuel' (Z.shiftr size 1) (bit + 1)
  end.
Definition ilog2 (size : Z) : Z := ilog2_loop 64 size 0.

(** [PLATFORM_SP_EL == 1 || defined(VM1_COMPILE)]: build option. *)
Context (has_tables : bool).

(** The descriptor is passed by reference: its address may be truncated and its
    attributes get the access permission; it is the second component of the result. *)
Definition val_pgt_create (pgt : pgt_descriptor) (r : memory_region_descriptor) (s : tt_state)
  : outcome (Z * memory_region_descriptor * tt_state) :=
  if negb has_tables then Ret (VAL_SUCCESS, r, s)
  else if negb (Z.land (virtual_address r) (page_size - 1) =? 0)
          || negb (Z.land (physical_address r) (page_size - 1) =? 0) then Ret (VAL_ERROR, r, s)
  else if Z.shiftl 1 (oas pgt) <=? physical_address r then Ret (VAL_ERROR, r, s)
  else
    let va := if Z.shiftl 1 (ias pgt) <=? virtual_address r
              then Z.land (virtual_address r) (Z.shiftl 1 (ias pgt) - 1) else virtual_address r in
    let r := Region va (physical_address r) (length_ r) (attributes r) in
    let page_size_log2 := ilog2 page_size in
    let bits := u32 (page_size_log2 - 3) in
    let num_pgt_levels := u32 (ias pgt - page_size_log2 + bits - 1) / bits in
    let s := TtState (tt_mem s) (tt_l2_used s) (tt_l3_used s) bits (pgt_addr_mask s) in
    if (stage pgt =? PGT_STAGE1) || (stage pgt =? PGT_STAGE2) then
      let r := Region va (physical_address r) (length_ r)
                 (Z.lor (attributes r) (if stage pgt =? PGT_STAGE1 then ATTR_STAGE1_AP_RW else ATTR_STAGE2_AP_RW)) in
      let base := Z.land va (Z.shiftl 1 (ias pgt) - 1) in
      let size_log2 := u32 (u32 (num_pgt_levels - 1) * bits + page_size_log2) in
      let d := TtDesc (ttbr pgt) base (u64 (base + length_ r - 1))
                 (Z.land (physical_address r) (Z.shiftl 1 (oas pgt) - 1))
                 (u32 (4 - num_pgt_levels)) size_log2 (u32 (ias pgt - size_log2)) in
      let s := TtState (tt_mem s) (tt_l2_used s) (tt_l3_used s) (bits_per_level s)
                 (Z.shiftl (Z.shiftl 1 (48 - page_size_log2) - 1) page_size_log2) in
      let! (st, s) := fill_translation_table 4 d (attributes r) s in
      if negb (st =? 0) then Ret (VAL_ERROR, r, s) else Ret (VAL_SUCCESS, r, s)
    else Ret (VAL_ERROR, r, s).

(** ** Mapping the image and its devices *)

(** The linker symbols of the image sections. *)
Record image_sections := ImageSections {
  text_start : Z; text_end : Z; rodata_start : Z; rodata_end : Z;
  data_start : Z; data_end : Z; bss_start : Z; bss_end : Z }.

Definition val_normalize_endpoint_section_addr (image_base addr : Z) : Z :=
  if negb (addr =? 0) && (addr <? image_base) then u64 (image_base + addr) else addr.

Definition normalize_sections (i : image_sections) : image_sections :=
  let f := val_normalize_endpoint_section_addr (text_start i) in
  ImageSections (f (text_start i)) (f (text_end i)) (f (rodata_start i)) (f (rodata_end i))
    (f (data_start i)) (f (data_end i)) (f (bss_start i)) (f (bss_end i)).

(** The magic pages a Xen guest has (xen/public/arch-arm.h). *)
Definition GUEST_MAGIC_BASE : Z := 0x39000000.
Definition GUEST_MAGIC_SIZE : Z := 0x01000000.

(** VM1 built with [XEN_SUPPORT]. *)
Context (xen_vm1 : bool).

Definition endpoint_image_regions (ns : bool) (i : image_sections) : list memory_region_descriptor :=
  [Region (text_start i) (text_start i) (text_end i - text_start i) (ATTR_CODE ns);
   Region (rodata_start i) (rodata_start i) (rodata_end i - rodata_start i) (ATTR_RO_DATA ns);
   Region (data_start i) (data_start i) (data_end i - data_start i) (ATTR_RW_DATA ns);
   Region (bss_start i) (bss_start i) (bss_end i - bss_start i) (ATTR_RW_DATA ns)]
  ++ (if xen_vm1 then [Region GUEST_MAGIC_BASE GUEST_MAGIC_BASE GUEST_MAGIC_SIZE (ATTR_RW_DATA ns)] else []).

(** [while (i < no_of_regions)]: one [val_pgt_create] per region, on a copy. *)
Fixpoint map_regions (pgt : pgt_descriptor) (rs : list memory_region_descriptor) (s : tt_state)
  : outcome (Z * tt_state) :=
  match rs with
  | [] => Ret (VAL_SUCCESS, s)
  | r :: rs' =>
      let! (st, _, s) := val_pgt_create pgt r s in
      if negb (st =? 0) then Ret (VAL_ERROR, s) else map_regions pgt rs' s
  end.

(** [devices] is what [pal_get_endpoint_device_map] gives for this image; it never
    fails ([pal_misc.c]). *)
Definition val_map_endpoint_region (ns : bool) (i : image_sections) (devices : list memory_region_descriptor)
    (pgt : pgt_descriptor) (s : tt_state) : outcome (Z * tt_state) :=
  let i := normalize_sections i in
  if (text_end i <? text_start i) || (rodata_end i <? rodata_start i)
     || (data_end i <? data_start i) || (bss_end i <? bss_start i) then Ret (VAL_ERROR, s)
  else
    let! (st, s) := map_regions pgt (endpoint_image_regions ns i) s in
    if negb (st =? 0) then Ret (VAL_ERROR, s) else map_regions pgt devices s.

(** ** Turning the MMU on *)

(** The system registers of the current exception level. *)
Record mmu_regs := MmuRegs { mair : Z; ttbr0 : Z; tcr : Z; sctlr : Z }.

Definition tcr_value (currentEL g : Z) : Z :=
  if currentEL =? EL2 then
    ors [Z.shiftl 1 20; Z.shiftl g 14; Z.shiftl 3 12; Z.shiftl 1 10; Z.shiftl 1 8; PGT_T0SZ]
  else
    ors [Z.shiftl 1 37; Z.shiftl g 14; Z.shiftl 3 12; Z.shiftl 1 10; Z.shiftl 1 8; Z.shiftl 1 23;
         Z.shiftl PGT_IPS 32; PGT_T0SZ].

(** [el] is what [val_read_current_el] gives; [tg0_status] and [g] are the
    results of [val_assign_tg0_to_endpoint] and [val_get_curr_endpoint_tt_tg0]. *)
Definition val_setup_mmu (ns : bool) (i : image_sections) (devices : list memory_region_descriptor)
    (el_info el tg0_status g : Z) (regs : mmu_regs) (s : tt_state) : outcome (Z * mmu_regs * tt_state) :=
  if GET_EL_NUM el_info =? EL0 then Ret (VAL_SUCCESS, regs, s)
  else
    let currentEL := Z.shiftr (Z.land el 0xc) 2 in
    let regs := MmuRegs 0xFF44 (ttbr0 regs) (tcr regs) (sctlr regs) in
    if negb (tg0_status =? 0) then Ret (VAL_ERROR, regs, s)
    else
      let regs := MmuRegs (mair regs) tt_l0_base (tcr_value currentEL (u8 g)) (sctlr regs) in
      let! (st, s) := val_map_endpoint_region ns i devices (PgtDesc PGT_IAS PAGT_OAS PGT_STAGE1 tt_l0_base) s in
      if negb (st =? 0) then Ret (VAL_ERROR, regs, s)
      else Ret (VAL_SUCCESS,
                MmuRegs (mair regs) (ttbr0 regs) (tcr regs)
                  (ors [Z.shiftl 1 0; Z.shiftl 1 2; Z.shiftl 1 12; Z.shiftl 1 23; sctlr regs]), s).

Definition val_mem_map_pgt (el_info ttbr0_value : Z) (r : memory_region_descriptor) (s : tt_state)
  : outcome (Z * memory_region_descriptor * tt_state) :=
  if GET_EL_NUM el_info =? EL0 then Ret (VAL_SUCCESS, r, s)
  else val_pgt_create (PgtDesc PGT_IAS PAGT_OAS PGT_STAGE1 ttbr0_value) r s.
End Tables.
