(* ===== verification/PageTableProof.v ===== *)
(** * The translation tables map what they are asked to map

    [walk] is the table walk of the Arm architecture (4K, 16K and 64K granules):
    the specification against which [fill_translation_table] is proved.  Levels
    are counted from the leaves: a table of height [n] is looked up at level
    [4 - n] and covers [R p n] bytes of address space, each of its entries
    [R p (n - 1)].

    The invariant [inv] uses a ghost map from the tables in use to their height
    and the first address they serve; it makes a write to one table invisible to
    the walks of all addresses that table does not serve. *)

From S2P Require Import Prelude ValCommon CMem EndpointInfo PageTable.

(** ** The architecture's walk *)

Definition R (p : Z) (n : nat) : Z := 2 ^ (p + Z.of_nat n * (p - 3)).

(** Bits 47 to [r] of a descriptor: the output address of a leaf that maps
    [2^r] bytes; for [r = p] the address of the next table. *)
Definition amask (r : Z) : Z := Z.shiftl (Z.ones (48 - r)) r.
Definition out_of (p : Z) (n : nat) (e : Z) : Z := Z.land e (amask (p + Z.of_nat n * (p - 3))).
Definition entry_index (p : Z) (n : nat) (x : Z) : Z := (x / R p n) mod 2 ^ (p - 3).

Fixpoint walk (p : Z) (n : nat) (m : mem) (base x : Z) : option (Z * Z) :=
  match n with
  | O => None
  | S n' =>
      let e := rd_desc m base (entry_index p n' x) in
      let leaf := Some (out_of p n' e + x mod R p n', PGT_DESC_ATTRIBUTES e) in
      if negb (Z.testbit e 0) then None
      else match n', Z.testbit e 1 with
           | O, b => if b then leaf else None
           | S _, true => walk p n' m (out_of p 0 e) x
           | S _, false => leaf
           end
  end.

(** The addresses whose page starts in [ia, it): what a fill of the range whose
    last byte is [it] maps. *)
Definition covered (p ia it x : Z) : Prop := ia <= x /\ x - x mod 2 ^ p < it.

Definition attr_ok (a : Z) : Prop := 0 <= a /\ Z.land a PGT_DESC_ATTRIBUTES_MASK = a.

(** ** Arithmetic of blocks *)

Lemma R_pos p n : 12 <= p -> 0 < R p n.
Proof. intros. apply Z.pow_pos_nonneg; nia. Qed.

Lemma R_S p n : 12 <= p -> R p (S n) = R p n * 2 ^ (p - 3).
Proof. intros. unfold R. rewrite <- Z.pow_add_r by nia. f_equal. lia. Qed.

Lemma R_0 p : R p 0 = 2 ^ p.
Proof. unfold R. f_equal. lia. Qed.

Lemma R_mult p n : 12 <= p -> exists q, R p n = 2 ^ p * q /\ 0 < q.
Proof.
  intros. exists (2 ^ (Z.of_nat n * (p - 3))). unfold R. rewrite Z.pow_add_r by nia.
  split; [done|]. apply Z.pow_pos_nonneg; nia.
Qed.

Lemma R_mono p n k : 12 <= p -> (n <= k)%nat -> R p n <= R p k.
Proof. intros. unfold R. apply Z.pow_le_mono_r; nia. Qed.

(** The entry of a table that serves [x]. *)
Lemma entry_range p n v x :
  12 <= p -> v mod R p (S n) = 0 -> v <= x < v + R p (S n) ->
  let j := entry_index p n x in
  0 <= j < 2 ^ (p - 3) /\ v + j * R p n <= x < v + j * R p n + R p n /\ x / R p n = v / R p n + j.
Proof.
  intros Hp Hv Hx. pose proof (R_pos p n Hp) as HR. rewrite R_S in * by done. cbv zeta.
  unfold entry_index. set (K := 2 ^ (p - 3)) in *. set (r := R p n) in *.
  assert (HK : 0 < K) by (apply Z.pow_pos_nonneg; lia).
  apply Z.div_exact in Hv; [|lia]. set (q := v / (r * K)) in Hv.
  assert (Ex : x / r = K * q + (x - v) / r).
  { replace x with ((x - v) + (K * q) * r) at 1 by lia. rewrite Z.div_add by lia. lia. }
  assert (Hd : 0 <= (x - v) / r < K).
  { split; [apply Z.div_pos; lia | apply Z.div_lt_upper_bound; lia]. }
  assert (Ev : v / r = K * q) by (rewrite Hv; replace (r * K * q) with ((K * q) * r) by lia; apply Z.div_mul; lia).
  assert (Ej : (x / r) mod K = (x - v) / r).
  { rewrite Ex, Z.mul_comm, Z.add_comm, Z.mod_add by lia. apply Z.mod_small. lia. }
  rewrite Ej, Ex, Ev. pose proof (Z.div_mod (x - v) r). pose proof (Z.mod_pos_bound (x - v) r). nia.
Qed.

Lemma aligned_floor p x a : 0 <= p -> a mod 2 ^ p = 0 -> a <= x -> a <= x - x mod 2 ^ p.
Proof.
  intros Hp Ha Hx. assert (0 < 2 ^ p) by (apply Z.pow_pos_nonneg; lia).
  pose proof (Z.div_mod x (2 ^ p)). pose proof (Z.div_mod a (2 ^ p)).
  pose proof (Z.mod_pos_bound x (2 ^ p)).
  assert (a / 2 ^ p <= x / 2 ^ p) by (apply Z.div_le_mono; lia). nia.
Qed.

Lemma covered_empty p ia it x : 0 <= p -> ia mod 2 ^ p = 0 -> it <= ia -> ~ covered p ia it x.
Proof. intros Hp Ha Hle [H1 H2]. pose proof (aligned_floor p x ia Hp Ha H1). lia. Qed.

Lemma covered_first p ia it : ia mod 2 ^ p = 0 -> ia < it -> covered p ia it ia.
Proof. intros Ha Hlt. split; lia. Qed.

(** A range cut at a page boundary. *)
Lemma covered_split p ia c it x :
  12 <= p -> ia <= c < it -> (c + 1) mod 2 ^ p = 0 ->
  covered p ia it x <-> covered p ia c x \/ covered p (c + 1) it x.
Proof.
  intros Hp Hc Ha. unfold covered.
  assert (H12 : 2 ^ 12 <= 2 ^ p) by (apply Z.pow_le_mono_r; lia). change (2 ^ 12) with 4096 in H12.
  pose proof (Z.mod_pos_bound x (2 ^ p) ltac:(lia)).
  assert (Hne : x - x mod 2 ^ p <> c).
  { intros Heq. rewrite <- Heq in Ha. rewrite <- Zplus_mod_idemp_l in Ha.
    rewrite (Zminus_mod_idemp_r x x), Z.sub_diag, Z.mod_0_l, Z.mod_1_l in Ha by lia. done. }
  destruct (decide (x <= c)) as [|Hgt].
  - lia.
  - pose proof (aligned_floor p x (c + 1) ltac:(lia) Ha ltac:(lia)). lia.
Qed.

(** ** Bits of a descriptor *)

Lemma amask_bit r i : 0 <= r <= 48 -> 0 <= i -> Z.testbit (amask r) i = (r <=? i) && (i <? 48).
Proof.
  intros Hr Hi. unfold amask. rewrite Z.shiftl_spec by done.
  destruct (Z.leb_spec r i); [|by rewrite Z.testbit_neg_r by lia].
  cbn [andb]. destruct (Z.ltb_spec i 48).
  - apply Z.ones_spec_low. lia.
  - apply Z.ones_spec_high. lia.
Qed.

Lemma attr_mask_bit i :
  0 <= i -> Z.testbit PGT_DESC_ATTRIBUTES_MASK i = ((2 <=? i) && (i <? 12)) || ((52 <=? i) && (i <? 64)).
Proof.
  intros Hi. change PGT_DESC_ATTRIBUTES_MASK with (Z.lor (Z.shiftl (Z.ones 12) 52) (Z.shiftl (Z.ones 10) 2)).
  rewrite Z.lor_spec, !Z.shiftl_spec by done. rewrite orb_comm. f_equal.
  - destruct (Z.leb_spec 2 i); [|by rewrite Z.testbit_neg_r by lia].
    cbn [andb]. destruct (Z.ltb_spec i 12); [apply Z.ones_spec_low | apply Z.ones_spec_high]; lia.
  - destruct (Z.leb_spec 52 i); [|by rewrite Z.testbit_neg_r by lia].
    cbn [andb]. destruct (Z.ltb_spec i 64); [apply Z.ones_spec_low | apply Z.ones_spec_high]; lia.
Qed.

Lemma attr_ok_bit a i :
  attr_ok a -> 0 <= i -> Z.testbit a i = Z.testbit a i && (((2 <=? i) && (i <? 12)) || ((52 <=? i) && (i <? 64))).
Proof. intros [_ Ha] Hi. rewrite <- attr_mask_bit, <- Z.land_spec by done. by rewrite Ha. Qed.

(** An aligned address has its bits between the alignment and bit 47. *)
Lemma address_bit r o i :
  0 <= r -> 0 <= o < 2 ^ 48 -> o mod 2 ^ r = 0 -> 0 <= i ->
  Z.testbit o i = Z.testbit o i && ((r <=? i) && (i <? 48)).
Proof.
  intros Hr Ho Ha Hi. destruct (Z.leb_spec r i); cbn [andb].
  - destruct (Z.ltb_spec i 48); [by rewrite andb_true_r|]. rewrite andb_false_r.
    apply (testbit_small 48); lia.
  - rewrite andb_false_r. apply Z.div_exact in Ha; [|lia]. rewrite Ha, Z.mul_comm.
    rewrite <- Z.shiftl_mul_pow2 by done. apply Z.shiftl_spec_low. lia.
Qed.

Lemma below_bits w z : 0 <= w -> 0 <= z -> (forall i, w <= i -> Z.testbit z i = false) -> z < 2 ^ w.
Proof.
  intros Hw Hz Hb.
  assert (z = z mod 2 ^ w) as ->.
  { apply Z.bits_inj'. intros i Hi. destruct (Z.lt_ge_cases i w).
    - by rewrite Z.mod_pow2_bits_low.
    - rewrite Z.mod_pow2_bits_high by lia. by apply Hb. }
  apply Z.mod_pos_bound. apply Z.pow_pos_nonneg; lia.
Qed.

Lemma leaf_desc_eq kind o p n a :
  12 <= p -> p + Z.of_nat n * (p - 3) <= 48 -> 0 <= o < 2 ^ 48 -> o mod R p n = 0 ->
  leaf_desc kind o (R p n) a = Z.lor (Z.lor (Z.lor kind 1) o) a.
Proof.
  intros Hp Hr Ho Ha. unfold leaf_desc, R in *. rewrite <- ones_pow2.
  rewrite land_lnot_ones, Ha by (unfold is_uint; nia). by rewrite Z.sub_0_r.
Qed.

Lemma low_kind_bit kind i : kind = 0 \/ kind = 2 -> 2 <= i -> Z.testbit (Z.lor kind 1) i = false.
Proof. intros Hk Hi. apply (testbit_small 2); [destruct Hk as [->| ->]; vm_compute; intuition congruence | done]. Qed.

Ltac zcases :=
  repeat match goal with
  | |- context [?a <=? ?b] => destruct (Z.leb_spec a b)
  | |- context [?a <? ?b] => destruct (Z.ltb_spec a b)
  end.

Lemma leaf_desc_facts kind o p n a :
  kind = 0 \/ kind = 2 ->
  12 <= p -> p + Z.of_nat n * (p - 3) <= 48 -> 0 <= o < 2 ^ 48 -> o mod R p n = 0 -> attr_ok a ->
  let e := leaf_desc kind o (R p n) a in
  is_uint 64 e /\ Z.testbit e 0 = true /\ Z.testbit e 1 = (kind =? 2) /\
  out_of p n e = o /\ PGT_DESC_ATTRIBUTES e = a.
Proof.
  intros Hk Hp Hr Ho Hal Ha e. assert (Hr0 : 12 <= p + Z.of_nat n * (p - 3)) by nia.
  assert (He : e = Z.lor (Z.lor (Z.lor kind 1) o) a) by (by apply leaf_desc_eq). clearbody e.
  set (r := p + Z.of_nat n * (p - 3)) in *.
  assert (Hobit : forall i, 0 <= i -> Z.testbit o i = Z.testbit o i && ((r <=? i) && (i <? 48)))
    by (intros; apply address_bit; (done || lia)).
  assert (Habit : forall i, 0 <= i -> Z.testbit a i = Z.testbit a i && (((2 <=? i) && (i <? 12)) || ((52 <=? i) && (i <? 64))))
    by (intros; by apply attr_ok_bit).
  assert (Hlow : forall i, 0 <= i < 2 -> Z.testbit e i = Z.testbit (Z.lor kind 1) i).
  { intros i Hi. rewrite He, (Z.lor_spec _ a i), (Z.lor_spec _ o i), (Hobit i), (Habit i) by lia. zcases; try lia.
    cbn. by rewrite !andb_false_r, !orb_false_r. }
  assert (Hhigh : forall i, 2 <= i -> Z.testbit e i = Z.testbit o i || Z.testbit a i).
  { intros i Hi. rewrite He, (Z.lor_spec _ a i), (Z.lor_spec _ o i), low_kind_bit by (done || lia). done. }
  split; [|split; [|split; [|split]]].
  - split.
    + rewrite He, !Z.lor_nonneg. destruct Ha as [? _]. lia.
    + apply below_bits; [lia| |].
      { rewrite He, !Z.lor_nonneg. destruct Ha as [? _]. lia. }
      intros i Hi. rewrite Hhigh, (Hobit i), (Habit i) by lia. zcases; try lia;
        cbn; by rewrite ?andb_false_r.
  - rewrite Hlow by lia. by destruct Hk; subst.
  - rewrite Hlow by lia. by destruct Hk; subst.
  - unfold out_of. fold r. apply Z.bits_inj'. intros i Hi. rewrite Z.land_spec, amask_bit by lia.
    destruct (Z.leb_spec r i); cbn [andb].
    + rewrite Hhigh, (Habit i), (Hobit i) by lia. zcases; try lia; cbn;
        by rewrite ?andb_true_r, ?andb_false_r, ?orb_false_r.
    + rewrite andb_false_r, (Hobit i) by lia. zcases; try lia; cbn; by rewrite andb_false_r.
  - unfold PGT_DESC_ATTRIBUTES. apply Z.bits_inj'. intros i Hi. rewrite Z.land_spec, attr_mask_bit by lia.
    destruct (Z.lt_ge_cases i 2).
    + rewrite (Habit i) by lia. zcases; try lia; cbn; by rewrite !andb_false_r.
    + rewrite Hhigh, (Habit i), (Hobit i) by lia. zcases; try lia; cbn;
        by rewrite ?andb_true_r, ?andb_false_r, ?orb_false_r.
Qed.

(** A table descriptor: the aligned address with the two low bits set. *)
Lemma table_desc_eq p base :
  12 <= p <= 48 -> 0 <= base < 2 ^ 48 -> base mod 2 ^ p = 0 ->
  Z.lor (Z.lor PGT_ENTRY_TABLE_MASK PGT_ENTRY_VALID_MASK) (Z.land base (u64 (Z.lnot (2 ^ p - 1)))) = base + 3.
Proof.
  intros Hp Hb Ha. rewrite <- ones_pow2, land_lnot_ones, Ha, Z.sub_0_r by (unfold is_uint; lia).
  apply Z.div_exact in Ha; [|lia].
  rewrite Ha at 1. rewrite Z.mul_comm, <- Z.shiftl_mul_pow2 by lia.
  change (Z.lor PGT_ENTRY_TABLE_MASK PGT_ENTRY_VALID_MASK) with 3.
  assert (2 ^ 12 <= 2 ^ p) by (apply Z.pow_le_mono_r; lia).
  rewrite lor_shiftl by (simpl in *; lia). lia.
Qed.

Lemma table_desc_facts p base :
  12 <= p <= 48 -> 0 <= base < 2 ^ 48 -> base mod 2 ^ p = 0 ->
  is_uint 64 (base + 3) /\ Z.testbit (base + 3) 0 = true /\ Z.testbit (base + 3) 1 = true /\
  out_of p 0 (base + 3) = base /\ Z.land (base + 3) 2 <> 0.
Proof.
  intros Hp Hb Ha. pose proof (table_desc_eq p base Hp Hb Ha) as He.
  rewrite <- ones_pow2, land_lnot_ones, Ha, Z.sub_0_r in He by (unfold is_uint; lia).
  change (Z.lor PGT_ENTRY_TABLE_MASK PGT_ENTRY_VALID_MASK) with 3 in He.
  assert (Hbit : forall i, 0 <= i -> Z.testbit (base + 3) i = Z.testbit 3 i || Z.testbit base i)
    by (intros; by rewrite <- He, Z.lor_spec).
  assert (Hb1 : Z.testbit (base + 3) 1 = true) by (by rewrite Hbit).
  split; [unfold is_uint; lia|]. split; [by rewrite Hbit|]. split; [done|]. split.
  - unfold out_of. replace (p + Z.of_nat 0 * (p - 3)) with p by lia. apply Z.bits_inj'. intros i Hi.
    rewrite Z.land_spec, amask_bit, Hbit, (address_bit p base i) by (done || lia).
    destruct (Z.leb_spec p i); cbn [andb].
    + rewrite (testbit_small 2 3 i) by lia. cbn. destruct (i <? 48); by rewrite ?andb_true_r, ?andb_false_r.
    + by rewrite !andb_false_r.
  - intros Hz. apply (f_equal (fun z => Z.testbit z 1)) in Hz. rewrite Z.land_spec, Hb1 in Hz. done.
Qed.

(** ** Reading and writing entries *)

Definition table_ok (p base : Z) : Prop := base mod 2 ^ p = 0 /\ 0 < base < 2 ^ 48.
Definition zero_table (p : Z) (m : mem) (base : Z) : Prop :=
  forall j, 0 <= j < 2 ^ (p - 3) -> rd_desc m base j = 0.

Lemma rd_wr_desc p m T T' i j v :
  12 <= p -> table_ok p T -> table_ok p T' -> 0 <= i < 2 ^ (p - 3) -> 0 <= j < 2 ^ (p - 3) ->
  rd_desc (wr_desc m T i v) T' j = if decide (T = T' /\ i = j) then u64 v else rd_desc m T' j.
Proof.
  intros Hp [HT _] [HT' _] Hi Hj. unfold rd_desc, wr_desc.
  assert (HP : 2 ^ p = 8 * 2 ^ (p - 3)) by (rewrite <- (Z.pow_add_r 2 3) by lia; f_equal; lia).
  case_decide as Hd.
  - destruct Hd as [<- <-]. apply (ldn_stn_same 8).
  - apply ldn_stn_out. rewrite HP in *. set (K := 2 ^ (p - 3)) in *.
    apply Z.div_exact in HT; [|lia]. apply Z.div_exact in HT'; [|lia].
    destruct (Z.lt_trichotomy (T / (8 * K)) (T' / (8 * K))) as [Hlt|[Heq|Hgt]]; simpl Z.of_nat.
    + right. nia.
    + assert (T = T') by congruence. subst T'. assert (i <> j) by naive_solver. lia.
    + left. nia.
Qed.

(** ** Tables still free *)

Fixpoint unused (bases used : list Z) : list Z :=
  match bases, used with
  | b :: bases', u :: used' => if u =? 0 then b :: unused bases' used' else unused bases' used'
  | _, _ => []
  end.

Lemma unused_incl bases used b : b ∈ unused bases used -> b ∈ bases.
Proof.
  revert used; induction bases as [|b' bases IH]; intros [|u used] Hb; cbn in *;
    try by apply not_elem_of_nil in Hb.
  destruct (u =? 0); [apply elem_of_cons in Hb as [->|Hb]|]; [by left| |]; right; by eapply IH.
Qed.

Lemma first_unused_none bases used : first_unused bases used = None -> unused bases used = [].
Proof.
  revert used; induction bases as [|b bases IH]; intros [|u used] Hn; cbn in *; try done.
  destruct (u =? 0); [done|]. destruct (first_unused bases used) as [[]|] eqn:E; [done|]. by apply IH.
Qed.

Lemma first_unused_some bases used b used' :
  NoDup bases -> first_unused bases used = Some (b, used') ->
  b ∈ unused bases used /\ ~ (b ∈ unused bases used') /\
  (forall y, y ∈ unused bases used' -> y ∈ unused bases used).
Proof.
  revert used b used'; induction bases as [|b0 bases IH]; intros [|u used] b used' Hnd Hs; cbn in Hs; try done.
  apply list.NoDup_cons in Hnd as [Hb0 Hnd].
  destruct (Z.eqb_spec u 0) as [->|Hu].
  - injection Hs as <- <-. cbn. split; [by left|]. split; [|by right].
    intros Hin%unused_incl. done.
  - destruct (first_unused bases used) as [[x used1]|] eqn:E; [|done]. injection Hs as <- <-.
    destruct (IH _ _ _ Hnd E) as (H1 & H2 & H3). cbn. rewrite (proj2 (Z.eqb_neq u 0) Hu). done.
Qed.

(** ** The invariant *)
Section Proofs.
Context `{ValCommon}.
Context (l1b : Z) (l2s l3s : list Z) (p root : Z) (n0 : nat).

(** What the build fixes: a granule, the height of the root table it leads to, and
    page-aligned, distinct tables. *)
Record layout_ok : Prop := {
  lay_p : 12 <= p <= 16;
  lay_n0 : (1 <= n0 <= 4)%nat;
  lay_R : R p (n0 - 1) <= 2 ^ 39;
  lay_tables : Forall (table_ok p) (root :: l1b :: l2s ++ l3s);
  lay_distinct : NoDup (root :: l1b :: l2s ++ l3s)
}.
Context (Hlay : layout_ok).

Definition entry_ok (own : gmap Z (nat * Z)) (n : nat) (v j e : Z) : Prop :=
  e = 0 \/ (Z.testbit e 0 = true /\ Z.testbit e 1 = false) \/
  exists T', e = T' + 3 /\ own !! T' = Some (n, v + j * R p n).

Definition free_tables (s : tt_state) : list Z := unused l2s (tt_l2_used s) ++ unused l3s (tt_l3_used s).
Definition exhausted (s : tt_state) : Prop :=
  unused l2s (tt_l2_used s) = [] \/ unused l3s (tt_l3_used s) = [].

Record inv (own : gmap Z (nat * Z)) (s : tt_state) : Prop := {
  i_tab : forall T n v, own !! T = Some (n, v) ->
    table_ok p T /\ (1 <= n <= n0)%nat /\ 0 <= v /\ v mod R p n = 0;
  i_root : own !! root = Some (n0, 0);
  i_top : forall T v, own !! T = Some (n0, v) -> T = root;
  i_entry : forall T n v j, own !! T = Some (S n, v) -> (1 <= n)%nat -> 0 <= j < 2 ^ (p - 3) ->
    entry_ok own n v j (rd_desc (tt_mem s) T j);
  i_l1 : n0 = 4%nat -> (own !! l1b = None /\ zero_table p (tt_mem s) l1b) \/
                       (own !! l1b = Some (3%nat, 0) /\ rd_desc (tt_mem s) root 0 = l1b + 3);
  i_free : forall T, T ∈ free_tables s -> own !! T = None /\ zero_table p (tt_mem s) T
}.

Definition cfg (s : tt_state) : Prop := bits_per_level s = p - 3 /\ pgt_addr_mask s = amask p.

Lemma lay_table T : T ∈ root :: l1b :: l2s ++ l3s -> table_ok p T.
Proof. pose proof (lay_tables Hlay) as Hall. rewrite List.Forall_forall in Hall. intros. by apply Hall, list_elem_of_In. Qed.

Lemma free_ok s T : T ∈ free_tables s -> table_ok p T /\ T <> l1b /\ T <> root.
Proof.
  intros HT. assert (Hin : T ∈ l2s ++ l3s).
  { apply elem_of_app in HT as [HT|HT]; apply unused_incl in HT; apply elem_of_app; auto. }
  split; [apply lay_table; by do 2 right|].
  pose proof (lay_distinct Hlay) as Hnd. apply list.NoDup_cons in Hnd as [Hr Hnd]. apply list.NoDup_cons in Hnd as [Hl _].
  split; intros ->; [done|]. apply Hr. by right.
Qed.

(** Reads through the tables determine the invariant. *)
Lemma inv_ext own s s' :
  inv own s -> tt_l2_used s' = tt_l2_used s -> tt_l3_used s' = tt_l3_used s ->
  (forall T j, table_ok p T -> 0 <= j < 2 ^ (p - 3) -> rd_desc (tt_mem s') T j = rd_desc (tt_mem s) T j) ->
  inv own s'.
Proof.
  intros Hi H2 H3 Hrd. split.
  - apply (i_tab _ _ Hi).
  - apply (i_root _ _ Hi).
  - apply (i_top _ _ Hi).
  - intros T n v j HT Hn Hj. rewrite Hrd; [by apply (i_entry _ _ Hi)| |done]. by apply (i_tab _ _ Hi) in HT as [? _].
  - intros Hn. assert (0 < 2 ^ (p - 3)) by (apply Z.pow_pos_nonneg; pose proof (lay_p Hlay); lia).
    destruct (i_l1 _ _ Hi Hn) as [[Hl Hz]|[Hl Hr]]; [left|right]; (split; [done|]).
    + intros j Hj. rewrite Hrd; [by apply Hz| |done]. apply lay_table. by right; left.
    + rewrite Hrd; [done| |lia]. apply lay_table. by left.
  - intros T HT. assert (HT' : T ∈ free_tables s) by (unfold free_tables in *; by rewrite H2, H3 in HT).
    destruct (i_free _ _ Hi T HT') as [Ho Hz]. split; [done|]. intros j Hj.
    rewrite Hrd; [by apply Hz| |done]. by apply (free_ok _ _ HT').
Qed.

Abbreviation word_count := (2 ^ (p - 3)).
Abbreviation entry_of s T j := (rd_desc (tt_mem s) T j).

Lemma own_index own s T n v x :
  inv own s -> own !! T = Some (S n, v) -> v <= x < v + R p (S n) ->
  let j := entry_index p n x in
  0 <= j < word_count /\ v + j * R p n <= x < v + j * R p n + R p n /\ x / R p n = v / R p n + j.
Proof.
  intros Hi HT Hx. destruct (i_tab _ _ Hi _ _ _ HT) as (_ & _ & _ & Hv).
  apply entry_range; [apply Hlay | done | done].
Qed.

(** A walk only reads the tables that serve the range of the table it starts in. *)
Lemma walk_ext own s m' n T v x :
  inv own s -> own !! T = Some (n, v) -> v <= x < v + R p n ->
  (forall T' k w j, own !! T' = Some (k, w) -> (k <= n)%nat -> v <= w < v + R p n ->
     0 <= j < word_count -> rd_desc m' T' j = entry_of s T' j) ->
  walk p n m' T x = walk p n (tt_mem s) T x.
Proof.
  intros Hi. revert T v. induction n as [|n IH]; intros T v HT Hx Hrd; [done|]. cbn [walk].
  destruct (own_index _ _ _ _ _ _ Hi HT Hx) as (Hj & Hxj & _).
  pose proof (R_pos p n (proj1 (lay_p Hlay))) as HR.
  assert (HRn : R p n <= R p (S n)) by (apply R_mono; [apply Hlay | lia]).
  rewrite (Hrd T (S n) v) by (done || lia).
  destruct (Z.testbit (entry_of s T _) 0) eqn:E0; [|done]. cbn [negb].
  destruct n as [|n1]; [done|].
  destruct (Z.testbit (entry_of s T _) 1) eqn:E1; [|done].
  destruct (i_entry _ _ Hi _ _ _ _ HT ltac:(lia) Hj) as [Hz|[[_ Hb]|(T' & He & HT')]];
    [by rewrite Hz in E0 | congruence|].
  destruct (i_tab _ _ Hi _ _ _ HT') as ([Hal Hr] & _).
  destruct (table_desc_facts p T') as (_ & _ & _ & Ho & _); [pose proof (lay_p Hlay); lia | lia | done|].
  rewrite He, Ho. apply IH with (v + entry_index p (S n1) x * R p (S n1)); [done | lia|].
  intros T2 k w j HT2 Hk Hw Hj2. apply (Hrd T2 k w); (done || lia || idtac).
  assert (entry_index p (S n1) x * R p (S n1) + R p (S n1) <= R p (S (S n1)))
    by (rewrite (R_S p (S n1)) by apply Hlay; nia).
  nia.
Qed.

(** ** Writing a leaf *)

Lemma inv_leaf own s T n v i e :
  inv own s -> own !! T = Some (n, v) -> 0 <= i < word_count -> is_uint 64 e ->
  n <> 4%nat -> (n = 1%nat \/ (Z.testbit e 0 = true /\ Z.testbit e 1 = false)) ->
  inv own (set_tt_mem (wr_desc (tt_mem s) T i e) s).
Proof.
  intros Hi HT Hx He Hn4 Hleaf. destruct (i_tab _ _ Hi _ _ _ HT) as (HTok & Hn & _).
  pose proof (proj1 (lay_p Hlay)) as Hp.
  assert (Hrd : forall T' j, table_ok p T' -> 0 <= j < word_count ->
            rd_desc (wr_desc (tt_mem s) T i e) T' j = if decide (T = T' /\ i = j) then e else entry_of s T' j).
  { intros T' j HT' Hj. rewrite (rd_wr_desc p) by done. case_decide; [by apply uwrap_small | done]. }
  split; cbn [tt_mem set_tt_mem].
  - apply (i_tab _ _ Hi).
  - apply (i_root _ _ Hi).
  - apply (i_top _ _ Hi).
  - intros T' k w j HT' Hk Hj. rewrite Hrd by (done || apply (i_tab _ _ Hi _ _ _ HT')). case_decide as Hd.
    + destruct Hd as [<- <-]. rewrite HT in HT'. injection HT' as -> ->.
      destruct Hleaf as [?|Hb]; [lia|]. right; left. done.
    + by apply (i_entry _ _ Hi).
  - intros Hn0. destruct (i_l1 _ _ Hi Hn0) as [[Hl Hz]|[Hl Hr]]; [left|right]; (split; [done|]).
    + intros j Hj. rewrite Hrd; [|apply lay_table; by right; left|done].
      rewrite decide_False by (intros [-> _]; congruence). by apply Hz.
    + rewrite Hrd; [|apply lay_table; by left | split; [lia | apply Z.pow_pos_nonneg; lia]].
      rewrite decide_False; [done|]. intros [-> _]. rewrite (i_root _ _ Hi) in HT. injection HT as <- _. lia.
  - intros T' HT'. change (free_tables _) with (free_tables s) in HT'.
    destruct (i_free _ _ Hi T' HT') as [Ho Hz]. split; [done|]. intros j Hj.
    rewrite Hrd; [|by apply (free_ok _ _ HT')|done]. rewrite decide_False by (intros [-> _]; congruence).
    by apply Hz.
Qed.

(** ** Linking a table *)

(** [T2] is fresh: taken from the free tables by [next_table]. *)
Record fresh (own : gmap Z (nat * Z)) (s s2 : tt_state) (n : nat) (T2 : Z) : Prop := {
  f_own : own !! T2 = None;
  f_zero : zero_table p (tt_mem s) T2;
  f_ok : table_ok p T2;
  f_mem : tt_mem s2 = tt_mem s;
  f_cfg : cfg s -> cfg s2;
  f_free : forall T, T ∈ free_tables s2 -> T ∈ free_tables s /\ T <> T2;
  f_l1 : T2 = l1b <-> n = 4%nat
}.

Lemma next_table_fresh own s T n v s2 T2 :
  inv own s -> own !! T = Some (S n, v) -> (1 <= n)%nat ->
  entry_of s root 0 <> l1b + 3 \/ S n <> 4%nat ->
  next_table l1b l2s l3s (4 - Z.of_nat (S n)) s = Some (T2, s2) -> fresh own s s2 (S n) T2.
Proof.
  intros Hi HT Hn Hroot Hs. destruct (i_tab _ _ Hi _ _ _ HT) as (_ & Hn0 & _).
  pose proof (lay_n0 Hlay). unfold next_table in Hs.
  pose proof (lay_distinct Hlay) as Hnd. apply list.NoDup_cons in Hnd as [_ Hnd].
  apply list.NoDup_cons in Hnd as [_ Hnd]. apply list.NoDup_app in Hnd as (Hnd2 & Hdis & Hnd3).
  destruct (Z.eqb_spec (4 - Z.of_nat (S n)) 1) as [E1|E1]; [|destruct (Z.eqb_spec (4 - Z.of_nat (S n)) 2) as [E2|E2]].
  - destruct (first_unused l2s (tt_l2_used s)) as [[b used]|] eqn:E; [|done]. injection Hs as <- <-.
    destruct (first_unused_some _ _ _ _ Hnd2 E) as (Hin & Hout & Hsub).
    assert (HT2 : b ∈ free_tables s) by (apply elem_of_app; by left).
    destruct (i_free _ _ Hi _ HT2) as [Ho Hz]. destruct (free_ok _ _ HT2) as (Hok & Hnl & _).
    split; try done; [|split; [done | lia]].
    intros T' HT'. split.
    + apply elem_of_app in HT' as [HT'|HT']; apply elem_of_app; [left; by apply Hsub | by right].
    + intros ->. apply elem_of_app in HT' as [HT'|HT']; cbn in HT'; [done|].
      apply (Hdis b); by eapply unused_incl.
  - destruct (first_unused l3s (tt_l3_used s)) as [[b used]|] eqn:E; [|done]. injection Hs as <- <-.
    destruct (first_unused_some _ _ _ _ Hnd3 E) as (Hin & Hout & Hsub).
    assert (HT2 : b ∈ free_tables s) by (apply elem_of_app; by right).
    destruct (i_free _ _ Hi _ HT2) as [Ho Hz]. destruct (free_ok _ _ HT2) as (Hok & Hnl & _).
    split; try done; [|split; [done | lia]].
    intros T' HT'. split.
    + apply elem_of_app in HT' as [HT'|HT']; apply elem_of_app; [by left | right; by apply Hsub].
    + intros ->. apply elem_of_app in HT' as [HT'|HT']; cbn in HT'; [|done].
      apply (Hdis b); by eapply unused_incl.
  - injection Hs as <- <-. assert (n = 3)%nat as -> by lia. assert (n0 = 4)%nat as Hn4 by lia.
    destruct (i_l1 _ _ Hi Hn4) as [[Hl Hz]|[Hl Hr]]; [|destruct Hroot; [congruence | lia]].
    split; try done; [apply lay_table; by right; left|].
    intros T' HT'. split; [done|]. by apply (free_ok _ _ HT').
Qed.

Lemma inv_link own s s2 T n v i T2 :
  inv own s -> own !! T = Some (S n, v) -> (1 <= n)%nat -> 0 <= i < word_count ->
  (S n = 4%nat -> i = 0) -> fresh own s s2 (S n) T2 ->
  inv (<[T2 := (n, v + i * R p n)]> own) (set_tt_mem (wr_desc (tt_mem s2) T i (T2 + 3)) s2).
Proof.
  intros Hi HT Hn Hx Hi0 [Ho Hz Hok Hm _ Hf Hl1]. destruct (i_tab _ _ Hi _ _ _ HT) as (HTok & Hnn & Hv0 & Hv).
  pose proof (lay_p Hlay) as [Hp Hp']. assert (HTne : T2 <> T) by congruence.
  assert (HK : 0 < word_count) by (apply Z.pow_pos_nonneg; lia).
  destruct (table_desc_facts p T2) as (Hu & _); [lia | destruct Hok; lia | apply Hok |].
  assert (Hrd : forall T' j, table_ok p T' -> 0 <= j < word_count ->
            rd_desc (wr_desc (tt_mem s2) T i (T2 + 3)) T' j = if decide (T = T' /\ i = j) then T2 + 3 else entry_of s T' j).
  { intros T' j HT' Hj. rewrite (rd_wr_desc p), Hm by done. case_decide; [by apply uwrap_small | done]. }
  assert (Hroot2 : T2 <> root) by (intros ->; rewrite (i_root _ _ Hi) in Ho; done).
  pose proof (R_pos p n Hp) as HR.
  split; cbn [tt_mem set_tt_mem].
  - intros T' k w HT'. destruct (decide (T' = T2)) as [->|Hne].
    + rewrite lookup_insert_eq in HT'. injection HT' as <- <-. split; [done|]. split; [lia|].
      split; [nia|]. rewrite Z.mod_add by lia. rewrite R_S in Hv by done.
      apply Z.div_exact in Hv; [|lia]. rewrite Hv. apply Z.mod_divide; [lia|].
      exists (word_count * (v / (R p n * word_count))). lia.
    + rewrite lookup_insert_ne in HT' by done. by apply (i_tab _ _ Hi).
  - rewrite lookup_insert_ne by done. apply (i_root _ _ Hi).
  - intros T' w HT'. destruct (decide (T' = T2)) as [->|Hne].
    + rewrite lookup_insert_eq in HT'. injection HT' as -> _. lia.
    + rewrite lookup_insert_ne in HT' by done. by apply (i_top _ _ Hi) in HT'.
  - intros T' k w j HT' Hk Hj.
    assert (Hmon : forall e, entry_ok own k w j e -> entry_ok (<[T2:=(n, v + i * R p n)]> own) k w j e).
    { intros e [?|[?|(T3 & He & HT3)]]; [by left | by right; left | right; right].
      exists T3. split; [done|]. rewrite lookup_insert_ne; [done|]. congruence. }
    destruct (decide (T' = T2)) as [->|Hne].
    + rewrite Hrd by done. rewrite decide_False by (intros [-> _]; done). left. by apply Hz.
    + rewrite lookup_insert_ne in HT' by done. rewrite Hrd by (done || apply (i_tab _ _ Hi _ _ _ HT')).
      case_decide as Hd; [|by apply Hmon, (i_entry _ _ Hi)].
      destruct Hd as [<- <-]. rewrite HT in HT'. injection HT' as <- <-. right; right. exists T2.
      split; [done|]. by rewrite lookup_insert_eq.
  - intros Hn4. destruct (decide (S n = 4)%nat) as [E4|E4].
    + right. assert (T2 = l1b) as -> by (by apply Hl1). assert (n = 3)%nat as -> by lia. rewrite (Hi0 E4) in *.
      assert (T = root) as -> by (apply (i_top _ _ Hi) with v; by rewrite Hn4).
      rewrite (i_root _ _ Hi) in HT. injection HT as _ <-.
      rewrite lookup_insert_eq. split; [do 2 f_equal; lia|]. rewrite Hrd by (done || lia). by rewrite decide_True.
    + assert (Hlne : l1b <> T2) by (intros ->; by apply E4, Hl1).
      assert (Hl1ok : table_ok p l1b) by (apply lay_table; by right; left).
      rewrite lookup_insert_ne by congruence.
      destruct (i_l1 _ _ Hi Hn4) as [[Hl Hz1]|[Hl Hr]]; [left|right]; (split; [done|]).
      * intros j Hj. rewrite Hrd by done. rewrite decide_False by (intros [-> _]; congruence). by apply Hz1.
      * rewrite Hrd; [|apply lay_table; by left|lia]. rewrite decide_False; [done|]. intros [-> _].
        rewrite (i_root _ _ Hi) in HT. injection HT as HT _. lia.
  - intros T' HT'. destruct (Hf T' HT') as [HT'' Hne]. destruct (i_free _ _ Hi _ HT'') as [Ho' Hz'].
    rewrite lookup_insert_ne by congruence. split; [done|]. intros j Hj.
    rewrite Hrd; [|by apply (free_ok _ _ HT'')|done]. rewrite decide_False by (intros [-> _]; congruence).
    by apply Hz'.
Qed.

(** ** One round of the loop *)

Definition chunk_end (n : nat) (ia it : Z) : Z :=
  let bt := ia - ia mod R p n + R p n - 1 in if it <? bt then it else bt.

Lemma page_dvd_R n x : x mod R p n = 0 -> x mod 2 ^ p = 0.
Proof.
  intros Hx. pose proof (proj1 (lay_p Hlay)) as Hp. destruct (R_mult p n Hp) as (q & Hq & Hq0).
  assert (0 < 2 ^ p) by (apply Z.pow_pos_nonneg; lia).
  apply Z.div_exact in Hx; [|rewrite Hq; nia]. rewrite Hx, Hq. apply Z.mod_divide; [lia|].
  exists (q * (x / (2 ^ p * q))). lia.
Qed.

Lemma page_big : 4096 <= 2 ^ p.
Proof. change 4096 with (2 ^ 12). apply Z.pow_le_mono_r; [lia | apply Hlay]. Qed.

Lemma page_le_R n : 2 ^ p <= R p n.
Proof. rewrite <- (R_0 p). apply R_mono; [apply Hlay | lia]. Qed.

Lemma chunk_end_spec n ia it :
  0 <= ia < it -> ia mod 2 ^ p = 0 ->
  let c := chunk_end n ia it in
  ia < c <= it /\ c / R p n = ia / R p n /\ (c = it \/ (c < it /\ (c + 1) mod R p n = 0)).
Proof.
  intros Hr Ha c. subst c. unfold chunk_end. pose proof (R_pos p n (proj1 (lay_p Hlay))) as HR.
  pose proof (Z.div_mod ia (R p n) ltac:(lia)) as Hd. pose proof (Z.mod_pos_bound ia (R p n) HR) as Hm.
  pose proof page_big.
  assert (Hroom : ia mod R p n + 2 ^ p <= R p n).
  { destruct (R_mult p n (proj1 (lay_p Hlay))) as (q & Hq & Hq0). rewrite Hq in *.
    rewrite Z.rem_mul_r in * by lia. rewrite Ha in *. pose proof (Z.mod_pos_bound (ia / 2 ^ p) q Hq0). nia. }
  assert (Hq : forall y, ia <= y <= ia - ia mod R p n + R p n - 1 -> y / R p n = ia / R p n).
  { intros y Hy. symmetry. apply Z.div_unique with (y - R p n * (ia / R p n)); lia. }
  destruct (Z.ltb_spec it (ia - ia mod R p n + R p n - 1)) as [Hlt|Hge].
  - split; [lia|]. split; [apply Hq; lia | by left].
  - split; [lia|]. split; [apply Hq; lia|].
    destruct (decide (it = ia - ia mod R p n + R p n - 1)) as [|]; [by left|]. right. split; [lia|].
    apply Z.mod_divide; [lia|]. exists (ia / R p n + 1). lia.
Qed.

Section Fill.
Context (A : Z) (HA : attr_ok A).

Abbreviation fill := (fill_translation_table l1b l2s l3s (2 ^ p)).
Abbreviation floop := (fill_loop l1b l2s l3s (2 ^ p)).

Record desc_ok (d : tt_descriptor) (T : Z) (n : nat) (v it : Z) : Prop := {
  d_base : tt_base d = T;
  d_level : level d = 3 - Z.of_nat n;
  d_size : size_log2 d = p + Z.of_nat n * (p - 3);
  d_nbits : 0 < nbits d <= p - 3;
  d_top : input_top d = it;
  d_idx : forall x, v <= x <= it -> (x / R p n) mod 2 ^ nbits d = entry_index p n x
}.

Lemma R_le_39 own s T n v : inv own s -> own !! T = Some (S n, v) -> 2 ^ p <= R p n <= 2 ^ 39.
Proof.
  intros Hi HT. destruct (i_tab _ _ Hi _ _ _ HT) as (_ & Hn & _). split; [apply page_le_R|].
  etransitivity; [|apply (lay_R Hlay)]. apply R_mono; [apply Hlay | lia].
Qed.

Lemma size_le_39 n : R p n <= 2 ^ 39 -> p + Z.of_nat n * (p - 3) <= 39.
Proof. unfold R. intros Hle%Z.pow_le_mono_r_iff; pose proof (lay_p Hlay); (done || nia). Qed.

Lemma fill_loop_step rec d T n v it fuel ia oa s :
  desc_ok d T n v it -> cfg s -> R p n <= 2 ^ 39 ->
  0 <= v <= ia -> ia < it < 2 ^ 48 -> 0 <= oa -> oa + (it - ia) < 2 ^ 48 -> ia mod 2 ^ p = 0 ->
  let i := entry_index p n ia in
  let c := chunk_end n ia it in
  let next := floop rec d A fuel (c + 1) (oa + (c - ia + 1)) in
  floop rec d A (S fuel) ia oa s =
    if Nat.eqb n 0 then
      next (set_tt_mem (wr_desc (tt_mem s) T i (leaf_desc PGT_ENTRY_PAGE_MASK oa (R p 0) A)) s)
    else if (ia mod R p n =? 0) && (oa mod R p n =? 0) && (ia + R p n - 1 <=? it) then
      next (set_tt_mem (wr_desc (tt_mem s) T i (leaf_desc PGT_ENTRY_BLOCK_MASK oa (R p n) A)) s)
    else
      match (if (entry_of s T i =? 0) || IS_PGT_ENTRY_BLOCK (entry_of s T i)
             then next_table l1b l2s l3s (3 - Z.of_nat n) s else Some (out_of p 0 (entry_of s T i), s)) with
      | None => Ret (VAL_ERROR, s)
      | Some (base, s2) =>
          let s3 := set_tt_mem (wr_desc (tt_mem s2) T i
                       (Z.lor (Z.lor PGT_ENTRY_TABLE_MASK PGT_ENTRY_VALID_MASK)
                              (Z.land base (u64 (Z.lnot (2 ^ p - 1)))))) s2 in
          let! (r, s4) := rec (TtDesc base ia c oa (u32 (3 - Z.of_nat n + 1))
                                (u32 (p + Z.of_nat n * (p - 3) - bits_per_level s3)) (bits_per_level s3)) s3 in
          if negb (r =? 0) then Ret (VAL_ERROR, s4) else next s4
      end.
Proof.
  intros Hd [Hbits Hmask] HR39 Hv Hia Hoa Hoa' Ha i c next. destruct (chunk_end_spec n ia it ltac:(lia) Ha) as (Hc & Hcq & _).
  fold c in Hc, Hcq. cbn [fill_loop].
  rewrite (d_top _ _ _ _ _ Hd), (d_size _ _ _ _ _ Hd), (d_level _ _ _ _ _ Hd), (d_base _ _ _ _ _ Hd), Hbits, Hmask.
  pose proof (size_le_39 n HR39) as Hs39. pose proof (lay_p Hlay) as Hp. pose proof (R_pos p n (proj1 Hp)) as HRp.
  set (sz := p + Z.of_nat n * (p - 3)) in *. assert (Hsz : 0 <= sz) by nia.
  assert (Hsh : Z.shiftl 1 sz = R p n) by (by rewrite Z.shiftl_mul_pow2, Z.mul_1_l by done).
  assert (Hmod : forall x, is_uint 64 x -> Z.land x (u64 (Z.lnot (R p n - 1))) = x - x mod R p n).
  { intros x Hx. change (R p n) with (2 ^ sz). rewrite <- ones_pow2. apply land_lnot_ones; [lia | done]. }
  assert (Hlow : forall x, Z.land x (R p n - 1) = x mod R p n).
  { intros x. change (R p n) with (2 ^ sz). rewrite <- ones_pow2. by apply Z.land_ones. }
  rewrite !Hsh, !Hlow, Hmod by (unfold is_uint; lia).
  rewrite (proj2 (Z.ltb_lt ia it)) by lia. pose proof (Z.mod_pos_bound ia (R p n) HRp) as Hm.
  assert (R p n <= 2 ^ 39) by done.
  rewrite (proj2 (Z.ltb_ge (2 ^ 64 - 1 - (R p n - 1)) _)) by lia.
  rewrite (uwrap_small 64 (ia - ia mod R p n + R p n - 1)) by lia.
  change (if it <? ia - ia mod R p n + R p n - 1 then it else ia - ia mod R p n + R p n - 1) with c.
  assert (Hidx : Z.land (Z.shiftr ia sz) (Z.shiftl 1 (nbits d) - 1) = i).
  { destruct (d_nbits _ _ _ _ _ Hd) as [Hnb _].
    rewrite (Z.shiftl_mul_pow2 1), Z.mul_1_l, <- ones_pow2, Z.land_ones, Z.shiftr_div_pow2 by lia.
    apply (d_idx _ _ _ _ _ Hd). lia. }
  rewrite Hidx. rewrite (Z.shiftl_mul_pow2 1 (p - 3)), Z.mul_1_l by lia.
  assert (Hi : 0 <= i < word_count) by (apply Z.mod_pos_bound, Z.pow_pos_nonneg; lia).
  rewrite (proj2 (Z.leb_gt word_count i)) by lia.
  rewrite (uwrap_small 64 (c - ia + 1)), (uwrap_small 64 (ia + (c - ia + 1))), (uwrap_small 64 (oa + (c - ia + 1))) by lia.
  replace (ia + (c - ia + 1)) with (c + 1) by lia. fold next.
  rewrite (uwrap_small 64 (ia + R p n - 1)) by lia.
  destruct n as [|n1].
  - rewrite Z.sub_0_r, R_0. done.
  - rewrite (proj2 (Z.eqb_neq (3 - Z.of_nat (S n1)) 3)) by lia. cbn [Nat.eqb].
    destruct (_ && _); [done|]. unfold out_of at 1. replace (p + Z.of_nat 0 * (p - 3)) with p by lia. done.
Qed.

(** What filling [ia, it] in table [T] achieves. *)
Record post (own : gmap Z (nat * Z)) (s : tt_state) (n : nat) (T v ia it oa r : Z)
    (own' : gmap Z (nat * Z)) (s' : tt_state) : Prop := {
  po_own : forall T' x, own !! T' = Some x -> own' !! T' = Some x;
  po_inv : inv own' s';
  po_cfg : cfg s';
  po_frame : forall T' k w j, own !! T' = Some (k, w) ->
    ~ ((k <= S n)%nat /\ v <= w < v + R p (S n)) -> 0 <= j < word_count -> entry_of s' T' j = entry_of s T' j;
  po_map : r = 0 -> forall x, covered p ia it x -> walk p (S n) (tt_mem s') T x = Some (oa + (x - ia), A);
  po_else : r = 0 -> forall x, v <= x < v + R p (S n) -> x / R p n < ia / R p n \/ it / R p n < x / R p n ->
    walk p (S n) (tt_mem s') T x = walk p (S n) (tt_mem s) T x;
  po_keep : r = 0 -> (forall y, covered p ia it y -> walk p (S n) (tt_mem s) T y = None) ->
    forall x, v <= x < v + R p (S n) -> ~ covered p ia it x ->
    walk p (S n) (tt_mem s') T x = walk p (S n) (tt_mem s) T x;
  po_err : r <> 0 -> r = VAL_ERROR /\ exhausted s'
}.

Lemma covered_below ia c x : (c + 1) mod 2 ^ p = 0 -> covered p ia c x -> x <= c.
Proof.
  intros Hc [_ Hx]. destruct (decide (x <= c)) as [|Hgt]; [done|].
  pose proof (aligned_floor p x (c + 1) ltac:(pose proof (lay_p Hlay); lia) Hc ltac:(lia)). lia.
Qed.

Lemma covered_range k v ia it x :
  v mod R p k = 0 -> v <= ia -> it < v + R p k -> covered p ia it x -> v <= x < v + R p k.
Proof.
  intros Hv Hia Hit [H1 H2]. split; [lia|]. destruct (decide (x < v + R p k)) as [|Hge]; [done|].
  assert (Hm : (v + R p k) mod 2 ^ p = 0).
  { apply page_dvd_R with k. rewrite <- Zplus_mod_idemp_l, Hv, Z.add_0_l. apply Z.mod_same.
    pose proof (R_pos p k (proj1 (lay_p Hlay))). lia. }
  pose proof (aligned_floor p x _ ltac:(pose proof (lay_p Hlay); lia) Hm ltac:(lia)). lia.
Qed.

(** Two ranges one after the other, cut at a boundary of the table's entries. *)
Lemma post_seq own s n T v ia c it oa own1 s1 r own2 s2 :
  v mod R p (S n) = 0 -> 0 <= v <= ia -> ia <= c < it -> it < v + R p (S n) -> (c + 1) mod R p n = 0 ->
  post own s n T v ia c oa 0 own1 s1 ->
  post own1 s1 n T v (c + 1) it (oa + (c + 1 - ia)) r own2 s2 ->
  post own s n T v ia it oa r own2 s2.
Proof.
  intros Hvm Hv Hc Hit Ha H1 H2. pose proof (R_pos p n (proj1 (lay_p Hlay))) as HR.
  assert (HaP : (c + 1) mod 2 ^ p = 0) by (by apply page_dvd_R with n).
  assert (Hsplit : forall x, covered p ia it x <-> covered p ia c x \/ covered p (c + 1) it x)
    by (intros; apply covered_split; [apply Hlay | lia | done]).
  assert (Hdiv : forall x, x <= c -> x / R p n < (c + 1) / R p n).
  { intros x Hx. apply Z.div_lt_upper_bound; [done|]. apply Z.div_exact in Ha; lia. }
  assert (Hcit : c / R p n <= it / R p n) by (apply Z.div_le_mono; lia).
  assert (Hiac : ia / R p n <= (c + 1) / R p n) by (apply Z.div_le_mono; lia).
  split.
  - intros. by apply (po_own _ _ _ _ _ _ _ _ _ _ _ H2), (po_own _ _ _ _ _ _ _ _ _ _ _ H1).
  - apply H2.
  - apply H2.
  - intros T' k w j HT' Hn Hj. rewrite (po_frame _ _ _ _ _ _ _ _ _ _ _ H2 T' k w); [|by apply H1|done|done].
    by apply (po_frame _ _ _ _ _ _ _ _ _ _ _ H1 T' k w).
  - intros -> x [Hx|Hx]%Hsplit.
    + pose proof (covered_below _ _ _ HaP Hx) as Hxc. rewrite (po_else _ _ _ _ _ _ _ _ _ _ _ H2); [|done| |].
      * by apply H1.
      * destruct Hx. lia.
      * left. by apply Hdiv.
    + rewrite (po_map _ _ _ _ _ _ _ _ _ _ _ H2) by done. do 2 f_equal. lia.
  - intros -> x Hx Hout. rewrite (po_else _ _ _ _ _ _ _ _ _ _ _ H2); [|done|done|lia].
    apply H1; [done | done | lia].
  - intros -> Hun x Hx Hout.
    assert (Hk1 : forall y, v <= y < v + R p (S n) -> ~ covered p ia c y ->
              walk p (S n) (tt_mem s1) T y = walk p (S n) (tt_mem s) T y).
    { intros y Hy Hny. apply (po_keep _ _ _ _ _ _ _ _ _ _ _ H1); [done| |done|done].
      intros z Hz. apply Hun, Hsplit. by left. }
    rewrite (po_keep _ _ _ _ _ _ _ _ _ _ _ H2); [| done | |done|].
    + apply Hk1; [done|]. intros Hc1. apply Hout, Hsplit. by left.
    + intros y Hy. rewrite Hk1.
      * apply Hun, Hsplit. by right.
      * apply (covered_range (S n) v (c + 1) it); (done || lia).
      * intros Hc1. pose proof (covered_below _ _ _ HaP Hc1). destruct Hy. lia.
    + intros Hc1. apply Hout, Hsplit. by right.
  - apply H2.
Qed.

Lemma covered_block n ia c x :
  0 <= ia -> ia mod R p n = 0 -> ia < c -> c / R p n = ia / R p n -> n = 0%nat \/ c = ia + R p n - 1 ->
  covered p ia c x <-> x / R p n = ia / R p n.
Proof.
  intros Hia Ha Hc Hq Hn. pose proof (R_pos p n (proj1 (lay_p Hlay))) as HR. pose proof page_big.
  assert (HaP : ia mod 2 ^ p = 0) by (by apply page_dvd_R with n).
  pose proof (Z.div_mod ia (R p n) ltac:(lia)). pose proof (Z.div_mod x (R p n) ltac:(lia)).
  pose proof (Z.div_mod c (R p n) ltac:(lia)).
  pose proof (Z.mod_pos_bound x (R p n) HR). pose proof (Z.mod_pos_bound c (R p n) HR).
  split.
  - intros Hx. symmetry. apply Z.div_unique with (x - R p n * (ia / R p n)); [|lia]. destruct Hx as [Hx1 Hx2].
    left. split; [lia|]. destruct (decide (x < ia + R p n)) as [|Hge]; [lia|].
    assert (Hm : (ia + R p n) mod 2 ^ p = 0).
    { apply page_dvd_R with n. rewrite <- Zplus_mod_idemp_l, Ha, Z.add_0_l. apply Z.mod_same. lia. }
    pose proof (aligned_floor p x _ ltac:(pose proof (lay_p Hlay); lia) Hm ltac:(lia)). nia.
  - intros Hx. rewrite Hx in *. split; [lia|]. destruct Hn as [->| ->].
    + rewrite R_0 in *. lia.
    + pose proof (Z.mod_pos_bound x (2 ^ p)). destruct (Z.eq_dec (x - x mod 2 ^ p) (ia + R p n - 1)) as [Heq|]; [|lia].
      assert (Hmx : (x - x mod 2 ^ p) mod 2 ^ p = 0) by (rewrite Zminus_mod_idemp_r, Z.sub_diag; apply Z.mod_0_l; lia).
      rewrite Heq in Hmx. assert (Hm : (ia + R p n) mod 2 ^ p = 0).
      { apply page_dvd_R with n. rewrite <- Zplus_mod_idemp_l, Ha, Z.add_0_l. apply Z.mod_same. lia. }
      replace (ia + R p n) with ((ia + R p n - 1) + 1) in Hm by lia.
      rewrite <- Zplus_mod_idemp_l, Hmx, Z.mod_small in Hm by lia. lia.
Qed.

Lemma walk_leaf n m T x kind oa :
  kind = PGT_ENTRY_PAGE_MASK /\ n = 0%nat \/ kind = PGT_ENTRY_BLOCK_MASK /\ n <> 0%nat ->
  R p n <= 2 ^ 39 -> 0 <= oa < 2 ^ 48 -> oa mod R p n = 0 ->
  rd_desc m T (entry_index p n x) = leaf_desc kind oa (R p n) A ->
  walk p (S n) m T x = Some (oa + x mod R p n, A).
Proof.
  intros Hk HR Ho Ha He. pose proof (size_le_39 n HR). cbn [walk]. rewrite He.
  destruct (leaf_desc_facts kind oa p n A) as (_ & E0 & E1 & Eo & Ea);
    [destruct Hk as [[-> _]|[-> _]]; auto | apply Hlay | lia | done | done | done|].
  rewrite E0, E1, Eo, Ea. cbn [negb]. destruct Hk as [[-> ->]|[-> Hn]]; [done | by destruct n].
Qed.

(** Entries other than the one that changed. *)
Lemma walk_other own s m' n T v i x :
  inv own s -> own !! T = Some (S n, v) -> v <= x < v + R p (S n) -> entry_index p n x <> i ->
  (forall j, 0 <= j < word_count -> j <> i -> rd_desc m' T j = entry_of s T j) ->
  (forall T' k w j, own !! T' = Some (k, w) -> (k <= n)%nat -> ~ (v + i * R p n <= w < v + i * R p n + R p n) ->
     0 <= j < word_count -> rd_desc m' T' j = entry_of s T' j) ->
  walk p (S n) m' T x = walk p (S n) (tt_mem s) T x.
Proof.
  intros Hi HT Hxv Hne HrT Hrd. destruct (own_index _ _ _ _ _ x Hi HT Hxv) as (Hj & Hxj & _). cbn [walk].
  rewrite HrT by done. pose proof (lay_p Hlay) as Hp. pose proof (R_pos p n (proj1 Hp)).
  destruct (negb _) eqn:E0'; [done|]. apply negb_false_iff in E0'. destruct n as [|n1]; [done|].
  destruct (Z.testbit (entry_of s T _) 1) eqn:E1'; [|done].
  destruct (i_entry _ _ Hi _ _ _ _ HT ltac:(lia) Hj) as [Hz|[[_ Hb]|(T' & He' & HT')]];
    [by rewrite Hz in E0' | congruence|].
  destruct (i_tab _ _ Hi _ _ _ HT') as ([Hal Hr'] & _).
  destruct (table_desc_facts p T') as (_ & _ & _ & Ho' & _); [lia | lia | done|]. rewrite He', Ho'.
  apply (walk_ext own s _ _ _ _ _ Hi HT'); [done|]. intros T2 k w j HT2 Hkn Hw Hj2.
  apply (Hrd T2 k w); (done || lia || idtac). intros Hwi. apply Hne.
  set (a := entry_index p (S n1) x) in *. clearbody a. nia.
Qed.

Lemma post_leaf own s n T v ia c oa kind :
  inv own s -> cfg s -> own !! T = Some (S n, v) -> n <> 3%nat ->
  kind = PGT_ENTRY_PAGE_MASK /\ n = 0%nat \/ kind = PGT_ENTRY_BLOCK_MASK /\ n <> 0%nat ->
  v <= ia -> ia < c < v + R p (S n) -> c / R p n = ia / R p n -> n = 0%nat \/ c = ia + R p n - 1 ->
  ia mod R p n = 0 -> oa mod R p n = 0 -> 0 <= oa < 2 ^ 48 ->
  post own s n T v ia c oa 0 own
    (set_tt_mem (wr_desc (tt_mem s) T (entry_index p n ia) (leaf_desc kind oa (R p n) A)) s).
Proof.
  intros Hi Hcfg HT Hn3 Hk Hv Hc Hcq Hcn Ha Hoa Ho.
  pose proof (R_le_39 _ _ _ _ _ Hi HT) as [_ HR39]. pose proof (size_le_39 n HR39) as Hsz.
  destruct (i_tab _ _ Hi _ _ _ HT) as (HTok & Hnn & Hv0 & Hvm). pose proof (lay_p Hlay) as Hp.
  destruct (leaf_desc_facts kind oa p n A) as (Hu & E0 & E1 & _);
    [destruct Hk as [[-> _]|[-> _]]; auto | lia | lia | done | done | done|].
  set (e := leaf_desc kind oa (R p n) A) in *.
  destruct (own_index _ _ _ _ _ ia Hi HT ltac:(lia)) as (Hx & Hxr & Hxq).
  set (i := entry_index p n ia) in *.
  assert (Hcov : forall x, covered p ia c x <-> x / R p n = ia / R p n) by (intros; apply covered_block; (done || lia)).
  assert (Hrd : forall T' j, table_ok p T' -> 0 <= j < word_count ->
            rd_desc (wr_desc (tt_mem s) T i e) T' j = if decide (T = T' /\ i = j) then e else entry_of s T' j).
  { intros T' j HT' Hj. rewrite (rd_wr_desc p) by (done || lia). case_decide; [by apply uwrap_small | done]. }
  assert (Helse : forall x, v <= x < v + R p (S n) -> x / R p n <> ia / R p n ->
            walk p (S n) (wr_desc (tt_mem s) T i e) T x = walk p (S n) (tt_mem s) T x).
  { intros x Hxv Hne. destruct (own_index _ _ _ _ _ x Hi HT Hxv) as (_ & _ & Hjq).
    apply walk_other with own v i; try done.
    - intros Heq. lia.
    - intros j Hj Hji. rewrite Hrd by done. by rewrite decide_False by (intros [_ Heq]; by apply Hji).
    - intros T2 k w j HT2 Hkn _ Hj2. rewrite Hrd by (done || apply (i_tab _ _ Hi _ _ _ HT2)).
      rewrite decide_False; [done|]. intros [<- _]. rewrite HT in HT2. injection HT2 as <- _. lia. }
  split; cbn [tt_mem set_tt_mem].
  - done.
  - apply inv_leaf with (S n) v; try done; [congruence|].
    destruct Hk as [[_ ->]|[-> _]]; [by left | right; by rewrite E0, E1].
  - done.
  - intros T' k w j HT' Hout Hj. rewrite Hrd by (done || apply (i_tab _ _ Hi _ _ _ HT')).
    rewrite decide_False; [done|]. intros [<- _]. rewrite HT in HT'. injection HT' as <- <-. apply Hout. lia.
  - intros _ x Hxc%Hcov. rewrite (walk_leaf n _ _ _ kind oa) by (done ||
      (replace (entry_index p n x) with i by (unfold entry_index, i; by rewrite Hxc); rewrite Hrd by done;
       by rewrite decide_True)).
    do 2 f_equal. pose proof (Z.div_mod x (R p n)). pose proof (Z.div_mod ia (R p n)).
    pose proof (R_pos p n (proj1 Hp)). rewrite Hxc in *. lia.
  - intros _ x Hxv Hout. apply Helse; [done|]. rewrite Hcq in Hout. lia.
  - intros _ _ x Hxv Hnc. apply Helse; [done|]. by rewrite <- Hcov.
  - done.
Qed.

(** A walk through the linked entry continues in the linked table. *)
Lemma walk_through m T T2 n x :
  table_ok p T2 -> rd_desc m T (entry_index p (S n) x) = T2 + 3 ->
  walk p (S (S n)) m T x = walk p (S n) m T2 x.
Proof.
  intros [Ha Hr] He. pose proof (lay_p Hlay).
  destruct (table_desc_facts p T2) as (_ & E0 & E1 & Eo & _); [lia | lia | done|].
  change (walk p (S (S n)) m T x) with
    (let e := rd_desc m T (entry_index p (S n) x) in
     if negb (Z.testbit e 0) then None
     else if Z.testbit e 1 then walk p (S n) m (out_of p 0 e) x
          else Some (out_of p (S n) e + x mod R p (S n), PGT_DESC_ATTRIBUTES e)).
  cbv zeta. by rewrite He, E0, E1, Eo.
Qed.

Lemma walk_empty m T n x : zero_table p m T -> walk p (S n) m T x = None.
Proof.
  intros Hz. cbn [walk]. rewrite Hz; [done|]. apply Z.mod_pos_bound, Z.pow_pos_nonneg; pose proof (lay_p Hlay); lia.
Qed.

(** What linking [T2] under entry [i] of [T] leaves. *)
Record linked (own : gmap Z (nat * Z)) (s : tt_state) (n : nat) (T v i T2 : Z)
    (own1 : gmap Z (nat * Z)) (s1 : tt_state) : Prop := {
  li_own : forall T' x, own !! T' = Some x -> own1 !! T' = Some x;
  li_inv : inv own1 s1;
  li_T2 : own1 !! T2 = Some (S n, v + i * R p (S n));
  li_entry : entry_of s1 T i = T2 + 3;
  li_same : forall T' j, table_ok p T' -> 0 <= j < word_count -> ~ (T' = T /\ j = i) -> entry_of s1 T' j = entry_of s T' j;
  li_old : entry_of s T i = T2 + 3 /\ own !! T2 = Some (S n, v + i * R p (S n)) \/
           (entry_of s T i = 0 \/ (Z.testbit (entry_of s T i) 0 = true /\ Z.testbit (entry_of s T i) 1 = false))
           /\ zero_table p (tt_mem s1) T2
}.

Lemma post_table own s n T v ia c oa r T2 own1 s1 own2 s2 :
  inv own s -> own !! T = Some (S (S n), v) ->
  v <= ia -> ia < c < v + R p (S (S n)) -> ia mod 2 ^ p = 0 -> c / R p (S n) = ia / R p (S n) ->
  linked own s n T v (entry_index p (S n) ia) T2 own1 s1 ->
  post own1 s1 n T2 (v + entry_index p (S n) ia * R p (S n)) ia c oa r own2 s2 ->
  post own s (S n) T v ia c oa r own2 s2.
Proof.
  intros Hi HT Hv Hc HaP Hcq [L1 L2 L3 L4 L5 L6] Hpost.
  destruct (own_index _ _ _ _ _ ia Hi HT ltac:(lia)) as (Hx & Hxr & Hxq).
  set (i := entry_index p (S n) ia) in *. set (v2 := v + i * R p (S n)) in *.
  pose proof (lay_p Hlay) as Hp. pose proof (R_pos p (S n) (proj1 Hp)) as HR.
  destruct (i_tab _ _ Hi _ _ _ HT) as (HTok & Hnn & Hv0 & Hvm).
  destruct (i_tab _ _ L2 _ _ _ L3) as (HT2ok & Hn2 & Hv20 & Hv2m).
  assert (Hcr : c < v2 + R p (S n)).
  { apply Z.div_exact in Hv2m; [|lia].
    assert (ia / R p (S n) = v2 / R p (S n)) as Eq
      by (symmetry; apply Z.div_unique with (ia - v2); lia).
    pose proof (Z.div_mod c (R p (S n)) ltac:(lia)). pose proof (Z.mod_pos_bound c (R p (S n)) HR).
    rewrite Hcq, Eq in *. lia. }
  assert (Hsub : R p (S (S n)) = R p (S n) * word_count) by (apply R_S; lia).
  assert (Hframe : forall T' k w j, own !! T' = Some (k, w) -> ~ ((k <= S n)%nat /\ v2 <= w < v2 + R p (S n)) ->
            0 <= j < word_count -> ~ (T' = T /\ j = i) -> entry_of s2 T' j = entry_of s T' j).
  { intros T' k w j HT' Hout Hj Hne. rewrite (po_frame _ _ _ _ _ _ _ _ _ _ _ Hpost T' k w) by (auto).
    apply L5; [|done|done]. by apply (i_tab _ _ Hi _ _ _ HT'). }
  assert (Hlink : entry_of s2 T i = T2 + 3).
  { rewrite (po_frame _ _ _ _ _ _ _ _ _ _ _ Hpost T (S (S n)) v); [done | by apply L1 | lia | done]. }
  assert (Hin : forall x, covered p ia c x -> v2 <= x < v2 + R p (S n) /\ entry_index p (S n) x = i).
  { intros x Hcov. pose proof (covered_range (S n) v2 ia c x Hv2m ltac:(lia) Hcr Hcov) as Hxr2. split; [done|].
    destruct (own_index _ _ _ _ _ x Hi HT ltac:(nia)) as (Hj & Hjr & _). set (j := entry_index p (S n) x) in *.
    clearbody j. nia. }
  assert (Hthru : forall x, entry_index p (S n) x = i -> walk p (S (S n)) (tt_mem s2) T x = walk p (S n) (tt_mem s2) T2 x).
  { intros x Hxi. apply walk_through; [done|]. by rewrite Hxi. }
  assert (Hother : forall x, v <= x < v + R p (S (S n)) -> entry_index p (S n) x <> i ->
            walk p (S (S n)) (tt_mem s2) T x = walk p (S (S n)) (tt_mem s) T x).
  { intros x Hxv Hne. apply walk_other with own v i; try done.
    - intros j Hj Hji. apply (Hframe T (S (S n)) v); [done | lia | done | naive_solver].
    - intros T' k w j HT' Hk Hw Hj. apply (Hframe T' k w); [done | tauto | done|].
      intros [-> _]. rewrite HT in HT'. injection HT' as HT' _. lia. }
  split.
  - intros. by apply (po_own _ _ _ _ _ _ _ _ _ _ _ Hpost), L1.
  - apply Hpost.
  - apply Hpost.
  - intros T' k w j HT' Hout Hj. apply (Hframe T' k w); [done | | done|].
    + intros [Hk Hw]. apply Hout. split; [lia|]. nia.
    + intros [-> _]. rewrite HT in HT'. injection HT' as <- <-. apply Hout. lia.
  - intros Hr x Hcov. destruct (Hin x Hcov) as [_ Hxi]. rewrite Hthru by done. by apply Hpost.
  - intros _ x Hxv Hout. apply Hother; [done|]. intros Hxi.
    destruct (own_index _ _ _ _ _ x Hi HT Hxv) as (_ & _ & Hjq). rewrite Hxi, Hcq in *. lia.
  - intros Hr Hun x Hxv Hnc. destruct (decide (entry_index p (S n) x = i)) as [Hxi|Hxi]; [|by apply Hother].
    assert (Hxv2 : v2 <= x < v2 + R p (S n)).
    { destruct (own_index _ _ _ _ _ x Hi HT Hxv) as (_ & Hjr & _). rewrite Hxi in Hjr. done. }
    rewrite Hthru by done. destruct L6 as [[Hold HownT2]|[Hold Hz]].
    + assert (Hold2 : forall y, v2 <= y < v2 + R p (S n) -> entry_index p (S n) y = i ->
                walk p (S n) (tt_mem s1) T2 y = walk p (S (S n)) (tt_mem s) T y).
      { intros y Hy Hyi. rewrite (walk_through (tt_mem s) T T2 n y HT2ok) by (by rewrite Hyi).
        apply (walk_ext own s _ _ _ _ _ Hi HownT2 Hy). intros T' k w j HT' Hk _ Hj.
        apply L5; [by apply (i_tab _ _ Hi _ _ _ HT') | done|].
        intros [-> _]. rewrite HT in HT'. injection HT' as HT' _. lia. }
      rewrite <- Hold2 by done. apply (po_keep _ _ _ _ _ _ _ _ _ _ _ Hpost); try done.
      intros y Hy. destruct (Hin y Hy) as [Hy1 Hy2]. rewrite Hold2 by done. by apply Hun.
    + rewrite (po_keep _ _ _ _ _ _ _ _ _ _ _ Hpost); [|done| |done|done].
      2:{ intros y Hy. by apply walk_empty. }
      rewrite walk_empty by done. cbn [walk]. rewrite Hxi. destruct Hold as [->|[E0 E1]]; [done|].
      exfalso. specialize (Hun ia). cbn [walk] in Hun. fold i in Hun. rewrite E0, E1 in Hun.
      cbn in Hun. specialize (Hun (covered_first p ia c HaP ltac:(lia))). done.
  - apply Hpost.
Qed.

(** ** Linking, both ways *)

Lemma linked_existing own s n T v i T' :
  inv own s -> own !! T = Some (S (S n), v) -> 0 <= i < word_count ->
  entry_of s T i = T' + 3 -> own !! T' = Some (S n, v + i * R p (S n)) ->
  linked own s n T v i T' own (set_tt_mem (wr_desc (tt_mem s) T i (T' + 3)) s).
Proof.
  intros Hi HT Hx He HT'. pose proof (lay_p Hlay) as Hp.
  destruct (i_tab _ _ Hi _ _ _ HT) as (HTok & _). destruct (i_tab _ _ Hi _ _ _ HT') as ([Ha Hr] & _).
  destruct (table_desc_facts p T') as (Hu & _); [lia | lia | done|].
  assert (Hrd : forall T2 j, table_ok p T2 -> 0 <= j < word_count ->
            rd_desc (wr_desc (tt_mem s) T i (T' + 3)) T2 j = entry_of s T2 j).
  { intros T2 j HT2 Hj. rewrite (rd_wr_desc p) by (done || lia). case_decide as Hd; [|done].
    destruct Hd as [<- <-]. rewrite He. by apply uwrap_small. }
  split; cbn [tt_mem set_tt_mem].
  - done.
  - by apply inv_ext with s.
  - done.
  - by rewrite Hrd.
  - intros. by apply Hrd.
  - left. done.
Qed.

Lemma linked_fresh own s s2 n T v i T2 :
  inv own s -> own !! T = Some (S (S n), v) -> 0 <= i < word_count -> (S (S n) = 4%nat -> i = 0) ->
  entry_of s T i = 0 \/ (Z.testbit (entry_of s T i) 0 = true /\ Z.testbit (entry_of s T i) 1 = false) ->
  fresh own s s2 (S (S n)) T2 ->
  linked own s n T v i T2 (<[T2 := (S n, v + i * R p (S n))]> own)
    (set_tt_mem (wr_desc (tt_mem s2) T i (T2 + 3)) s2).
Proof.
  intros Hi HT Hx Hi0 Hold Hf. pose proof (lay_p Hlay) as Hp.
  destruct (i_tab _ _ Hi _ _ _ HT) as (HTok & _). destruct (f_ok _ _ _ _ _ Hf) as [Ha Hr].
  destruct (table_desc_facts p T2) as (Hu & _); [lia | lia | done|].
  assert (HTne : T <> T2) by (intros ->; by rewrite (f_own _ _ _ _ _ Hf) in HT).
  assert (Hrd : forall T' j, table_ok p T' -> 0 <= j < word_count ->
            rd_desc (wr_desc (tt_mem s2) T i (T2 + 3)) T' j = if decide (T = T' /\ i = j) then T2 + 3 else entry_of s T' j).
  { intros T' j HT' Hj. rewrite (rd_wr_desc p), (f_mem _ _ _ _ _ Hf) by (done || lia).
    case_decide; [by apply uwrap_small | done]. }
  split; cbn [tt_mem set_tt_mem].
  - intros T' x HT'. rewrite lookup_insert_ne; [done|]. intros <-. by rewrite (f_own _ _ _ _ _ Hf) in HT'.
  - apply inv_link with s; (done || lia).
  - by rewrite lookup_insert_eq.
  - rewrite Hrd by done. by rewrite decide_True.
  - intros T' j HT' Hj Hne. rewrite Hrd by done. rewrite decide_False; [done|]. intros [-> ->]. by apply Hne.
  - right. split; [done|]. intros j Hj. rewrite Hrd by (done || apply Hf).
    rewrite decide_False by (intros [? _]; congruence). by apply Hf.
Qed.

Lemma post_error own s n T v ia c oa :
  inv own s -> cfg s -> exhausted s -> post own s n T v ia c oa VAL_ERROR own s.
Proof. intros Hi Hc He. split; try done. Qed.

Lemma post_empty own s n T v ia it oa :
  inv own s -> cfg s -> ia mod 2 ^ p = 0 -> it <= ia -> post own s n T v ia it oa 0 own s.
Proof.
  intros Hi Hc Ha Hle. split; try done. intros _ x Hx.
  by destruct (covered_empty p ia it x ltac:(pose proof (lay_p Hlay); lia) Ha Hle).
Qed.

Lemma next_table_none n s : next_table l1b l2s l3s n s = None -> exhausted s.
Proof.
  unfold next_table, exhausted. destruct (n =? 1); [|destruct (n =? 2); [|done]].
  - destruct (first_unused l2s _) as [[]|] eqn:E; [done|]. left. by apply first_unused_none.
  - destruct (first_unused l3s _) as [[]|] eqn:E; [done|]. right. by apply first_unused_none.
Qed.

Lemma is_block_bit e : IS_PGT_ENTRY_BLOCK e = negb (Z.testbit e 1).
Proof.
  unfold IS_PGT_ENTRY_BLOCK. change 2 with (2 ^ 1). destruct (Z.eqb_spec (Z.land e (2 ^ 1)) 0) as [E|E].
  - apply (f_equal (fun z => Z.testbit z 1)) in E. rewrite Z.land_spec, Z.bits_0 in E.
    change (Z.testbit (2 ^ 1) 1) with true in E. rewrite andb_true_r in E. by rewrite E.
  - destruct (Z.testbit e 1) eqn:Eb; [done|]. exfalso. apply E. apply Z.bits_inj'. intros i Hi.
    rewrite Z.land_spec, Z.bits_0, Z.pow2_bits_eqb by lia.
    destruct (Z.eqb_spec 1 i) as [<-|]; [by rewrite Eb | by rewrite andb_false_r].
Qed.

(** What the call for the level below must do. *)
Definition rec_spec (n : nat) (rec : tt_descriptor -> tt_state -> outcome (Z * tt_state)) : Prop :=
  forall own s T v ia it oa,
    inv own s -> cfg s -> own !! T = Some (S n, v) ->
    v <= ia -> ia < it < v + R p (S n) -> it < 2 ^ 48 -> 0 <= oa -> oa + (it - ia) < 2 ^ 48 ->
    ia mod 2 ^ p = 0 -> oa mod 2 ^ p = 0 ->
    exists r own' s',
      rec (TtDesc T ia it oa (3 - Z.of_nat n) (p + Z.of_nat n * (p - 3)) (p - 3)) s = Ret (r, s') /\
      post own s n T v ia it oa r own' s'.

Definition range_ok (n : nat) (v ia it oa : Z) : Prop :=
  v <= ia /\ ia < it < v + R p (S n) /\ it < 2 ^ 48 /\ 0 <= oa /\ oa + (it - ia) < 2 ^ 48 /\
  ia mod 2 ^ p = 0 /\ oa mod 2 ^ p = 0 /\ (n = 3%nat -> it < R p 3 - 1).

(** The entry below which a table has to be linked. *)
Lemma link_step own s n T v d it ia oa rec :
  inv own s -> cfg s -> own !! T = Some (S (S n), v) -> rec_spec n rec -> range_ok (S n) v ia it oa ->
  desc_ok d T (S n) v it ->
  let i := entry_index p (S n) ia in
  let c := chunk_end (S n) ia it in
  exists r own' s',
    match (if (entry_of s T i =? 0) || IS_PGT_ENTRY_BLOCK (entry_of s T i)
           then next_table l1b l2s l3s (3 - Z.of_nat (S n)) s else Some (out_of p 0 (entry_of s T i), s)) with
    | None => Ret (VAL_ERROR, s)
    | Some (base, s2) =>
        rec (TtDesc base ia c oa (u32 (3 - Z.of_nat (S n) + 1))
               (u32 (p + Z.of_nat (S n) * (p - 3) - bits_per_level s2)) (bits_per_level s2))
          (set_tt_mem (wr_desc (tt_mem s2) T i
               (Z.lor (Z.lor PGT_ENTRY_TABLE_MASK PGT_ENTRY_VALID_MASK)
                      (Z.land base (u64 (Z.lnot (2 ^ p - 1)))))) s2)
    end = Ret (r, s') /\ post own s (S n) T v ia c oa r own' s'.
Proof.
  intros Hi Hcfg HT Hrec (Hv & Hia & Hit & Hoa & Hoa' & HaP & HoP & Htop) Hd i c.
  destruct (i_tab _ _ Hi _ _ _ HT) as (HTok & Hnn & Hv0 & Hvm). pose proof (lay_p Hlay) as Hp.
  destruct (chunk_end_spec (S n) ia it ltac:(lia) HaP) as (Hc & Hcq & _). fold c in Hc, Hcq.
  destruct (own_index _ _ _ _ _ ia Hi HT ltac:(lia)) as (Hx & Hxr & Hxq). fold i in Hx, Hxr, Hxq.
  assert (Hsz : p + Z.of_nat (S n) * (p - 3) <= 39) by (apply size_le_39, (R_le_39 own s T (S n) v Hi HT)).
  assert (Hi0 : S (S n) = 4%nat -> i = 0).
  { intros E4. assert (n = 2)%nat as -> by lia. specialize (Htop eq_refl). subst i. unfold entry_index.
    rewrite Z.div_small by lia. by apply Z.mod_0_l; apply Z.pow_nonzero; lia. }
  (* the post-condition of the recursive call, once the table is linked *)
  assert (Hgo : forall T2 own1 s2, bits_per_level s2 = p - 3 -> linked own s n T v i T2 own1 s2 -> cfg s2 ->
            exists r own' s', rec (TtDesc T2 ia c oa (3 - Z.of_nat n) (p + Z.of_nat n * (p - 3)) (p - 3)) s2 = Ret (r, s') /\
              post own s (S n) T v ia c oa r own' s').
  { intros T2 own1 s2 _ Hl Hc2.
    destruct (i_tab _ _ (li_inv _ _ _ _ _ _ _ _ _ Hl) _ _ _ (li_T2 _ _ _ _ _ _ _ _ _ Hl)) as (_ & _ & _ & Hv2m).
    assert (Hcr : c < v + i * R p (S n) + R p (S n)).
    { pose proof (R_pos p (S n) (proj1 Hp)). apply Z.div_exact in Hv2m; [|lia].
      assert (ia / R p (S n) = (v + i * R p (S n)) / R p (S n)) as Eq
        by (symmetry; apply Z.div_unique with (ia - (v + i * R p (S n))); lia).
      pose proof (Z.div_mod c (R p (S n)) ltac:(lia)). pose proof (Z.mod_pos_bound c (R p (S n)) ltac:(lia)).
      rewrite Hcq, Eq in *. lia. }
    destruct (Hrec own1 s2 T2 (v + i * R p (S n)) ia c oa) as (r & own' & s' & E & Hpost);
      [exact (li_inv _ _ _ _ _ _ _ _ _ Hl) | done | exact (li_T2 _ _ _ _ _ _ _ _ _ Hl) | lia | lia | lia | done | lia | done | done |].
    exists r, own', s'. split; [done|]. by apply post_table with T2 own1 s2; try lia. }
  assert (Hargs : forall s2, cfg s2 -> u32 (3 - Z.of_nat (S n) + 1) = 3 - Z.of_nat n /\
            u32 (p + Z.of_nat (S n) * (p - 3) - bits_per_level s2) = p + Z.of_nat n * (p - 3)).
  { intros s2 [-> _]. pose proof (lay_n0 Hlay). split; [rewrite uwrap_small by lia; lia|]. rewrite uwrap_small by nia. nia. }
  destruct (Z.testbit (entry_of s T i) 1) eqn:Eb.
  - destruct (i_entry _ _ Hi _ _ _ _ HT ltac:(lia) Hx) as [Hz|[[_ Hb]|(T' & He & HT')]];
      [by rewrite Hz in Eb | congruence|].
    destruct (i_tab _ _ Hi _ _ _ HT') as ([Ha' Hr'] & _).
    destruct (table_desc_facts p T') as (_ & _ & _ & Ho & _); [lia | lia | done|].
    rewrite is_block_bit, Eb. cbn [negb]. rewrite (proj2 (Z.eqb_neq _ 0)) by (rewrite He; lia). cbn [orb].
    rewrite He, Ho. destruct (Hargs s Hcfg) as [-> ->]. rewrite table_desc_eq by (done || lia).
    rewrite (proj1 Hcfg). apply (Hgo T' own); [apply Hcfg | by apply linked_existing | done].
  - rewrite is_block_bit, Eb. cbn [negb]. rewrite orb_true_r.
    assert (Hold : entry_of s T i = 0 \/ (Z.testbit (entry_of s T i) 0 = true /\ Z.testbit (entry_of s T i) 1 = false)).
    { destruct (i_entry _ _ Hi _ _ _ _ HT ltac:(lia) Hx) as [Hz|[Hb|(T' & He & HT')]]; [by left | by right|].
      destruct (i_tab _ _ Hi _ _ _ HT') as ([Ha' Hr'] & _).
      destruct (table_desc_facts p T') as (_ & _ & E1 & _); [lia | lia | done|]. congruence. }
    replace (3 - Z.of_nat (S n)) with (4 - Z.of_nat (S (S n))) by lia.
    destruct (next_table _ _ _ _ s) as [[T2 s2]|] eqn:En.
    2:{ exists VAL_ERROR, own, s. split; [done|]. apply post_error; [done | done|]. by eapply next_table_none. }
    assert (Hf : fresh own s s2 (S (S n)) T2).
    { apply next_table_fresh with T v; try done; [lia|]. destruct (decide (S (S n) = 4%nat)) as [E4|]; [left|by right].
      assert (T = root) as -> by (apply (i_top _ _ Hi) with v; rewrite HT; do 2 f_equal; pose proof (lay_n0 Hlay); lia).
      rewrite (Hi0 E4) in Eb. intros He. rewrite He in Eb.
      destruct (table_desc_facts p l1b) as (_ & _ & E1 & _); [lia | | |congruence];
        destruct (lay_table l1b) as [? ?]; (lia || done || by right; left). }
    destruct (f_ok _ _ _ _ _ Hf) as [Ha' Hr']. pose proof (f_cfg _ _ _ _ _ Hf Hcfg) as Hcfg2.
    replace (4 - Z.of_nat (S (S n)) + 1) with (3 - Z.of_nat (S n) + 1) by lia.
    destruct (Hargs s2 Hcfg2) as [-> ->]. rewrite table_desc_eq by (done || lia).
    rewrite (proj1 Hcfg2). eapply (Hgo T2); [|apply linked_fresh; (done || idtac)|]; [apply Hcfg2 | apply Hcfg2].
Qed.

(** One round: the entry for [ia] is filled up to [chunk_end]. *)
Lemma fill_step own s n T v d it fuel ia oa rec :
  inv own s -> cfg s -> own !! T = Some (S n, v) -> range_ok n v ia it oa -> desc_ok d T n v it ->
  (forall n1, n = S n1 -> rec_spec n1 rec) ->
  let c := chunk_end n ia it in
  exists r own' s',
    floop rec d A (S fuel) ia oa s =
      (if r =? 0 then floop rec d A fuel (c + 1) (oa + (c - ia + 1)) s' else Ret (VAL_ERROR, s')) /\
    post own s n T v ia c oa r own' s'.
Proof.
  intros Hi Hcfg HT Hr Hd Hrec c. pose proof Hr as (Hv & Hia & Hit & Hoa & Hoa' & HaP & HoP & Htop).
  destruct (i_tab _ _ Hi _ _ _ HT) as (HTok & Hnn & Hv0 & Hvm). pose proof (lay_p Hlay) as Hp.
  pose proof (R_le_39 own s T n v Hi HT) as [_ HR39]. pose proof (lay_n0 Hlay) as Hn4.
  destruct (chunk_end_spec n ia it ltac:(lia) HaP) as (Hc & Hcq & _). fold c in Hc, Hcq.
  rewrite (fill_loop_step rec d T n v it fuel ia oa s) by (done || lia). fold c.
  destruct n as [|n]; cbn [Nat.eqb].
  - exists 0, own. eexists. split; [done|].
    apply post_leaf; try done; try lia; try (rewrite R_0; done).
  - destruct (_ && _) eqn:Eblk.
    + apply andb_prop in Eblk as [[Ea Eo]%andb_prop El].
      apply Z.eqb_eq in Ea. apply Z.eqb_eq in Eo. apply Z.leb_le in El.
      assert (Ec : c = ia + R p (S n) - 1).
      { unfold c, chunk_end. rewrite Ea, Z.sub_0_r. rewrite (proj2 (Z.ltb_ge _ _)) by lia. done. }
      exists 0, own. eexists. split; [done|].
      apply post_leaf; try done; try lia.
      intros E3. specialize (Htop E3). injection E3 as ->. lia.
    + destruct (link_step own s n T v d it ia oa rec Hi Hcfg HT (Hrec n eq_refl) Hr Hd) as (r & own' & s' & E & Hpost).
      exists r, own', s'. split; [|done]. fold c in E.
      set (e := entry_of s T (entry_index p (S n) ia)) in *. cbv zeta.
      destruct (if (e =? 0) || IS_PGT_ENTRY_BLOCK e then next_table l1b l2s l3s (3 - Z.of_nat (S n)) s
                else Some (out_of p 0 e, s)) as [[base s2]|].
      * change (bits_per_level (set_tt_mem ?m s2)) with (bits_per_level s2). rewrite E. cbn [obind]. by destruct (r =? 0).
      * injection E as <- <-. done.
Qed.

Lemma fill_loop_spec n T v d it rec :
  desc_ok d T n v it -> (forall n1, n = S n1 -> rec_spec n1 rec) ->
  forall fuel own s ia oa,
    inv own s -> cfg s -> own !! T = Some (S n, v) -> range_ok n v ia it oa ->
    it / R p n - ia / R p n + 1 <= Z.of_nat fuel ->
    exists r own' s', floop rec d A fuel ia oa s = Ret (r, s') /\ post own s n T v ia it oa r own' s'.
Proof.
  intros Hd Hrec fuel. pose proof (R_pos p n (proj1 (lay_p Hlay))) as HR.
  induction fuel as [|fuel IH]; intros own s ia oa Hi Hcfg HT Hr Hf.
  { destruct Hr as (Hv & Hia & _). pose proof (Z.div_le_mono ia it (R p n) HR ltac:(lia)). lia. }
  destruct (i_tab _ _ Hi _ _ _ HT) as (HTok & Hnn & Hv0 & Hvm).
  pose proof Hr as (Hv & Hia & Hit & Hoa & Hoa' & HaP & HoP & Htop).
  destruct (chunk_end_spec n ia it ltac:(lia) HaP) as (Hc & Hcq & Hce).
  destruct (fill_step own s n T v d it fuel ia oa rec Hi Hcfg HT Hr Hd Hrec) as (r & own1 & s1 & E & Hpost).
  rewrite E. clear E. set (c := chunk_end n ia it) in *.
  destruct (Z.eqb_spec r 0) as [->|Hr0].
  2:{ exists r, own1, s1. destruct (po_err _ _ _ _ _ _ _ _ _ _ _ Hpost Hr0) as [-> Hex]. split; [done|].
      split; try apply Hpost; try done. }
  destruct Hce as [Hce|[Hclt Hca]].
  - exists 0, own1, s1. rewrite Hce in Hpost. split; [|done].
    assert (E : forall k x, floop rec d A k (it + 1) x s1 = Ret (VAL_SUCCESS, s1)).
    { intros k x. destruct k; cbn [fill_loop]; rewrite (d_top _ _ _ _ _ Hd), (proj2 (Z.ltb_ge _ _)) by lia; done. }
    rewrite Hce, E, VAL_SUCCESS_zero. done.
  - assert (HcaP : (c + 1) mod 2 ^ p = 0) by (by apply page_dvd_R with n).
    assert (Hq : (c + 1) / R p n = ia / R p n + 1).
    { apply Z.div_exact in Hca; [|lia]. rewrite <- Hcq.
      assert (c / R p n = (c + 1) / R p n - 1); [|lia]. symmetry. apply Z.div_unique with (R p n - 1); lia. }
    assert (Hlt1 : c + 1 < it \/ c + 1 = it) by lia. destruct Hlt1 as [Hlt1|Heq].
    + destruct (IH own1 s1 (c + 1) (oa + (c - ia + 1))) as (r & own2 & s2 & E & Hpost2).
      * apply Hpost.
      * apply Hpost.
      * by apply Hpost.
      * repeat split; try lia; try done.
        replace (oa + (c - ia + 1)) with (oa + (c + 1) - ia) by lia.
        rewrite Zminus_mod, Zplus_mod, HoP, HcaP, HaP. apply Z.mod_0_l. pose proof page_big. lia.
      * rewrite Hq. lia.
      * exists r, own2, s2. split; [done|]. apply post_seq with c own1 s1; try done; try lia.
        by replace (oa + (c + 1 - ia)) with (oa + (c - ia + 1)) by lia.
    + exists 0, own1, s1. split.
      * assert (E : forall k x, floop rec d A k (c + 1) x s1 = Ret (VAL_SUCCESS, s1)).
        { intros k x. destruct k; cbn [fill_loop]; rewrite (d_top _ _ _ _ _ Hd), (proj2 (Z.ltb_ge _ _)) by lia; done. }
        by rewrite E, VAL_SUCCESS_zero.
      * apply post_seq with c own1 s1; try done; try lia. apply post_empty; [apply Hpost | apply Hpost | done | lia].
Qed.

Lemma fill_spec depth n own s T v ia it oa nb :
  (S n <= depth)%nat ->
  inv own s -> cfg s -> own !! T = Some (S n, v) -> range_ok n v ia it oa ->
  desc_ok (TtDesc T ia it oa (3 - Z.of_nat n) (p + Z.of_nat n * (p - 3)) nb) T n v it ->
  exists r own' s',
    fill depth (TtDesc T ia it oa (3 - Z.of_nat n) (p + Z.of_nat n * (p - 3)) nb) A s = Ret (r, s') /\
    post own s n T v ia it oa r own' s'.
Proof.
  revert n own s T v ia it oa nb. induction depth as [|depth IH]; intros n own s T v ia it oa nb Hdep Hi Hcfg HT Hr Hd; [lia|].
  pose proof (lay_p Hlay) as Hp. pose proof (lay_n0 Hlay) as Hn0.
  destruct (i_tab _ _ Hi _ _ _ HT) as ([Ha Hbase] & Hnn & Hv0 & Hvm).
  pose proof (R_le_39 own s T n v Hi HT) as [_ HR39]. pose proof (size_le_39 n HR39) as Hs.
  pose proof (d_nbits _ _ _ _ _ Hd) as Hnb. cbn [nbits] in Hnb. destruct Hcfg as [Hbits Hmask].
  cbn [fill_translation_table tt_base size_log2 nbits input_base output_base].
  rewrite Hbits, (proj2 (Z.eqb_neq T 0)), (proj2 (Z.leb_gt 64 _)), (proj2 (Z.eqb_neq nb 0)),
    (proj2 (Z.leb_gt 64 nb)), (proj2 (Z.leb_gt 64 (p - 3))), (proj2 (Z.ltb_ge (p - 3) nb)) by lia.
  cbn [orb]. apply fill_loop_spec with (rec := fun d' => fill depth d' A); try done.
  - intros n1 -> own1 s1 T1 v1 ia1 it1 oa1 H1 H2 H3 H4 H5 H6 H7 H8 H9 H10.
    apply IH; try done; [lia| |].
    + repeat split; try done; try lia.
    + split; cbn [nbits]; try done. lia.
  - unfold fill_fuel. cbn [size_log2 input_top input_base].
    rewrite Z.shiftl_mul_pow2, Z.mul_1_l by lia. change (2 ^ (p + Z.of_nat n * (p - 3))) with (R p n). lia.
Qed.
End Fill.

(** ** val_pgt_create *)

Definition tables_ok (s : tt_state) : Prop := exists own, inv own s.

(** What the MMU makes of address [x] when TTBR0 holds the root table. *)
Definition translate (s : tt_state) (x : Z) : option (Z * Z) := walk p n0 (tt_mem s) root x.

(** The granules of the architecture and the height of the root table they give
    for 40-bit addresses. *)
Definition granule : Prop := (p = 12 \/ p = 14 \/ p = 16) /\ Z.of_nat n0 = 36 / (p - 3).
Context (Hgran : granule).

(** With 4K pages both entries of the level 0 table would lead to the one level 1
    table, so only the lower half of the address space is usable. *)
Definition va_limit : Z := if p =? 12 then 2 ^ 39 - 1 else 2 ^ 40.

(** The pages a region descriptor stands for: those whose first byte is not the
    region's last byte. *)
Definition region_covers (r : memory_region_descriptor) (x : Z) : Prop :=
  covered p (virtual_address r) (virtual_address r + length_ r - 1) x.

Definition region_ok (r : memory_region_descriptor) : Prop :=
  0 <= virtual_address r < va_limit /\ virtual_address r mod 2 ^ p = 0 /\
  0 <= physical_address r < 2 ^ 40 /\ physical_address r mod 2 ^ p = 0 /\
  0 <= length_ r /\ 0 < virtual_address r + length_ r <= va_limit /\ length_ r <= 2 ^ 40 /\
  attr_ok (attributes r).

Definition mapped_to (r : memory_region_descriptor) (x : Z) : Z * Z :=
  (physical_address r + (x - virtual_address r), Z.lor (attributes r) ATTR_STAGE1_AP_RW).

Abbreviation pgt40 := (PgtDesc PGT_IAS PAGT_OAS PGT_STAGE1 root).
Abbreviation pgt_create := (val_pgt_create l1b l2s l3s (2 ^ p) true pgt40).

Definition root_desc (r : memory_region_descriptor) : tt_descriptor :=
  let n := (n0 - 1)%nat in
  TtDesc root (virtual_address r) (virtual_address r + length_ r - 1) (physical_address r)
    (3 - Z.of_nat n) (p + Z.of_nat n * (p - 3)) (40 - (p + Z.of_nat n * (p - 3))).

Definition with_cfg (s : tt_state) : tt_state :=
  TtState (tt_mem s) (tt_l2_used s) (tt_l3_used s) (p - 3) (amask p).

Lemma pgt_create_eq r s :
  region_ok r ->
  pgt_create r s =
    let! (st, s') := fill_translation_table l1b l2s l3s (2 ^ p) 4 (root_desc r)
                       (Z.lor (attributes r) ATTR_STAGE1_AP_RW) (with_cfg s) in
    let r' := Region (virtual_address r) (physical_address r) (length_ r)
                (Z.lor (attributes r) ATTR_STAGE1_AP_RW) in
    if negb (st =? 0) then Ret (VAL_ERROR, r', s') else Ret (VAL_SUCCESS, r', s').
Proof.
  intros (Hva & Hvp & Hpa & Hpp & Hlen & Hlim & Hl40 & Ha). unfold val_pgt_create. cbn [negb].
  assert (Hlow : forall k x, 0 <= k -> Z.land x (2 ^ k - 1) = x mod 2 ^ k)
    by (intros; rewrite <- ones_pow2; by apply Z.land_ones).
  pose proof (proj1 (lay_p Hlay)). rewrite !Hlow, Hvp, Hpp by lia. cbn [Z.eqb negb orb].
  assert (Hva40 : virtual_address r < 2 ^ 40 /\ virtual_address r + length_ r <= 2 ^ 40)
    by (unfold va_limit in *; destruct (p =? 12); lia).
  change (Z.shiftl 1 (oas pgt40)) with (2 ^ 40). change (Z.shiftl 1 (ias pgt40)) with (2 ^ 40).
  rewrite !(proj2 (Z.leb_gt _ _)) by lia. cbn [stage ttbr ias].
  change (PGT_STAGE1 =? PGT_STAGE1) with true. cbn [orb].
  rewrite !Hlow by lia. rewrite (Z.mod_small (virtual_address r)), (Z.mod_small (physical_address r)) by lia. cbn [length_ attributes physical_address].
  rewrite (uwrap_small 64) by lia. unfold root_desc, with_cfg.
  destruct Hgran as [Hp Hn].
  destruct Hp as [Hp|[Hp|Hp]]; rewrite Hp in Hn |- *;
    [change (36 / (12 - 3)) with 4 in Hn; assert (n0 = 4)%nat as -> by lia
    |change (36 / (14 - 3)) with 3 in Hn; assert (n0 = 3)%nat as -> by lia
    |change (36 / (16 - 3)) with 2 in Hn; assert (n0 = 2)%nat as -> by lia]; reflexivity.
Qed.

Lemma root_range r :
  region_ok r ->
  let n := (n0 - 1)%nat in
  n0 = S n /\
  (1 < length_ r -> range_ok n 0 (virtual_address r) (virtual_address r + length_ r - 1) (physical_address r)) /\
  desc_ok (root_desc r) root n 0 (virtual_address r + length_ r - 1).
Proof.
  intros (Hva & Hvp & Hpa & Hpp & Hlen & Hlim & Hl40 & Ha) n. pose proof (lay_n0 Hlay).
  assert (Hn : n0 = S n) by lia. split; [done|].
  assert (Hva40 : virtual_address r < 2 ^ 40 /\ virtual_address r + length_ r <= 2 ^ 40)
    by (unfold va_limit in *; destruct (p =? 12); lia).
  destruct Hgran as [Hp Hnn]. unfold va_limit in Hlim.
  assert (Hcase : (p = 12 /\ n = 3%nat) \/ (p = 14 /\ n = 2%nat) \/ (p = 16 /\ n = 1%nat)).
  { destruct Hp as [Hp|[Hp|Hp]]; rewrite Hp in Hnn; [left | right; left | right; right]; (split; [done|]);
      [change (36 / (12 - 3)) with 4 in Hnn | change (36 / (14 - 3)) with 3 in Hnn | change (36 / (16 - 3)) with 2 in Hnn]; lia. }
  assert (Hr40 : 2 ^ 40 <= R p (S n)) by (by destruct Hcase as [[-> ->]|[[-> ->]|[-> ->]]]).
  split.
  - intros Hl1. repeat split; try done; try lia.
    intros E3. destruct Hcase as [[-> ->]|[[-> ->]|[-> ->]]]; try done. change (R 12 3) with (2 ^ 39). simpl in Hlim. lia.
  - unfold root_desc. fold n. split; try done; cbn [nbits].
    + destruct Hcase as [[-> ->]|[[-> ->]|[-> ->]]]; lia.
    + intros x Hx. unfold entry_index. assert (Hx40 : 0 <= x < 2 ^ 40) by lia.
      destruct Hcase as [[-> ->]|[[-> ->]|[-> ->]]];
        [change (R 12 3) with (2 ^ 39) | change (R 14 2) with (2 ^ 36) | change (R 16 1) with (2 ^ 29)];
        (rewrite !Z.mod_small; [done | split; [apply Z.div_pos; lia | apply Z.div_lt_upper_bound; simpl; lia] ..]).
Qed.

Lemma attr_ok_lor a b : attr_ok a -> attr_ok b -> attr_ok (Z.lor a b).
Proof.
  intros [Ha1 Ha2] [Hb1 Hb2]. split; [by apply Z.lor_nonneg|]. by rewrite Z.land_lor_distr_l, Ha2, Hb2.
Qed.

Lemma root_big : 2 ^ 40 <= R p n0.
Proof.
  destruct Hgran as [Hp Hnn].
  destruct Hp as [Hp|[Hp|Hp]]; rewrite Hp in Hnn |- *;
    [change (36 / (12 - 3)) with 4 in Hnn; replace n0 with 4%nat by lia
    |change (36 / (14 - 3)) with 3 in Hnn; replace n0 with 3%nat by lia
    |change (36 / (16 - 3)) with 2 in Hnn; replace n0 with 2%nat by lia]; by vm_compute.
Qed.

Lemma fill_empty depth d A s n T v it :
  desc_ok d T n v it -> table_ok p T -> cfg s -> p + Z.of_nat n * (p - 3) <= 39 -> it <= input_base d ->
  fill_translation_table l1b l2s l3s (2 ^ p) (S depth) d A s = Ret (VAL_SUCCESS, s).
Proof.
  intros Hd [_ HT] [Hbits _] Hsz Hle. pose proof (lay_p Hlay). destruct (d_nbits _ _ _ _ _ Hd).
  cbn [fill_translation_table].
  rewrite (d_base _ _ _ _ _ Hd), (d_size _ _ _ _ _ Hd), Hbits, (proj2 (Z.eqb_neq T 0)), (proj2 (Z.leb_gt 64 _)),
    (proj2 (Z.eqb_neq (nbits d) 0)), (proj2 (Z.leb_gt 64 (nbits d))), (proj2 (Z.leb_gt 64 (p - 3))),
    (proj2 (Z.ltb_ge (p - 3) (nbits d))) by lia. cbn [orb].
  destruct (fill_fuel d); cbn [fill_loop]; rewrite (d_top _ _ _ _ _ Hd), (proj2 (Z.ltb_ge _ _)) by lia; done.
Qed.

(** The call [val_pgt_create] makes for the root table. *)
Lemma fill_root r own s :
  inv own s -> region_ok r ->
  exists st own' s',
    fill_translation_table l1b l2s l3s (2 ^ p) 4 (root_desc r) (Z.lor (attributes r) ATTR_STAGE1_AP_RW) (with_cfg s)
      = Ret (st, s') /\
    post (Z.lor (attributes r) ATTR_STAGE1_AP_RW) own (with_cfg s) (n0 - 1) root 0 (virtual_address r)
      (virtual_address r + length_ r - 1) (physical_address r) st own' s'.
Proof.
  intros Hi Hr. pose proof Hr as (_ & Hvp & _ & _ & _ & _ & _ & Ha).
  destruct (root_range r Hr) as (Hn & Hrange & Hdesc).
  assert (HA : attr_ok (Z.lor (attributes r) ATTR_STAGE1_AP_RW)) by (by apply attr_ok_lor).
  assert (Hi' : inv own (with_cfg s)) by (by apply inv_ext with s).
  assert (HT : own !! root = Some (S (n0 - 1), 0)) by (rewrite <- Hn; apply (i_root _ _ Hi)).
  destruct (decide (1 < length_ r)) as [Hl|Hl].
  - apply fill_spec; try done; [pose proof (lay_n0 Hlay); lia | by apply Hrange].
  - exists VAL_SUCCESS, own, (with_cfg s). split.
    + apply fill_empty with (n0 - 1)%nat root 0 (virtual_address r + length_ r - 1); try done.
      * apply (i_tab _ _ Hi _ _ _ HT).
      * apply size_le_39, (lay_R Hlay).
      * cbn. lia.
    + rewrite VAL_SUCCESS_zero. apply post_empty; (done || lia).
Qed.

Lemma create_maps r s :
  tables_ok s -> region_ok r ->
  exists st r' s', pgt_create r s = Ret (st, r', s') /\ tables_ok s' /\
    (st = VAL_SUCCESS ->
       (forall x, region_covers r x -> translate s' x = Some (mapped_to r x)) /\
       ((forall y, region_covers r y -> translate s y = None) ->
        forall x, 0 <= x < 2 ^ 40 -> ~ region_covers r x -> translate s' x = translate s x)) /\
    (st <> VAL_SUCCESS -> st = VAL_ERROR /\ exhausted s').
Proof.
  intros [own Hi] Hr. rewrite (pgt_create_eq r s Hr). pose proof root_big.
  destruct (fill_root r own s Hi Hr) as (st & own' & s' & E & Hpost). rewrite E. cbn [obind].
  destruct (root_range r Hr) as (Hn & _).
  destruct (Z.eqb_spec st 0) as [->|Hst]; cbn [negb].
  - exists VAL_SUCCESS. do 2 eexists. split; [done|]. split; [exists own'; apply Hpost|]. split; [|done].
    intros _. unfold translate, region_covers. rewrite Hn. split.
    + intros x Hx. by rewrite (po_map _ _ _ _ _ _ _ _ _ _ _ _ Hpost).
    + intros Hun x Hx Hnx. apply (po_keep _ _ _ _ _ _ _ _ _ _ _ _ Hpost); try done. rewrite <- Hn. lia.
  - exists VAL_ERROR. do 2 eexists. split; [done|]. split; [exists own'; apply Hpost|].
    split; [intros Hc; by destruct (VAL_ERROR_not_success Hc)|].
    intros _. split; [done|]. by apply (po_err _ _ _ _ _ _ _ _ _ _ _ _ Hpost).
Qed.

(** Claim C31: val_pgt_create of a region whose addresses are aligned to the
    granule, with 4K pages below 2^39 - 1 (the two level 0 entries share one level 1
    table, upper_half_aliases) and with 16K and 64K pages below 2^40, and with
    attributes of the descriptor's attribute fields, on page-aligned distinct tables
    that satisfy the table invariant, returns and keeps the invariant. With
    VAL_SUCCESS the walk of the hardware finds every page that begins before the
    last byte of the region at its physical address with its attributes and, when
    those were unmapped before, every other 40-bit address as before (a last page of
    which the region has one byte only is not mapped, last_byte_unmapped); it fails
    only with VAL_ERROR and a pool of tables used up. *)
Theorem pgt_create_maps r s :
  tables_ok s -> region_ok r ->
  exists st r' s', pgt_create r s = Ret (st, r', s') /\ tables_ok s' /\
    (st = VAL_SUCCESS ->
       (forall x, region_covers r x -> translate s' x = Some (mapped_to r x)) /\
       ((forall y, region_covers r y -> translate s y = None) ->
        forall x, 0 <= x < 2 ^ 40 -> ~ region_covers r x -> translate s' x = translate s x)) /\
    (st <> VAL_SUCCESS -> st = VAL_ERROR /\ exhausted s').
Proof. apply create_maps. Qed.

(** ** The endpoint's map *)

Definition apart (r r' : memory_region_descriptor) : Prop := forall x, ~ (region_covers r x /\ region_covers r' x).
Abbreviation mapr := (map_regions l1b l2s l3s (2 ^ p) true pgt40).

Lemma region_below r x : region_ok r -> region_covers r x -> 0 <= x < 2 ^ 40.
Proof.
  intros (Hva & Hvp & _ & _ & Hl0 & Hlim & _) Hx. pose proof (lay_p Hlay) as Hp.
  assert (Hlim40 : va_limit <= 2 ^ 40) by (unfold va_limit; destruct (p =? 12); lia).
  destruct Hx as [H1 H2]. split; [lia|]. destruct (decide (x < 2 ^ 40)) as [|Hge]; [done|].
  assert (Hm : 2 ^ 40 mod 2 ^ p = 0).
  { apply Z.mod_divide; [pose proof page_big; lia|]. exists (2 ^ (40 - p)). rewrite <- Z.pow_add_r by lia. f_equal. lia. }
  pose proof (aligned_floor p x (2 ^ 40) ltac:(lia) Hm ltac:(lia)). lia.
Qed.

Lemma map_regions_maps rs s :
  tables_ok s -> Forall region_ok rs -> ForallOrdPairs apart rs ->
  (forall r x, In r rs -> region_covers r x -> translate s x = None) ->
  exists st s', mapr rs s = Ret (st, s') /\ tables_ok s' /\
    (st = VAL_SUCCESS ->
       (forall r x, In r rs -> region_covers r x -> translate s' x = Some (mapped_to r x)) /\
       (forall x, 0 <= x < 2 ^ 40 -> (forall r, In r rs -> ~ region_covers r x) -> translate s' x = translate s x)) /\
    (st <> VAL_SUCCESS -> st = VAL_ERROR /\ exhausted s').
Proof.
  intros Hs Hok Hap. revert s Hs. induction rs as [|r rs IH]; intros s Hs Hun.
  { exists VAL_SUCCESS, s. split; [done|]. split; [done|]. by split. }
  inversion Hok as [|? ? Hr Hok']; subst. inversion Hap as [|? ? Hapr Hap']; subst. cbn [map_regions].
  destruct (create_maps r s Hs Hr) as (st & r' & s1 & E & Hs1 & Hmap & Herr). rewrite E. cbn [obind].
  destruct (Z.eqb_spec st 0) as [->|Hst]; cbn [negb].
  2:{ exists VAL_ERROR, s1. destruct Herr as [_ Hex]; [by rewrite VAL_SUCCESS_zero|]. split; [done|]. split; [done|].
      split; [intros Hc; by destruct (VAL_ERROR_not_success Hc) | done]. }
  destruct Hmap as [Hm1 Hm2]; [by rewrite VAL_SUCCESS_zero|].
  specialize (Hm2 (fun y Hy => Hun r y (or_introl eq_refl) Hy)).
  rewrite List.Forall_forall in Hapr, Hok'.
  assert (Hun1 : forall r1 x, In r1 rs -> region_covers r1 x -> translate s1 x = None).
  { intros r1 x Hr1 Hx. rewrite Hm2; [apply (Hun r1 x (or_intror Hr1) Hx) | |].
    - by apply (region_below r1); [apply Hok'|].
    - intros Hrx. by apply (Hapr r1 Hr1 x). }
  destruct (IH ltac:(by rewrite List.Forall_forall) Hap' s1 Hs1 Hun1) as (st & s2 & E2 & Hs2 & Hmap2 & Herr2).
  exists st, s2. split; [done|]. split; [done|]. split; [|done].
  intros Hst. destruct (Hmap2 Hst) as [Hin Hout]. split.
  - intros r1 x [<-|Hr1] Hx; [|by apply Hin]. rewrite Hout; [by apply Hm1 | by apply (region_below r) |].
    intros r2 Hr2 Hx2. by apply (Hapr r2 Hr2 x).
  - intros x Hx Hnone. rewrite Hout; [|done|intros r1 Hr1; apply Hnone; by right].
    apply Hm2; [done|]. apply Hnone. by left.
Qed.

Lemma map_regions_app rs rs' s :
  mapr (rs ++ rs') s =
    (let! (st, s1) := mapr rs s in if negb (st =? 0) then Ret (VAL_ERROR, s1) else mapr rs' s1).
Proof.
  revert s. induction rs as [|r rs IH]; intros s.
  { cbn [app map_regions obind]. by rewrite VAL_SUCCESS_zero. }
  cbn [app map_regions]. destruct (pgt_create r s) as [[[st r'] s1]| | |]; try done. cbn [obind].
  destruct (negb (st =? 0)); [done | apply IH].
Qed.

(** The tables as [.bss] has them. *)
Definition tables_boot : tt_state :=
  TtState ∅ (repeat 0 (length l2s)) (repeat 0 (length l3s)) 0 0.

Lemma tables_boot_ok : tables_ok tables_boot.
Proof.
  exists {[root := (n0, 0)]}. pose proof (lay_n0 Hlay). pose proof (lay_distinct Hlay) as Hnd.
  apply list.NoDup_cons in Hnd as [Hroot Hnd].
  assert (Hzero : forall T, zero_table p (tt_mem tables_boot) T) by (intros T j _; reflexivity).
  split.
  - intros T n v [<- HT]%lookup_singleton_Some. injection HT as <- <-.
    split; [apply lay_table; by left|]. split; [lia|]. split; [done|]. apply Z.mod_0_l.
    pose proof (R_pos p n0 (proj1 (lay_p Hlay))). lia.
  - apply lookup_singleton_eq.
  - intros T v [<- _]%lookup_singleton_Some. done.
  - intros T n v j _ _ Hj. left. reflexivity.
  - intros _. left. split; [|done]. apply lookup_singleton_ne. intros ->. apply Hroot. by left.
  - intros T HT. split; [|done]. apply lookup_singleton_ne. intros ->.
    by destruct (free_ok _ _ HT) as (_ & _ & ?).
Qed.

Lemma tables_boot_empty x : 0 <= x -> translate tables_boot x = None.
Proof. intros _. unfold translate. destruct n0; [done|]. apply walk_empty. intros j _. reflexivity. Qed.

(** Turning the MMU on maps the image sections and the devices, and nothing else. *)
Lemma mmu_on_maps_endpoint xen_vm1 ns i devices el_info el g regs :
  let i' := normalize_sections i in
  let regions := endpoint_image_regions xen_vm1 ns i' ++ devices in
  GET_EL_NUM el_info <> EL0 ->
  text_start i' <= text_end i' -> rodata_start i' <= rodata_end i' ->
  data_start i' <= data_end i' -> bss_start i' <= bss_end i' ->
  Forall region_ok regions -> ForallOrdPairs apart regions ->
  exists st regs' s',
    val_setup_mmu root l1b l2s l3s (2 ^ p) true xen_vm1 ns i devices el_info el VAL_SUCCESS g regs tables_boot
      = Ret (st, regs', s') /\
    (st = VAL_SUCCESS ->
       ttbr0 regs' = root /\ Z.testbit (sctlr regs') 0 = true /\
       (forall r x, In r regions -> region_covers r x -> translate s' x = Some (mapped_to r x)) /\
       (forall x, 0 <= x < 2 ^ 40 -> (forall r, In r regions -> ~ region_covers r x) -> translate s' x = None)) /\
    (st <> VAL_SUCCESS -> st = VAL_ERROR /\ sctlr regs' = sctlr regs /\ exhausted s').
Proof.
  intros i' regions Hel Ht Hro Hd Hb Hok Hap. unfold val_setup_mmu, val_map_endpoint_region. fold i'.
  rewrite (proj2 (Z.eqb_neq _ _) Hel), VAL_SUCCESS_zero. cbn [Z.eqb negb].
  rewrite !(proj2 (Z.ltb_ge _ _)) by done. cbn [orb].
  rewrite <- (map_regions_app (endpoint_image_regions xen_vm1 ns i') devices). fold regions.
  destruct (map_regions_maps regions tables_boot tables_boot_ok Hok Hap) as (st & s' & E & _ & Hmap & Herr).
  { intros r x Hr Hx. apply tables_boot_empty. rewrite List.Forall_forall in Hok.
    by apply (region_below r x (Hok r Hr)). }
  rewrite E. cbn [obind]. rewrite VAL_SUCCESS_zero in *. destruct (Z.eqb_spec st 0) as [->|Hst]; cbn [negb].
  - do 3 eexists. split; [done|]. split; [|done]. intros _. destruct (Hmap eq_refl) as [Hin Hout].
    split; [done|]. split; [|split; [done|]].
    + cbn [sctlr]. unfold ors. cbn [fold_left]. rewrite !Z.lor_spec. done.
    + intros x Hx Hn. rewrite Hout by done. apply tables_boot_empty. lia.
  - do 3 eexists. split; [done|]. split; [done|]. intros _. split; [done|]. split; [done|]. by apply Herr.
Qed.

(** Regions one after the other are apart. *)
Lemma apart_after r r' :
  region_ok r' -> virtual_address r + length_ r <= virtual_address r' -> apart r r' /\ apart r' r.
Proof.
  intros (_ & Hvp & _) Hle. assert (Hx : forall x, region_covers r x -> ~ region_covers r' x).
  { intros x [H1 H2] [H3 H4]. pose proof (aligned_floor p x _ ltac:(pose proof (lay_p Hlay); lia) Hvp H3). lia. }
  split; intros x [H1 H2]; by apply (Hx x).
Qed.
End Proofs.

(** ** A concrete build: 4K pages, tables as [val_vtable.S] lays them out *)

Definition demo_l2 : list Z := (fun k => 0x10002000 + 0x4000 * k) <$> [0;1;2;3;4;5;6;7;8;9;10;11].
Definition demo_l3 : list Z :=
  (fun k => 0x10040000 + 0x4000 * k) <$> [0;1;2;3;4;5;6;7;8;9;10;11;12;13;14;15;16;17;18;19;20;21;22;23].
Definition demo_root : Z := 0x10000000.
Definition demo_l1 : Z := 0x10001000.

Lemma demo_layout : layout_ok demo_l1 demo_l2 demo_l3 12 demo_root 4.
Proof.
  split; [lia | lia | by vm_compute | |].
  - apply (bool_decide_unpack _). vm_compute. exact I.
  - apply (bool_decide_unpack _). vm_compute. exact I.
Qed.

Lemma demo_granule : granule 12 4.
Proof. split; [by left | reflexivity]. Qed.

Definition demo_boot : tt_state := tables_boot demo_l2 demo_l3.
Definition demo_uart : memory_region_descriptor := Region 0x1c0b0000 0x1c0b0000 0x1000 ATTR_DEVICE_RW.
Definition demo_sections : image_sections :=
  ImageSections 0x7000000 0x7030000 0x7030000 0x7034000 0x7034000 0x7034000 0x7034000 0x7200000.

Ltac region_ok_tac :=
  split; [split; [vm_compute; congruence | vm_compute; reflexivity]|];
  split; [vm_compute; reflexivity|]; split; [split; [vm_compute; congruence | vm_compute; reflexivity]|];
  split; [vm_compute; reflexivity|]; split; [vm_compute; congruence|];
  split; [split; [vm_compute; reflexivity | vm_compute; congruence]|]; split; [vm_compute; congruence|];
  split; [vm_compute; congruence | vm_compute; reflexivity].

Lemma demo_uart_ok : region_ok 12 demo_uart.
Proof. region_ok_tac. Qed.

Lemma pgt_create_maps_witness :
  exists st r' s',
    @val_pgt_create sample_val_common demo_l1 demo_l2 demo_l3 (2 ^ 12) true
      (PgtDesc PGT_IAS PAGT_OAS PGT_STAGE1 demo_root) demo_uart demo_boot = Ret (st, r', s') /\
    tables_ok demo_l1 demo_l2 demo_l3 12 demo_root 4 s' /\
    (st = 0 ->
       (forall x, region_covers 12 demo_uart x -> translate 12 demo_root 4 s' x = Some (mapped_to demo_uart x)) /\
       ((forall y, region_covers 12 demo_uart y -> translate 12 demo_root 4 demo_boot y = None) ->
        forall x, 0 <= x < 2 ^ 40 -> ~ region_covers 12 demo_uart x ->
        translate 12 demo_root 4 s' x = translate 12 demo_root 4 demo_boot x)) /\
    (st <> 0 -> st = VAL_ERROR /\ exhausted demo_l2 demo_l3 s').
Proof.
  apply (@pgt_create_maps sample_val_common demo_l1 demo_l2 demo_l3 12 demo_root 4 demo_layout demo_granule).
  - apply (tables_boot_ok demo_l1 demo_l2 demo_l3 12 demo_root 4 demo_layout).
  - apply demo_uart_ok.
Defined.

Lemma demo_sections_ok : Forall (region_ok 12) (endpoint_image_regions false true (normalize_sections demo_sections)).
Proof. repeat apply List.Forall_cons; try apply List.Forall_nil; region_ok_tac. Qed.

(** The build succeeds and the walk finds the identity map. *)
Example demo_mmu_on :
  match @val_setup_mmu sample_val_common demo_root demo_l1 demo_l2 demo_l3 (2 ^ 12) true false true demo_sections [demo_uart]
          (Z.lor (Z.shiftl 1 4) EL1) 4 0 0 (MmuRegs 0 0 0 0x30d00800) demo_boot with
  | Ret (st, _, s) => st = 0 /\ fst <$> translate 12 demo_root 4 s 0x7031234 = Some 0x7031234 /\
                      translate 12 demo_root 4 s 0x7200000 = None
  | _ => False
  end.
Proof. vm_compute. repeat split. Qed.

(** The last byte of a region whose length is one more than a multiple of the page
    size is not mapped: the loop runs while the address is below the last byte. *)
Theorem last_byte_unmapped :
  match @val_pgt_create sample_val_common demo_l1 demo_l2 demo_l3 (2 ^ 12) true
          (PgtDesc PGT_IAS PAGT_OAS PGT_STAGE1 demo_root) (Region 0x7000000 0x7000000 0x1001 0) demo_boot with
  | Ret (st, _, s) => st = 0 /\ fst <$> translate 12 demo_root 4 s 0x7000fff = Some 0x7000fff /\
                      translate 12 demo_root 4 s 0x7001000 = None
  | _ => False
  end.
Proof. vm_compute. repeat split. Qed.

(** The two entries of the level 0 table share one level 1 table: what is mapped in
    the upper half of the 40-bit space shows up in the lower half, too. *)
Theorem upper_half_aliases :
  match @val_pgt_create sample_val_common demo_l1 demo_l2 demo_l3 (2 ^ 12) true
          (PgtDesc PGT_IAS PAGT_OAS PGT_STAGE1 demo_root) (Region 0x7000000 0x7000000 0x1000 0) demo_boot with
  | Ret (_, _, s) =>
      match @val_pgt_create sample_val_common demo_l1 demo_l2 demo_l3 (2 ^ 12) true
              (PgtDesc PGT_IAS PAGT_OAS PGT_STAGE1 demo_root) (Region (2 ^ 39 + 0x9000000) 0x9000000 0x1000 0) s with
      | Ret (st, _, s) => st = 0 /\ fst <$> translate 12 demo_root 4 s 0x9000000 = Some 0x9000000
      | _ => False
      end
  | _ => False
  end.
Proof. vm_compute. repeat split. Qed.
