(* ===== verification/Devices.v ===== *)
(** * The devices of an endpoint

    pal_misc.c: the device regions each image maps, with the addresses of
    pal_config_def.h, and the theorem that puts the parts together: after
    [val_setup_mmu] every register a driver of the image touches is mapped, to
    itself and as device memory.  The CRB beyond its first page is the exception. *)

From S2P Require Import Prelude ValCommon Machine Gic TpmCrb EndpointInfo Irq Drivers PageTable PageTableProof.

(** One binary is built per endpoint: [<NAME>_COMPILE]. *)
Inductive image := SP1_COMPILE | SP2_COMPILE | SP3_COMPILE | SP4_COMPILE | VM1_COMPILE | VM2_COMPILE | VM3_COMPILE | TPM_SP_COMPILE.

(** ** pal_config_def.h *)
Definition PLATFORM_NS_UART_BASE (XEN_SUPPORT : bool) : Z := if XEN_SUPPORT then 0x22000000 else 0x1c0b0000.
Definition PLATFORM_NS_UART_SIZE : Z := 0x10000.
Definition PLATFORM_TPM_CRB_BASE : Z := 0x88f00000.
Definition PLATFORM_TPM_CRB_SIZE : Z := 0x1000.
Definition PLATFORM_S_UART_BASE : Z := 0x1c0b0000.
Definition PLATFORM_S_UART_SIZE : Z := 0x10000.
Definition PLATFORM_NVM_SIZE : Z := 0x10000.
Definition PLATFORM_WDOG_SIZE : Z := 0x10000.
Definition PLATFORM_TWDOG_SIZE : Z := 0x10000.
Definition PLATFORM_AP_REFCLK_CNTBASE1 : Z := 0x2a830000.
Definition PLATFORM_AP_REFCLK_SIZE : Z := 0x1000.
Definition PLATFORM_NS_WD_SIZE : Z := 0x1000.
Definition PLAT_SMMUV3_TEST_ENGINE_MEM_REGION : Z := 0x2bfe0000.
Definition PLAT_SMMUV3_TEST_ENGINE_MEM_SIZE : Z := 0x20000.
Definition VM1_GICD_BASE (XEN_SUPPORT : bool) : Z := if XEN_SUPPORT then 0x3001000 else GICD_BASE.
Definition VM1_GICR_BASE (XEN_SUPPORT : bool) : Z := if XEN_SUPPORT then 0x3020000 else GICR_BASE.
Definition VM1_GICC_BASE (XEN_SUPPORT : bool) : Z := if XEN_SUPPORT then 0x3002000 else GICC_BASE.
Definition GICD_SIZE : Z := 0x10000.
Definition GICR_SIZE : Z := 0x100000.
Definition GICC_SIZE : Z := 0x2000.

Definition ATTR_DEVICE_RW_S : Z := ors [ATTR_DEVICE; ATTR_USER_RW; ATTR_UXN; ATTR_PXN; ATTR_AF; ATTR_INNER_SHARED; ATTR_S].

(** ** pal_misc.c *)
Definition flat (base size attrs : Z) : memory_region_descriptor := Region base base size attrs.

Definition endpoint_device_regions (XEN_SUPPORT : bool) (img : image) : list memory_region_descriptor :=
  match img with
  | SP1_COMPILE =>
      [flat PLATFORM_S_UART_BASE PLATFORM_S_UART_SIZE ATTR_DEVICE_RW;
       flat PLATFORM_NVM_BASE PLATFORM_NVM_SIZE ATTR_DEVICE_RW;
       flat PLATFORM_WDOG_BASE PLATFORM_WDOG_SIZE ATTR_DEVICE_RW;
       flat PLATFORM_SP805_TWDOG_BASE PLATFORM_TWDOG_SIZE ATTR_DEVICE_RW_S]
  | SP2_COMPILE =>
      [flat PLATFORM_AP_REFCLK_CNTBASE1 PLATFORM_AP_REFCLK_SIZE ATTR_DEVICE_RW_S;
       flat PLAT_SMMUV3_TEST_ENGINE_MEM_REGION PLAT_SMMUV3_TEST_ENGINE_MEM_SIZE ATTR_DEVICE_RW_S]
  | VM1_COMPILE =>
      [flat (PLATFORM_NS_UART_BASE XEN_SUPPORT) PLATFORM_NS_UART_SIZE ATTR_DEVICE_RW;
       flat PLATFORM_NS_WD_BASE PLATFORM_NS_WD_SIZE ATTR_DEVICE_RW;
       flat PLATFORM_TPM_CRB_BASE PLATFORM_TPM_CRB_SIZE ATTR_DEVICE_RW;
       flat (VM1_GICD_BASE XEN_SUPPORT) GICD_SIZE ATTR_DEVICE_RW;
       flat (VM1_GICR_BASE XEN_SUPPORT) GICR_SIZE ATTR_DEVICE_RW;
       flat (VM1_GICC_BASE XEN_SUPPORT) GICC_SIZE ATTR_DEVICE_RW]
  | TPM_SP_COMPILE => [flat PLATFORM_TPM_CRB_BASE PLATFORM_TPM_CRB_SIZE ATTR_DEVICE_RW]
  | SP3_COMPILE | SP4_COMPILE | VM2_COMPILE | VM3_COMPILE => []
  end.

Definition pal_get_endpoint_device_map (XEN_SUPPORT : bool) (img : image) : Z * list memory_region_descriptor * Z :=
  (PAL_SUCCESS, endpoint_device_regions XEN_SUPPORT img, Z.of_nat (length (endpoint_device_regions XEN_SUPPORT img))).

(** ** The registers the drivers of an image use: address and width *)
Definition uart_registers (base : Z) : list (Z * Z) :=
  (fun r => (base + r, 4)) <$> [UARTDR; UARTECR; UARTFR; UARTIBRD; UARTFBRD; UARTLCR_H; UARTCR].
Definition sp805_registers (base : Z) : list (Z * Z) :=
  (fun r => (base + r, 4)) <$> [SP805_WDOG_LOAD_OFF; SP805_WDOG_CTRL_OFF; SP805_WDOG_INT_CLR_OFF; SP805_WDOG_LOCK_OFF].
Definition ap_refclk_registers : list (Z * Z) :=
  [(AP_REFCLK_BASE + AP_REFCLK_CNTPCT_OFF, 4); (AP_REFCLK_BASE + AP_REFCLK_CNTVCT_0FF, 4);
   (AP_REFCLK_BASE + AP_REFCLK_CNTFRQ_OFF, 4); (AP_REFCLK_BASE + AP_REFCLK_CNTP_CVAL_OFF, 8);
   (AP_REFCLK_BASE + AP_REFCLK_CNTP_CTL_OFF, 4); (AP_REFCLK_BASE + AP_REFCLK_CNTV_CVAL_OFF, 8);
   (AP_REFCLK_BASE + AP_REFCLK_CNTV_CTL_OFF, 4)].
(** The engine's two frames of index [i]. *)
Definition engine_registers (i : Z) : list (Z * Z) := [(P_FRAME_BASE + F_IDX i, 0x10); (U_FRAME_BASE + F_IDX i, 0x48)].
(** The distributor up to the last routing register, the redistributors of the CPUs,
    the CPU interface. *)
Definition gic_registers : list (Z * Z) :=
  [(GICD_BASE, GICD_IROUTER + 8 * 1020);
   (GICR_BASE, Z.shiftl PLATFORM_NO_OF_CPUS GICR_PCPUBASE_SHIFT);
   (GICC_BASE, GICC_EOIR + 4)].

(** The locality registers and the data buffer of every locality. *)
Definition crb_locality (l : Z) : Z * Z := (val_tpm_crb_locality_base l, VAL_TPM_CRB_LOCALITY_SIZE).
Definition crb_registers : list (Z * Z) := crb_locality <$> [0; 1; 2; 3; 4].

Definition driver_registers (img : image) : list (Z * Z) :=
  match img with
  | SP1_COMPILE =>
      uart_registers PLATFORM_S_UART_BASE ++ [(PLATFORM_NVM_BASE, PLATFORM_NVM_SIZE)]
      ++ sp805_registers PLATFORM_WDOG_BASE ++ sp805_registers PLATFORM_SP805_TWDOG_BASE
  | SP2_COMPILE => ap_refclk_registers ++ (seq 0 512 ≫= fun i => engine_registers (Z.of_nat i))
  | VM1_COMPILE =>
      uart_registers (PLATFORM_NS_UART_BASE false) ++ [(PLATFORM_NS_WD_BASE, 12)] ++ crb_registers ++ gic_registers
  | TPM_SP_COMPILE => crb_registers
  | _ => []
  end.

(** The loop of [val_pgt_create] reaches the page of the window's last byte. *)
Definition inside (p : Z) (r : memory_region_descriptor) (w : Z * Z) : bool :=
  let last := w.1 + w.2 - 1 in
  (virtual_address r <=? w.1) && (last - last mod 2 ^ p <? virtual_address r + length_ r - 1).

(** The CRB beyond its first page: the images map [PLATFORM_TPM_CRB_SIZE] bytes of
    it, which is one 4K page, and every locality has a page of its own. *)
Definition beyond_crb_page (p x : Z) : bool :=
  (PLATFORM_TPM_CRB_BASE + 2 ^ p <=? x) && (x <? PLATFORM_TPM_CRB_BASE + (CRB_LOCALITY_MAX + 1) * VAL_TPM_CRB_LOCALITY_SIZE).

(** ** Lemmas *)

Lemma inside_covers p r w x : 0 <= p -> inside p r w = true -> w.1 <= x < w.1 + w.2 -> region_covers p r x.
Proof.
  intros Hp Hin Hx. unfold inside in Hin. apply andb_true_iff in Hin as [H1 H2].
  unfold region_covers, covered. split; [lia|].
  assert (x - x mod 2 ^ p <= w.1 + w.2 - 1 - (w.1 + w.2 - 1) mod 2 ^ p); [|lia].
  rewrite !Z.mod_eq by lia. assert (x / 2 ^ p <= (w.1 + w.2 - 1) / 2 ^ p) by (apply Z.div_le_mono; lia). nia.
Qed.

(** Decidable versions, for the tables above. *)
Definition region_okb (p : Z) (r : memory_region_descriptor) : bool :=
  (0 <=? virtual_address r) && (virtual_address r <? va_limit p) && (virtual_address r mod 2 ^ p =? 0) &&
  (physical_address r =? virtual_address r) && (0 <? length_ r) && (virtual_address r + length_ r <=? va_limit p) &&
  (0 <=? attributes r) && (Z.land (attributes r) PGT_DESC_ATTRIBUTES_MASK =? attributes r).

Lemma region_okb_ok p r : region_okb p r = true -> region_ok p r.
Proof.
  unfold region_okb. rewrite !andb_true_iff. intros [[[[[[[H1 H2] H3] H4] H5] H6] H7] H8].
  assert (Hl : va_limit p <= 2 ^ 40) by (unfold va_limit; destruct (p =? 12); lia).
  unfold region_ok, attr_ok. replace (physical_address r) with (virtual_address r) by lia. lia.
Qed.

Fixpoint disjoint_regions (rs : list memory_region_descriptor) : bool :=
  match rs with
  | [] => true
  | r :: rs' => forallb (fun r' => (virtual_address r + length_ r <=? virtual_address r') || (virtual_address r' + length_ r' <=? virtual_address r)) rs'
                && disjoint_regions rs'
  end.

(** What has to hold of the tables of an image, for pages of [2^p] bytes. *)
Definition device_tables_ok (p : Z) (img : image) : bool :=
  let rs := endpoint_device_regions false img in
  forallb (region_okb p) rs && disjoint_regions rs &&
  forallb (fun r => virtual_address r + length_ r <=? PLATFORM_TPM_CRB_BASE + 2 ^ p) rs &&
  forallb (fun w => existsb (fun r => inside p r w) rs || (beyond_crb_page p w.1 && beyond_crb_page p (w.1 + w.2 - 1)))
    (driver_registers img).

Lemma device_tables_checked p img : p = 12 \/ p = 14 \/ p = 16 -> device_tables_ok p img = true.
Proof. intros [->|[->| ->]]; by destruct img; vm_compute. Qed.

Lemma device_tables_parts p img :
  p = 12 \/ p = 14 \/ p = 16 ->
  Forall (region_ok p) (endpoint_device_regions false img) /\
  disjoint_regions (endpoint_device_regions false img) = true /\
  Forall (fun r => virtual_address r + length_ r <= PLATFORM_TPM_CRB_BASE + 2 ^ p) (endpoint_device_regions false img) /\
  forall w, In w (driver_registers img) ->
    (exists r, In r (endpoint_device_regions false img) /\ inside p r w = true) \/
    (beyond_crb_page p w.1 = true /\ beyond_crb_page p (w.1 + w.2 - 1) = true).
Proof.
  intros Hp. pose proof (device_tables_checked p img Hp) as H. unfold device_tables_ok in H.
  rewrite !andb_true_iff in H. destruct H as [[[H1 H2] H3] H4]. rewrite !List.Forall_forall. rewrite List.forallb_forall in H1, H3, H4.
  split; [intros r Hr; by apply region_okb_ok, H1|]. split; [done|].
  split; [intros r Hr; specialize (H3 r Hr); lia|].
  intros w Hw. specialize (H4 w Hw). rewrite orb_true_iff, andb_true_iff, List.existsb_exists in H4. tauto.
Qed.

(** Nothing maps the CRB beyond its first page: with 4K pages the localities 1 to 4. *)
Theorem crb_localities_unmapped p img x :
  p = 12 \/ p = 14 \/ p = 16 -> beyond_crb_page p x = true ->
  Forall (fun r => ~ region_covers p r x) (endpoint_device_regions false img).
Proof.
  intros Hp Hx. destruct (device_tables_parts p img Hp) as (_ & _ & Hc & _).
  eapply List.Forall_impl; [|exact Hc]. cbn beta. intros r Hr [_ H]. unfold beyond_crb_page in Hx.
  assert (Hb : (PLATFORM_TPM_CRB_BASE + 2 ^ p) mod 2 ^ p = 0) by (by destruct Hp as [->|[->| ->]]).
  pose proof (aligned_floor p x (PLATFORM_TPM_CRB_BASE + 2 ^ p) ltac:(lia) Hb ltac:(lia)). lia.
Qed.

Section Boot.
Context `{ValCommon} (l1b : Z) (l2s l3s : list Z) (p root : Z) (n0 : nat).
Context (Hlay : layout_ok l1b l2s l3s p root n0) (Hgran : granule p n0).
Abbreviation translate := (translate p root n0).

Definition disjoint_from (rs ds : list memory_region_descriptor) : bool :=
  forallb (fun r => forallb (fun d => (virtual_address r + length_ r <=? virtual_address d)
                                   || (virtual_address d + length_ d <=? virtual_address r)) ds) rs.

Lemma disjoint_from_apart rs ds :
  Forall (region_ok p) rs -> Forall (region_ok p) ds -> disjoint_from rs ds = true ->
  Forall (fun r => Forall (apart p r) ds) rs.
Proof.
  rewrite !List.Forall_forall. intros Hrs Hds E r Hr. rewrite List.Forall_forall. intros d Hd.
  unfold disjoint_from in E. rewrite List.forallb_forall in E. specialize (E r Hr).
  rewrite List.forallb_forall in E. specialize (E d Hd).
  apply orb_true_iff in E as [E|E]; apply Z.leb_le in E.
  - by apply (apart_after l1b l2s l3s p root n0 Hlay r d (Hds d Hd)).
  - by apply (apart_after l1b l2s l3s p root n0 Hlay d r (Hrs r Hr)).
Qed.

Lemma disjoint_apart rs :
  Forall (region_ok p) rs -> disjoint_regions rs = true -> ForallOrdPairs (apart p) rs.
Proof.
  induction rs as [|r rs IH]; [constructor|]. intros [Hr Hrs]%List.Forall_cons_iff E.
  cbn in E. apply andb_true_iff in E as [E1 E2]. constructor; [|by apply IH].
  assert (H1 : Forall (fun r => Forall (apart p r) rs) [r]); [|by inversion H1].
  apply disjoint_from_apart; [by constructor | done |]. unfold disjoint_from. cbn. by rewrite E1.
Qed.

Lemma ord_pairs_app {A} (R : A -> A -> Prop) l l' :
  ForallOrdPairs R l -> ForallOrdPairs R l' -> Forall (fun a => Forall (R a) l') l -> ForallOrdPairs R (l ++ l').
Proof.
  intros Hl Hl'. induction Hl as [|a l Ha Hl IH]; [done|]. intros [H1 H2]%List.Forall_cons_iff. cbn. constructor; [|by apply IH].
  by apply List.Forall_app.
Qed.

(** The memory-attribute index of a device page. *)
Definition attr_index (a : Z) : Z := Z.land a (Z.shiftl 7 2).

Lemma device_attr img r : In r (endpoint_device_regions false img) ->
  attr_index (Z.lor (attributes r) ATTR_STAGE1_AP_RW) = ATTR_DEVICE /\ physical_address r = virtual_address r.
Proof.
  assert (Hc : forallb (fun r => (attr_index (Z.lor (attributes r) ATTR_STAGE1_AP_RW) =? ATTR_DEVICE) &&
                                (physical_address r =? virtual_address r)) (endpoint_device_regions false img) = true)
    by (by destruct img; vm_compute).
  rewrite List.forallb_forall in Hc. intros Hr. specialize (Hc r Hr). lia.
Qed.

Lemma beyond_crb_range q x : beyond_crb_page q x = true -> 0 <= x < 2 ^ 40.
Proof.
  unfold beyond_crb_page, PLATFORM_TPM_CRB_BASE, CRB_LOCALITY_MAX, VAL_TPM_CRB_LOCALITY_SIZE. intros E.
  pose proof (Z.pow_nonneg 2 q ltac:(lia)). lia.
Qed.

(** Claim C14: For every image in a build without XEN_SUPPORT and with every
    granule, with any sections that are in order, aligned, below the limit of the
    tables and apart from each other and from the devices of the image,
    val_setup_mmu of an endpoint above EL0, with the granule assigned and the empty
    tables of .bss, does one of two things. Either it turns the MMU on, every
    register and buffer the drivers of that image use is mapped to itself as device
    memory, the sections are mapped to themselves and nothing else is mapped; of the
    five localities of the CRB only those in its first page are mapped (with 4K
    pages locality 0, with 16K pages 0 to 3), the rest of the window is not. Or it
    reports VAL_ERROR with the tables used up and leaves SCTLR as it was. *)
Theorem drivers_mapped ns img i el_info el g regs :
  let i' := normalize_sections i in
  let sections := endpoint_image_regions false ns i' in
  let devices := endpoint_device_regions false img in
  GET_EL_NUM el_info <> EL0 ->
  text_start i' <= text_end i' -> rodata_start i' <= rodata_end i' ->
  data_start i' <= data_end i' -> bss_start i' <= bss_end i' ->
  Forall (region_ok p) sections -> ForallOrdPairs (apart p) sections ->
  Forall (fun r => Forall (apart p r) devices) sections ->
  exists st regs' s',
    val_setup_mmu root l1b l2s l3s (2 ^ p) true false ns i devices el_info el VAL_SUCCESS g regs (tables_boot l2s l3s)
      = Ret (st, regs', s') /\
    (st = VAL_SUCCESS ->
       ttbr0 regs' = root /\ Z.testbit (sctlr regs') 0 = true /\
       (forall w x, In w (driver_registers img) -> w.1 <= x < w.1 + w.2 ->
          if beyond_crb_page p x
          then (forall r, In r sections -> ~ region_covers p r x) -> translate s' x = None
          else exists a, translate s' x = Some (x, a) /\ attr_index a = ATTR_DEVICE) /\
       (forall r x, In r sections -> region_covers p r x -> translate s' x = Some (mapped_to r x)) /\
       (forall x, 0 <= x < 2 ^ 40 -> (forall r, In r (sections ++ devices) -> ~ region_covers p r x) -> translate s' x = None)) /\
    (st <> VAL_SUCCESS -> st = VAL_ERROR /\ sctlr regs' = sctlr regs /\ exhausted l2s l3s s').
Proof.
  intros i' sections devices Hel Ht Hro Hd Hb Hok Hap Hsd.
  destruct (device_tables_parts p img (proj1 Hgran)) as (Hdok & Hdis & _ & Hin). fold devices in Hdok, Hdis, Hin.
  destruct (mmu_on_maps_endpoint l1b l2s l3s p root n0 Hlay Hgran false ns i devices el_info el g regs) as (st & regs' & s' & E & Hs & He); try done.
  { by apply List.Forall_app. }
  { apply ord_pairs_app; [done | by apply disjoint_apart | done]. }
  exists st, regs', s'. split; [exact E|]. split; [|exact He]. intros Hst. destruct (Hs Hst) as (H1 & H2 & H3 & H4).
  split_and!; [done | done | | | done].
  - intros w x Hw Hx. destruct (beyond_crb_page p x) eqn:Eb.
    + intros Hsec. apply H4; [by eapply beyond_crb_range|]. intros r [Hr|Hr]%List.in_app_or; [by apply Hsec|].
      pose proof (crb_localities_unmapped p img x (proj1 Hgran) Eb) as Hu. rewrite List.Forall_forall in Hu. by apply Hu.
    + destruct (Hin w Hw) as [(r & Hr & Hrw) | [Hw1 Hw2]].
      * destruct (device_attr img r Hr) as [Ha Hpa]. exists (Z.lor (attributes r) ATTR_STAGE1_AP_RW). split; [|done].
        rewrite (H3 r x); [| by apply List.in_or_app; right | eapply inside_covers; [| exact Hrw | exact Hx]; pose proof (lay_p _ _ _ _ _ _ Hlay); lia].
        unfold mapped_to. do 2 f_equal. lia.
      * exfalso. unfold beyond_crb_page in *. lia.
  - intros r x Hr. apply H3. by apply List.in_or_app; left.
Qed.
End Boot.

(** ** VM1 with 4K pages *)
Definition demo_devices : list memory_region_descriptor := endpoint_device_regions false VM1_COMPILE.

Lemma drivers_mapped_witness :
  exists st regs' s',
    @val_setup_mmu sample_val_common demo_root demo_l1 demo_l2 demo_l3 (2 ^ 12) true false true demo_sections demo_devices
      (Z.lor (Z.shiftl 1 4) EL1) 4 0 0 (MmuRegs 0 0 0 0x30d00800) demo_boot = Ret (st, regs', s') /\
    (st = 0 ->
       ttbr0 regs' = demo_root /\ Z.testbit (sctlr regs') 0 = true /\
       (forall w x, In w (driver_registers VM1_COMPILE) -> w.1 <= x < w.1 + w.2 ->
          if beyond_crb_page 12 x
          then (forall r, In r (endpoint_image_regions false true (normalize_sections demo_sections)) -> ~ region_covers 12 r x) ->
               translate 12 demo_root 4 s' x = None
          else exists a, translate 12 demo_root 4 s' x = Some (x, a) /\ attr_index a = ATTR_DEVICE) /\
       (forall r x, In r (endpoint_image_regions false true (normalize_sections demo_sections)) -> region_covers 12 r x ->
          translate 12 demo_root 4 s' x = Some (mapped_to r x)) /\
       (forall x, 0 <= x < 2 ^ 40 ->
          (forall r, In r (endpoint_image_regions false true (normalize_sections demo_sections) ++ demo_devices) -> ~ region_covers 12 r x) ->
          translate 12 demo_root 4 s' x = None)) /\
    (st <> 0 -> st = VAL_ERROR /\ sctlr regs' = 0x30d00800 /\ exhausted demo_l2 demo_l3 s').
Proof.
  apply (@drivers_mapped sample_val_common demo_l1 demo_l2 demo_l3 12 demo_root 4 demo_layout demo_granule true VM1_COMPILE);
    [vm_compute; congruence .. | exact demo_sections_ok | |].
  - apply (@disjoint_apart demo_l1 demo_l2 demo_l3 12 demo_root 4 demo_layout); [exact demo_sections_ok | by vm_compute].
  - apply (@disjoint_from_apart demo_l1 demo_l2 demo_l3 12 demo_root 4 demo_layout); [exact demo_sections_ok | | by vm_compute].
    exact (proj1 (device_tables_parts 12 VM1_COMPILE (or_introl eq_refl))).
Defined.

(** The map of VM1 is built: the status is success, and the UART is where it was. *)
Example demo_devices_mapped :
  match @val_setup_mmu sample_val_common demo_root demo_l1 demo_l2 demo_l3 (2 ^ 12) true false true demo_sections demo_devices
          (Z.lor (Z.shiftl 1 4) EL1) 4 0 0 (MmuRegs 0 0 0 0x30d00800) demo_boot with
  | Ret (st, _, s) => st = 0 /\ fst <$> translate 12 demo_root 4 s 0x1c0b0018 = Some 0x1c0b0018
  | _ => False
  end.
Proof. vm_compute. split; reflexivity. Qed.
