(* ===== verification/Framework.v ===== *)
(** * The framework ([val_framework.c])

    Non-volatile memory for the test bookkeeping, the recovery of the last test
    after a reset, the discovery of the deployed partitions and the
    synchronisation of the endpoint table from VM1 to every partition.

    The build compiles the NVM and watchdog paths out ([SKIP_NVM_PROGRAMMING],
    [SKIP_WD_PROGRAMMING] are defined at the top of the file): the NVM is the
    static array [g_nvmem] and the watchdog calls succeed at once. *)

From S2P Require Import Prelude ValCommon CMem Libc Malloc EndpointInfo FfaAbi FfaHelpers.

(** ** val_common: test bookkeeping

    The indices and offsets of the NVM words, the progress values, the encoding of
    results and the functions on the status buffer come from the submodule.  The
    laws say what the framework relies on: the eight words it keeps lie in the NVM
    and do not overlap. *)
Definition NVM_SIZE : Z := 1024.

Class NvmCommon := {
  VAL_NVM_OFFSET : Z -> Z;
  NVM_CUR_SUITE_NUM_INDEX : Z; NVM_CUR_TEST_NUM_INDEX : Z; NVM_END_TEST_NUM_INDEX : Z;
  NVM_TEST_PROGRESS_INDEX : Z; NVM_TOTAL_PASS_INDEX : Z; NVM_TOTAL_FAIL_INDEX : Z;
  NVM_TOTAL_SKIP_INDEX : Z; NVM_TOTAL_ERROR_INDEX : Z;
  TEST_START : Z; TEST_END : Z; TEST_FAIL : Z; TEST_REBOOTING : Z;
  nvm_indices := [NVM_CUR_SUITE_NUM_INDEX; NVM_CUR_TEST_NUM_INDEX; NVM_END_TEST_NUM_INDEX;
                  NVM_TEST_PROGRESS_INDEX; NVM_TOTAL_PASS_INDEX; NVM_TOTAL_FAIL_INDEX;
                  NVM_TOTAL_SKIP_INDEX; NVM_TOTAL_ERROR_INDEX];
  nvm_in_range : forall i, In i nvm_indices -> 0 <= VAL_NVM_OFFSET i <= NVM_SIZE - 4;
  nvm_distinct : List.NoDup nvm_indices;
  nvm_apart : forall i j, In i nvm_indices -> In j nvm_indices -> i <> j ->
    VAL_NVM_OFFSET i + 4 <= VAL_NVM_OFFSET j \/ VAL_NVM_OFFSET j + 4 <= VAL_NVM_OFFSET i;
  progress_uint32 : Forall (is_uint 32) [TEST_START; TEST_END; TEST_FAIL; TEST_REBOOTING]
}.

Record test_info := TestInfo { suite_num : Z; test_num : Z; end_test_num : Z; test_progress : Z }.
Record regre_report := RegreReport { total_pass : Z; total_fail : Z; total_skip : Z; total_error : Z }.
(** [val_test_status_buffer_ts], in the shared region. *)
Record status_buffer := StatusBuffer { sb_state : Z; sb_status_code : Z }.

Class InfoCommon := {
  is_reboot_run : Z -> list Z -> bool;
  val_reset_test_info_fields : test_info -> test_info;
  val_reset_regression_report : regre_report -> regre_report;
  VAL_INVALID_TEST_NUM : Z;
  VAL_STATUS_INVALID : Z;
  RESULT_PASS : Z -> Z; RESULT_FAIL : Z -> Z; RESULT_SKIP : Z -> Z;
  val_set_status : Z -> status_buffer -> status_buffer;
  val_report_status : status_buffer -> Z;
  val_handle_reboot_result : Z -> status_buffer -> status_buffer;
  val_update_regression_report : Z -> regre_report -> regre_report;
  val_sort_indices : Z -> Z -> Z * Z;
  FFA_PARTITION_INFO_FLAG_RETDESC : Z
}.

(** ** State: the static variables of the image and the world behind the conduit *)

(** [mp_test_status_t]. *)
Record mp_test_status := MpTestStatus {
  g_current_test_num : Z;
  g_other_pe_test_state : list Z;
  g_other_pe_test_result : list Z
}.

Record fw (W : Type) := Fw {
  g_nvmem : mem; ep_tbl : ep_table; fw_heap : heap; ffa_fid_state : list Z;
  status_buf : status_buffer; g_mp_state : mp_test_status; fw_world : W
}.
Arguments Fw {W}. Arguments g_nvmem {W}. Arguments ep_tbl {W}. Arguments fw_heap {W}.
Arguments ffa_fid_state {W}. Arguments status_buf {W}. Arguments g_mp_state {W}. Arguments fw_world {W}.

Section Setters.
Context {W : Type}.
Definition set_nvmem (m : mem) (s : fw W) : fw W :=
  Fw m (ep_tbl s) (fw_heap s) (ffa_fid_state s) (status_buf s) (g_mp_state s) (fw_world s).
Definition set_tbl (t : ep_table) (s : fw W) : fw W :=
  Fw (g_nvmem s) t (fw_heap s) (ffa_fid_state s) (status_buf s) (g_mp_state s) (fw_world s).
Definition set_fw_heap (h : heap) (s : fw W) : fw W :=
  Fw (g_nvmem s) (ep_tbl s) h (ffa_fid_state s) (status_buf s) (g_mp_state s) (fw_world s).
Definition set_fid_state (l : list Z) (s : fw W) : fw W :=
  Fw (g_nvmem s) (ep_tbl s) (fw_heap s) l (status_buf s) (g_mp_state s) (fw_world s).
Definition set_status (b : status_buffer) (s : fw W) : fw W :=
  Fw (g_nvmem s) (ep_tbl s) (fw_heap s) (ffa_fid_state s) b (g_mp_state s) (fw_world s).
Definition set_mp (mp : mp_test_status) (s : fw W) : fw W :=
  Fw (g_nvmem s) (ep_tbl s) (fw_heap s) (ffa_fid_state s) (status_buf s) mp (fw_world s).
Definition set_fw_world (w : W) (s : fw W) : fw W :=
  Fw (g_nvmem s) (ep_tbl s) (fw_heap s) (ffa_fid_state s) (status_buf s) (g_mp_state s) w.
End Setters.

Definition nvm_check_bounds (offset : Z) (buffer : bool) (size : Z) : Z :=
  if negb buffer then VAL_ERROR
  else if NVM_SIZE <? offset then VAL_ERROR
  else if NVM_SIZE <? u64 (offset + size) then VAL_ERROR
  else if negb (size =? 4) then VAL_ERROR
  else 0.

Section Framework.
Context `{ValCommon} `{ValConfig} `{NvmCommon} `{InfoCommon}.
Context {W : Type} (conduit : ffa_args -> W -> ffa_args * W).
Context (resume_on_interrupt : bool) (fuel : nat).
(** The buffer the heap manages, and the memory as the manager leaves it: what it
    wrote to the RX buffer it was told about. *)
Context (heap_base : Z) (rx_written : W -> mem -> mem).

Definition fw_ffa {A} (c : cmd W A) : cmd (fw W) A := zoom fw_world set_fw_world c.

(** [None] is the null pointer, [Some v] a buffer that holds the word [v]. *)
Definition val_nvmem_write (offset : Z) (buffer : option Z) (size : Z) : cmd (fw W) Z := fun s =>
  match buffer with
  | Some v =>
      if negb (nvm_check_bounds offset true size =? 0) then Ret (VAL_ERROR, s)
      else Ret (VAL_SUCCESS, set_nvmem (stn (Z.to_nat size) (g_nvmem s) offset v) s)
  | None => Ret (VAL_ERROR, s)
  end.

(** The second component is what the buffer holds afterwards. *)
Definition val_nvmem_read (offset : Z) (buffer : option Z) (size : Z) : cmd (fw W) (Z * option Z) := fun s =>
  match buffer with
  | Some v =>
      if negb (nvm_check_bounds offset true size =? 0) then Ret ((VAL_ERROR, Some v), s)
      else Ret ((VAL_SUCCESS, Some (ldn (Z.to_nat size) (g_nvmem s) offset)), s)
  | None => Ret ((VAL_ERROR, None), s)
  end.

Definition val_wd_enable : cmd (fw W) Z := mret VAL_SUCCESS.
Definition val_wd_disable : cmd (fw W) Z := mret VAL_SUCCESS.

Definition val_reprogram_watchdog : cmd (fw W) unit :=
  st ← val_wd_disable;
  if negb (st =? 0) then panic
  else st ← val_wd_enable; if negb (st =? 0) then panic else mret tt.

Definition write_progress (v : Z) : cmd (fw W) unit :=
  st ← val_nvmem_write (VAL_NVM_OFFSET NVM_TEST_PROGRESS_INDEX) (Some v) 4;
  if negb (st =? 0) then panic else mret tt.

(** The name of the test is only printed. *)
Definition val_test_init : cmd (fw W) unit :=
  _ ← modify (set_status (StatusBuffer TEST_FAIL VAL_STATUS_INVALID));
  _ ← write_progress TEST_START;
  st ← val_wd_enable; if negb (st =? 0) then panic else mret tt.

Definition val_test_exit : cmd (fw W) unit :=
  st ← val_wd_disable;
  if negb (st =? 0) then panic else write_progress TEST_END.

Definition val_set_reboot_flag : cmd (fw W) unit := write_progress TEST_REBOOTING.
Definition val_reset_reboot_flag : cmd (fw W) unit := write_progress TEST_FAIL.

(** [if (val_nvmem_read(VAL_NVM_OFFSET(i), &x, sizeof(uint32_t))) return VAL_ERROR;] *)
Definition nvm_get {A} (i x : Z) (err : A) (k : Z -> cmd (fw W) A) : cmd (fw W) A :=
  '(st, b) ← val_nvmem_read (VAL_NVM_OFFSET i) (Some x) 4;
  if negb (st =? 0) then mret err else k (default x b).
Definition nvm_put {A} (i x : Z) (err : A) (k : cmd (fw W) A) : cmd (fw W) A :=
  st ← val_nvmem_write (VAL_NVM_OFFSET i) (Some x) 4;
  if negb (st =? 0) then mret err else k.

Definition val_get_last_run_test_info (info : test_info) : cmd (fw W) (Z * test_info) :=
  let err := (VAL_ERROR, info) in
  nvm_get NVM_CUR_SUITE_NUM_INDEX (suite_num info) err (fun suite =>
  nvm_get NVM_CUR_TEST_NUM_INDEX (test_num info) err (fun test =>
  nvm_get NVM_END_TEST_NUM_INDEX (end_test_num info) err (fun end_test =>
  nvm_get NVM_TEST_PROGRESS_INDEX (test_progress info) err (fun progress =>
  let info := TestInfo suite test end_test progress in
  if is_reboot_run progress [TEST_START; TEST_END; TEST_FAIL; TEST_REBOOTING] then mret (VAL_SUCCESS, info)
  else
    let info := val_reset_test_info_fields info in
    let report := val_reset_regression_report (RegreReport 0 0 0 0) in
    let err := (VAL_ERROR, info) in
    nvm_put NVM_CUR_SUITE_NUM_INDEX (suite_num info) err (
    nvm_put NVM_CUR_TEST_NUM_INDEX (test_num info) err (
    nvm_put NVM_END_TEST_NUM_INDEX (end_test_num info) err (
    nvm_put NVM_TEST_PROGRESS_INDEX (test_progress info) err (
    nvm_put NVM_TOTAL_PASS_INDEX (total_pass report) err (
    nvm_put NVM_TOTAL_FAIL_INDEX (total_fail report) err (
    nvm_put NVM_TOTAL_SKIP_INDEX (total_skip report) err (
    nvm_put NVM_TOTAL_ERROR_INDEX (total_error report) err (
    mret (VAL_SUCCESS, info))))))))))))).

(** ** Deployed endpoints *)

Definition val_check_ep_compile_status (client_logical_id server_logical_id : Z) : cmd (fw W) Z := fun s =>
  lift (let! c := ep_at (ep_tbl s) client_logical_id in
        if is_valid c =? VAL_PARTITION_NOT_PRESENT then Ret VAL_SKIP_CHECK
        else
          let! v := ep_at (ep_tbl s) server_logical_id in
          if (is_valid v =? VAL_PARTITION_NOT_PRESENT) && negb (server_logical_id =? NO_SERVER_EP)
          then Ret VAL_SKIP_CHECK else Ret VAL_SUCCESS) s.

(** [ffa_partition_info_t], the fields that are looked at. *)
Record partition_info := PartitionInfo { pi_id : Z; pi_exec_context : Z; pi_uuid : list Z }.
Definition rd_partition_info (m : mem) (a : Z) : partition_info :=
  PartitionInfo (ldn 2 m a) (ldn 2 m (a + 2))
    [ldn 4 m (a + 8); ldn 4 m (a + 12); ldn 4 m (a + 16); ldn 4 m (a + 20)].

Definition val_uuid_is_nil (uuid : list Z) : bool := fold_left Z.lor uuid 0 =? 0.
Definition val_uuid_matches (uuid_a uuid_b : list Z) : bool := bool_decide (uuid_a = uuid_b).

(** The inner loop of [val_ep_info_relayer_sync]: the entry after the descriptors
    were searched for it. *)
Fixpoint sync_entry (e : ep_info) (ds : list partition_info) : ep_info :=
  match ds with
  | [] => set_valid VAL_PARTITION_NOT_PRESENT e
  | d :: ds' =>
      if ENABLE_TPM_CRB then
        if negb (val_uuid_is_nil (ep_uuid e)) && val_uuid_matches (ep_uuid e) (pi_uuid d)
        then set_ids (pi_id d) (pi_exec_context d) (set_valid VAL_PARTITION_PRESENT e)
        else sync_entry e ds'
      else if ep_id e =? pi_id d then set_valid VAL_PARTITION_PRESENT e
      else sync_entry e ds'
  end.

(** The outer loop: entries 1 to [ep_count - 1]. *)
Fixpoint sync_entries (n : nat) (i ep_count : Z) (ds : list partition_info) (t : ep_table) : outcome ep_table :=
  match n with
  | O => Ret t
  | S n' =>
      if i <? ep_count then
        let! t := ep_set t i (fun e => sync_entry e ds) in sync_entries n' (i + 1) ep_count ds t
      else Ret t
  end.

(** The part of [val_ep_info_relayer_sync] after the descriptors were fetched
    and parsed. *)
Definition relayer_sync_table (ds : list partition_info) (t : ep_table) : outcome ep_table :=
  sync_entries (Z.to_nat (VAL_S_EP_COUNT + 1)) 1 (VAL_S_EP_COUNT + 1) ds t.

Definition FFA_PARTITION_INFO_V1_0_SIZE : Z := 8.
Definition FFA_PARTITION_INFO_V1_1_SIZE : Z := 24.
Definition FFA_PARTITION_INFO_V1_3_SIZE : Z := 48.

Definition heap_op {A} (f : heap -> outcome (A * heap)) : cmd (fw W) A := zoom fw_heap set_fw_heap f.

(** The descriptor array [ret_info[0 .. count - 1]]. *)
Definition ret_infos (m : mem) (ret_info count : Z) : list partition_info :=
  map (fun j => rd_partition_info m (ret_info + sizeof_partition_info * j)) (seqZ 0 count).

(** The descriptors appear in the RX buffer. *)
Definition rx_visible : cmd (fw W) unit :=
  modify (fun s => set_fw_heap (set_hmem (fw_heap s) (rx_written (fw_world s) (hmem (fw_heap s)))) s).

Definition parse_partitions (ret_info rx_buff desc_size desc_count : Z) : cmd (fw W) unit :=
  heap_op (fun h => let! m := val_ffa_partition_descriptor_info_parser (hmem h) ret_info rx_buff
                                desc_size desc_count in Ret (tt, set_hmem h m)).

(** The matching of the table with the [desc_count] descriptors at [ret_info]. *)
Definition match_partitions (ret_info desc_count : Z) : cmd (fw W) unit := fun s =>
  (t ← lift (relayer_sync_table (ret_infos (hmem (fw_heap s)) ret_info desc_count) (ep_tbl s));
   modify (set_tbl t)) s.

(** From the request to the label [rx_release]. *)
Definition fetch_partitions (rx_buff : Z) : cmd (fw W) unit :=
  payload ← fw_ffa (val_ffa_partition_info_get conduit
              (FfaArgs 0 0 0 0 0 FFA_PARTITION_INFO_FLAG_RETDESC 0 0 0 0 0 0 0 0 0 0 0 0));
  if fid payload =? FFA_ERROR_32 then mret tt
  else
    _ ← rx_visible;
    let desc_count := u32 (arg2 payload) in
    let desc_size := u32 (arg3 payload) in
    ret_info ← heap_op (fun h => val_malloc heap_base h (desc_count * sizeof_partition_info));
    if (ret_info =? 0) && (0 <? desc_count) then lift Fault
    else
      _ ← parse_partitions ret_info rx_buff desc_size desc_count;
      if negb (desc_size =? FFA_PARTITION_INFO_V1_0_SIZE) && negb (desc_size =? FFA_PARTITION_INFO_V1_1_SIZE)
         && negb (desc_size =? FFA_PARTITION_INFO_V1_3_SIZE) then mret tt
      else match_partitions ret_info desc_count.

(** The label [free_memory]: the second buffer is only freed when the first was. *)
Definition free_buffers (rx_buff tx_buff : Z) : cmd (fw W) unit :=
  st ← heap_op (fun h => val_free h rx_buff);
  if negb (st =? 0) then mret tt else _ ← heap_op (fun h => val_free h tx_buff); mret tt.

(** [val_rxtx_unmap(val_get_endpoint_id(VM1))] *)
Definition rxtx_unmap_vm1 : cmd (fw W) Z := fun s =>
  (vm1 ← lift (val_get_endpoint_id (ep_tbl s) VM1); fw_ffa (val_rxtx_unmap conduit vm1)) s.

Definition val_ep_info_relayer_sync : cmd (fw W) unit :=
  tx_buff ← heap_op (fun h => val_aligned_alloc heap_base h 4096 4096);
  rx_buff ← heap_op (fun h => val_aligned_alloc heap_base h 4096 4096);
  if (rx_buff =? 0) || (tx_buff =? 0) then free_buffers rx_buff tx_buff
  else
    st ← fw_ffa (val_rxtx_map_64 conduit tx_buff rx_buff (4096 / 4096));
    if negb (st =? 0) then free_buffers rx_buff tx_buff
    else
      _ ← fetch_partitions rx_buff;
      _ ← fw_ffa (val_rx_release conduit);
      _ ← rxtx_unmap_vm1;
      free_buffers rx_buff tx_buff.

(** ** Synchronising the table

    [val_endpoint_info_t] is 32 bytes; it travels as eight words. *)

Definition byte_of (w k : Z) : Z := Z.land (Z.shiftr w (8 * k)) 0xff.

Definition ep_words (e : ep_info) : list Z :=
  let n k := nth k (ep_name e) 0 in
  [Z.lor (n 0%nat) (Z.lor (Z.shiftl (n 1%nat) 8) (Z.lor (Z.shiftl (n 2%nat) 16) (Z.shiftl (n 3%nat) 24)));
   Z.lor (n 4%nat) (Z.lor (Z.shiftl (Z.lor (is_valid e) (Z.shiftl (is_secure e) 4)) 8) (Z.shiftl (ep_id e) 16));
   Z.lor (tg0 e) (Z.lor (Z.shiftl (el_info e) 8) (Z.shiftl (ec_count e) 16));
   ep_properties e] ++ ep_uuid e.

Definition ep_of_words (w : list Z) : ep_info :=
  let x k := nth k w 0 in
  EpInfo [byte_of (x 0%nat) 0; byte_of (x 0%nat) 1; byte_of (x 0%nat) 2; byte_of (x 0%nat) 3; byte_of (x 1%nat) 0]
    (Z.land (byte_of (x 1%nat) 1) 0xf) (Z.shiftr (byte_of (x 1%nat) 1) 4) (Z.shiftr (x 1%nat) 16)
    (byte_of (x 2%nat) 0) (byte_of (x 2%nat) 1) (Z.shiftr (x 2%nat) 16)
    (x 3%nat) [x 4%nat; x 5%nat; x 6%nat; x 7%nat].

Definition EP_INFO_SYNC_SERVICE : Z := 0xFFEE.

(** The two messages for entry [j]. *)
Definition sync_args (arg1 j : Z) (w : list Z) : ffa_args :=
  let x k := nth k w 0 in
  FfaArgs 0 arg1 0 (Z.lor (u32 (Z.shiftl j 16)) EP_INFO_SYNC_SERVICE)
    (x 0%nat) (x 1%nat) (x 2%nat) (x 3%nat) 0 0 0 0 0 0 0 0 0 0.

Definition direct_req_32 (a : ffa_args) : cmd (fw W) ffa_args :=
  fw_ffa (val_ffa_msg_send_direct_req_32 conduit resume_on_interrupt fuel a).

Definition send_sync_entry (i j : Z) : cmd (fw W) unit := fun s =>
  (vm1 ← lift (val_get_endpoint_id (ep_tbl s) VM1);
   to ← lift (ep_at (ep_tbl s) i);
   e ← lift (ep_at (ep_tbl s) j);
   let arg1 := Z.lor (u32 (Z.shiftl vm1 16)) (ep_id to) in
   r0 ← direct_req_32 (sync_args arg1 j (take 4 (ep_words e)));
   r1 ← direct_req_32 (sync_args arg1 j (drop 4 (ep_words e)));
   if (fid r0 =? FFA_ERROR_32) || (fid r1 =? FFA_ERROR_32) then panic else mret tt) s.

(** [for (j = 1; j <= count; j++)] *)
Fixpoint send_sync_entries (n : nat) (i j : Z) : cmd (fw W) unit :=
  match n with
  | O => mret tt
  | S n' => _ ← send_sync_entry i j; send_sync_entries n' i (j + 1)
  end.

(** [for (i = 1; i <= VAL_S_EP_COUNT; i++)] *)
Fixpoint send_sync_partitions (n : nat) (i : Z) : cmd (fw W) unit :=
  match n with
  | O => mret tt
  | S n' => fun s =>
      (to ← lift (ep_at (ep_tbl s) i);
       _ ← (if is_valid to =? VAL_PARTITION_NOT_PRESENT then mret tt
            else send_sync_entries (Z.to_nat (VAL_S_EP_COUNT + 1)) i 1);
       send_sync_partitions n' (i + 1)) s
  end.

Definition val_send_sync_ep_info : cmd (fw W) unit := send_sync_partitions (Z.to_nat VAL_S_EP_COUNT) 1.

(** The partition's side.  The answer to the first message brings the second. *)
Definition val_sync_ep_info_service (args : ffa_args) : cmd (fw W) unit :=
  let i := Z.shiftr (u32 (arg3 args)) 16 in
  let sender := Z.land (arg1 args) 0xFFFF in
  let receiver := Z.shiftr (Z.land (arg1 args) 0xFFFF0000) 16 in
  let resp := FfaArgs 0 (Z.lor (u32 (Z.shiftl sender 16)) receiver) 0 0 0 0 0 0 0 0 0 0 0 0 0 0 0 0 in
  payload ← fw_ffa (val_ffa_msg_send_direct_resp_32 conduit resp);
  if fid payload =? FFA_ERROR_32 then panic
  else fun s =>
    let w := [u32 (arg4 args); u32 (arg5 args); u32 (arg6 args); u32 (arg7 args);
              u32 (arg4 payload); u32 (arg5 payload); u32 (arg6 payload); u32 (arg7 payload)] in
    (t ← lift (ep_set (ep_tbl s) i (fun _ => ep_of_words w));
     modify (set_tbl t)) s.
End Framework.
