(* ===== verification/FrameworkProof.v ===== *)
(** * Proofs about the framework

    The NVM as eight words, the recovery of the last test, and the types of the
    fields of the endpoint table, which its synchronisation (SyncProof) relies on. *)

From S2P Require Import Prelude ValCommon CMem Libc Malloc EndpointInfo FfaAbi FfaHelpers Framework.

(** ** The NVM seen as eight words *)

Section Nvm.
Context `{ValCommon} `{NvmCommon} {W : Type}.

Definition word (s : fw W) (i : Z) : Z := ldn 4 (g_nvmem s) (VAL_NVM_OFFSET i).
Definition put_word (i v : Z) (s : fw W) : fw W := set_nvmem (stn 4 (g_nvmem s) (VAL_NVM_OFFSET i) v) s.

Lemma nvm_check_bounds_word i : In i nvm_indices -> nvm_check_bounds (VAL_NVM_OFFSET i) true 4 = 0.
Proof.
  intros Hi. apply nvm_in_range in Hi. unfold NVM_SIZE in Hi. unfold nvm_check_bounds, NVM_SIZE. cbn [negb].
  rewrite (proj2 (Z.ltb_ge _ _)), (uwrap_small 64), (proj2 (Z.ltb_ge _ _)) by lia. done.
Qed.

Lemma nvm_get_word {A} i x (err : A) k s : In i nvm_indices -> nvm_get i x err k s = k (word s i) s.
Proof.
  intros Hi. unfold nvm_get, val_nvmem_read, mbind, cmd_bind. rewrite nvm_check_bounds_word by done.
  cbn [negb Z.eqb]. rewrite VAL_SUCCESS_zero. done.
Qed.

Lemma nvm_put_word {A} i x (err : A) k s : In i nvm_indices -> nvm_put i x err k s = k (put_word i x s).
Proof.
  intros Hi. unfold nvm_put, val_nvmem_write, mbind, cmd_bind. rewrite nvm_check_bounds_word by done.
  cbn [negb Z.eqb]. rewrite VAL_SUCCESS_zero. done.
Qed.

Lemma word_put_eq i v s : word (put_word i v s) i = u32 v.
Proof. unfold word, put_word. cbn. apply (ldn_stn_same 4). Qed.

Lemma word_put_ne i j v s :
  In i nvm_indices -> In j nvm_indices -> i <> j -> word (put_word i v s) j = word s j.
Proof.
  intros Hi Hj Hij. unfold word, put_word. cbn. apply ldn_stn_out.
  destruct (nvm_apart i j Hi Hj Hij); lia.
Qed.

Lemma word_range s i : 0 <= word s i < 2 ^ 32.
Proof. apply (ldn_range 4). Qed.
End Nvm.

(** Membership in the list of indices, and their being distinct. *)
Ltac nvm_index := unfold nvm_indices; cbn [In]; tauto.
Ltac nvm_distinct :=
  let H := fresh in
  pose proof nvm_distinct as H; unfold nvm_indices in H;
  rewrite !List.NoDup_cons_iff in H; cbn [In] in H; intuition congruence.
Ltac nvm_words :=
  repeat first
    [ rewrite nvm_get_word by nvm_index
    | rewrite nvm_put_word by nvm_index
    | rewrite word_put_eq
    | rewrite word_put_ne by first [nvm_index | nvm_distinct] ].

(** ** Confinement of NVM accesses *)

Section NvmBounds.
Context `{ValCommon} {W : Type}.

Lemma nvm_check_bounds_spec offset buffer size :
  is_uint 32 offset -> is_uint 64 size ->
  nvm_check_bounds offset buffer size = 0 <-> buffer = true /\ size = 4 /\ offset + 4 <= NVM_SIZE.
Proof.
  unfold is_uint, nvm_check_bounds, NVM_SIZE, VAL_ERROR. intros Ho Hs. destruct buffer; cbn [negb]; [|intuition lia].
  destruct (Z.ltb_spec 1024 offset); [intuition lia|].
  destruct (Z.eqb_spec size 4) as [->|Hne]; cbn [negb].
  - usmall. destruct (Z.ltb_spec 1024 (offset + 4)); intuition lia.
  - destruct (1024 <? _); intuition lia.
Qed.

(** The non-volatile memory accepts words of four bytes inside its size and nothing
    else; a word written is read back and no other byte changes. *)
Theorem nvm_access_confined offset v size (s : fw W) :
  is_uint 32 offset -> is_uint 64 size -> is_uint 32 v ->
  (size = 4 /\ offset + 4 <= NVM_SIZE ->
     exists s', val_nvmem_write offset (Some v) size s = Ret (VAL_SUCCESS, s') /\
       val_nvmem_read offset (Some 0) size s' = Ret ((VAL_SUCCESS, Some v), s') /\
       frame offset 4 (g_nvmem s) (g_nvmem s') /\ s' = set_nvmem (g_nvmem s') s) /\
  (~ (size = 4 /\ offset + 4 <= NVM_SIZE) ->
     val_nvmem_write offset (Some v) size s = Ret (VAL_ERROR, s) /\
     val_nvmem_read offset (Some v) size s = Ret ((VAL_ERROR, Some v), s)) /\
  val_nvmem_write offset None size s = Ret (VAL_ERROR, s) /\
  val_nvmem_read offset None size s = Ret ((VAL_ERROR, None), s).
Proof.
  intros Ho Hs Hv. pose proof (nvm_check_bounds_spec offset true size Ho Hs) as HB.
  unfold val_nvmem_write, val_nvmem_read. split; [|split; [|done]].
  - intros [-> Hb]. rewrite (proj2 HB) by done. cbn [negb Z.eqb]. eexists. split; [reflexivity|].
    cbn. rewrite ldn_stn_same_small by exact Hv. split; [done|]. split; [apply (frame_stn 4) | done].
  - intros Hn. destruct (Z.eqb_spec (nvm_check_bounds offset true size) 0) as [E|_]; [|done].
    apply HB in E. tauto.
Qed.
End NvmBounds.

(** ** The last test *)

Section LastTest.
Context `{ValCommon} `{NvmCommon} `{InfoCommon} {W : Type}.

Definition stored_info (s : fw W) : test_info :=
  TestInfo (word s NVM_CUR_SUITE_NUM_INDEX) (word s NVM_CUR_TEST_NUM_INDEX)
    (word s NVM_END_TEST_NUM_INDEX) (word s NVM_TEST_PROGRESS_INDEX).
Definition stored_report (s : fw W) : regre_report :=
  RegreReport (word s NVM_TOTAL_PASS_INDEX) (word s NVM_TOTAL_FAIL_INDEX)
    (word s NVM_TOTAL_SKIP_INDEX) (word s NVM_TOTAL_ERROR_INDEX).

Definition info_uint32 (i : test_info) : Prop :=
  Forall (is_uint 32) [suite_num i; test_num i; end_test_num i; test_progress i].
Definition report_uint32 (r : regre_report) : Prop :=
  Forall (is_uint 32) [total_pass r; total_fail r; total_skip r; total_error r].

(** A reset that left a known progress value in the NVM. *)
Definition warm (s : fw W) : bool :=
  is_reboot_run (word s NVM_TEST_PROGRESS_INDEX) [TEST_START; TEST_END; TEST_FAIL; TEST_REBOOTING].

Definition clear_report : regre_report := val_reset_regression_report (RegreReport 0 0 0 0).

(** The state after a cold boot was detected. *)
Definition cold_state (s : fw W) : fw W :=
  let i := val_reset_test_info_fields (stored_info s) in
  put_word NVM_TOTAL_ERROR_INDEX (total_error clear_report) (
  put_word NVM_TOTAL_SKIP_INDEX (total_skip clear_report) (
  put_word NVM_TOTAL_FAIL_INDEX (total_fail clear_report) (
  put_word NVM_TOTAL_PASS_INDEX (total_pass clear_report) (
  put_word NVM_TEST_PROGRESS_INDEX (test_progress i) (
  put_word NVM_END_TEST_NUM_INDEX (end_test_num i) (
  put_word NVM_CUR_TEST_NUM_INDEX (test_num i) (
  put_word NVM_CUR_SUITE_NUM_INDEX (suite_num i) s))))))).

Lemma last_run_info_eq info (s : fw W) :
  val_get_last_run_test_info info s =
  if warm s then Ret ((VAL_SUCCESS, stored_info s), s)
  else Ret ((VAL_SUCCESS, val_reset_test_info_fields (stored_info s)), cold_state s).
Proof.
  unfold val_get_last_run_test_info. cbv zeta. do 4 rewrite nvm_get_word by nvm_index. unfold warm.
  destruct (is_reboot_run _ _); [done|]. do 8 rewrite nvm_put_word by nvm_index. done.
Qed.

Lemma cold_state_stored s :
  info_uint32 (val_reset_test_info_fields (stored_info s)) -> report_uint32 clear_report ->
  stored_info (cold_state s) = val_reset_test_info_fields (stored_info s) /\
  stored_report (cold_state s) = clear_report.
Proof.
  unfold info_uint32, report_uint32. rewrite !List.Forall_cons_iff. intros (? & ? & ? & ? & _) (? & ? & ? & ? & _).
  unfold cold_state. set (i := val_reset_test_info_fields (stored_info s)) in *. cbv zeta.
  unfold stored_info, stored_report. nvm_words. usmall. split; [by destruct i | by destruct clear_report].
Qed.

(** A byte of the NVM that belongs to none of the eight words. *)
Definition outside_words (b : Z) : Prop :=
  forall i, In i nvm_indices -> b < VAL_NVM_OFFSET i \/ VAL_NVM_OFFSET i + 4 <= b.

Lemma put_word_outside i v (s : fw W) b :
  In i nvm_indices -> outside_words b -> ld8 (g_nvmem (put_word i v s)) b = ld8 (g_nvmem s) b.
Proof. intros Hi Hb. apply (ld8_stn_out 4). by apply Hb. Qed.

(** val_get_last_run_test_info returns what the non-volatile memory stores: on a
    warm boot it changes nothing; on a cold boot it first writes the reset test
    information and a cleared report, and no byte outside those words. *)
Theorem last_run_info info (s : fw W) :
  info_uint32 (val_reset_test_info_fields (stored_info s)) -> report_uint32 clear_report ->
  exists s', val_get_last_run_test_info info s = Ret ((VAL_SUCCESS, stored_info s'), s') /\
    (if warm s then s' = s
     else stored_info s' = val_reset_test_info_fields (stored_info s) /\ stored_report s' = clear_report /\
          s' = set_nvmem (g_nvmem s') s /\
          forall b, outside_words b -> ld8 (g_nvmem s') b = ld8 (g_nvmem s) b).
Proof.
  intros Hi Hr. rewrite last_run_info_eq. destruct (cold_state_stored s Hi Hr) as [HI HR].
  destruct (warm s); [by eexists|]. exists (cold_state s). rewrite HI. do 4 (split; [done|]).
  intros b Hb. unfold cold_state. cbv zeta. rewrite !put_word_outside by (done || nvm_index). done.
Qed.
End LastTest.

(** ** The type of the endpoint table *)

(** Every field of [val_endpoint_info_t] is in the range of its C type. *)
Record ep_wf (e : ep_info) : Prop := EpWf {
  ew_name : Forall (is_uint 8) (ep_name e) /\ length (ep_name e) = 5%nat;
  ew_valid : is_uint 4 (is_valid e);
  ew_secure : is_uint 4 (is_secure e);
  ew_id : is_uint 16 (ep_id e);
  ew_tg0 : is_uint 8 (tg0 e);
  ew_el : is_uint 8 (el_info e);
  ew_ec : is_uint 16 (ec_count e);
  ew_props : is_uint 32 (ep_properties e);
  ew_uuid : Forall (is_uint 32) (ep_uuid e) /\ length (ep_uuid e) = 4%nat
}.
Definition table_wf (t : ep_table) : Prop := Forall ep_wf t.

Lemma set_valid_wf v e : is_uint 4 v -> ep_wf e -> ep_wf (set_valid v e).
Proof. by intros ? []. Qed.

(** ** Examples *)

(** One choice of the constants of val_common. *)
Definition demo_nvm : NvmCommon.
Proof.
  refine {| VAL_NVM_OFFSET := fun i => 4 * i;
            NVM_CUR_SUITE_NUM_INDEX := 3; NVM_CUR_TEST_NUM_INDEX := 4; NVM_END_TEST_NUM_INDEX := 5;
            NVM_TEST_PROGRESS_INDEX := 6; NVM_TOTAL_PASS_INDEX := 7; NVM_TOTAL_FAIL_INDEX := 8;
            NVM_TOTAL_SKIP_INDEX := 9; NVM_TOTAL_ERROR_INDEX := 10;
            TEST_START := 1; TEST_END := 2; TEST_FAIL := 3; TEST_REBOOTING := 4 |}.
  - cbn [In]. unfold NVM_SIZE. intros i Hi. intuition (subst; lia).
  - apply NoDup_ListNoDup, (bool_decide_unpack _). vm_compute. exact I.
  - cbn [In]. intros i j Hi Hj Hij. lia.
  - repeat (apply List.Forall_cons; [unfold is_uint; lia|]). apply List.Forall_nil.
Defined.

(** Statuses as val_common encodes them: the result in the second byte. *)
Definition demo_info : InfoCommon :=
  {| is_reboot_run p ps := existsb (Z.eqb p) ps;
     val_reset_test_info_fields _ := TestInfo 0xFF 0xFFFF 0 0;
     val_reset_regression_report _ := RegreReport 0 0 0 0;
     VAL_INVALID_TEST_NUM := 0xFFFF; VAL_STATUS_INVALID := 0xFF;
     RESULT_PASS st := 0x500 + st; RESULT_FAIL st := 0x600 + st; RESULT_SKIP st := 0x700 + st;
     val_set_status r _ := StatusBuffer (r / 256) (r mod 256);
     val_report_status b := sb_state b;
     val_handle_reboot_result p b := if p =? 4 then b else StatusBuffer 6 1;
     val_update_regression_report r t :=
       if r =? 5 then RegreReport (total_pass t + 1) (total_fail t) (total_skip t) (total_error t)
       else if r =? 6 then RegreReport (total_pass t) (total_fail t + 1) (total_skip t) (total_error t)
       else if r =? 7 then RegreReport (total_pass t) (total_fail t) (total_skip t + 1) (total_error t)
       else RegreReport (total_pass t) (total_fail t) (total_skip t) (total_error t + 1);
     val_sort_indices a b := (Z.min a b, Z.max a b);
     FFA_PARTITION_INFO_FLAG_RETDESC := 0 |}.

Definition demo_state {W} (t : ep_table) (w : W) : fw W :=
  Fw ∅ t (Heap ∅ 0 0) fid_state_init (StatusBuffer 0 0) (MpTestStatus 0 (repeat 107 8) (repeat 0xFF 8)) w.

Lemma demo_table_wf : table_wf demo_table.
Proof.
  unfold table_wf, demo_table.
  repeat (apply List.Forall_cons; [constructor; cbn; unfold is_uint; try lia;
    (split; [|done]); repeat (apply List.Forall_cons; [unfold is_uint; lia|]); apply List.Forall_nil|]).
  apply List.Forall_nil.
Qed.

Lemma nvm_access_confined_witness :
  exists s', @val_nvmem_write sample_val_common unit 0x3fc (Some 7) 4 (demo_state demo_table tt) =
             Ret (@VAL_SUCCESS sample_val_common, s') /\
    @val_nvmem_read sample_val_common unit 0x3fc (Some 0) 4 s' = Ret ((@VAL_SUCCESS sample_val_common, Some 7), s').
Proof.
  destruct (@nvm_access_confined sample_val_common unit 0x3fc 7 4 (demo_state demo_table tt)) as [HW _].
  1-3: unfold is_uint; lia.
  destruct HW as (s' & E1 & E2 & _); [split; [done | vm_compute; congruence]|].
  exists s'. split; [exact E1 | exact E2].
Defined.

(** A cold boot: the NVM holds no progress value. *)
Lemma last_run_info_witness :
  exists s', @val_get_last_run_test_info sample_val_common demo_nvm demo_info unit (TestInfo 0 0 0 0) (demo_state demo_table tt) =
             Ret ((0, @stored_info demo_nvm unit s'), s') /\
    @stored_info demo_nvm unit s' = TestInfo 0xFF 0xFFFF 0 0.
Proof.
  destruct (@last_run_info sample_val_common demo_nvm demo_info unit (TestInfo 0 0 0 0) (demo_state demo_table tt))
    as (s' & E & Hs).
  1,2: repeat (apply List.Forall_cons; [vm_compute; intuition congruence|]); apply List.Forall_nil.
  exists s'. split; [exact E|]. exact (proj1 Hs).
Defined.

