(* ===== verification/TestDispatch.v ===== *)
(** * Running tests ([val_test_dispatch.c])

    VM1 drives the regression; every other endpoint waits in
    [val_wait_for_test_fn_req] for direct messages that name a test function to
    run, or one of the framework's services.  What to run is packed into the
    32-bit word [test_run_data].

    The test database (the files of [test/]) is a parameter: a list of entries,
    the last one with a null entry function, whose functions are commands of the
    image.  Cache maintenance has no effect in the model, output is left out, and
    [val_image_load_offset] is part of the function values. *)

From S2P Require Import Prelude ValCommon CMem Libc Malloc EndpointInfo FfaAbi FfaHelpers Framework.

(** ** test_run_data ([val.h]) *)

Definition CLIENT_TEST : Z := 0.
Definition SERVER_TEST : Z := 1.

Definition TEST_RUN_DATA (test_num client_logic_id server_logic_id test_type : Z) : Z :=
  Z.lor (Z.lor (Z.lor (Z.lor (u32 test_num) (u32 (Z.shiftl client_logic_id 11)))
                      (u32 (Z.shiftl server_logic_id 15)))
               (u32 (Z.shiftl test_type 19))) 0.
Definition GET_TEST_NUM (x : Z) : Z := Z.land x 0x3ff.
Definition GET_CLIENT_LOGIC_ID (x : Z) : Z := Z.land (Z.shiftr x 11) 0xf.
Definition GET_SERVER_LOGIC_ID (x : Z) : Z := Z.land (Z.shiftr x 15) 0xf.
Definition GET_TEST_TYPE (x : Z) : Z := Z.land (Z.shiftr x 19) 0xf.
Definition ADD_TEST_TYPE (y x : Z) : Z :=
  u32 (Z.lor (Z.land y (Z.lnot (Z.shiftl 0xf 19))) (Z.shiftl (Z.land x 0xf) 19)).
Definition SET_SERVER_LOGIC_ID (test_run_data x : Z) : Z :=
  Z.lor (Z.land (u32 (Z.land (Z.lnot 0) (Z.lnot (Z.shiftl 0x1f 15)))) test_run_data) (u32 (Z.shiftl x 15)).

Definition NVM_WRITE_SERVICE : Z := 0xFFAA.
Definition NVM_READ_SERVICE : Z := 0xFFBB.
Definition WD_ENABLE_SERVICE : Z := 0xFFCC.
Definition WD_DISABLE_SERVICE : Z := 0xFFDD.

Section Dispatch.
Context `{ValCommon} `{ValConfig} `{NvmCommon} `{InfoCommon}.
Context {W : Type} (conduit : ffa_args -> W -> ffa_args * W).
Context (resume_on_interrupt : bool) (fuel : nat).
Context (heap_base : Z) (rx_written : W -> mem -> mem) (ffa_version : ffa_v).
(** The entry point of a secondary CPU. *)
Context (ep_entry : Z).
(** What FFA_ID_GET answers to this image. *)
Context (curr_id : Z).

Abbreviation run := (cmd (fw W)).

(** ** test_list[] *)
Record test_db := TestDb {
  db_suite : Z;
  test_name : Z;
  testentry_fn : option (Z -> run unit);
  client_fn : option (Z -> run Z);
  server_fn : option (ffa_args -> run Z);
  sec_cpu_client_fn : option (Z -> run Z);
  sec_cpu_server_fn : option (ffa_args -> run Z);
  test_fid : Z
}.
Context (test_list : list test_db).
Definition total_tests : Z := u32 (Z.of_nat (length test_list)).
(** The read-only data of the image, where the names are. *)
Context (rodata : mem).
(** [SUITE_TEST_RANGE]: the names of the first and the last test to run. *)
Context (suite_test_range : option (Z * Z)).
(** In the TPM partition, the CRB service: is it a request, and its handler. *)
Context (tpm_crb_service : option ((ffa_args -> bool) * (ffa_args -> run ffa_args))).

(** [test_list[n]]; beyond the array is undefined. *)
Definition test_at (n : Z) : run test_db := fun s =>
  match test_list !! Z.to_nat n with Some t => Ret (t, s) | None => Fault end.

(** [if (fn == NULL) VAL_PANIC; else call it] *)
Definition call {A B} (fn : option (A -> run B)) (a : A) : run B :=
  match fn with Some f => f a | None => panic end.

(** ** Which endpoint pairs the platform supports *)

(** [PLATFORM_NS_HYP_MULTI_VM == 0 && ..] etc., in the order of the code; [true]
    is an early [return VAL_SKIP_CHECK]. *)
Definition config_skips (c s : Z) : bool :=
  (ENABLE_TPM_CRB && (negb (c =? VM1) || (negb (s =? TPM_SP) && negb (s =? NO_SERVER_EP))))
  || (negb PLATFORM_NS_HYP_MULTI_VM && ((c =? VM2) || (c =? VM3) || (s =? VM2) || (s =? VM3)))
  || ((PLATFORM_SP_EL =? -1) &&
      ((c =? SP1) || (s =? SP1) || (c =? SP2) || (s =? SP2) || (c =? SP3) || (s =? SP3)
       || (c =? SP4) || (s =? SP4) || (ENABLE_TPM_CRB && ((c =? TPM_SP) || (s =? TPM_SP)))))
  || ((PLATFORM_SPMC_EL =? 1) && (PLATFORM_SP_EL =? 1) &&
      ((c =? SP2) || (c =? SP3) || (s =? SP2) || (s =? SP3) || (c =? SP4) || (s =? SP4)))
  || (negb PLATFORM_SP_SEND_DIRECT_REQ && negb ENABLE_TPM_CRB && ((c <=? SP4) && negb (s =? NO_SERVER_EP)))
  || (negb PLATFORM_VM_SEND_DIRECT_RESP && negb ENABLE_TPM_CRB && ((SP4 <? s) && negb (s =? NO_SERVER_EP)))
  || (ENABLE_TPM_CRB && ((s =? TPM_SP) && negb (c =? VM1))).

Definition validate_test_config (client_logical_id server_logical_id : Z) : run Z :=
  if config_skips client_logical_id server_logical_id then mret VAL_SKIP_CHECK
  else val_check_ep_compile_status client_logical_id server_logical_id.

(** ** Test functions *)

Definition val_execute_client_test_fn (test_run_data : Z) : run Z :=
  t ← test_at (GET_TEST_NUM test_run_data); call (client_fn t) test_run_data.

Definition val_execute_server_test_fn (args : ffa_args) : run Z :=
  t ← test_at (u32 (GET_TEST_NUM (arg3 args))); call (server_fn t) args.

Definition val_sec_cpu_execute_server_test_fn (args : ffa_args) : run Z :=
  t ← test_at (u32 (GET_TEST_NUM (arg3 args))); call (sec_cpu_server_fn t) args.

(** ** Messages *)

Definition msg (arg1 a3 a4 a5 a6 a7 : Z) : ffa_args := FfaArgs 0 arg1 0 a3 a4 a5 a6 a7 0 0 0 0 0 0 0 0 0 0.
Definition route (sender receiver : Z) : Z := Z.lor (u32 (Z.shiftl (u32 sender) 16)) receiver.

Definition send_req (a : ffa_args) : run ffa_args :=
  fw_ffa (val_ffa_msg_send_direct_req_32 conduit resume_on_interrupt fuel a).
Definition send_resp (a : ffa_args) : run ffa_args := fw_ffa (val_ffa_msg_send_direct_resp_32 conduit a).

Definition endpoint_id (logical_id : Z) : run Z := fun s => lift (val_get_endpoint_id (ep_tbl s) logical_id) s.

Definition val_select_server_fn_direct (test_run_data a4 a5 a6 a7 : Z) : run ffa_args :=
  let client_logical_id := GET_CLIENT_LOGIC_ID test_run_data in
  let server_logical_id := GET_SERVER_LOGIC_ID test_run_data in
  let test_run_data := ADD_TEST_TYPE test_run_data SERVER_TEST in
  c ← endpoint_id client_logical_id;
  v ← endpoint_id server_logical_id;
  send_req (msg (route c v) test_run_data a4 a5 a6 a7).

Definition val_resp_client_fn_direct (test_run_data a3 a4 a5 a6 a7 : Z) : run ffa_args :=
  let client_logical_id := GET_CLIENT_LOGIC_ID test_run_data in
  let server_logical_id := GET_SERVER_LOGIC_ID test_run_data in
  v ← endpoint_id server_logical_id;
  c ← endpoint_id client_logical_id;
  send_resp (msg (route v c) a3 a4 a5 a6 a7).

(** ** VM1: one test on one pair of endpoints *)

Definition run_pair (test_num client_logical_id server_logical_id : Z) : run Z :=
  let test_run_data := TEST_RUN_DATA test_num client_logical_id server_logical_id CLIENT_TEST in
  status ← validate_test_config client_logical_id server_logical_id;
  if negb (status =? 0) then mret status
  else if client_logical_id =? VM1 then val_execute_client_test_fn test_run_data
  else if server_logical_id =? VM1 then mret VAL_ERROR
  else
    c ← endpoint_id client_logical_id;
    payload ← send_req (msg (route curr_id c) test_run_data 0 0 0 0);
    if fid payload =? FFA_MSG_SEND_DIRECT_RESP_32 then mret (u32 (arg3 payload)) else mret VAL_ERROR.

Definition val_execute_test (test_num client_logical_id server_logical_id : Z) : run Z :=
  status ← run_pair test_num client_logical_id server_logical_id;
  let result := if status =? VAL_SKIP_CHECK then RESULT_SKIP status
                else if status =? VAL_SUCCESS then RESULT_PASS status
                else RESULT_FAIL status in
  _ ← modify (fun s => set_status (val_set_status result (status_buf s)) s);
  mret result.

(** ** The other endpoints: serve one request

    The cases of the [switch] on the low half of arg3; each ends with a direct
    response whose answer is the next request. *)
Definition serve (payload : ffa_args) : run ffa_args :=
  let target_id := SENDER_ID (arg1 payload) in
  let my_id := RECEIVER_ID (arg1 payload) in
  let test_run_data := u32 (arg3 payload) in
  let service_data := Z.land (u32 (arg3 payload)) 0xFFFF in
  let back := route my_id target_id in
  if service_data =? NVM_WRITE_SERVICE then
    st ← val_nvmem_write (u32 (arg4 payload)) (Some (u32 (arg6 payload))) (arg5 payload);
    if negb (st =? 0) then panic else send_resp (msg back 0 0 0 0 0)
  else if service_data =? NVM_READ_SERVICE then
    '(st, b) ← val_nvmem_read (u32 (arg4 payload)) (Some 0) (arg5 payload);
    if negb (st =? 0) then panic else send_resp (msg back (default 0 b) 0 0 0 0)
  else if service_data =? WD_ENABLE_SERVICE then
    st ← val_wd_enable; if negb (st =? 0) then panic else send_resp (msg back 0 0 0 0 0)
  else if service_data =? WD_DISABLE_SERVICE then
    st ← val_wd_disable; if negb (st =? 0) then panic else send_resp (msg back 0 0 0 0 0)
  else if service_data =? EP_INFO_SYNC_SERVICE then
    _ ← val_sync_ep_info_service conduit payload;
    send_resp (msg back 0 0 0 0 0)
  else
    status ← (if GET_TEST_TYPE test_run_data =? SERVER_TEST then val_execute_server_test_fn payload
              else val_execute_client_test_fn test_run_data);
    send_resp (msg back status 0 0 0 0).

(** The CRB service takes its requests first. *)
Definition tpm_request (payload : ffa_args) : option (ffa_args -> run ffa_args) :=
  match tpm_crb_service with
  | Some (is_request, handle) => if is_request payload then Some handle else None
  | None => None
  end.

(** The endless loop; it only ends on a message that is no direct request. *)
Fixpoint serve_loop (n : nat) (payload : ffa_args) : run unit := fun s =>
  match n with
  | O => Diverge
  | S n' =>
      match tpm_request payload with
      | Some handle => (payload ← handle payload; serve_loop n' payload) s
      | None =>
          if negb (fid payload =? FFA_MSG_SEND_DIRECT_REQ_32) then Ret (tt, s)
          else (payload ← serve payload; serve_loop n' payload) s
      end
  end.

Definition val_wait_for_test_fn_req (n : nat) : run unit :=
  payload ← fw_ffa (val_ffa_msg_wait conduit ffa_args_zero);
  serve_loop n payload.

(** The loop of the secondary CPUs: server tests only. *)
Fixpoint sec_cpu_loop (n : nat) (payload : ffa_args) : run unit := fun s =>
  if negb (fid payload =? FFA_MSG_SEND_DIRECT_REQ_32) then Ret (tt, s)
  else match n with
       | O => Diverge
       | S n' =>
           if GET_TEST_TYPE (u32 (arg3 payload)) =? SERVER_TEST then
             (status ← val_sec_cpu_execute_server_test_fn payload;
              payload ← send_resp (msg (route (RECEIVER_ID (arg1 payload)) (SENDER_ID (arg1 payload))) status 0 0 0 0);
              sec_cpu_loop n' payload) s
           else Panic
       end.

Definition val_sec_cpu_wait_for_test_fn_req (n : nat) : run unit :=
  payload ← fw_ffa (val_ffa_msg_wait conduit ffa_args_zero);
  sec_cpu_loop n payload.

(** ** VM1: the regression *)

Definition fid_supported (f : Z) : run bool := fun s =>
  (st ← fw_ffa (val_is_ffa_feature_supported conduit ffa_version (ffa_fid_state s) f); mret (st =? 0)) s.

Definition val_check_test_abi_support (test_index : Z) : run bool :=
  test ← test_at test_index;
  if test_fid test =? FFA_FID_SKIP_CHECK then mret true
  else if negb (Z.land (test_fid test) FFA_FID_UPPER_MASK =? 0) then fid_supported (test_fid test)
  else
    has_32 ← fid_supported (Z.lor (test_fid test) FFA_FID_ABI32_PREFIX);
    if (has_32 : bool) then mret true else fid_supported (Z.lor (test_fid test) FFA_FID_ABI64_PREFIX).

Definition set_current_test (i : Z) : run unit :=
  modify (fun s => set_mp (MpTestStatus i (g_other_pe_test_state (g_mp_state s))
                                        (g_other_pe_test_result (g_mp_state s))) s).

(** The report is kept in the NVM, where it survives a reset. *)
Definition read_report {A} (r : regre_report) (err : A) (k : regre_report -> run A) : run A :=
  nvm_get NVM_TOTAL_PASS_INDEX (total_pass r) err (fun p =>
  nvm_get NVM_TOTAL_FAIL_INDEX (total_fail r) err (fun f =>
  nvm_get NVM_TOTAL_SKIP_INDEX (total_skip r) err (fun sk =>
  nvm_get NVM_TOTAL_ERROR_INDEX (total_error r) err (fun e => k (RegreReport p f sk e))))).
Definition write_report {A} (r : regre_report) (err : A) (k : run A) : run A :=
  nvm_put NVM_TOTAL_PASS_INDEX (total_pass r) err (
  nvm_put NVM_TOTAL_FAIL_INDEX (total_fail r) err (
  nvm_put NVM_TOTAL_SKIP_INDEX (total_skip r) err (
  nvm_put NVM_TOTAL_ERROR_INDEX (total_error r) err k))).

(** After each test: its result is added to the report. *)
Definition record_result {A} (r : regre_report) (err : A) (k : regre_report -> run A) : run A :=
  test_result ← gets (fun s => val_report_status (status_buf s));
  read_report r err (fun r =>
  let r := val_update_regression_report test_result r in
  write_report r err (k r)).

(** [val_test_init(i); test_entry_fn_ptr(i); val_test_exit();] *)
Definition run_test (fn : Z -> run unit) (i : Z) : run unit :=
  _ ← val_test_init; _ ← fn i; val_test_exit.

(** The body of the loop for test [i], when no reboot is being resumed; the
    result says whether a test ran, [None] is the return on an NVM error. *)
Definition start_test (fn : Z -> run unit) (suite i : Z) : run (option bool) :=
  nvm_put NVM_CUR_SUITE_NUM_INDEX suite None (
  nvm_put NVM_CUR_TEST_NUM_INDEX i None (
  _ ← set_current_test i;
  ok ← val_check_test_abi_support i;
  if (ok : bool) then _ ← run_test fn i; mret (Some true) else mret (Some false))).

(** [for (i = test_num_start; i <= test_num_end; i++)] *)
Fixpoint dispatch_loop (n : nat) (i test_num_end suite_num : Z) (reboot_progress : option Z)
    (r : regre_report) : run unit :=
  match n with
  | O => fun _ => Diverge
  | S n' =>
      if test_num_end <? i then mret tt
      else
        t ← test_at i;
        match testentry_fn t with
        | None => mret tt
        | Some fn =>
            match reboot_progress with
            | Some progress =>
                _ ← modify (fun s => set_status (val_handle_reboot_result progress (status_buf s)) s);
                record_result r tt (dispatch_loop n' (u32 (i + 1)) test_num_end suite_num None)
            | None =>
                let suite := if negb (suite_num =? db_suite t) then db_suite t else suite_num in
                ran ← start_test fn suite i;
                match ran with
                | None => mret tt
                | Some false => dispatch_loop n' (u32 (i + 1)) test_num_end suite None r
                | Some true => record_result r tt (dispatch_loop n' (u32 (i + 1)) test_num_end suite None)
                end
            end
        end
  end.

(** The last test from [i] on whose name is [name]; [found] when there is none. *)
Fixpoint find_test (n : nat) (i found name : Z) : outcome Z :=
  if i <? u32 (total_tests - 1) then
    match n with
    | O => Diverge
    | S n' =>
        match test_list !! Z.to_nat i with
        | None => Fault
        | Some t =>
            let! c := val_strcmp fuel rodata (test_name t + 1) name in
            find_test n' (u32 (i + 1)) (if c =? 0 then i else found) name
        end
    end
  else Ret found.

(** The tests to run after a cold boot. *)
Definition test_range (first : Z) : outcome (Z * Z) :=
  match suite_test_range with
  | Some (start_name, end_name) =>
      let! a := find_test (length test_list) first 0 start_name in
      let! b := find_test (length test_list) first 0 end_name in
      Ret (val_sort_indices a b)
  | None => Ret (first, total_tests)
  end.

Definition val_test_dispatch : run unit :=
  _ ← val_send_sync_ep_info conduit resume_on_interrupt fuel;
  '(st, info) ← val_get_last_run_test_info (TestInfo 0 0 0 0);
  if negb (st =? 0) then mret tt
  else
    let r := RegreReport 0 0 0 0 in
    let n := S (length test_list) in
    if Framework.test_num info =? VAL_INVALID_TEST_NUM then
      '(test_num_start, test_num_end) ← lift (test_range 1);
      nvm_put NVM_END_TEST_NUM_INDEX test_num_end tt (
      dispatch_loop n test_num_start test_num_end (suite_num info) None r)
    else
      dispatch_loop n (Framework.test_num info) (end_test_num info) (suite_num info)
        (Some (test_progress info)) r.

(** ** Entry points *)

Definition my_logical_id : run Z := fun s => lift (val_get_curr_endpoint_logical_id curr_id (ep_tbl s)) s.
Definition my_el_info : run Z := fun s => lift (val_get_curr_endpoint_el_info curr_id (ep_tbl s)) s.

Definition val_run_test_suite (n : nat) : run unit :=
  me ← my_logical_id;
  el ← my_el_info;
  if me =? VM1 then
    _ ← val_ep_info_relayer_sync conduit heap_base rx_written; val_test_dispatch
  else
    _ ← (if ((me =? SP1) || (me =? SP2)) && (GET_EL_NUM el =? EL1)
         then fw_ffa (val_ffa_secondary_ep_register_64 conduit ep_entry) else mret tt);
    _ ← val_wait_for_test_fn_req n; panic.

(** ** Tests on several CPUs *)

Definition VAL_MP_STATE_INPROGRESS : Z := 105.
Definition VAL_MP_STATE_COMPLETE : Z := 106.
Definition VAL_MP_STATE_WAIT : Z := 107.

(** [g_other_pe_test_state[cpu_id]] and the result beside it. *)
Definition mp_get (get : mp_test_status -> list Z) (cpu_id : Z) : run Z := fun s =>
  match get (g_mp_state s) !! Z.to_nat cpu_id with Some v => Ret (v, s) | None => Fault end.
Definition mp_set_state (cpu_id v : Z) : run unit := fun s =>
  let m := g_mp_state s in
  if decide (Z.to_nat cpu_id < length (g_other_pe_test_state m))%nat then
    Ret (tt, set_mp (MpTestStatus (g_current_test_num m) (<[Z.to_nat cpu_id := v]> (g_other_pe_test_state m))
                                  (g_other_pe_test_result m)) s)
  else Fault.
Definition mp_set_result (cpu_id v : Z) : run unit := fun s =>
  let m := g_mp_state s in
  if decide (Z.to_nat cpu_id < length (g_other_pe_test_result m))%nat then
    Ret (tt, set_mp (MpTestStatus (g_current_test_num m) (g_other_pe_test_state m)
                                  (<[Z.to_nat cpu_id := v]> (g_other_pe_test_result m))) s)
  else Fault.

(** [cpu_id] is [val_get_cpuid] of the CPU's MPIDR; the last call,
    [val_power_off_cpu], does not return. *)
Definition val_secondary_cpu_test_entry (n : nat) (cpu_id : Z) : run unit :=
  me ← my_logical_id;
  if me =? VM1 then
    _ ← mp_set_state cpu_id VAL_MP_STATE_INPROGRESS;
    test_num ← gets (fun s => g_current_test_num (g_mp_state s));
    t ← test_at test_num;
    st ← call (sec_cpu_client_fn t) test_num;
    _ ← mp_set_result cpu_id st;
    mp_set_state cpu_id VAL_MP_STATE_COMPLETE
  else val_sec_cpu_wait_for_test_fn_req n.

(** The polling loop: [sleep] lets the other CPUs run for a millisecond. *)
Fixpoint poll_loop (n : nat) (sleep : run unit) (cpu_id count : Z) : run unit :=
  match n with
  | O => fun _ => Diverge
  | S n' =>
      st ← mp_get g_other_pe_test_state cpu_id;
      if negb (st =? VAL_MP_STATE_INPROGRESS) || (count =? 5) then mret tt
      else _ ← sleep; poll_loop n' sleep cpu_id (u32 (count - 1))
  end.

Definition val_get_multi_pe_test_status (n : nat) (sleep : run unit) (cpu_id test_num : Z) : run Z :=
  mp_test_num ← gets (fun s => g_current_test_num (g_mp_state s));
  if negb (mp_test_num =? test_num) then panic
  else
    _ ← poll_loop n sleep cpu_id 5;
    st ← mp_get g_other_pe_test_state cpu_id;
    if st =? VAL_MP_STATE_COMPLETE then
      r ← mp_get g_other_pe_test_result cpu_id;
      _ ← mp_set_state cpu_id VAL_MP_STATE_WAIT;
      _ ← mp_set_result cpu_id VAL_STATUS_INVALID;
      mret r
    else panic.
End Dispatch.
