(* ===== verification/TestCheck.v ===== *)
(** * What the conformance tests share

    The functions of [src/test] are sequences of calls with a check after each: the
    first that fails ends the function with its number.  [VAL_ERROR_POINT] comes from
    val_common. *)

From S2P Require Import Prelude ValCommon FfaAbi Framework.

(** The status of the check with the given number. *)
Class ErrorPoints := {
  VAL_ERROR_POINT : Z -> Z;
  VAL_ERROR_POINT_status : forall n, 1 <= n <= 31 -> is_uint 32 (VAL_ERROR_POINT n) /\ VAL_ERROR_POINT n <> 0
}.

(** [payload.arg1 = ..] on a structure. *)
Definition set_arg1 (x : Z) (a : ffa_args) : ffa_args :=
  FfaArgs (fid a) x (arg2 a) (arg3 a) (arg4 a) (arg5 a) (arg6 a) (arg7 a) (arg8 a) (arg9 a) (arg10 a) (arg11 a)
    (arg12 a) (arg13 a) (arg14 a) (arg15 a) (arg16 a) (arg17 a).

(** The structure cleared, [arg1] and [arg2] set. *)
Definition blank (a1 a2 : Z) : ffa_args := FfaArgs 0 a1 a2 0 0 0 0 0 0 0 0 0 0 0 0 0 0 0.

(** The call failed with the given code. *)
Definition failed_with (code : Z) (payload : ffa_args) : bool :=
  (fid payload =? FFA_ERROR_32) && (arg2 payload =? code).
Definition refused : ffa_args -> bool := failed_with FFA_ERROR_INVALID_PARAMETERS.

(** [if (..) { status = VAL_ERROR_POINT(n); goto exit; }] *)
Definition point `{ErrorPoints} {S} (n : Z) (ok : bool) (next : cmd S Z) : cmd S Z := if ok then next else mret (VAL_ERROR_POINT n).

(** A check that was passed. *)
Lemma point_inv `{ErrorPoints} {S} n ok next (s s' : S) :
  1 <= n <= 31 -> point n ok next s = Ret (0, s') -> ok = true /\ next s = Ret (0, s').
Proof.
  intros Hn. destruct ok; [done|]. cbn. intros [= E _]. by destruct (VAL_ERROR_POINT_status n Hn).
Qed.

(** ** Calls *)

(** The registers of a call with seven arguments, of 64 and of 32 bits. *)
Definition call7 (f : Z) (a : ffa_args) : ffa_args :=
  FfaArgs f (arg1 a) (arg2 a) (arg3 a) (arg4 a) (arg5 a) (arg6 a) (arg7 a) 0 0 0 0 0 0 0 0 0 0.
Definition call32 (f : Z) (a : ffa_args) : ffa_args :=
  FfaArgs f (u32 (arg1 a)) (u32 (arg2 a)) (u32 (arg3 a)) (u32 (arg4 a)) (u32 (arg5 a)) (u32 (arg6 a)) (u32 (arg7 a))
    0 0 0 0 0 0 0 0 0 0.

Section Calls.
Context {W : Type} (conduit : ffa_args -> W -> ffa_args * W).

Lemma fw_x7_eq {A} f a (k : ffa_args -> cmd (fw W) A) s :
  (fw_ffa (smccc_x7 conduit f a) ≫= k) s = let '(r, w) := conduit (call7 f a) (fw_world s) in k r (set_fw_world w s).
Proof. unfold fw_ffa, zoom, smccc_x7, ffa_smccc, mbind, cmd_bind. fold (call7 f a). by destruct (conduit _ _). Qed.
Lemma fw_w32_eq {A} f a (k : ffa_args -> cmd (fw W) A) s :
  (fw_ffa (smccc_w32 conduit f a) ≫= k) s = let '(r, w) := conduit (call32 f a) (fw_world s) in k r (set_fw_world w s).
Proof. unfold fw_ffa, zoom, smccc_w32, ffa_smccc, mbind, cmd_bind. fold (call32 f a). by destruct (conduit _ _). Qed.
Lemma fw_bind_eq {A C} (c : cmd W A) (g : A -> cmd W C) {D} (k : C -> cmd (fw W) D) s :
  (fw_ffa (c ≫= g) ≫= k) s = (fw_ffa c ≫= fun a => fw_ffa (g a) ≫= k) s.
Proof.
  unfold fw_ffa, zoom, mbind, cmd_bind. destruct (c (fw_world s)) as [[a w]| | |]; [|done..].
  cbn [fw_world set_fw_world]. by destruct (g a w) as [[b w']| | |].
Qed.
Lemma fw_ret_eq {A D} (a : A) (k : A -> cmd (fw W) D) s : (fw_ffa (mret a) ≫= k) s = k a s.
Proof. unfold fw_ffa, zoom, mbind, cmd_bind, mret, cmd_ret. by destruct s. Qed.
End Calls.

Lemma bind_ext {S A C} (c : cmd S A) (k k' : A -> cmd S C) s :
  (forall a s', k a s' = k' a s') -> (c ≫= k) s = (c ≫= k') s.
Proof. intros E. unfold mbind, cmd_bind. destruct (c s) as [[a s']| | |]; [apply E | done..]. Qed.
