(* ===== verification/DirectMessage.v ===== *)
(** * The conformance tests of direct messages

    [test/v1.0/direct_messaging]: the client and the server function of
    [ffa_direct_message_32] and [ffa_direct_message_64], which differ in the width
    of the calls, the data they exchange and one check.  They are commands of an
    image like the functions of the dispatcher, and entries of its [test_list].
    [IS_TEST_FAIL] comes from val_common. *)

From S2P Require Import Prelude ValCommon EndpointInfo FfaAbi FfaHelpers Framework TestDispatch TestCheck.

(** [VAL_IS_ENDPOINT_SECURE] (val_def.h). *)
Definition VAL_IS_ENDPOINT_SECURE `{ValConfig} (x : Z) : bool := x <? VM1.

(** ** The data (ffa_message_data.h) *)
Definition words (a3 a4 a5 a6 a7 : Z) : ffa_args := FfaArgs 0 0 0 a3 a4 a5 a6 a7 0 0 0 0 0 0 0 0 0 0.

Definition req_data_32 : ffa_args :=
  words 0x1125534411255344 0xFFEEDDCC88776655 0x88776655FFEEDDCC 0xCCBBAA99BBAA9988 0xBBAA9988CCBBAA99.
Definition expected_req_data_32 : ffa_args := words 0x11255344 0x88776655 0xFFEEDDCC 0xBBAA9988 0xCCBBAA99.
Definition resp_data_32 : ffa_args :=
  words 0x1125534411255344 0x8899665588996655 0xFF44DDCCFF44DDCC 0xBB669988BB669988 0xCC00AA99CC00AA99.
Definition expected_resp_data_32 : ffa_args := words 0x11255344 0x88996655 0xFF44DDCC 0xBB669988 0xCC00AA99.

Definition req_data_64 : ffa_args :=
  words 0x1122334411223344 0x8877665588776655 0xFFEEDDCCFFEEDDCC 0xBBAA9988BBAA9988 0xCCBBAA99CCBBAA99.
Definition expected_req_data_64 : ffa_args := req_data_64.
Definition resp_data_64 : ffa_args :=
  words 0x1125534411255344 0x8899665588996655 0xFF44DDCCFF44DDCC 0xBB669988BB669988 0xCC00AA99CC00AA99.
Definition expected_resp_data_64 : ffa_args := resp_data_64.

(** [a.arg3 != b.arg3 || .. || a.arg7 != b.arg7], negated. *)
Definition data_words (a : ffa_args) : list Z := [arg3 a; arg4 a; arg5 a; arg6 a; arg7 a].
Definition same_data (a b : ffa_args) : bool :=
  (arg3 a =? arg3 b) && (arg4 a =? arg4 b) && (arg5 a =? arg5 b) && (arg6 a =? arg6 b) && (arg7 a =? arg7 b).

(** ** The two tests *)
Record direct_test := DirectTest {
  arch64 : bool;                (* the width of the calls *)
  req_data : ffa_args; expected_req : ffa_args; resp_data : ffa_args; expected_resp : ffa_args;
  resp_check : bool             (* the client also tries a direct response *)
}.
Definition direct_32 : direct_test :=
  DirectTest false req_data_32 expected_req_data_32 resp_data_32 expected_resp_data_32 true.
Definition direct_64 : direct_test :=
  DirectTest true req_data_64 expected_req_data_64 resp_data_64 expected_resp_data_64 false.

Definition req_fid (d : direct_test) : Z := if arch64 d then FFA_MSG_SEND_DIRECT_REQ_64 else FFA_MSG_SEND_DIRECT_REQ_32.
Definition resp_fid (d : direct_test) : Z := if arch64 d then FFA_MSG_SEND_DIRECT_RESP_64 else FFA_MSG_SEND_DIRECT_RESP_32.

(** [PLATFORM_FFA_V >= FFA_V_1_1] and the other comparisons. *)
Definition v_1_0 (v : ffa_v) : bool := match v with FFA_V_1_0 => true | _ => false end.
Definition v_1_2 (v : ffa_v) : bool := match v with FFA_V_1_2 => true | _ => false end.

Section Tests.
Context `{ValCommon} `{ValConfig} `{ErrorPoints}.
Context {W : Type} (conduit : ffa_args -> W -> ffa_args * W) (resume_on_interrupt : bool) (fuel : nat) (v : ffa_v).
Context (d : direct_test).

Abbreviation run := (cmd (fw W)).

Definition direct_req (a : ffa_args) : run ffa_args :=
  fw_ffa (if arch64 d then val_ffa_msg_send_direct_req_64 conduit resume_on_interrupt fuel a
          else val_ffa_msg_send_direct_req_32 conduit resume_on_interrupt fuel a).
Definition direct_resp (a : ffa_args) : run ffa_args :=
  fw_ffa (if arch64 d then val_ffa_msg_send_direct_resp_64 conduit a else val_ffa_msg_send_direct_resp_32 conduit a).

(** *** The client *)

(** The answer to the data: after FFA_YIELD the server is resumed once. *)
Definition data_reply (server_id : Z) (payload : ffa_args) (next : ffa_args -> run Z) : run Z :=
  if fid payload =? resp_fid d then next payload
  else if negb (v_1_0 v) && (fid payload =? FFA_YIELD_32) then
    payload ← fw_ffa (val_ffa_run conduit resume_on_interrupt fuel (set_arg1 (u32 (Z.shiftl server_id 16)) payload));
    point 2 (fid payload =? resp_fid d) (next payload)
  else mret (VAL_ERROR_POINT 3).

Definition client_resp_check (client_logical_id client_id : Z) : run Z :=
  if negb (v_1_0 v) && resp_check d && negb (VAL_IS_ENDPOINT_SECURE client_logical_id) then
    recipient_1 ← endpoint_id SP1;
    payload ← direct_resp (blank (Z.lor (u32 (Z.shiftl client_id 16)) recipient_1) 0);
    point 8 (fid payload =? FFA_ERROR_32) (mret VAL_SUCCESS)
  else mret VAL_SUCCESS.

Definition client_error_checks (client_logical_id client_id server_id : Z) : run Z :=
  payload ← direct_req (blank (Z.lor (u32 (Z.shiftl server_id 16)) client_id) 0);
  point 5 (refused payload) (
  payload ← direct_req (blank (Z.lor (u32 (Z.shiftl client_id 16)) client_id) 0);
  point 6 (refused payload) (
  if v_1_2 v then client_resp_check client_logical_id client_id
  else
    payload ← direct_req (blank (Z.lor (u32 (Z.shiftl client_id 16)) server_id) 0xFFFF);
    point 7 (refused payload) (client_resp_check client_logical_id client_id))).

(** Up to the label [exit]; the result is [status]. *)
Definition client_checks (test_run_data : Z) : run Z :=
  let client_logical_id := GET_CLIENT_LOGIC_ID test_run_data in
  let server_logical_id := GET_SERVER_LOGIC_ID test_run_data in
  payload ← val_select_server_fn_direct conduit resume_on_interrupt fuel test_run_data 0 0 0 0;
  point 1 (fid payload =? FFA_MSG_SEND_DIRECT_RESP_32) (
  client_id ← endpoint_id client_logical_id;
  server_id ← endpoint_id server_logical_id;
  payload ← direct_req (set_arg1 (Z.lor (u32 (Z.shiftl client_id 16)) server_id) (req_data d));
  data_reply server_id payload (fun payload =>
  point 4 (same_data payload (expected_resp d)) (
  client_error_checks client_logical_id client_id server_id))).

Definition direct_client (test_run_data : Z) : run Z :=
  status ← client_checks test_run_data;
  payload ← val_select_server_fn_direct conduit resume_on_interrupt fuel test_run_data 0 0 0 0;
  mret (if negb (status =? 0) then status else u32 (arg3 payload)).

(** *** The server *)

(** [if (val_is_ffa_feature_supported(f)) { .. }]: the condition is a status, 0 when
    the feature is supported. *)
Definition when_status (f : Z) (call : ffa_args -> run ffa_args) (args : ffa_args) (n : Z) (ok : ffa_args -> bool)
    (next : run Z) : run Z :=
  supported ← fid_supported conduit v f;
  if negb (supported : bool) then payload ← call args; point n (ok payload) next else next.

(** The calls that must not go through while a direct request is being served. *)
Definition forbidden_calls (reply_route : Z) : run Z :=
  when_status FFA_YIELD_32 (fun a => fw_ffa (val_ffa_yield conduit a)) ffa_args_zero 6
    (fun p => if v_1_0 v then fid p =? FFA_ERROR_32 else negb (fid p =? FFA_ERROR_32)) (
  (if v_1_0 v then
     when_status FFA_MSG_POLL_32 (fun a => fw_ffa (val_ffa_msg_poll conduit a)) ffa_args_zero 7
       (fun p => fid p =? FFA_ERROR_32)
   else fun next => next) (
  when_status FFA_MSG_SEND_32 (fun a => fw_ffa (val_ffa_msg_send conduit a)) (blank reply_route 0) 8
    (fun p => fid p =? FFA_ERROR_32) (
  when_status FFA_MSG_WAIT_32 (fun a => fw_ffa (val_ffa_msg_wait conduit a)) ffa_args_zero 9
    (fun p => (fid p =? FFA_ERROR_32) && (arg2 p =? FFA_ERROR_DENIED)) (mret VAL_SUCCESS)))).

(** [payload] is the request with the data. *)
Definition server_checks (sender receiver : Z) (payload : ffa_args) : run Z :=
  point 2 (same_data payload (expected_req d)) (
  payload ← direct_resp (blank (Z.lor (u32 (Z.shiftl sender 16)) sender) 0);
  point 3 (refused payload) (
  payload ← direct_resp (blank (Z.lor (u32 (Z.shiftl sender 16)) receiver) 0);
  point 4 (refused payload) (
  payload ← direct_resp (blank (Z.lor (u32 (Z.shiftl receiver 16)) sender) 0xFFFF);
  point 5 (refused payload) (
  forbidden_calls (Z.lor (u32 (Z.shiftl receiver 16)) sender))))).

Definition direct_server (args : ffa_args) : run Z :=
  let sender := SENDER_ID (arg1 args) in
  let receiver := RECEIVER_ID (arg1 args) in
  payload ← val_resp_client_fn_direct conduit (u32 (arg3 args)) 0 0 0 0 0;
  if negb (fid payload =? req_fid d) then mret (VAL_ERROR_POINT 1)
  else
    status ← server_checks sender receiver payload;
    _ ← direct_resp (set_arg1 (Z.lor (u32 (Z.shiftl receiver 16)) sender) (resp_data d));
    mret status.
End Tests.

Section Entries.
Context `{ValCommon} `{ValConfig} `{InfoCommon} `{ErrorPoints}.
Context {W : Type} (conduit : ffa_args -> W -> ffa_args * W) (resume_on_interrupt : bool) (fuel : nat) (v : ffa_v).

Definition ffa_direct_message_32_client := direct_client conduit resume_on_interrupt fuel v direct_32.
Definition ffa_direct_message_32_server := direct_server conduit v direct_32.
Definition ffa_direct_message_64_client := direct_client conduit resume_on_interrupt fuel v direct_64.
Definition ffa_direct_message_64_server := direct_server conduit v direct_64.

(** The pairs of endpoints a test runs on; the first failure ends it.
    [only_first]: XEN_SUPPORT or TARGET_LINUX_ENV. *)
Context (test_list : list (@test_db W)) (curr_id : Z) (IS_TEST_FAIL : Z -> bool) (only_first : bool).

Fixpoint testentry_pairs (test_num : Z) (pairs : list (Z * Z)) : cmd (fw W) unit :=
  match pairs with
  | [] => mret tt
  | (c, s) :: pairs' =>
      result ← val_execute_test conduit resume_on_interrupt fuel curr_id test_list test_num c s;
      if IS_TEST_FAIL result then mret tt else testentry_pairs test_num pairs'
  end.
Definition ffa_direct_message_testentry (test_num : Z) : cmd (fw W) unit :=
  testentry_pairs test_num ((VM1, SP1) :: if only_first then [] else [(VM1, VM2); (SP1, SP2)]).
End Entries.

(** [arg1] of the request in ffa_direct_message_error and ffa_direct_message_error1,
    with the parenthesis where the code has it; [id] is the id of a partition that was
    found. *)
Definition direct_message_error_arg1 (t : ep_table) (client_logical_id id : Z) : outcome Z :=
  val_get_endpoint_id t (Z.lor client_logical_id (u32 (Z.shiftl id 16))).
