(* ===== verification/RxtxTest.v ===== *)
(** * The conformance tests of the RX/TX buffers

    [test/v1.0/setup_discovery]: ffa_rxtx_map_and_unmap and ffa_rx_release.  Both run
    on the client alone.  The buffers are pages from the heap of the endpoint. *)

From S2P Require Import Prelude ValCommon Machine CMem Malloc FfaAbi Framework TestDispatch TestCheck.

Definition FFA_RXTX_MAP_4K_SIZE : Z := 0.

(** The arguments of FFA_RXTX_MAP. *)
Definition map_request (tx rx page_count : Z) : ffa_args := FfaArgs 0 tx rx page_count 0 0 0 0 0 0 0 0 0 0 0 0 0 0.

Section Tests.
Context `{ValCommon} `{ErrorPoints}.
Context {W : Type} (conduit : ffa_args -> W -> ffa_args * W) (heap_base : Z).

Abbreviation run := (cmd (fw W)).

(** ** The pair of buffers every check of FFA_RXTX_MAP starts with *)

Definition page_buffer : run Z := heap_op (fun h => val_aligned_alloc heap_base h PAGE_SIZE_4K PAGE_SIZE_4K).

(** [if (val_free(rx_buff) || val_free(tx_buff)) status = status ? status : VAL_ERROR_POINT(n)] *)
Definition release_pages (n rx_buff tx_buff status : Z) : run Z :=
  st ← heap_op (fun h => val_free h rx_buff);
  st ← (if negb (st =? 0) then mret st else heap_op (fun h => val_free h tx_buff));
  mret (if negb (st =? 0) && (status =? 0) then VAL_ERROR_POINT n else status).

Definition with_pages (n_alloc n_free : Z) (checks : Z -> Z -> run Z) : run Z :=
  tx_buff ← page_buffer;
  rx_buff ← page_buffer;
  if (rx_buff =? 0) || (tx_buff =? 0) then mret (VAL_ERROR_POINT n_alloc)
  else status ← checks tx_buff rx_buff; release_pages n_free rx_buff tx_buff status.

Definition rxtx_map (a : ffa_args) : run ffa_args := fw_ffa (val_ffa_rxtx_map_64 conduit a).
Definition curr_endpoint_id : run Z := fw_ffa (val_get_curr_endpoint_id conduit).

(** ** ffa_rxtx_map_and_unmap *)

Definition test_rxtx_unmap_before_map : run Z :=
  id ← curr_endpoint_id;
  payload ← fw_ffa (val_ffa_rxtx_unmap conduit (blank (u32 (Z.shiftl id 16)) 0));
  point 1 (refused payload) (mret VAL_SUCCESS).

Definition unaligned_checks (tx_buff rx_buff : Z) : run Z :=
  let pages := u32 (PAGE_SIZE_4K / PAGE_SIZE_4K) in
  payload ← rxtx_map (map_request (u64 (val_mem_virt_to_phys tx_buff + 0x100)) (val_mem_virt_to_phys rx_buff) pages);
  point 3 (refused payload) (
  payload ← rxtx_map (map_request (val_mem_virt_to_phys tx_buff) (u64 (val_mem_virt_to_phys rx_buff + 0x100)) pages);
  point 4 (refused payload) (mret VAL_SUCCESS)).

Definition test_rxtx_map_unaligned_buffers : run Z := with_pages 2 5 unaligned_checks.

Definition zero_size_check (tx_buff rx_buff : Z) : run Z :=
  payload ← rxtx_map (map_request (val_mem_virt_to_phys tx_buff) (val_mem_virt_to_phys rx_buff) 0);
  point 8 (refused payload) (mret VAL_SUCCESS).

Definition invalid_size_checks (tx_buff rx_buff : Z) : run Z :=
  payload ← fw_ffa (val_ffa_features conduit (blank FFA_RXTX_MAP_64 0));
  let alignment_boundary := VAL_EXTRACT_BITS (arg2 payload) 0 1 in
  if negb (alignment_boundary =? FFA_RXTX_MAP_4K_SIZE) then
    payload ← rxtx_map (map_request (val_mem_virt_to_phys tx_buff) (val_mem_virt_to_phys rx_buff) 1);
    point 7 (refused payload) (zero_size_check tx_buff rx_buff)
  else zero_size_check tx_buff rx_buff.

Definition test_rxtx_map_invalid_buffer_size : run Z := with_pages 6 9 invalid_size_checks.

Definition denied_checks (tx_buff rx_buff : Z) : run Z :=
  st ← fw_ffa (val_rxtx_map_64 conduit tx_buff rx_buff (u32 (PAGE_SIZE_4K / PAGE_SIZE_4K)));
  if negb (st =? 0) then mret (VAL_ERROR_POINT 11)
  else
    payload ← rxtx_map (map_request (val_mem_virt_to_phys tx_buff) (val_mem_virt_to_phys rx_buff) 1);
    point 12 (failed_with FFA_ERROR_DENIED payload) (
    id ← curr_endpoint_id;
    st ← fw_ffa (val_rxtx_unmap conduit id);
    mret (if negb (st =? 0) then VAL_ERROR_POINT 13 else VAL_SUCCESS)).

Definition test_rxtx_map_denied : run Z := with_pages 10 14 denied_checks.

(** [status = c(); if (status) return status;] *)
Definition unless_failed (c next : run Z) : run Z := status ← c; if negb (status =? 0) then mret status else next.

Definition ffa_rxtx_map_and_unmap_client (test_run_data : Z) : run Z :=
  unless_failed test_rxtx_map_unaligned_buffers (
  unless_failed test_rxtx_map_invalid_buffer_size (
  unless_failed test_rxtx_map_denied test_rxtx_unmap_before_map)).

(** ** ffa_rx_release *)

Definition ffa_rx_release_client (test_run_data : Z) : run Z :=
  payload ← fw_ffa (val_ffa_rx_release conduit ffa_args_zero);
  point 1 (failed_with FFA_ERROR_DENIED payload) (mret VAL_SUCCESS).
End Tests.
