(* ===== verification/SyncProof.v ===== *)
(** * Synchronising the endpoint tables: end to end

    VM1 sends its table entry by entry, each entry in two direct messages; the
    partition's wait loop takes the first half from a request and the second from
    the answer to its response.  The theorem joins both sides: the messages
    [val_send_sync_ep_info] sends to a partition, delivered to
    [val_wait_for_test_fn_req] of that partition, make its table agree with VM1's
    on every synchronised entry. *)

From S2P Require Import Prelude ValCommon CMem EndpointInfo FfaAbi Framework FrameworkProof TestDispatch.

(** ** An entry survives its way through eight words *)

Lemma bytes_of_word a b c d :
  is_uint 8 a -> is_uint 8 b -> is_uint 8 c -> is_uint 8 d ->
  let w := Z.lor a (Z.lor (Z.shiftl b 8) (Z.lor (Z.shiftl c 16) (Z.shiftl d 24))) in
  w = a + b * 2 ^ 8 + c * 2 ^ 16 + d * 2 ^ 24 /\ is_uint 32 w.
Proof.
  intros Ha Hb Hc Hd w. unfold is_uint in *.
  assert (E : w = a + (b + (c + d * 2 ^ 8) * 2 ^ 8) * 2 ^ 8).
  { unfold w. replace (Z.lor (Z.shiftl c 16) (Z.shiftl d 24)) with (Z.shiftl (Z.lor c (Z.shiftl d 8)) 16)
      by (rewrite Z.shiftl_lor, Z.shiftl_shiftl by lia; done).
    replace (Z.lor (Z.shiftl b 8) (Z.shiftl (Z.lor c (Z.shiftl d 8)) 16))
      with (Z.shiftl (Z.lor b (Z.shiftl (Z.lor c (Z.shiftl d 8)) 8)) 8)
      by (rewrite Z.shiftl_lor, Z.shiftl_shiftl by lia; done).
    rewrite !lor_shiftl by lia. done. }
  lia.
Qed.

Lemma byte_of_eq w k : 0 <= k -> byte_of w k = w / 2 ^ (8 * k) mod 2 ^ 8.
Proof. intros. unfold byte_of. change 0xff with (Z.ones 8). by rewrite Z.land_ones, Z.shiftr_div_pow2 by lia. Qed.

Lemma shiftl_lor_16 a b c :
  Z.lor a (Z.lor (Z.shiftl b 8) (Z.shiftl c 16)) = Z.lor a (Z.shiftl (Z.lor b (Z.shiftl c 8)) 8).
Proof. rewrite Z.shiftl_lor, Z.shiftl_shiftl by lia. done. Qed.

Lemma nibbles v s : is_uint 4 v -> is_uint 4 s ->
  let b := Z.lor v (Z.shiftl s 4) in
  is_uint 8 b /\ Z.land b 0xf = v /\ Z.shiftr b 4 = s.
Proof.
  intros Hv Hs b. unfold is_uint in *. unfold b. rewrite lor_shiftl by lia. change 0xf with (Z.ones 4).
  rewrite Z.land_ones, Z.shiftr_div_pow2 by lia. Z.div_mod_to_equations; lia.
Qed.

Lemma ep_words_uint e : ep_wf e -> Forall (is_uint 32) (ep_words e) /\ length (ep_words e) = 8%nat.
Proof.
  intros [[Hn Ln] Hv Hs Hi Hg He Hc Hp [Hu Lu]].
  destruct (ep_name e) as [|n0 [|n1 [|n2 [|n3 [|n4 [|]]]]]] eqn:En; try discriminate.
  destruct (ep_uuid e) as [|u0 [|u1 [|u2 [|u3 [|]]]]] eqn:Eu; try discriminate.
  rewrite !List.Forall_cons_iff in Hn. destruct Hn as (N0 & N1 & N2 & N3 & N4 & _).
  rewrite !List.Forall_cons_iff in Hu. destruct Hu as (U0 & U1 & U2 & U3 & _).
  unfold ep_words. rewrite En, Eu. cbn [nth app]. split; [|done].
  destruct (nibbles _ _ Hv Hs) as (HB & _). rewrite !shiftl_lor_16.
  repeat (apply List.Forall_cons); try done.
  - apply (bytes_of_word n0 n1 n2 n3); done.
  - unfold is_uint in *. rewrite !lor_shiftl by lia. lia.
  - unfold is_uint in *. rewrite !lor_shiftl by lia. lia.
Qed.

Lemma ep_words_roundtrip e : ep_wf e -> ep_of_words (ep_words e) = e.
Proof.
  intros [[Hn Ln] Hv Hs Hi Hg He Hc Hp [Hu Lu]]. destruct e as [nm v s id g el ec pr uu]. cbn in *.
  destruct nm as [|n0 [|n1 [|n2 [|n3 [|n4 [|]]]]]]; try discriminate.
  destruct uu as [|u0 [|u1 [|u2 [|u3 [|]]]]]; try discriminate.
  rewrite !List.Forall_cons_iff in Hn. destruct Hn as (N0 & N1 & N2 & N3 & N4 & _).
  unfold ep_of_words, ep_words. cbn [ep_name is_valid is_secure ep_id tg0 el_info ec_count ep_properties ep_uuid nth app].
  destruct (bytes_of_word n0 n1 n2 n3) as [-> _]; try done.
  destruct (nibbles _ _ Hv Hs) as (HB & HV & HS). set (b := Z.lor v (Z.shiftl s 4)) in *.
  rewrite !shiftl_lor_16. unfold is_uint in *. rewrite !lor_shiftl by lia.
  assert (E1 : forall x y z, 0 <= x < 2 ^ 8 -> 0 <= y < 2 ^ 8 -> byte_of (x + (y + z * 2 ^ 8) * 2 ^ 8) 1 = y).
  { intros. rewrite byte_of_eq by lia. Z.div_mod_to_equations; lia. }
  rewrite E1 by lia. rewrite HV, HS. rewrite !byte_of_eq, !Z.shiftr_div_pow2 by lia.
  f_equal; [|Z.div_mod_to_equations; lia..].
  repeat f_equal; Z.div_mod_to_equations; lia.
Qed.

(** ** The sender *)

(** The message as the manager sees it. *)
Definition as_req (a : ffa_args) : ffa_args :=
  FfaArgs FFA_MSG_SEND_DIRECT_REQ_32 (arg1 a) (arg2 a) (arg3 a) (arg4 a) (arg5 a) (arg6 a) (arg7 a) 0 0 0 0 0 0 0 0 0 0.

(** The two messages that carry entry [j] of VM1 to the endpoint [to]. *)
Definition entry_msgs (vm1 to j : Z) (e : ep_info) : list ffa_args :=
  let arg1 := Z.lor (u32 (Z.shiftl vm1 16)) to in
  [as_req (sync_args arg1 j (take 4 (ep_words e))); as_req (sync_args arg1 j (drop 4 (ep_words e)))].

(** The entries [j], [j + 1], .. in one go. *)
Fixpoint entries_msgs (vm1 to j : Z) (es : list ep_info) : list ffa_args :=
  match es with
  | [] => []
  | e :: es' => entry_msgs vm1 to j e ++ entries_msgs vm1 to (j + 1) es'
  end.

Section Sender.
Context `{ValConfig} {W : Type} (conduit : ffa_args -> W -> ffa_args * W).
(** The manager delivers every request and answers with a response; [log] is the
    sequence of the requests so far. *)
Context (log : W -> list ffa_args).
Context (delivers : forall a w, log (conduit a w).2 = log w ++ [a] /\ fid (conduit a w).1 = FFA_MSG_SEND_DIRECT_RESP_32).
Context (resume : bool) (fuel : nat).

Lemma direct_req_delivered a (s : fw W) :
  exists reply w', direct_req_32 conduit resume fuel a s = Ret (reply, set_fw_world w' s) /\
    log w' = log (fw_world s) ++ [as_req a] /\ fid reply = FFA_MSG_SEND_DIRECT_RESP_32.
Proof.
  destruct (delivers (as_req a) (fw_world s)) as [HL HF].
  destruct (conduit (as_req a) (fw_world s)) as [reply w'] eqn:E. cbn [fst snd] in *.
  exists reply, w'. split; [|done]. unfold direct_req_32, fw_ffa, zoom.
  assert (HR : val_ffa_msg_send_direct_req_32 conduit resume fuel a (fw_world s) = Ret (reply, w')).
  { unfold val_ffa_msg_send_direct_req_32, ffa_msg_send_direct_req, mbind, cmd_bind, smccc_x7, ffa_smccc.
    fold (as_req a). rewrite E. destruct resume; [|done]. apply resume_loop_0.
    unfold interrupted. cbn [fst]. rewrite HF. done. }
  rewrite HR. done.
Qed.

Lemma send_sync_entry_sends i j (s : fw W) vm1 to e :
  val_get_endpoint_id (ep_tbl s) VM1 = Ret vm1 -> ep_at (ep_tbl s) i = Ret to -> ep_at (ep_tbl s) j = Ret e ->
  exists w', send_sync_entry conduit resume fuel i j s = Ret (tt, set_fw_world w' s) /\
    log w' = log (fw_world s) ++ entry_msgs vm1 (ep_id to) j e.
Proof.
  intros Hv Ht He. unfold send_sync_entry, lift, mbind, cmd_bind. rewrite Hv, Ht, He. cbv zeta.
  set (a1 := Z.lor (u32 (Z.shiftl vm1 16)) (ep_id to)).
  destruct (direct_req_delivered (sync_args a1 j (take 4 (ep_words e))) s) as (r0 & w0 & E0 & L0 & F0).
  destruct (direct_req_delivered (sync_args a1 j (drop 4 (ep_words e))) (set_fw_world w0 s)) as (r1 & w1 & E1 & L1 & F1).
  exists w1. rewrite E0, E1, F0, F1. split; [done|]. rewrite L1. cbn [fw_world set_fw_world].
  rewrite L0, <- app_assoc. done.
Qed.

Lemma send_sync_entries_sends n i j (s : fw W) vm1 to es :
  val_get_endpoint_id (ep_tbl s) VM1 = Ret vm1 -> ep_at (ep_tbl s) i = Ret to -> 0 <= j ->
  take n (drop (Z.to_nat j) (ep_tbl s)) = es -> length es = n ->
  exists w', send_sync_entries conduit resume fuel n i j s = Ret (tt, set_fw_world w' s) /\
    log w' = log (fw_world s) ++ entries_msgs vm1 (ep_id to) j es.
Proof.
  intros Hv Ht. revert j s Hv Ht es. induction n as [|n IH]; intros j s Hv Ht es Hj Hes Hlen; cbn [send_sync_entries].
  - exists (fw_world s). destruct es; [|done]. rewrite app_nil_r. by destruct s.
  - destruct (drop (Z.to_nat j) (ep_tbl s)) as [|e l] eqn:Hd; [subst; by destruct n|]. cbn [take] in Hes. subst es.
    assert (He : ep_at (ep_tbl s) j = Ret e).
    { unfold ep_at. rewrite <- (Nat.add_0_r (Z.to_nat j)), <- lookup_drop, Hd. done. }
    destruct (send_sync_entry_sends i j s vm1 to e Hv Ht He) as (w1 & E1 & L1).
    destruct (IH (j + 1) (set_fw_world w1 s) Hv Ht (take n l)) as (w2 & E2 & L2); [lia| |cbn in Hlen; lia|].
    { replace (Z.to_nat (j + 1)) with (S (Z.to_nat j)) by lia. cbn [ep_tbl set_fw_world].
      rewrite <- (Nat.add_1_r (Z.to_nat j)), <- drop_drop, Hd. done. }
    exists w2. unfold mbind, cmd_bind. rewrite E1, E2. split; [done|]. rewrite L2. cbn [fw_world set_fw_world entries_msgs].
    by rewrite L1, app_assoc.
Qed.

(** What VM1 sends to the partition at index [i], and to all partitions from [i] on. *)
Definition partition_msgs (t : ep_table) (vm1 : Z) (to : ep_info) : list ffa_args :=
  if is_valid to =? VAL_PARTITION_NOT_PRESENT then []
  else entries_msgs vm1 (ep_id to) 1 (take (Z.to_nat (VAL_S_EP_COUNT + 1)) (drop 1 t)).

Lemma send_sync_partitions_sends n i (s : fw W) vm1 ps :
  val_get_endpoint_id (ep_tbl s) VM1 = Ret vm1 -> 0 <= i -> (Z.to_nat VAL_S_EP_COUNT + 1 < length (ep_tbl s))%nat ->
  0 <= VAL_S_EP_COUNT -> take n (drop (Z.to_nat i) (ep_tbl s)) = ps -> length ps = n ->
  exists w', send_sync_partitions conduit resume fuel n i s = Ret (tt, set_fw_world w' s) /\
    log w' = log (fw_world s) ++ concat (map (partition_msgs (ep_tbl s) vm1) ps).
Proof.
  intros Hv Hi Hlen Hc. revert i s Hv Hi Hlen ps. induction n as [|n IH]; intros i s Hv Hi Hlen ps Hps Hn; cbn [send_sync_partitions].
  { exists (fw_world s). destruct ps; [|done]. rewrite app_nil_r. by destruct s. }
  destruct (drop (Z.to_nat i) (ep_tbl s)) as [|to l] eqn:Hd; [subst; by destruct n|]. cbn [take] in Hps. subst ps.
  assert (Hto : ep_at (ep_tbl s) i = Ret to).
  { unfold ep_at. rewrite <- (Nat.add_0_r (Z.to_nat i)), <- lookup_drop, Hd. done. }
  assert (HE : exists w1, (if is_valid to =? VAL_PARTITION_NOT_PRESENT then mret tt
             else send_sync_entries conduit resume fuel (Z.to_nat (VAL_S_EP_COUNT + 1)) i 1) s
             = Ret (tt, set_fw_world w1 s) /\ log w1 = log (fw_world s) ++ partition_msgs (ep_tbl s) vm1 to).
  { unfold partition_msgs. case_match.
    - exists (fw_world s). rewrite app_nil_r. by destruct s.
    - eapply send_sync_entries_sends; try done. rewrite length_take, length_drop. lia. }
  destruct HE as (w1 & E1 & L1).
  destruct (IH (i + 1) (set_fw_world w1 s) Hv ltac:(lia) Hlen (take n l)) as (w2 & E2 & L2); [|cbn in Hn; lia|].
  { cbn [ep_tbl set_fw_world]. replace (Z.to_nat (i + 1)) with (Z.to_nat i + 1)%nat by lia.
    rewrite <- drop_drop, Hd. done. }
  exists w2. unfold lift, mbind, cmd_bind. rewrite Hto, E1, E2. split; [done|]. rewrite L2. cbn [fw_world set_fw_world map concat ep_tbl].
  by rewrite L1, app_assoc.
Qed.
End Sender.

(** ** The receiver *)

Definition no_message : ffa_args := FfaArgs FFA_ERROR_32 0 0 0 0 0 0 0 0 0 0 0 0 0 0 0 0 0.

(** The manager's side of a partition: each call is logged and answered with the
    next message; an error ends the wait loop when there is none. *)
Definition mailbox (a : ffa_args) (w : list ffa_args * list ffa_args) : ffa_args * (list ffa_args * list ffa_args) :=
  match w.1 with
  | m :: inbox => (m, (inbox, w.2 ++ [a]))
  | [] => (no_message, ([], w.2 ++ [a]))
  end.

(** The response of the endpoint [me] to VM1. *)
Definition sync_resp (me vm1 : Z) : ffa_args :=
  FfaArgs FFA_MSG_SEND_DIRECT_RESP_32 (me * 2 ^ 16 + vm1) 0 0 0 0 0 0 0 0 0 0 0 0 0 0 0 0.

(** The sender's and the receiver's id as the service takes them out of [arg1]. *)
Lemma sync_ids vm1 me : is_uint 16 vm1 -> is_uint 16 me ->
  let a := Z.lor (u32 (Z.shiftl vm1 16)) me in
  Z.lor (u32 (Z.shiftl (Z.land a 0xFFFF) 16)) (Z.shiftr (Z.land a 0xFFFF0000) 16) = me * 2 ^ 16 + vm1 /\
  Z.lor (u32 (Z.shiftl (u32 (RECEIVER_ID a)) 16)) (SENDER_ID a) = me * 2 ^ 16 + vm1.
Proof.
  intros Hv Hm a. destruct (route_fields vm1 me Hv Hm) as (E & HS & HR). fold a in E, HS, HR.
  assert (HL : Z.land a 0xFFFF = me) by exact HR.
  assert (HH : Z.shiftr (Z.land a 0xFFFF0000) 16 = vm1).
  { rewrite Z.shiftr_land. exact HS. }
  rewrite HL, HH, HS, HR. destruct (route_fields me vm1 Hm Hv) as (E' & _).
  split; [exact E'|]. unfold is_uint in *. rewrite (uwrap_small 32 me) by lia. exact E'.
Qed.

Section Receiver.
Context `{ValCommon} (test_list : list (@test_db (list ffa_args * list ffa_args))).
Context (tpm : option ((ffa_args -> bool) * (ffa_args -> cmd (fw (list ffa_args * list ffa_args)) ffa_args))).
Context (vm1 me : Z) (Hvm1 : is_uint 16 vm1) (Hme : is_uint 16 me).

Abbreviation sp := (fw (list ffa_args * list ffa_args)).

(** The word with the index and the service number. *)
Lemma sync_word j : 0 <= j < 2 ^ 16 ->
  let a := Z.lor (u32 (Z.shiftl j 16)) EP_INFO_SYNC_SERVICE in
  is_uint 32 a /\ Z.land a 0xFFFF = EP_INFO_SYNC_SERVICE /\ Z.shiftr a 16 = j.
Proof.
  intros Hj a. destruct (route_fields j EP_INFO_SYNC_SERVICE) as (E & HS & HR).
  1,2: unfold is_uint, EP_INFO_SYNC_SERVICE; lia.
  fold a in E, HS, HR. split; [|split; [exact HR|]].
  - rewrite E. unfold is_uint, EP_INFO_SYNC_SERVICE in *. lia.
  - rewrite E. unfold EP_INFO_SYNC_SERVICE. rewrite Z.shiftr_div_pow2 by lia. Z.div_mod_to_equations; lia.
Qed.

(** One round of the wait loop takes in one entry and fetches the next message. *)
Lemma serve_sync j e m0 m1 inbox out (s : sp) :
  1 <= j < Z.of_nat (length (ep_tbl s)) -> j < 2 ^ 16 -> ep_wf e ->
  entry_msgs vm1 me j e = [m0; m1] -> fw_world s = (m1 :: inbox, out) ->
  let r := sync_resp me vm1 in
  serve mailbox test_list m0 s =
    let '(next, w) := mailbox r (inbox, out ++ [r]) in
    Ret (next, set_fw_world w (set_tbl (<[Z.to_nat j := e]> (ep_tbl s)) s)).
Proof.
  intros Hj Hj16 He HM HW r. destruct (sync_ids vm1 me Hvm1 Hme) as [I1 I2].
  destruct (sync_word j) as (U & LW & HI); [lia|].
  destruct (ep_words_uint e He) as [HU HL]. pose proof (ep_words_roundtrip e He) as HR.
  destruct (ep_words e) as [|x0 [|x1 [|x2 [|x3 [|x4 [|x5 [|x6 [|x7 [|]]]]]]]]] eqn:Ew; try discriminate.
  rewrite !List.Forall_cons_iff in HU. destruct HU as (X0 & X1 & X2 & X3 & X4 & X5 & X6 & X7 & _).
  unfold entry_msgs in HM. rewrite Ew in HM. injection HM as <- <-.
  unfold serve, as_req, sync_args. cbn [arg1 arg3 nth drop take]. cbv zeta.
  rewrite (uwrap_small 32 (Z.lor (u32 (Z.shiftl j 16)) EP_INFO_SYNC_SERVICE)) by exact U. rewrite LW.
  change (EP_INFO_SYNC_SERVICE =? NVM_WRITE_SERVICE) with false.
  change (EP_INFO_SYNC_SERVICE =? NVM_READ_SERVICE) with false.
  change (EP_INFO_SYNC_SERVICE =? WD_ENABLE_SERVICE) with false.
  change (EP_INFO_SYNC_SERVICE =? WD_DISABLE_SERVICE) with false.
  rewrite Z.eqb_refl. cbv iota. unfold val_sync_ep_info_service. cbv zeta. cbn [arg1 arg3 arg4 arg5 arg6 arg7].
  rewrite (uwrap_small 32 (Z.lor (u32 (Z.shiftl j 16)) EP_INFO_SYNC_SERVICE)) by exact U. rewrite HI, I1.
  unfold route. rewrite I2.
  destruct (lookup_lt_is_Some_2 (ep_tbl s) (Z.to_nat j)) as [e0 He0]; [lia|].
  unfold mbind, cmd_bind, fw_ffa, zoom, val_ffa_msg_send_direct_resp_32, ffa_msg_send_direct_resp, smccc_x7, ffa_smccc.
  rewrite HW. unfold mailbox at 1. cbn [fst snd]. unfold as_req, sync_args. cbn [fid arg1 arg2 arg3 arg4 arg5 arg6 arg7 nth].
  change (FFA_MSG_SEND_DIRECT_REQ_32 =? FFA_ERROR_32) with false. cbv iota.
  unfold lift, ep_set. cbn [ep_tbl set_fw_world]. rewrite He0.
  rewrite (uwrap_small 32 x0), (uwrap_small 32 x1), (uwrap_small 32 x2), (uwrap_small 32 x3), (uwrap_small 32 x4),
    (uwrap_small 32 x5), (uwrap_small 32 x6), (uwrap_small 32 x7) by assumption. rewrite HR. cbv iota.
  unfold modify. cbn [set_tbl set_fw_world fw_world]. unfold msg, r, sync_resp. cbn [arg1 arg2 arg3 arg4 arg5 arg6 arg7].
  unfold send_resp, fw_ffa, zoom, val_ffa_msg_send_direct_resp_32, ffa_msg_send_direct_resp, smccc_x7, ffa_smccc.
  cbn [fw_world set_tbl set_fw_world arg1 arg2 arg3 arg4 arg5 arg6 arg7].
  destruct (mailbox _ _) as [next w]. done.
Qed.

(** The table after the entries [es] arrived for the indices from [j] on. *)
Definition updated (j : Z) (es : list ep_info) (t : ep_table) : ep_table := list_inserts (Z.to_nat j) es t.

Lemma no_message_stops n (s : sp) :
  tpm_request tpm no_message = None -> serve_loop mailbox test_list tpm (S n) no_message s = Ret (tt, s).
Proof. intros Ht. cbn [serve_loop]. by rewrite Ht. Qed.

(** The wait loop from a call that fetches the first message. *)
Lemma serve_loop_sync es : forall j a out n (s : sp),
  1 <= j -> j + Z.of_nat (length es) <= Z.of_nat (length (ep_tbl s)) -> j + Z.of_nat (length es) <= 2 ^ 16 ->
  table_wf es -> (length es < n)%nat -> fw_world s = (entries_msgs vm1 me j es, out) ->
  Forall (fun m => tpm_request tpm m = None) (no_message :: entries_msgs vm1 me j es) ->
  (let '(next, w) := mailbox a (entries_msgs vm1 me j es, out) in
   serve_loop mailbox test_list tpm n next (set_fw_world w s)) =
  Ret (tt, set_fw_world ([], out ++ [a] ++ repeat (sync_resp me vm1) (2 * length es))
             (set_tbl (updated j es (ep_tbl s)) s)).
Proof.
  induction es as [|e es IH]; intros j a out n s Hj Hlen H16 Hwf Hn HW HT.
  - destruct n as [|n]; [cbn in Hn; lia|]. unfold mailbox. cbn [fst snd entries_msgs].
    rewrite no_message_stops by (by apply List.Forall_inv in HT). by destruct s.
  - apply List.Forall_cons_iff in Hwf as [He Hwf]. destruct n as [|n]; [cbn in Hn; lia|].
    cbn [length] in *. cbn [entries_msgs] in *. destruct (entry_msgs vm1 me j e) as [|m0 [|m1 [|]]] eqn:EM; try discriminate.
    unfold mailbox at 1. cbn [app fst snd]. cbn [serve_loop].
    apply List.Forall_cons_iff in HT as [HN HT]. cbn [app] in HT. apply List.Forall_cons_iff in HT as [H0 HT].
    apply List.Forall_cons_iff in HT as [_ HT]. rewrite H0.
    replace (fid m0) with FFA_MSG_SEND_DIRECT_REQ_32 by (injection EM as <- _; done).
    rewrite Z.eqb_refl. cbn [negb].
    pose proof (serve_sync j e m0 m1 (entries_msgs vm1 me (j + 1) es) (out ++ [a])
                  (set_fw_world (m1 :: entries_msgs vm1 me (j + 1) es, out ++ [a]) s)) as HS.
    cbn [ep_tbl set_fw_world fw_world] in HS. specialize (HS ltac:(lia) ltac:(lia) He EM eq_refl). cbv zeta in HS.
    set (r := sync_resp me vm1) in *. set (inbox := entries_msgs vm1 me (j + 1) es) in *.
    pose proof (IH (j + 1) r ((out ++ [a]) ++ [r]) n
                  (set_fw_world (inbox, (out ++ [a]) ++ [r]) (set_tbl (<[Z.to_nat j:=e]> (ep_tbl s)) s))) as HI.
    fold inbox in HI. cbn [ep_tbl set_fw_world set_tbl fw_world] in HI. rewrite length_insert in HI.
    specialize (HI ltac:(lia) ltac:(lia) ltac:(lia) Hwf ltac:(lia) eq_refl (proj2 (List.Forall_cons_iff _ _ _) (conj HN HT))).
    unfold mbind, cmd_bind. rewrite HS. destruct (mailbox r _) as [next w]. cbn [set_fw_world set_tbl] in HI |- *.
    etransitivity; [exact HI|]. unfold updated. replace (Z.to_nat (j + 1)) with (S (Z.to_nat j)) by lia.
    cbn [list_inserts]. rewrite list_insert_inserts_lt by lia. rewrite <- !app_assoc.
    replace (2 * S (length es))%nat with (S (S (2 * length es))) by lia. done.
Qed.
End Receiver.

(** ** Both sides together *)

(** What the manager delivers to one endpoint. *)
Definition addressed_to (id : Z) (ms : list ffa_args) : list ffa_args :=
  filter (fun m => RECEIVER_ID (arg1 m) = id) ms.

Lemma entries_msgs_receiver vm1 to j es :
  is_uint 16 vm1 -> is_uint 16 to -> Forall (fun m => RECEIVER_ID (arg1 m) = to) (entries_msgs vm1 to j es).
Proof.
  intros Hv Ht. destruct (route_fields vm1 to Hv Ht) as (_ & _ & HR).
  revert j; induction es as [|e es IH]; intros j; cbn [entries_msgs entry_msgs app]; [constructor|].
  constructor; [exact HR|]. constructor; [exact HR|]. apply IH.
Qed.

Lemma partition_msgs_receiver `{ValConfig} t vm1 p :
  is_uint 16 vm1 -> is_uint 16 (ep_id p) -> Forall (fun m => RECEIVER_ID (arg1 m) = ep_id p) (partition_msgs t vm1 p).
Proof. intros. unfold partition_msgs. case_match; [constructor | by apply entries_msgs_receiver]. Qed.

Lemma filter_all {A} (P : A -> Prop) `{!forall x, Decision (P x)} l : Forall P l -> filter P l = l.
Proof. induction 1 as [|x l Hx Hl IH]; [done|]. rewrite filter_cons_True by done. by f_equal. Qed.
Lemma filter_none {A} (P : A -> Prop) `{!forall x, Decision (P x)} l : Forall (fun x => ~ P x) l -> filter P l = [].
Proof. induction 1 as [|x l Hx Hl IH]; [done|]. by rewrite filter_cons_False. Qed.

Lemma addressed_concat `{ValConfig} t vm1 to ps :
  is_uint 16 vm1 -> Forall (fun p => is_uint 16 (ep_id p)) ps -> NoDup (ep_id <$> ps) -> to ∈ ps ->
  addressed_to (ep_id to) (concat (map (partition_msgs t vm1) ps)) = partition_msgs t vm1 to.
Proof.
  intros Hv Hps Hnd Hto. unfold addressed_to.
  assert (HN : forall qs, Forall (fun p => is_uint 16 (ep_id p)) qs -> ep_id to ∉ (ep_id <$> qs) ->
             filter (fun m => RECEIVER_ID (arg1 m) = ep_id to) (concat (map (partition_msgs t vm1) qs)) = []).
  { intros qs Hqs. induction Hqs as [|q qs Hq Hqs IH]; intros Hni; [done|]. cbn [map concat].
    rewrite fmap_cons in Hni. rewrite list.filter_app, IH by set_solver. rewrite app_nil_r. apply filter_none.
    refine (List.Forall_impl _ _ (partition_msgs_receiver t vm1 q Hv Hq)). cbn. intros m -> E. set_solver. }
  induction Hps as [|p ps Hp Hps IH]; [by apply not_elem_of_nil in Hto|]. cbn [map concat].
  rewrite fmap_cons in Hnd. apply list.NoDup_cons in Hnd as [Hni Hnd].
  rewrite list.filter_app. apply elem_of_cons in Hto as [<-|Hto].
  - rewrite (HN ps) by done. rewrite app_nil_r. by apply filter_all, partition_msgs_receiver.
  - rewrite IH by done. rewrite filter_none; [done|].
    refine (List.Forall_impl _ _ (partition_msgs_receiver t vm1 p Hv Hp)). cbn. intros m -> E.
    apply Hni. rewrite E. by apply list_elem_of_fmap_2.
Qed.

Lemma VAL_S_EP_COUNT_bounds `{ValConfig} : 0 <= VAL_S_EP_COUNT <= 4.
Proof. unfold VAL_S_EP_COUNT. repeat case_match; lia. Qed.

Lemma updated_lookup es t k :
  (length es + 1 <= length t)%nat ->
  updated 1 es t !! k = if decide (1 <= k <= length es)%nat then es !! (k - 1)%nat else t !! k.
Proof.
  intros Hlen. unfold updated. change (Z.to_nat 1) with 1%nat. case_decide as Hk.
  - rewrite list_lookup_inserts; [done|lia..].
  - destruct (decide (k < 1)%nat); [apply list_lookup_inserts_lt; lia | apply list_lookup_inserts_ge; lia].
Qed.

Section EndToEnd.
Context `{ValCommon} `{ValConfig} {W : Type} (conduit : ffa_args -> W -> ffa_args * W).
Context (log : W -> list ffa_args).
Context (delivers : forall a w, log (conduit a w).2 = log w ++ [a] /\ fid (conduit a w).1 = FFA_MSG_SEND_DIRECT_RESP_32).
Context (test_list : list (@test_db (list ffa_args * list ffa_args))).
Context (tpm : option ((ffa_args -> bool) * (ffa_args -> cmd (fw (list ffa_args * list ffa_args)) ffa_args))).

(** Claim C15: After val_send_sync_ep_info on VM1, a server endpoint that runs
    val_wait_for_test_fn_req on the messages addressed to it ends with the entries
    of all server endpoints and of VM1 equal to those of VM1, and its other entries
    as before. *)
Theorem tables_synchronised resume fuel n (vm : fw W) (sp : fw (list ffa_args * list ffa_args)) i to :
  let count := Z.to_nat (VAL_S_EP_COUNT + 1) in
  table_wf (ep_tbl vm) -> NoDup (ep_ids (ep_tbl vm)) -> VM1 < Z.of_nat (length (ep_tbl vm)) < 2 ^ 16 ->
  (count < length (ep_tbl vm))%nat -> (count < length (ep_tbl sp))%nat -> (count < n)%nat ->
  ep_tbl vm !! i = Some to -> (1 <= i <= Z.to_nat VAL_S_EP_COUNT)%nat -> is_valid to <> VAL_PARTITION_NOT_PRESENT ->
  exists sent w, val_send_sync_ep_info conduit resume fuel vm = Ret (tt, set_fw_world w vm) /\
    log w = log (fw_world vm) ++ sent /\
    let inbox := addressed_to (ep_id to) sent in
    (Forall (fun m => tpm_request tpm m = None) (no_message :: inbox) ->
     exists t out, val_wait_for_test_fn_req mailbox test_list tpm n (set_fw_world (inbox, []) sp) =
                     Ret (tt, set_fw_world ([], out) (set_tbl t sp)) /\
       forall k, t !! k = if decide (1 <= k <= count)%nat then ep_tbl vm !! k else ep_tbl sp !! k).
Proof.
  intros count Hwf Hnd HVM1 Hcv Hcs Hn Hto Hi Hvalid. pose proof VAL_S_EP_COUNT_bounds as HC.
  assert (HV0 : 0 <= VM1) by (unfold VM1; case_match; lia).
  destruct (lookup_lt_is_Some_2 (ep_tbl vm) (Z.to_nat VM1)) as [e1 He1]; [lia|].
  assert (Hv : val_get_endpoint_id (ep_tbl vm) VM1 = Ret (ep_id e1)).
  { unfold val_get_endpoint_id. rewrite table_count, (proj2 (Z.leb_gt _ _)) by lia. by rewrite (ep_at_lookup _ _ e1). }
  assert (H1 : is_uint 16 (ep_id e1)) by (eapply Forall_lookup_1 in Hwf; [|exact He1]; by destruct Hwf).
  assert (H2 : is_uint 16 (ep_id to)) by (eapply Forall_lookup_1 in Hwf; [|exact Hto]; by destruct Hwf).
  set (ps := take (Z.to_nat VAL_S_EP_COUNT) (drop 1 (ep_tbl vm))).
  destruct (send_sync_partitions_sends conduit log delivers resume fuel (Z.to_nat VAL_S_EP_COUNT) 1 vm (ep_id e1) ps)
    as (w & E & L); try done; try lia.
  { unfold ps. rewrite length_take, length_drop. lia. }
  exists (concat (map (partition_msgs (ep_tbl vm) (ep_id e1)) ps)), w. split; [exact E|]. split; [exact L|]. cbv zeta.
  assert (HA : addressed_to (ep_id to) (concat (map (partition_msgs (ep_tbl vm) (ep_id e1)) ps)) =
               entries_msgs (ep_id e1) (ep_id to) 1 (take count (drop 1 (ep_tbl vm)))).
  { rewrite (addressed_concat (ep_tbl vm) (ep_id e1) to ps H1).
    - unfold partition_msgs. destruct (Z.eqb_spec (is_valid to) VAL_PARTITION_NOT_PRESENT); [done|]. done.
    - apply Forall_take, Forall_drop. refine (List.Forall_impl _ _ Hwf). by intros e [].
    - unfold ps. rewrite fmap_take. apply (sublist_NoDup _ (ep_ids (ep_tbl vm))); [exact Hnd | apply sublist_take].
    - unfold ps. apply list_elem_of_lookup_2 with (i := (i - 1)%nat). rewrite lookup_take_lt, lookup_drop by lia.
      by replace (1 + (i - 1))%nat with i by lia. }
  rewrite HA. set (es := take count (drop 1 (ep_tbl vm))) in *. intros HT.
  assert (Hes : length es = count) by (unfold es; rewrite length_take, length_drop; lia).
  set (a := FfaArgs FFA_MSG_WAIT_32 0 0 0 0 0 0 0 0 0 0 0 0 0 0 0 0 0).
  pose proof (serve_loop_sync test_list tpm (ep_id e1) (ep_id to) H1 H2 es 1 a [] n
                (set_fw_world (entries_msgs (ep_id e1) (ep_id to) 1 es, []) sp)) as HS.
  cbn [ep_tbl set_fw_world] in HS. assert (HC' : (count <= 5)%nat) by (unfold count; lia).
  specialize (HS ltac:(lia) ltac:(lia) ltac:(lia) ltac:(by apply Forall_take, Forall_drop) ltac:(lia) eq_refl HT).
  exists (updated 1 es (ep_tbl sp)). eexists. split.
  - etransitivity; [|etransitivity; [exact HS|reflexivity]].
    unfold val_wait_for_test_fn_req, mbind, cmd_bind, fw_ffa, zoom. cbn [fw_world set_fw_world].
    change (val_ffa_msg_wait mailbox ffa_args_zero) with (fun w => Ret (mailbox a w)). cbv beta.
    destruct (mailbox a _) as [next w']. done.
  - intros k. rewrite updated_lookup by lia. rewrite Hes. case_decide as Hk; [|done].
    unfold es. rewrite lookup_take_lt, lookup_drop by lia. f_equal. lia.
Qed.
End EndToEnd.

(** ** Example *)

Definition deliver (a : ffa_args) (w : list ffa_args) : ffa_args * list ffa_args :=
  (FfaArgs FFA_MSG_SEND_DIRECT_RESP_32 0 0 0 0 0 0 0 0 0 0 0 0 0 0 0 0 0, w ++ [a]).

(** VM1 found the first three partitions and knows it; the second one does not yet. *)
Definition vm1_table : ep_table :=
  [demo_ep 0; set_valid 15 (demo_ep 0x8001); set_valid 15 (demo_ep 0x8002); set_valid 15 (demo_ep 0x8003);
   demo_ep 0x8004; set_valid 15 (demo_ep 1); demo_ep 2; demo_ep 3].

Lemma vm1_table_wf : table_wf vm1_table.
Proof.
  pose proof demo_table_wf as HT. unfold table_wf, demo_table in HT. rewrite !List.Forall_cons_iff in HT.
  unfold table_wf, vm1_table. rewrite !List.Forall_cons_iff.
  intuition; try (by apply List.Forall_nil); apply set_valid_wf; done || (unfold is_uint; lia).
Qed.

Lemma tables_synchronised_witness :
  exists sent w, @val_send_sync_ep_info demo_config _ deliver true 1 (demo_state vm1_table []) =
                   Ret (tt, set_fw_world w (demo_state vm1_table [])) /\ w = [] ++ sent /\
    exists t out, @val_wait_for_test_fn_req sample_val_common _ mailbox [] None 6
                    (set_fw_world (addressed_to 0x8002 sent, []) (demo_state demo_table ([], []))) =
                  Ret (tt, set_fw_world ([], out) (set_tbl t (demo_state demo_table ([], [])))) /\
      forall k, t !! k = if decide (1 <= k <= 5)%nat then vm1_table !! k else demo_table !! k.
Proof.
  destruct (@tables_synchronised sample_val_common demo_config _ deliver (fun w => w) (fun a w => conj eq_refl eq_refl)
              [] None true 1 6 (demo_state vm1_table []) (demo_state demo_table ([], [])) 2 (set_valid 15 (demo_ep 0x8002)))
    as (sent & w & E & L & HS).
  - exact vm1_table_wf.
  - apply (bool_decide_unpack _). vm_compute. exact I.
  - vm_compute. intuition congruence.
  - vm_compute. lia.
  - vm_compute. lia.
  - vm_compute. lia.
  - reflexivity.
  - vm_compute. lia.
  - discriminate.
  - exists sent, w. split; [exact E|]. split; [exact L|]. apply HS.
    apply List.Forall_forall. intros m _. reflexivity.
Defined.
