(* ===== verification/DispatchProof.v ===== *)
(** * Proofs about the test dispatcher

    The packing of [test_run_data], the hand-over of a server test to the endpoint
    that runs it, and the regression loop of VM1: which tests run, in which order,
    and what the report in the NVM says afterwards, also when the loop resumes
    after a reset. *)

From S2P Require Import Prelude ValCommon CMem Libc Malloc EndpointInfo FfaAbi FfaHelpers Framework FrameworkProof TestDispatch SyncProof.

(** ** test_run_data *)

Lemma land_nibble x : Z.land x 0xf = x mod 2 ^ 4.
Proof. by apply (Z.land_ones x 4). Qed.

Section RunData.
Context (n c v t : Z) (Hn : is_uint 10 n) (Hc : is_uint 4 c) (Hv : is_uint 4 v) (Ht : is_uint 4 t).

Lemma TEST_RUN_DATA_eq : TEST_RUN_DATA n c v t = n + c * 2 ^ 11 + v * 2 ^ 15 + t * 2 ^ 19.
Proof.
  unfold is_uint in *. unfold TEST_RUN_DATA. rewrite Z.lor_0_r.
  rewrite (uwrap_small 32 n) by lia. rewrite !(uwrap_small 32 (Z.shiftl _ _)) by (rewrite Z.shiftl_mul_pow2 by lia; lia).
  rewrite (lor_shiftl 11 n c), (lor_shiftl 15 _ v), (lor_shiftl 19 _ t) by lia. done.
Qed.

Lemma run_data_fields :
  let x := TEST_RUN_DATA n c v t in
  is_uint 23 x /\ GET_TEST_NUM x = n /\ GET_CLIENT_LOGIC_ID x = c /\ GET_SERVER_LOGIC_ID x = v /\ GET_TEST_TYPE x = t.
Proof.
  intros x. unfold x. rewrite TEST_RUN_DATA_eq.
  unfold is_uint, GET_TEST_NUM, GET_CLIENT_LOGIC_ID, GET_SERVER_LOGIC_ID, GET_TEST_TYPE in *.
  change 0x3ff with (Z.ones 10). rewrite Z.land_ones, !land_nibble, !Z.shiftr_div_pow2 by lia.
  Z.div_mod_to_equations; lia.
Qed.

(** No test number and pair of endpoints looks like one of the services. *)
Lemma run_data_no_service f : In f [NVM_WRITE_SERVICE; NVM_READ_SERVICE; WD_ENABLE_SERVICE; WD_DISABLE_SERVICE; EP_INFO_SYNC_SERVICE] ->
  Z.land (TEST_RUN_DATA n c v t) 0xFFFF <> f.
Proof.
  intros Hf E. assert (Hb : Z.testbit (Z.land (TEST_RUN_DATA n c v t) 0xFFFF) 10 = true).
  { rewrite E. cbn [In] in Hf. unfold NVM_WRITE_SERVICE, NVM_READ_SERVICE, WD_ENABLE_SERVICE, WD_DISABLE_SERVICE,
      EP_INFO_SYNC_SERVICE in Hf. destruct Hf as [<-|[<-|[<-|[<-|[<-|[]]]]]]; reflexivity. }
  rewrite Z.land_spec, TEST_RUN_DATA_eq in Hb. apply andb_true_iff in Hb as [Hb _]. apply Z.testbit_true in Hb; [|lia].
  unfold is_uint in *. Z.div_mod_to_equations; lia.
Qed.

Lemma ADD_TEST_TYPE_eq t' : is_uint 4 t' -> ADD_TEST_TYPE (TEST_RUN_DATA n c v t) t' = n + c * 2 ^ 11 + v * 2 ^ 15 + t' * 2 ^ 19.
Proof.
  intros Ht'. unfold ADD_TEST_TYPE. rewrite land_nibble.
  rewrite (Z.mod_small t') by exact Ht'. rewrite TEST_RUN_DATA_eq. unfold is_uint in *.
  replace (n + c * 2 ^ 11 + v * 2 ^ 15 + t * 2 ^ 19) with (Z.lor (n + c * 2 ^ 11 + v * 2 ^ 15) (Z.shiftl t 19))
    by (rewrite lor_shiftl by lia; done).
  rewrite <- Z.ldiff_land. replace (Z.ldiff _ _) with (n + c * 2 ^ 11 + v * 2 ^ 15).
  { rewrite lor_shiftl by lia. apply uwrap_small. lia. }
  apply Z.bits_inj'. intros k Hk. rewrite Z.ldiff_spec, Z.lor_spec, !Z.shiftl_spec by lia.
  destruct (decide (k < 19)) as [H1|H1].
  - rewrite !(Z.testbit_neg_r _ (k - 19)) by lia. by rewrite orb_false_r, andb_true_r.
  - rewrite (testbit_small 19 (n + _ + _)) by lia. cbn [orb]. destruct (decide (k < 23)) as [H2|H2].
    + replace (Z.testbit 0xf (k - 19)) with true by (symmetry; apply (Z.ones_spec_low 4); lia). by rewrite andb_false_r.
    + by rewrite (testbit_small 4 t) by lia.
Qed.
End RunData.

(** SET_SERVER_LOGIC_ID clears bits 15 to 19, but the id has four bits: it also
    clears the lowest bit of the test type. *)
Theorem set_server_id_clears_type n c v v' :
  is_uint 10 n -> is_uint 4 c -> is_uint 4 v -> is_uint 4 v' ->
  GET_TEST_TYPE (SET_SERVER_LOGIC_ID (TEST_RUN_DATA n c v SERVER_TEST) v') = CLIENT_TEST.
Proof.
  intros Hn Hc Hv Hv'. destruct (run_data_fields n c v SERVER_TEST) as (HU & _); [done..|].
  unfold GET_TEST_TYPE, SET_SERVER_LOGIC_ID.
  apply Z.bits_inj'. intros k Hk. unfold CLIENT_TEST. rewrite Z.bits_0, Z.land_spec, Z.shiftr_spec by lia.
  destruct (decide (4 <= k)) as [H4|H4].
  { rewrite (testbit_small 4 0xf k) by (done || lia). apply andb_false_r. }
  rewrite Z.lor_spec, Z.land_spec. unfold is_uint in *.
  rewrite (uwrap_small 32 (Z.shiftl v' 15)) by (rewrite Z.shiftl_mul_pow2 by lia; lia).
  rewrite Z.shiftl_spec, (testbit_small 4 v') by lia. rewrite orb_false_r.
  destruct (decide (k = 0)) as [->|Hk0]; [reflexivity|].
  rewrite TEST_RUN_DATA_eq by (done || unfold is_uint; lia). unfold SERVER_TEST.
  rewrite (testbit_small 20 (n + _ + _ + _)) by lia. by rewrite andb_false_r.
Qed.

(** The lookup of a partition id. *)
Lemma get_endpoint_id_eq t l e :
  Z.of_nat (length t) < 2 ^ 16 -> 0 <= l -> t !! Z.to_nat l = Some e -> val_get_endpoint_id t l = Ret (ep_id e).
Proof.
  intros HL Hl He. unfold val_get_endpoint_id. pose proof (lookup_lt_Some _ _ _ He).
  rewrite table_count, (proj2 (Z.leb_gt _ _)) by lia. by rewrite (ep_at_lookup _ _ e) by (done || lia).
Qed.

Section ServerTest.
Context `{ValCommon} (n c v : Z) (Hn : is_uint 10 n) (Hc : is_uint 4 c) (Hv : is_uint 4 v).

Lemma add_server_type : ADD_TEST_TYPE (TEST_RUN_DATA n c v CLIENT_TEST) SERVER_TEST = TEST_RUN_DATA n c v SERVER_TEST.
Proof. rewrite ADD_TEST_TYPE_eq, TEST_RUN_DATA_eq by done. done. Qed.

(** The message val_select_server_fn_direct sends. *)
Lemma select_server_eq {W} conduit resume fuel a4 a5 a6 a7 (s : fw W) ec ev :
  Z.of_nat (length (ep_tbl s)) < 2 ^ 16 -> ep_tbl s !! Z.to_nat c = Some ec -> ep_tbl s !! Z.to_nat v = Some ev ->
  val_select_server_fn_direct conduit resume fuel (TEST_RUN_DATA n c v CLIENT_TEST) a4 a5 a6 a7 s =
    send_req conduit resume fuel (msg (route (ep_id ec) (ep_id ev)) (TEST_RUN_DATA n c v SERVER_TEST) a4 a5 a6 a7) s.
Proof.
  intros HL Hec Hev. destruct (run_data_fields n c v CLIENT_TEST) as (_ & _ & GC & GS & _); [done..|].
  unfold is_uint in *. unfold val_select_server_fn_direct, endpoint_id, lift, mbind, cmd_bind.
  rewrite GC, GS, add_server_type, (get_endpoint_id_eq _ c ec), (get_endpoint_id_eq _ v ev) by (done || lia). done.
Qed.

(** A partition that serves this message runs the server function of the test and
    answers with its status. *)
Lemma serve_server_test {V} (conduit : ffa_args -> V -> ffa_args * V) test_list m client server t f (s : fw V) :
  is_uint 16 client -> is_uint 16 server -> arg1 m = route client server -> arg3 m = TEST_RUN_DATA n c v SERVER_TEST ->
  test_list !! Z.to_nat n = Some t -> server_fn t = Some f ->
  serve conduit test_list m s = (status ← f m; send_resp conduit (msg (server * 2 ^ 16 + client) status 0 0 0 0)) s.
Proof.
  intros Hc16 Hv16 H1 H3 Ht Hf. destruct (run_data_fields n c v SERVER_TEST) as (U & GN & _ & _ & GT); [done..|].
  pose proof (run_data_no_service n c v SERVER_TEST Hn Hc Hv ltac:(done)) as HNS.
  set (x := TEST_RUN_DATA n c v SERVER_TEST) in *. assert (Hcu : u32 client = client) by (apply uwrap_small; unfold is_uint in *; lia).
  assert (Hvu : u32 server = server) by (apply uwrap_small; unfold is_uint in *; lia).
  unfold route in H1. rewrite Hcu in H1.
  destruct (route_fields _ _ Hc16 Hv16) as (E1 & S1 & R1). destruct (route_fields _ _ Hv16 Hc16) as (E2 & _).
  unfold serve. rewrite H1, H3, S1, R1. unfold is_uint in U. rewrite (uwrap_small 32 x) by lia. cbv zeta.
  do 5 (rewrite (proj2 (Z.eqb_neq _ _)) by (apply HNS; cbn [In]; tauto)). rewrite GT. change (SERVER_TEST =? SERVER_TEST) with true.
  cbv iota. unfold route. rewrite Hvu, E2.
  unfold val_execute_server_test_fn, test_at, call, mbind, cmd_bind. rewrite H3.
  rewrite GN, (uwrap_small 32 n), Ht, Hf by (unfold is_uint in *; lia). done.
Qed.
End ServerTest.

Section ServerTestDelivered.
Context `{ValCommon} {W : Type} (conduit : ffa_args -> W -> ffa_args * W) (log : W -> list ffa_args).
Context (delivers : forall a w, log (conduit a w).2 = log w ++ [a] /\ fid (conduit a w).1 = FFA_MSG_SEND_DIRECT_RESP_32).
(** The server's image: its world, its conduit and its tests. *)
Context {V : Type} (server_conduit : ffa_args -> V -> ffa_args * V) (test_list : list (@test_db V)).

(** val_select_server_fn_direct sends one direct request from the client to the
    server endpoint with the test run data, and a server that receives this message
    runs the server function of that very test and answers with its status from the
    server to the client. *)
Theorem server_test_delivered resume fuel n c v a4 a5 a6 a7 (s : fw W) ec ev t f :
  is_uint 10 n -> is_uint 4 c -> is_uint 4 v ->
  Z.of_nat (length (ep_tbl s)) < 2 ^ 16 -> table_wf (ep_tbl s) ->
  ep_tbl s !! Z.to_nat c = Some ec -> ep_tbl s !! Z.to_nat v = Some ev ->
  test_list !! Z.to_nat n = Some t -> server_fn t = Some f ->
  exists m reply w',
    val_select_server_fn_direct conduit resume fuel (TEST_RUN_DATA n c v CLIENT_TEST) a4 a5 a6 a7 s =
      Ret (reply, set_fw_world w' s) /\
    log w' = log (fw_world s) ++ [m] /\ fid m = FFA_MSG_SEND_DIRECT_REQ_32 /\
    SENDER_ID (arg1 m) = ep_id ec /\ RECEIVER_ID (arg1 m) = ep_id ev /\
    [arg4 m; arg5 m; arg6 m; arg7 m] = [a4; a5; a6; a7] /\
    forall sv : fw V, serve server_conduit test_list m sv =
      (status ← f m; send_resp server_conduit (msg (ep_id ev * 2 ^ 16 + ep_id ec) status 0 0 0 0)) sv.
Proof.
  intros Hn Hc Hv HL Hwf Hec Hev Ht Hf.
  assert (Hc16 : is_uint 16 (ep_id ec)) by (eapply Forall_lookup_1 in Hwf; [|exact Hec]; by destruct Hwf).
  assert (Hv16 : is_uint 16 (ep_id ev)) by (eapply Forall_lookup_1 in Hwf; [|exact Hev]; by destruct Hwf).
  destruct (route_fields _ _ Hc16 Hv16) as (E1 & S1 & R1).
  set (m0 := msg (route (ep_id ec) (ep_id ev)) (TEST_RUN_DATA n c v SERVER_TEST) a4 a5 a6 a7).
  assert (HR : arg1 m0 = Z.lor (u32 (Z.shiftl (ep_id ec) 16)) (ep_id ev)).
  { cbn. unfold route. by rewrite (uwrap_small 32 (ep_id ec)) by (unfold is_uint in *; lia). }
  destruct (direct_req_delivered conduit log delivers resume fuel m0 s) as (reply & w' & E & Lg & _).
  exists (as_req m0), reply, w'. split; [by rewrite (select_server_eq n c v) with (ec := ec) (ev := ev)|].
  do 2 (split; [done|]). change (arg1 (as_req m0)) with (arg1 m0). rewrite HR. do 3 (split; [done|]).
  intros sv. by apply (serve_server_test n c v Hn Hc Hv) with (t := t).
Qed.
End ServerTestDelivered.

(** ** Asking for features

    [obs] is what is observed of the world; FFA_FEATURES does not change it, and its
    answer depends only on the function id. *)
Section Features.
Context `{ValCommon} {W O : Type} (conduit : ffa_args -> W -> ffa_args * W) (v : ffa_v) (obs : W -> O).
Context (supports : Z -> bool).
Hypothesis features_answer : forall a w,
  fid a = FFA_FEATURES_32 ->
  obs (conduit a w).2 = obs w /\ (fid (conduit a w).1 =? FFA_ERROR_32) = negb (supports (arg1 a)).

Fixpoint feature_ok (fids st : list Z) (f : Z) : bool :=
  match fids, st with
  | g :: fids', x :: st' =>
      if g =? f then if x =? 1 then true else if x =? 0xff then false else supports (u32 f)
      else feature_ok fids' st' f
  | _, _ => false
  end.

(** A step that only touches the world, and there nothing that is observed. *)
Definition quiet (s s' : fw W) : Prop :=
  exists w, s' = set_fw_world w s /\ obs w = obs (fw_world s).

Lemma quiet_refl s : quiet s s.
Proof. exists (fw_world s). by destruct s. Qed.
Lemma quiet_trans s1 s2 s3 : quiet s1 s2 -> quiet s2 s3 -> quiet s1 s3.
Proof. intros (w1 & -> & H1') (w2 & -> & H2'). exists w2. split; [done|]. by rewrite H2'. Qed.

Lemma supported_loop_eq fids st f w :
  exists w', supported_loop conduit v fids st f w =
               Ret (if feature_ok fids st f then VAL_SUCCESS else VAL_ERROR, w') /\ obs w' = obs w.
Proof.
  revert st; induction fids as [|g fids IH]; intros st; cbn [supported_loop feature_ok]; [by exists w|].
  destruct st as [|x st]; [by exists w|]. destruct (g =? f); [|apply IH].
  destruct (x =? 1); [by exists w|]. destruct (x =? 0xff); [by exists w|].
  unfold features_query. set (q := match v with FFA_V_1_0 => _ | _ => _ end).
  set (a := FfaArgs FFA_FEATURES_32 (u32 f) (u32 q) 0 0 0 0 0 0 0 0 0 0 0 0 0 0 0).
  destruct (features_answer a w eq_refl) as [HR HF]. cbn [arg1 a] in HF.
  exists (conduit a w).2. split; [|exact HR].
  change (val_ffa_features conduit _) with (fun w => Ret (conduit a w)).
  unfold mbind, cmd_bind. destruct (conduit a w) as [r w']. cbn [fst snd] in HF |- *. rewrite HF.
  by destruct (supports (u32 f)).
Qed.

Lemma fid_supported_eq f s :
  exists s', fid_supported conduit v f s = Ret (feature_ok ffa_supported_fids (ffa_fid_state s) f, s') /\ quiet s s'.
Proof.
  unfold fid_supported, fw_ffa, zoom, val_is_ffa_feature_supported.
  destruct (supported_loop_eq ffa_supported_fids (ffa_fid_state s) f (fw_world s)) as (w' & E & HR).
  exists (set_fw_world w' s). split; [|by exists w']. unfold mbind, cmd_bind. rewrite E.
  destruct (feature_ok _ _ _); rewrite ?VAL_SUCCESS_zero; done.
Qed.
End Features.

(** ** A client test on VM1 *)

Lemma VM1_uint `{ValConfig} : is_uint 4 VM1.
Proof. unfold VM1, is_uint. destruct ENABLE_TPM_CRB; lia. Qed.

(** A client function that returns success is a test that passed. *)
Lemma execute_client_test `{ValCommon} `{ValConfig} `{InfoCommon} {W} (conduit : ffa_args -> W -> ffa_args * W)
    resume fuel curr_id (tests : list (@test_db W)) n l t f s s' :
  is_uint 10 n -> is_uint 4 l -> validate_test_config VM1 l s = Ret (VAL_SUCCESS, s) ->
  tests !! Z.to_nat n = Some t -> client_fn t = Some f -> f (TEST_RUN_DATA n VM1 l CLIENT_TEST) s = Ret (VAL_SUCCESS, s') ->
  val_execute_test conduit resume fuel curr_id tests n VM1 l s =
    Ret (RESULT_PASS VAL_SUCCESS, set_status (val_set_status (RESULT_PASS VAL_SUCCESS) (status_buf s')) s').
Proof.
  intros Hn Hl Hval Ht Hf E. pose proof VM1_uint.
  unfold val_execute_test, run_pair, val_execute_client_test_fn, test_at, mbind, cmd_bind. rewrite Hval, VAL_SUCCESS_zero.
  cbn [negb Z.eqb]. rewrite Z.eqb_refl. destruct (run_data_fields n VM1 l CLIENT_TEST) as (_ & -> & _); [done..|].
  rewrite Ht. unfold call. rewrite Hf, E, VAL_SUCCESS_zero.
  rewrite (proj2 (Z.eqb_neq 0 VAL_SKIP_CHECK)); [done|]. intros E0. apply VAL_SKIP_CHECK_not_success. by rewrite VAL_SUCCESS_zero.
Qed.

(** ** The regression loop *)

(** Reports are kept as 32-bit words. *)
Definition report32 (r : regre_report) : regre_report :=
  RegreReport (u32 (total_pass r)) (u32 (total_fail r)) (u32 (total_skip r)) (u32 (total_error r)).

(** The tests from index [i] on: up to index [last] or the null entry. *)
Fixpoint plan {W} (l : list (@test_db W)) (i last : Z) : list (Z * @test_db W) :=
  match l with
  | [] => []
  | t :: l' =>
      if last <? i then []
      else match testentry_fn t with None => [] | Some _ => (i, t) :: plan l' (i + 1) last end
  end.

Section Regression.
Context `{ValCommon} `{NvmCommon} `{InfoCommon}.
Context {W : Type} (conduit : ffa_args -> W -> ffa_args * W) (v : ffa_v).
Context (test_list : list (@test_db W)).

(** What is observed: the tests that ran, each with the result it reported. *)
Context (ran : W -> list (Z * Z)).

(** FFA_FEATURES: the answer of the manager depends only on the function id. *)
Context (supports : Z -> bool).
Hypothesis features_answer : forall a w,
  fid a = FFA_FEATURES_32 ->
  ran (conduit a w).2 = ran w /\ (fid (conduit a w).1 =? FFA_ERROR_32) = negb (supports (arg1 a)).

(** Every test returns, and leaves alone the report in the NVM and the table of
    the supported interfaces. *)
Hypothesis test_contract : forall i t fn s,
  test_list !! Z.to_nat i = Some t -> testentry_fn t = Some fn -> 0 <= i ->
  exists s', fn i s = Ret (tt, s') /\
    ran (fw_world s') = ran (fw_world s) ++ [(i, val_report_status (status_buf s'))] /\
    stored_report s' = stored_report s /\ ffa_fid_state s' = ffa_fid_state s.

(** [test_list] ends with a null entry. *)
Definition terminated (l : list (@test_db W)) : Prop :=
  exists pre t, l = pre ++ [t] /\ testentry_fn t = None.

(** *** Which tests the platform supports *)

Definition abi_ok (st : list Z) (t : @test_db W) : bool :=
  let ok := feature_ok supports ffa_supported_fids st in
  if test_fid t =? FFA_FID_SKIP_CHECK then true
  else if negb (Z.land (test_fid t) FFA_FID_UPPER_MASK =? 0) then ok (test_fid t)
  else ok (Z.lor (test_fid t) FFA_FID_ABI32_PREFIX) || ok (Z.lor (test_fid t) FFA_FID_ABI64_PREFIX).

Lemma check_abi_eq i t s :
  test_list !! Z.to_nat i = Some t ->
  exists s', val_check_test_abi_support conduit v test_list i s = Ret (abi_ok (ffa_fid_state s) t, s') /\ quiet ran s s'.
Proof.
  intros Ht. unfold val_check_test_abi_support, test_at, abi_ok, mbind, cmd_bind. rewrite Ht.
  destruct (_ =? FFA_FID_SKIP_CHECK); [exists s; split; [done | apply quiet_refl]|].
  destruct (negb _); [apply (fid_supported_eq conduit v ran supports features_answer)|].
  destruct (fid_supported_eq conduit v ran supports features_answer (Z.lor (test_fid t) FFA_FID_ABI32_PREFIX) s) as (s1 & -> & Q1).
  destruct (feature_ok supports ffa_supported_fids (ffa_fid_state s) (Z.lor (test_fid t) FFA_FID_ABI32_PREFIX)); [exists s1; split; [reflexivity | exact Q1]|]. cbn [orb].
  destruct (fid_supported_eq conduit v ran supports features_answer (Z.lor (test_fid t) FFA_FID_ABI64_PREFIX) s1) as (s2 & -> & Q2).
  exists s2. split; [|by eapply quiet_trans]. destruct Q1 as (w & -> & _). done.
Qed.

(** *** One round *)

(** The counters and results a round leaves alone or changes. *)
Lemma put_word_world i x (s : fw W) : fw_world (put_word i x s) = fw_world s.
Proof. done. Qed.

Lemma stored_report_put i x (s : fw W) :
  In i nvm_indices -> i <> NVM_TOTAL_PASS_INDEX -> i <> NVM_TOTAL_FAIL_INDEX -> i <> NVM_TOTAL_SKIP_INDEX ->
  i <> NVM_TOTAL_ERROR_INDEX -> stored_report (put_word i x s) = stored_report s.
Proof. intros. unfold stored_report. rewrite !word_put_ne by first [assumption | nvm_index]. done. Qed.

Definition put_report (r : regre_report) (s : fw W) : fw W :=
  put_word NVM_TOTAL_ERROR_INDEX (total_error r) (
  put_word NVM_TOTAL_SKIP_INDEX (total_skip r) (
  put_word NVM_TOTAL_FAIL_INDEX (total_fail r) (
  put_word NVM_TOTAL_PASS_INDEX (total_pass r) s))).

Lemma stored_report_put_report r s : stored_report (put_report r s) = report32 r.
Proof. unfold stored_report, put_report, report32. nvm_words. done. Qed.

Lemma record_result_eq {A} r (err : A) k s :
  record_result r err k s =
  let r' := val_update_regression_report (val_report_status (status_buf s)) (stored_report s) in
  k r' (put_report r' s).
Proof.
  unfold record_result, read_report, write_report, mbind, cmd_bind, gets. cbv zeta.
  do 4 rewrite nvm_get_word by nvm_index. do 4 rewrite nvm_put_word by nvm_index. done.
Qed.

Lemma write_progress_eq x (s : fw W) : write_progress x s = Ret (tt, put_word NVM_TEST_PROGRESS_INDEX x s).
Proof.
  unfold write_progress, val_nvmem_write, mbind, cmd_bind. rewrite nvm_check_bounds_word by nvm_index.
  cbn [negb Z.eqb]. rewrite VAL_SUCCESS_zero. done.
Qed.

Lemma stored_report_progress x (s : fw W) : stored_report (put_word NVM_TEST_PROGRESS_INDEX x s) = stored_report s.
Proof. apply stored_report_put; first [nvm_index | nvm_distinct]. Qed.

(** What a round preserves besides the world. *)
Record round (s s' : fw W) (log : list (Z * Z)) : Prop := Round {
  rd_ran : ran (fw_world s') = ran (fw_world s) ++ log;
  rd_report : stored_report s' = stored_report s;
  rd_fids : ffa_fid_state s' = ffa_fid_state s
}.

Lemma quiet_round s s' : quiet ran s s' -> round s s' [].
Proof. intros (w & -> & Hw). split; [|done|done]. by rewrite app_nil_r. Qed.

Lemma run_test_round i t fn s :
  test_list !! Z.to_nat i = Some t -> testentry_fn t = Some fn -> 0 <= i ->
  exists s', run_test fn i s = Ret (tt, s') /\ round s s' [(i, val_report_status (status_buf s'))].
Proof.
  intros Ht Hfn Hi. unfold run_test, val_test_init, val_test_exit, val_wd_enable, val_wd_disable, mbind, cmd_bind, mret,
    cmd_ret, modify. rewrite !write_progress_eq, VAL_SUCCESS_zero. cbn [negb Z.eqb].
  set (s1 := put_word NVM_TEST_PROGRESS_INDEX TEST_START (set_status (StatusBuffer TEST_FAIL VAL_STATUS_INVALID) s)).
  destruct (test_contract i t fn s1 Ht Hfn Hi) as (s2 & -> & HR & HS & HF).
  rewrite write_progress_eq. eexists. split; [reflexivity|]. split.
  - exact HR.
  - rewrite stored_report_progress, HS. unfold s1. by rewrite stored_report_progress.
  - exact HF.
Qed.

Lemma start_test_round suite i t fn s :
  test_list !! Z.to_nat i = Some t -> testentry_fn t = Some fn -> 0 <= i ->
  let ok := abi_ok (ffa_fid_state s) t in
  exists s', start_test conduit v test_list fn suite i s = Ret (Some ok, s') /\
    round s s' (if ok then [(i, val_report_status (status_buf s'))] else []).
Proof.
  intros Ht Hfn Hi ok. unfold start_test. do 2 rewrite nvm_put_word by nvm_index.
  set (s1 := put_word NVM_CUR_TEST_NUM_INDEX i (put_word NVM_CUR_SUITE_NUM_INDEX suite s)).
  assert (HS1 : stored_report s1 = stored_report s).
  { unfold s1. rewrite !stored_report_put by first [nvm_index | nvm_distinct]. done. }
  unfold mbind, cmd_bind, set_current_test, modify. set (s2 := set_mp _ s1).
  destruct (check_abi_eq i t s2 Ht) as (s3 & -> & Q). change (ffa_fid_state s2) with (ffa_fid_state s). fold ok.
  pose proof (quiet_round _ _ Q) as [R1 R2 R3]. destruct ok.
  - destruct (run_test_round i t fn s3 Ht Hfn Hi) as (s4 & -> & [T1 T2 T3]). exists s4. split; [done|]. split.
    + rewrite T1, R1, app_nil_r. done.
    + rewrite T2, R2. exact HS1.
    + rewrite T3, R3. done.
  - exists s3. split; [done|]. split; [exact R1 | rewrite R2; exact HS1 | exact R3].
Qed.

(** *** The loop *)

Definition add_result (r : regre_report) (x : Z) : regre_report := report32 (val_update_regression_report x r).

(** The tests [ts] ran, in order, and their results are in the report. *)
Definition regressed (s s' : fw W) (ts : list (Z * @test_db W)) (r0 : regre_report) : Prop :=
  exists log, ran (fw_world s') = ran (fw_world s) ++ log /\
    log.*1 = (filter (fun it => abi_ok (ffa_fid_state s) it.2 = true) ts).*1 /\
    stored_report s' = fold_left add_result log.*2 r0.

Lemma terminated_tail t l : terminated (t :: l) -> testentry_fn t <> None -> terminated l /\ l <> [].
Proof.
  intros (pre & t' & E & HN) Ht. destruct pre as [|p pre]; injection E as -> E; [done|].
  subst l. split; [by exists pre, t' | by destruct pre].
Qed.

Lemma drop_lookup {A} (l : list A) n x r : drop n l = x :: r -> l !! n = Some x /\ drop (S n) l = r.
Proof.
  intros E. split.
  - rewrite <- (Nat.add_0_r n), <- lookup_drop, E. done.
  - rewrite <- (Nat.add_1_r n), <- drop_drop, E. done.
Qed.

(** From index [i] on, when no reset is being resumed. *)
Lemma dispatch_loop_runs l : forall n i last suite r s,
  drop (Z.to_nat i) test_list = l -> terminated l -> 0 <= i -> i + Z.of_nat (length l) < 2 ^ 32 ->
  (length l <= n)%nat ->
  exists s', dispatch_loop conduit v test_list n i last suite None r s = Ret (tt, s') /\
             regressed s s' (plan l i last) (stored_report s).
Proof.
  induction l as [|t l IH]; intros n i last suite r s Hl HT Hi H32 Hn.
  { destruct HT as (pre & t & E & _). by destruct pre. }
  destruct n as [|n]; [cbn in Hn; lia|]. cbn [dispatch_loop plan length] in *.
  assert (Hend : regressed s s [] (stored_report s)) by (exists []; rewrite app_nil_r; done).
  destruct (last <? i); [by exists s|].
  destruct (drop_lookup _ _ _ _ Hl) as [Ht Hl']. unfold test_at, mbind, cmd_bind. rewrite Ht.
  destruct (testentry_fn t) as [fn|] eqn:Hfn; [|by exists s].
  destruct (terminated_tail t l HT) as [HT' Hl0]; [congruence|].
  set (suite' := if negb (suite =? db_suite t) then db_suite t else suite).
  destruct (start_test_round suite' i t fn s Ht Hfn Hi) as (s1 & -> & [R1 R2 R3]).
  assert (Hi1 : u32 (i + 1) = i + 1) by (apply uwrap_small; lia). rewrite Hi1.
  assert (Hl'' : drop (Z.to_nat (i + 1)) test_list = l) by (rewrite <- Hl'; f_equal; lia).
  destruct (abi_ok (ffa_fid_state s) t) eqn:Hok.
  - rewrite record_result_eq. cbv zeta.
    set (res := val_report_status (status_buf s1)) in *. set (r' := val_update_regression_report res (stored_report s1)).
    destruct (IH n (i + 1) last suite' r' (put_report r' s1) Hl'' HT') as (s2 & E2 & log & L1 & L2 & L3); [lia..|].
    exists s2. split; [exact E2|]. exists ((i, res) :: log).
    rewrite stored_report_put_report in L3. change (ffa_fid_state (put_report r' s1)) with (ffa_fid_state s1) in L2.
    change (fw_world (put_report r' s1)) with (fw_world s1) in L1. rewrite R3 in L2. split; [|split].
    + rewrite L1, R1, <- app_assoc. done.
    + rewrite filter_cons_True by exact Hok. rewrite !fmap_cons. cbn [fst]. by rewrite L2.
    + rewrite fmap_cons. cbn [fold_left snd]. rewrite L3. unfold add_result at 3. unfold r'. by rewrite R2.
  - destruct (IH n (i + 1) last suite' r s1 Hl'' HT') as (s2 & E2 & log & L1 & L2 & L3); [lia..|].
    exists s2. split; [exact E2|]. exists log. rewrite R1, app_nil_r in L1. rewrite R3 in L2. rewrite R2 in L3.
    split; [exact L1|]. split; [|exact L3]. rewrite filter_cons_False by (cbn; congruence). exact L2.
Qed.

Lemma terminated_drop k l : (k < length l)%nat -> terminated l -> terminated (drop k l).
Proof.
  intros Hk (pre & t & -> & HN). rewrite length_app in Hk. cbn in Hk. exists (drop k pre), t.
  rewrite drop_app_le by lia. done.
Qed.

(** A test whose entry is not null is not the last of the list. *)
Lemma terminated_next k t l :
  terminated l -> l !! k = Some t -> testentry_fn t <> None -> (S k < length l)%nat.
Proof.
  intros (pre & t' & -> & HN) Hk Ht. pose proof (lookup_lt_Some _ _ _ Hk) as HL. rewrite length_app in HL |- *.
  cbn in *. destruct (decide (k = length pre)) as [->|]; [|lia].
  rewrite list_lookup_middle in Hk by done. injection Hk as <-. done.
Qed.

(** *** The tests SUITE_TEST_RANGE selects *)
Context (rodata : mem).

(** Test [k] is called [s], behind the first character of its name. *)
Definition named (k : Z) (s : list Z) : Prop :=
  exists t, test_list !! Z.to_nat k = Some t /\ cstr rodata (test_name t + 1) s.

(** Test [k] is the last one from [i] on, the null entry apart, with that name;
    [found] when no test has it. *)
Definition last_named (i found : Z) (s : list Z) (k : Z) : Prop :=
  let last := Z.of_nat (length test_list) - 1 in
  (i <= k < last /\ named k s /\ forall j, k < j < last -> ~ named j s) \/
  (k = found /\ forall j, i <= j < last -> ~ named j s).

(** The names of the tests are strings, short enough for [fuel]. *)
Definition readable (fuel : nat) : Prop :=
  forall k t, test_list !! k = Some t -> (S k < length test_list)%nat ->
  exists s, cstr rodata (test_name t + 1) s /\ Z.of_nat (length s) < 2 ^ 32 /\ (length s < fuel)%nat.

Lemma find_test_spec fuel name s : readable fuel -> cstr rodata name s -> 1 <= Z.of_nat (length test_list) < 2 ^ 31 ->
  forall n i found, 0 <= i -> Z.of_nat (length test_list) <= i + Z.of_nat n ->
  exists k, find_test fuel test_list rodata n i found name = Ret k /\ last_named i found s k.
Proof.
  intros Hr Hs Hlen. induction n as [|n IH]; intros i found Hi Hn; cbn [find_test]; unfold total_tests;
    rewrite (uwrap_small 32 (Z.of_nat _)), (uwrap_small 32 (_ - 1)) by lia.
  - rewrite (proj2 (Z.ltb_ge _ _)) by lia. exists found. split; [done|]. right. split; [done|]. lia.
  - destruct (Z.ltb_spec i (Z.of_nat (length test_list) - 1)) as [Hlt|Hge].
    2:{ exists found. split; [done|]. right. split; [done|]. lia. }
    destruct (lookup_lt_is_Some_2 test_list (Z.to_nat i) ltac:(lia)) as [t Ht]. rewrite Ht.
    destruct (Hr _ _ Ht ltac:(lia)) as (st & Hst & Hl32 & Hlf). rewrite (val_strcmp_correct fuel rodata _ _ st s) by done.
    cbn [obind]. rewrite (uwrap_small 32) by lia.
    destruct (IH (i + 1) (if (if decide (st = s) then 0 else -1) =? 0 then i else found)) as (k & Ek & Hk); [lia..|].
    exists k. split; [done|]. assert (Hit : st <> s -> ~ named i s).
    { intros Hne (t' & Ht' & Hs'). rewrite Ht in Ht'. injection Ht' as <-. by apply Hne, (cstr_inj rodata (test_name t + 1)). }
    destruct Hk as [(Hk & Hnk & Hj) | [-> Hj]]; [left; split; [lia|]; by split|].
    case_decide as Eq; cbn [Z.eqb].
    + subst st. left. split; [lia|]. split; [by exists t|]. intros j Hj'. apply Hj. lia.
    + right. split; [done|]. intros j Hj'. destruct (decide (j = i)) as [->|]; [by apply Hit|]. apply Hj. lia.
Qed.

Context `{ValConfig}.

(** The first and the last test of a cold boot: the whole list, or the tests with the
    two names in the order of their numbers. *)
Definition selected (range : option (Z * Z)) (first last : Z) : Prop :=
  match range with
  | None => first = 1 /\ last = Z.of_nat (length test_list)
  | Some (start_name, end_name) => exists s1 s2 a b,
      cstr rodata start_name s1 /\ cstr rodata end_name s2 /\ last_named 1 0 s1 a /\ last_named 1 0 s2 b /\
      first = Z.min a b /\ last = Z.max a b
  end.
Definition range_readable (fuel : nat) (range : option (Z * Z)) : Prop :=
  match range with
  | None => True
  | Some (start_name, end_name) => readable fuel /\ (exists s, cstr rodata start_name s) /\ (exists s, cstr rodata end_name s)
  end.

(** What val_sort_indices, of the common library, is for. *)
Hypothesis sort_indices : forall a b, val_sort_indices a b = (Z.min a b, Z.max a b).

Lemma test_range_selects fuel range : range_readable fuel range -> 2 <= Z.of_nat (length test_list) < 2 ^ 31 ->
  exists first last, test_range fuel test_list rodata range 1 = Ret (first, last) /\ selected range first last /\
    0 <= first < Z.of_nat (length test_list).
Proof.
  intros Hr Hl. unfold test_range. destruct range as [[start_name end_name]|].
  - destruct Hr as (Hr & (s1 & H1') & (s2 & H2')).
    destruct (find_test_spec fuel start_name s1 Hr H1' ltac:(lia) (length test_list) 1 0) as (a & Ea & Ha); [lia..|].
    destruct (find_test_spec fuel end_name s2 Hr H2' ltac:(lia) (length test_list) 1 0) as (b & Eb & Hb); [lia..|].
    rewrite Ea, Eb. cbn [obind]. rewrite sort_indices. exists (Z.min a b), (Z.max a b). split; [done|].
    split; [by exists s1, s2, a, b|]. unfold last_named in Ha, Hb. lia.
  - exists 1, (Z.of_nat (length test_list)). unfold total_tests. rewrite (uwrap_small 32) by lia. split; [done|]. split; [done|]. lia.
Qed.

Abbreviation vm1_dispatch resume fuel := (val_test_dispatch conduit resume fuel v test_list rodata).

(** Claim C16: val_test_dispatch on VM1, whose test list ends with a null entry: on
    a cold boot it clears the report and runs exactly the tests from the first to
    the last of the range, in order, skipping those whose interface the manager does
    not support, and adds the result of each to the report; the range is the whole
    list, or with SUITE_TEST_RANGE the tests with the two names, in the order of
    their numbers (the last test of that name, or 0 when there is none). On a warm
    boot it first records the result of the test that rebooted and continues with
    the test after it up to the stored last one. The synchronisation of the endpoint
    table returned; each test returns and leaves the stored report and the table of
    supported interfaces alone; the answer of FFA_FEATURES depends on the function
    id only; the names are strings; val_sort_indices, a library function, sorts its
    two arguments. *)
Theorem regression_runs resume fuel range s s0 :
  val_send_sync_ep_info conduit resume fuel s = Ret (tt, s0) ->
  terminated test_list -> 2 <= Z.of_nat (length test_list) < 2 ^ 31 ->
  (warm s0 = false ->
   info_uint32 (val_reset_test_info_fields (stored_info s0)) -> report_uint32 clear_report ->
   Framework.test_num (val_reset_test_info_fields (stored_info s0)) = VAL_INVALID_TEST_NUM ->
   range_readable fuel range ->
   exists first last s', selected range first last /\ vm1_dispatch resume fuel range s = Ret (tt, s') /\
              regressed s0 s' (plan (drop (Z.to_nat first) test_list) first last) clear_report) /\
  (forall k t, warm s0 = true ->
   k = Framework.test_num (stored_info s0) -> k <> VAL_INVALID_TEST_NUM -> k <= end_test_num (stored_info s0) ->
   test_list !! Z.to_nat k = Some t -> testentry_fn t <> None ->
   exists s', vm1_dispatch resume fuel range s = Ret (tt, s') /\
              regressed s0 s' (plan (drop (Z.to_nat (k + 1)) test_list) (k + 1) (end_test_num (stored_info s0)))
                (add_result (stored_report s0)
                   (val_report_status (val_handle_reboot_result (test_progress (stored_info s0)) (status_buf s0))))).
Proof.
  intros ES HT HL. unfold val_test_dispatch, mbind, cmd_bind. rewrite ES, last_run_info_eq. cbv zeta. split.
  - intros Hw Hi Hr Hn Hrange. rewrite Hw, VAL_SUCCESS_zero. cbn [negb Z.eqb fst snd]. rewrite Hn, Z.eqb_refl.
    destruct (test_range_selects fuel range Hrange HL) as (first & last & Er & Hsel & Hfirst).
    unfold lift. rewrite Er. rewrite nvm_put_word by nvm_index. destruct (cold_state_stored s0 Hi Hr) as [_ HR].
    destruct (dispatch_loop_runs (drop (Z.to_nat first) test_list) (S (length test_list)) first last
                (suite_num (val_reset_test_info_fields (stored_info s0))) (RegreReport 0 0 0 0)
                (put_word NVM_END_TEST_NUM_INDEX last (cold_state s0)))
      as (s' & E & HG); rewrite ?length_drop; try lia; [done | by apply terminated_drop; [lia|]|].
    exists first, last, s'. split; [exact Hsel|]. split; [exact E|].
    rewrite stored_report_put in HG by first [nvm_index | nvm_distinct]. rewrite HR in HG. exact HG.
  - intros k t Hw -> Hk Hend Ht Hfn. rewrite Hw, VAL_SUCCESS_zero. cbn [negb Z.eqb fst snd].
    rewrite (proj2 (Z.eqb_neq _ _) Hk). set (k := Framework.test_num (stored_info s0)) in *.
    assert (Hk0 : 0 <= k) by apply word_range.
    pose proof (terminated_next _ _ _ HT Ht Hfn) as HLk. cbn [dispatch_loop].
    rewrite (proj2 (Z.ltb_ge _ _) Hend). unfold test_at, mbind, cmd_bind at 1. rewrite Ht.
    destruct (testentry_fn t) as [fn|]; [|done].
    unfold mbind, cmd_bind, modify. rewrite record_result_eq. cbv zeta. rewrite (uwrap_small 32) by lia.
    set (res := val_report_status _). set (s1 := set_status _ s0).
    set (r' := val_update_regression_report res (stored_report s1)).
    destruct (dispatch_loop_runs (drop (Z.to_nat (k + 1)) test_list) (length test_list) (k + 1)
                (end_test_num (stored_info s0)) (suite_num (stored_info s0)) r' (put_report r' s1))
      as (s' & E & HG); rewrite ?length_drop; try lia; [done | apply terminated_drop; [lia|done] |].
    exists s'. split; [exact E|]. rewrite stored_report_put_report in HG. exact HG.
Qed.
End Regression.

(** ** Example: a list of two tests, the second of which the platform lacks *)

Definition demo_test_fn (i : Z) : cmd (fw (list (Z * Z))) unit :=
  modify (fun s => set_fw_world (fw_world s ++ [(i, 5)]) (set_status (StatusBuffer 5 0) s)).
Definition demo_test (name f : Z) : @test_db (list (Z * Z)) :=
  TestDb 1 name (Some demo_test_fn) None None None None f.
Definition demo_tests : list (@test_db (list (Z * Z))) :=
  [demo_test 0x10 FFA_FID_SKIP_CHECK; demo_test 0x20 FFA_FID_SKIP_CHECK; demo_test 0x30 FFA_RXTX_UNMAP_32; demo_test 0x40 FFA_RUN_32;
   TestDb 0 0 None None None None None 0].
(** The tests 1 to 3 are called a, b and c, behind a hyphen; c and b at 0x60, 0x70. *)
Definition demo_names : mem :=
  stn 2 (stn 2 (stn 2 (stn 2 (stn 2 ∅ 0x20 0x612d) 0x30 0x622d) 0x40 0x632d) 0x60 0x63) 0x70 0x62.

(** A manager that supports every interface but RXTX_UNMAP. *)
Definition demo_supports (f : Z) : bool := negb (f =? FFA_RXTX_UNMAP_32).
Definition demo_manager (a : ffa_args) (w : list (Z * Z)) : ffa_args * list (Z * Z) :=
  (FfaArgs (if (fid a =? FFA_FEATURES_32) && negb (demo_supports (arg1 a)) then FFA_ERROR_32 else FFA_SUCCESS_32)
     0 0 0 0 0 0 0 0 0 0 0 0 0 0 0 0 0, w).

Abbreviation demo_dispatch :=
  (@val_test_dispatch sample_val_common demo_config demo_nvm demo_info _ demo_manager true 2 FFA_V_1_1 demo_tests demo_names).

(** From b to c, of which the manager lacks what b needs. *)
Lemma regression_runs_witness :
  exists first last s', selected demo_tests demo_names (Some (0x60, 0x70)) first last /\
    demo_dispatch (Some (0x60, 0x70)) (demo_state demo_table []) = Ret (tt, s') /\
    @regressed demo_nvm demo_info _ (fun w => w) demo_supports (demo_state demo_table []) s' (plan (drop (Z.to_nat first) demo_tests) first last) (@clear_report demo_info).
Proof.
  apply (@regression_runs sample_val_common demo_nvm demo_info _ demo_manager FFA_V_1_1 demo_tests (fun w => w)
              demo_supports) with (rodata := demo_names) (resume := true) (fuel := 2%nat) (range := Some (0x60, 0x70))
    (s := demo_state demo_table ([] : list (Z * Z))) (s0 := demo_state demo_table ([] : list (Z * Z))) (H2 := demo_config).
  - intros a w Ha. split; [done|]. unfold demo_manager. cbn [fst fid]. rewrite Ha, Z.eqb_refl. cbn [andb].
    by destruct (demo_supports (arg1 a)).
  - intros i t fn s Ht Hfn Hi. destruct (Z.to_nat i) as [|[|[|[|[|n]]]]]; cbn in Ht; try discriminate;
      injection Ht as <-; try discriminate; injection Hfn as <-;
      (eexists; split; [reflexivity|]; split; [reflexivity|]; split; reflexivity).
  - reflexivity.
  - reflexivity.
  - exists (take 4 demo_tests), (TestDb 0 0 None None None None None 0). split; reflexivity.
  - vm_compute. intuition congruence.
  - reflexivity.
  - repeat (apply List.Forall_cons; [vm_compute; intuition congruence|]); apply List.Forall_nil.
  - repeat (apply List.Forall_cons; [vm_compute; intuition congruence|]); apply List.Forall_nil.
  - reflexivity.
  - split; [|split].
    + intros [|[|[|[|[|k]]]]] t Ht Hk; cbn in Ht; try discriminate; injection Ht as <-;
        [exists [] | exists [0x61] | exists [0x62] | exists [0x63] | cbn in Hk; lia]; vm_compute; intuition (try lia; try congruence).
    + exists [0x63]. vm_compute. intuition congruence.
    + exists [0x62]. vm_compute. intuition congruence.
Defined.

Example demo_range_runs :
  (match demo_dispatch (Some (0x60, 0x70)) (demo_state demo_table []) with Ret (_, s') => (fw_world s').*1 | _ => [] end) = [3] /\
  (match demo_dispatch None (demo_state demo_table []) with Ret (_, s') => (fw_world s').*1 | _ => [] end) = [1; 3].
Proof. split; vm_compute; reflexivity. Qed.

(** The server answers with the sum of its first two arguments. *)
Definition demo_server : @test_db unit :=
  TestDb 1 0 (Some (fun _ => mret tt)) None (Some (fun a => mret (arg4 a + arg5 a))) None None FFA_FID_SKIP_CHECK.

Lemma server_test_delivered_witness :
  exists m reply w',
    val_select_server_fn_direct deliver true 1 (TEST_RUN_DATA 0 1 2 CLIENT_TEST) 20 22 0 0 (demo_state demo_table []) =
      Ret (reply, set_fw_world w' (demo_state demo_table [])) /\ w' = [m] /\
    forall sv : fw unit, @serve sample_val_common _ (fun a w => (a, w)) [demo_server] m sv =
      Ret (FfaArgs FFA_MSG_SEND_DIRECT_RESP_32 0x80028001 0 42 0 0 0 0 0 0 0 0 0 0 0 0 0 0, sv).
Proof.
  destruct (@server_test_delivered sample_val_common _ deliver (fun w => w) (fun a w => conj eq_refl eq_refl)
              _ (fun a (w : unit) => (a, w)) [demo_server] true 1 0 1 2 20 22 0 0 (demo_state demo_table [])
              (demo_ep 0x8001) (demo_ep 0x8002) demo_server (fun a => mret (arg4 a + arg5 a)))
    as (m & reply & w' & E & L & _ & _ & _ & HA & HS).
  1-3: unfold is_uint; lia.
  - reflexivity.
  - exact demo_table_wf.
  - reflexivity.
  - reflexivity.
  - reflexivity.
  - reflexivity.
  - exists m, reply, w'. split; [exact E|]. split; [exact L|]. intros sv. rewrite HS.
    injection HA as H4 H5 _ _. unfold mbind, cmd_bind, mret, cmd_ret. rewrite H4, H5. by destruct sv.
Defined.

(** ** Tests on several CPUs *)

(** The polling loop of val_get_multi_pe_test_status leaves in its first round: a
    test that is still running on the other CPU stops the suite at once. *)
Theorem multi_pe_status_never_waits `{InfoCommon} {W : Type} n sleep cpu_id test_num (s : fw W) :
  g_current_test_num (g_mp_state s) = test_num ->
  g_other_pe_test_state (g_mp_state s) !! Z.to_nat cpu_id = Some VAL_MP_STATE_INPROGRESS ->
  val_get_multi_pe_test_status (S n) sleep cpu_id test_num s = Panic.
Proof.
  intros Hn Hst. unfold val_get_multi_pe_test_status, gets, poll_loop, mp_get, mbind, cmd_bind.
  rewrite Hn, Z.eqb_refl. cbn [negb]. rewrite Hst, orb_true_r. cbn [mret cmd_ret]. unfold mret, cmd_ret. by rewrite Hst.
Qed.
