(* ===== verification/DirectMessageProof.v ===== *)
(** * Proofs about the direct message tests

    What the manager between a client on VM1 and a server partition has to do for
    the tests to pass, and what a pass tells about it.

    A partition is a coroutine: between two of its direct responses it runs on the
    messages it was sent so far.  [sp_conduit] is the manager's side of the server;
    a response hands control back to the client and is answered with the next
    request.  [respond] is the answer of the server to the last of the requests it
    was sent, obtained by running its wait loop on them. *)

From S2P Require Import Prelude ValCommon EndpointInfo FfaAbi FfaHelpers Framework FrameworkProof TestDispatch.
From S2P Require Import SyncProof DispatchProof TestCheck DirectMessage.

Lemma lor_at_least x y : 0 <= x -> 0 <= y -> y <= Z.lor x y.
Proof.
  intros Hx Hy. apply Z.le_0_sub. rewrite Z.sub_nocarry_ldiff.
  - apply Z.ldiff_nonneg. left. by apply Z.lor_nonneg.
  - apply Z.bits_inj'. intros n Hn. rewrite Z.ldiff_spec, Z.lor_spec, Z.bits_0. by destruct (Z.testbit x n), (Z.testbit y n).
Qed.

(** The request of the error tests is never made: the assertion on the table index
    stops the endpoint. *)
Theorem direct_message_error_stops t client_logical_id id :
  Z.of_nat (length t) <= 2 ^ 16 -> 1 <= id < 2 ^ 16 -> 0 <= client_logical_id ->
  direct_message_error_arg1 t client_logical_id id = Panic.
Proof.
  intros Ht Hi Hc. unfold direct_message_error_arg1, val_get_endpoint_id, val_get_endpoint_info_table_count.
  rewrite Z.shiftl_mul_pow2, (uwrap_small 32 (id * _)) by lia.
  assert (id * 2 ^ 16 <= Z.lor client_logical_id (id * 2 ^ 16)) by (apply lor_at_least; lia).
  rewrite uwrap_small, (proj2 (Z.leb_le _ _)) by lia. done.
Qed.

(** ** Calls *)

Definition is_req (a : ffa_args) : bool :=
  (fid a =? FFA_MSG_SEND_DIRECT_REQ_32) || (fid a =? FFA_MSG_SEND_DIRECT_REQ_64).
Definition is_resp (a : ffa_args) : bool :=
  (fid a =? FFA_MSG_SEND_DIRECT_RESP_32) || (fid a =? FFA_MSG_SEND_DIRECT_RESP_64).

(** A direct message from [from] to [to] whose reserved register is zero. *)
Definition routed (from to : Z) (a : ffa_args) : bool :=
  (SENDER_ID (arg1 a) =? from) && (RECEIVER_ID (arg1 a) =? to) && (arg2 a =? 0).

(** The receiver of a 32-bit call sees the low halves of its registers. *)
Definition delivered (a : ffa_args) : ffa_args :=
  if (fid a =? FFA_MSG_SEND_DIRECT_REQ_64) || (fid a =? FFA_MSG_SEND_DIRECT_RESP_64) then a
  else FfaArgs (fid a) (u32 (arg1 a)) (u32 (arg2 a)) (u32 (arg3 a)) (u32 (arg4 a)) (u32 (arg5 a)) (u32 (arg6 a))
         (u32 (arg7 a)) 0 0 0 0 0 0 0 0 0 0.

(** A direct response, with the registers of the call. *)
Lemma direct_resp_eq {W A} (conduit : ffa_args -> W -> ffa_args * W) d a (k : ffa_args -> cmd (fw W) A) (s : fw W) :
  (direct_resp conduit d a ≫= k) s =
  let '(r, w) := conduit (call7 (resp_fid d) a) (fw_world s) in k r (set_fw_world w s).
Proof.
  unfold direct_resp, resp_fid, fw_ffa, zoom, mbind, cmd_bind. destruct (arch64 d);
    unfold val_ffa_msg_send_direct_resp_64, val_ffa_msg_send_direct_resp_32, ffa_msg_send_direct_resp, smccc_x7, ffa_smccc, call7;
    by destruct (conduit _ _).
Qed.

(** The register that names sender and receiver. *)
Definition ids (from to : Z) : Z := from * 2 ^ 16 + to.

Section Ids.
Context (from to : Z) (Hf : is_uint 16 from) (Ht : is_uint 16 to).

Lemma lor_ids : Z.lor (u32 (Z.shiftl from 16)) to = ids from to.
Proof. apply (route_fields from to Hf Ht). Qed.
Lemma route_ids : route from to = ids from to.
Proof. unfold route. rewrite (uwrap_small 32 from) by (unfold is_uint in *; lia). apply lor_ids. Qed.
Lemma sender_ids : SENDER_ID (ids from to) = from.
Proof. rewrite <- lor_ids. apply (route_fields from to Hf Ht). Qed.
Lemma receiver_ids : RECEIVER_ID (ids from to) = to.
Proof. rewrite <- lor_ids. apply (route_fields from to Hf Ht). Qed.
Lemma ids_uint32 : is_uint 32 (ids from to).
Proof. unfold is_uint, ids in *. lia. Qed.
Lemma routed_ids a b m : arg1 m = ids from to -> routed a b m = (from =? a) && (to =? b) && (arg2 m =? 0).
Proof. unfold routed. intros ->. by rewrite sender_ids, receiver_ids. Qed.
End Ids.

(** ** The server behind the manager *)

(** Messages the partition will be sent, its responses, the other calls it made,
    and whether it is serving a request.  When there is no message left the run is
    cut off: an error ends the wait loop, and what the partition sends until then
    is not looked at. *)
Record sp_world := SpWorld { inbox : list ffa_args; outbox : list ffa_args; asked : list ffa_args; busy : bool }.

Definition next_message (out : list ffa_args) (w : sp_world) : ffa_args * sp_world :=
  match inbox w with
  | m :: ms => (m, SpWorld ms out (asked w) true)
  | [] => (no_message, SpWorld [] out (asked w) true)
  end.

Section Server.
Context (me vm : Z).
(** What the manager answers to the calls that do not hand control over. *)
Context (local : ffa_args -> ffa_args).

Definition sp_conduit (a : ffa_args) (w : sp_world) : ffa_args * sp_world :=
  if (fid a =? FFA_MSG_WAIT_32) && negb (busy w) then next_message (outbox w) w
  else if is_resp a && routed me vm a && busy w then next_message (outbox w ++ [delivered a]) w
  else (local a, SpWorld (inbox w) (outbox w) (if fid a =? FFA_FEATURES_32 then asked w else asked w ++ [a]) (busy w)).

(** The server partition waits in its loop in the state [sv]. *)
Context `{ValCommon} (test_list : list (@test_db sp_world)) (sv : fw sp_world).

Definition run_server (ms : list ffa_args) : outcome (unit * fw sp_world) :=
  val_wait_for_test_fn_req sp_conduit test_list None (S (length ms)) (set_fw_world (SpWorld ms [] [] false) sv).
Definition respond (ms : list ffa_args) : option ffa_args :=
  match run_server ms with Ret (_, s) => outbox (fw_world s) !! pred (length ms) | _ => None end.

(** *** The server function *)

Context `{ValConfig} `{ErrorPoints} (supports : Z -> bool) (v : ffa_v) (d : direct_test).

(** What the manager does for a partition: FFA_FEATURES tells what it supports, a
    direct response that does not answer the request is refused, and so is every
    call it does not support. *)
Record local_ok : Prop := LocalOk {
  lo_features : forall a, fid a = FFA_FEATURES_32 -> (fid (local a) =? FFA_ERROR_32) = negb (supports (arg1 a));
  lo_refuses : forall a, is_resp a = true -> routed me vm a = false -> refused (local a) = true;
  lo_unsupported : forall a, In (fid a) [FFA_YIELD_32; FFA_MSG_POLL_32; FFA_MSG_SEND_32] -> supports (fid a) = false ->
    fid (local a) = FFA_ERROR_32
}.
Context (HL : local_ok).

Abbreviation state := (fw sp_world).

(** The world after the calls [l], none of which handed control over. *)
Definition asked_more (l : list ffa_args) (w : sp_world) : sp_world :=
  SpWorld (inbox w) (outbox w) (asked w ++ l) (busy w).

Lemma asked_more_nil w : asked_more [] w = w.
Proof. destruct w. unfold asked_more. cbn. by rewrite app_nil_r. Qed.
Lemma asked_more_app l1 l2 w : asked_more l2 (asked_more l1 w) = asked_more (l1 ++ l2) w.
Proof. destruct w. unfold asked_more. cbn. by rewrite app_assoc. Qed.

(** A call that only the manager sees. *)
Lemma sp_conduit_local a w :
  fid a <> FFA_FEATURES_32 -> is_resp a && routed me vm a = false -> (fid a =? FFA_MSG_WAIT_32) && negb (busy w) = false ->
  sp_conduit a w = (local a, asked_more [a] w).
Proof.
  intros Hf Hr Hw. unfold sp_conduit. rewrite Hw, Hr. by rewrite (proj2 (Z.eqb_neq _ _) Hf).
Qed.

Lemma resp_fid_resp a : is_resp (call7 (resp_fid d) a) = true.
Proof. unfold is_resp, call7, resp_fid. by destruct (arch64 d). Qed.
Lemma resp_fid_other a : fid (call7 (resp_fid d) a) <> FFA_FEATURES_32 /\ (fid (call7 (resp_fid d) a) =? FFA_MSG_WAIT_32) = false.
Proof. unfold call7, resp_fid. by destruct (arch64 d). Qed.

(** A response that does not answer the request. *)
Lemma bad_resp {A} a (k : ffa_args -> cmd state A) (s : state) :
  routed me vm (call7 (resp_fid d) a) = false ->
  exists r, refused r = true /\
    (direct_resp sp_conduit d a ≫= k) s = k r (set_fw_world (asked_more [call7 (resp_fid d) a] (fw_world s)) s).
Proof.
  intros HR. exists (local (call7 (resp_fid d) a)). split; [apply HL; [apply resp_fid_resp | done]|].
  rewrite direct_resp_eq. destruct (resp_fid_other a) as [F1 F2].
  by rewrite sp_conduit_local by (done || by rewrite ?HR, ?F2, ?andb_false_r).
Qed.

(** The response the client waits for. *)
Lemma good_resp {A} a (k : ffa_args -> cmd state A) (s : state) :
  routed me vm (call7 (resp_fid d) a) = true -> busy (fw_world s) = true ->
  (direct_resp sp_conduit d a ≫= k) s =
  let '(m, w) := next_message (outbox (fw_world s) ++ [delivered (call7 (resp_fid d) a)]) (fw_world s) in k m (set_fw_world w s).
Proof.
  intros HR HB. rewrite direct_resp_eq. destruct (resp_fid_other a) as [F1 F2].
  unfold sp_conduit. rewrite F2, resp_fid_resp, HR, HB. cbn [andb].
  destruct (next_message _ _) as [m w]. done.
Qed.

(** FFA_FEATURES leaves no trace. *)
Lemma features_answer a w : fid a = FFA_FEATURES_32 ->
  (sp_conduit a w).2 = w /\ (fid (sp_conduit a w).1 =? FFA_ERROR_32) = negb (supports (arg1 a)).
Proof.
  intros Ha. unfold sp_conduit, is_resp. rewrite Ha. cbn [andb orb Z.eqb]. split; [by destruct w|].
  by apply (lo_features HL).
Qed.

(** [feature_ok] on the table of an image that asked nothing yet. *)
Definition test_fids : list Z := [FFA_YIELD_32; FFA_MSG_POLL_32; FFA_MSG_SEND_32; FFA_MSG_WAIT_32].
Lemma feature_ok_init f : In f test_fids -> feature_ok supports ffa_supported_fids fid_state_init f = supports f.
Proof. cbn [In test_fids]. intros [<-|[<-|[<-|[<-|[]]]]]; reflexivity. Qed.

Lemma when_status_eq f call args n ok next (s : state) :
  In f test_fids -> ffa_fid_state s = fid_state_init ->
  when_status sp_conduit v f call args n ok next s =
  if supports f then next s else (payload ← call args; point n (ok payload) next) s.
Proof.
  intros Hf Hs. unfold when_status, mbind at 1, cmd_bind at 1.
  destruct (fid_supported_eq sp_conduit v (fun w => w) supports features_answer f s) as (s' & -> & w & -> & Hw).
  cbn in Hw. subst w. rewrite Hs, feature_ok_init by done.
  replace (set_fw_world (fw_world s) s) with s by (by destruct s). by destruct (supports f).
Qed.

(** A call the manager does not support, made none the less. *)
Lemma unsupported_call {A} f a (k : ffa_args -> cmd state A) (s : state) :
  In f [FFA_YIELD_32; FFA_MSG_POLL_32; FFA_MSG_SEND_32] -> supports f = false ->
  exists c, fid c = f /\ fid (local c) = FFA_ERROR_32 /\
    (fw_ffa (smccc_w32 sp_conduit f a) ≫= k) s = k (local c) (set_fw_world (asked_more [c] (fw_world s)) s).
Proof.
  intros Hf HS. set (c := FfaArgs f (u32 (arg1 a)) (u32 (arg2 a)) (u32 (arg3 a)) (u32 (arg4 a)) (u32 (arg5 a)) (u32 (arg6 a))
    (u32 (arg7 a)) 0 0 0 0 0 0 0 0 0 0).
  exists c. split; [done|]. split; [by apply (lo_unsupported HL)|].
  unfold fw_ffa, zoom, smccc_w32, ffa_smccc, mbind, cmd_bind. fold c.
  rewrite sp_conduit_local; [done | ..]; cbn [In] in Hf; unfold is_resp, c; cbn [fid];
    destruct Hf as [<-|[<-|[<-|[]]]]; done.
Qed.

(** The section of the test about forbidden calls, on a manager that supports
    FFA_MSG_WAIT and, from version 1.1 on, FFA_YIELD: the calls it makes are those
    the manager does not support. *)
Lemma forbidden_calls_ok r (s : state) :
  ffa_fid_state s = fid_state_init -> supports FFA_MSG_WAIT_32 = true -> (v_1_0 v = false -> supports FFA_YIELD_32 = true) ->
  exists l, Forall (fun a => supports (fid a) = false) l /\
    forbidden_calls sp_conduit v r s = Ret (VAL_SUCCESS, set_fw_world (asked_more l (fw_world s)) s).
Proof.
  intros Hs Hw Hy. set (upd := fun l => set_fw_world (asked_more l (fw_world s)) s).
  assert (Hupd : forall l c, set_fw_world (asked_more [c] (fw_world (upd l))) (upd l) = upd (l ++ [c])).
  { intros l c. unfold upd. cbn [fw_world set_fw_world]. by rewrite asked_more_app. }
  set (good := fun l => Forall (fun a => supports (fid a) = false) l).
  assert (Hend : forall l, good l -> exists l', good l' /\
            when_status sp_conduit v FFA_MSG_WAIT_32 (fun a => fw_ffa (val_ffa_msg_wait sp_conduit a)) ffa_args_zero 9
              (fun p => (fid p =? FFA_ERROR_32) && (arg2 p =? FFA_ERROR_DENIED)) (mret VAL_SUCCESS) (upd l) = Ret (VAL_SUCCESS, upd l')).
  { intros l Hl. exists l. split; [done|]. rewrite when_status_eq by (done || cbn; tauto). by rewrite Hw. }
  assert (Hstep : forall f a n next l, In f [FFA_YIELD_32; FFA_MSG_POLL_32; FFA_MSG_SEND_32] ->
    good l -> (forall l', good l' -> exists l2, good l2 /\ next (upd l') = Ret (VAL_SUCCESS, upd l2)) ->
    exists l2, good l2 /\ when_status sp_conduit v f (fun a => fw_ffa (smccc_w32 sp_conduit f a)) a n
      (fun p => fid p =? FFA_ERROR_32) next (upd l) = Ret (VAL_SUCCESS, upd l2)).
  { intros f a n next l Hf Hl Hn. rewrite when_status_eq by (done || cbn in *; tauto).
    destruct (supports f) eqn:HS; [by apply Hn|]. destruct (unsupported_call f a (fun p => point n (fid p =? FFA_ERROR_32) next) (upd l) Hf HS)
      as (c & Fc & Ec & ->). rewrite Ec, Z.eqb_refl. unfold point. rewrite Hupd. apply Hn.
    unfold good. rewrite list.Forall_app, list.Forall_singleton. split; [done|]. by rewrite Fc. }
  change (exists l, good l /\ forbidden_calls sp_conduit v r s = Ret (VAL_SUCCESS, upd l)).
  replace (forbidden_calls sp_conduit v r s) with (forbidden_calls sp_conduit v r (upd []))
    by (f_equal; unfold upd; rewrite asked_more_nil; by destruct s).
  unfold forbidden_calls. destruct (v_1_0 v).
  - apply (Hstep FFA_YIELD_32); [cbn; tauto | constructor|]. intros l1 L1.
    apply (Hstep FFA_MSG_POLL_32); [cbn; tauto | done|]. intros l2 L2.
    apply (Hstep FFA_MSG_SEND_32); [cbn; tauto | done | apply Hend].
  - rewrite when_status_eq by (done || cbn; tauto). rewrite (Hy eq_refl).
    apply (Hstep FFA_MSG_SEND_32); [cbn; tauto | constructor | apply Hend].
Qed.

(** The condition is inverted.  A manager that supports the four interfaces is asked
    for none of them, and passes. *)
Theorem forbidden_calls_skipped r (s : state) :
  ffa_fid_state s = fid_state_init -> Forall (fun f => supports f = true) test_fids ->
  forbidden_calls sp_conduit v r s = Ret (VAL_SUCCESS, s).
Proof.
  intros Hs HF. unfold test_fids in HF. rewrite !List.Forall_cons_iff in HF. destruct HF as (HY & HP & HS & HW & _).
  unfold forbidden_calls. rewrite when_status_eq, HY by (done || cbn; tauto).
  destruct (v_1_0 v); rewrite !when_status_eq by (done || cbn; tauto); by rewrite ?HP, ?HS, ?HW.
Qed.

(** A manager of version 1.1 or later that does not support FFA_YIELD, and says so when
    it is called, fails the test. *)
Theorem unsupported_yield_fails r (s : state) :
  ffa_fid_state s = fid_state_init -> v_1_0 v = false -> supports FFA_YIELD_32 = false ->
  exists s', forbidden_calls sp_conduit v r s = Ret (VAL_ERROR_POINT 6, s').
Proof.
  intros Hs Hv HY. unfold forbidden_calls. rewrite when_status_eq, HY, Hv by (done || cbn; tauto).
  set (next := when_status _ _ _ _ _ _ _ _).
  destruct (unsupported_call FFA_YIELD_32 ffa_args_zero (fun p => point 6 (negb (fid p =? FFA_ERROR_32)) next) s)
    as (c & _ & Ec & E); [cbn; tauto | done|].
  unfold val_ffa_yield, ffa_yield. rewrite E, Ec, Z.eqb_refl. by eexists.
Qed.

(** *** Serving the two requests of the test *)

Context (Hme : is_uint 16 me) (Hvm : is_uint 16 vm) (Hne : me <> vm).
Context (n c l : Z) (Hn : is_uint 10 n) (Hc : is_uint 4 c) (Hl : is_uint 4 l).
Context (Hd : In d [direct_32; direct_64]).

(** What the server knows: the ids of the two endpoints, and nothing about the
    interfaces the manager supports. *)
Definition knows (s : state) : Prop :=
  Z.of_nat (length (ep_tbl s)) < 2 ^ 16 /\ ffa_fid_state s = fid_state_init /\
  (exists e, ep_tbl s !! Z.to_nat c = Some e /\ ep_id e = vm) /\ (exists e, ep_tbl s !! Z.to_nat l = Some e /\ ep_id e = me).

Context (Hwait : supports FFA_MSG_WAIT_32 = true) (Hyield : v_1_0 v = false -> supports FFA_YIELD_32 = true).

(** The request that selects the server function, and the responses. *)
Definition is_select (m : ffa_args) : Prop :=
  fid m = FFA_MSG_SEND_DIRECT_REQ_32 /\ arg1 m = ids vm me /\ arg3 m = TEST_RUN_DATA n c l SERVER_TEST.
Definition is_data (m : ffa_args) : Prop := fid m = req_fid d /\ same_data m (expected_req d) = true.
Definition handshake : ffa_args := call7 FFA_MSG_SEND_DIRECT_RESP_32 (blank (ids me vm) 0).
Definition answer : ffa_args := call7 (resp_fid d) (set_arg1 (ids me vm) (resp_data d)).
Definition verdict (status : Z) : ffa_args := call7 FFA_MSG_SEND_DIRECT_RESP_32 (msg (ids me vm) status 0 0 0 0).

Lemma resp_32_eq {A} a (k : ffa_args -> cmd state A) (s : state) :
  arg1 a = ids me vm -> arg2 a = 0 -> busy (fw_world s) = true ->
  (send_resp sp_conduit a ≫= k) s =
  let '(m, w) := next_message (outbox (fw_world s) ++ [delivered (call7 FFA_MSG_SEND_DIRECT_RESP_32 a)]) (fw_world s) in
  k m (set_fw_world w s).
Proof.
  intros E1 E2 HB. unfold send_resp, fw_ffa, zoom, val_ffa_msg_send_direct_resp_32, ffa_msg_send_direct_resp, smccc_x7, ffa_smccc.
  unfold mbind, cmd_bind. fold (call7 FFA_MSG_SEND_DIRECT_RESP_32 a). unfold sp_conduit.
  rewrite (routed_ids me vm Hme Hvm me vm) by exact E1. cbn [call7 fid arg2]. rewrite !Z.eqb_refl, E2, HB.
  change (is_resp (call7 FFA_MSG_SEND_DIRECT_RESP_32 a)) with true. cbn [andb negb]. rewrite andb_false_r.
  by destruct (next_message _ _).
Qed.

Lemma handshake_eq {A} (k : ffa_args -> cmd state A) (s : state) :
  knows s -> busy (fw_world s) = true ->
  (val_resp_client_fn_direct sp_conduit (TEST_RUN_DATA n c l SERVER_TEST) 0 0 0 0 0 ≫= k) s =
  let '(m, w) := next_message (outbox (fw_world s) ++ [delivered handshake]) (fw_world s) in k m (set_fw_world w s).
Proof.
  intros (HT & _ & (ec & Ec & Ic) & (el & El & Il)) HB. unfold val_resp_client_fn_direct.
  destruct (run_data_fields n c l SERVER_TEST) as (_ & _ & -> & -> & _); [done..|]. unfold is_uint in *.
  unfold endpoint_id, lift, mbind at 1 2 3, cmd_bind at 1 2 3.
  rewrite (get_endpoint_id_eq _ l el), (get_endpoint_id_eq _ c ec) by (done || lia). rewrite Ic, Il, route_ids by done.
  by apply resp_32_eq.
Qed.

(** A response with other ids, or with the reserved register set. *)
Lemma bad_ids {A} a x (k : ffa_args -> cmd state A) (s : state) :
  arg1 a = x -> In (x, arg2 a) [(ids vm vm, 0); (ids vm me, 0); (ids me vm, 0xFFFF)] ->
  exists r, refused r = true /\
    (direct_resp sp_conduit d a ≫= k) s = k r (set_fw_world (asked_more [call7 (resp_fid d) a] (fw_world s)) s).
Proof.
  intros Ea Hx. apply bad_resp. subst x. cbn [In] in Hx.
  assert (Hf : (me =? vm) = false) by (by apply Z.eqb_neq). assert (Hf' : (vm =? me) = false) by (by apply Z.eqb_neq).
  destruct Hx as [[= Ex E2]|[[= Ex E2]|[[= Ex E2]|[]]]]; symmetry in Ex;
    [rewrite (routed_ids vm vm Hvm Hvm me vm (call7 (resp_fid d) a) Ex) | rewrite (routed_ids vm me Hvm Hme me vm (call7 (resp_fid d) a) Ex)
    | rewrite (routed_ids me vm Hme Hvm me vm (call7 (resp_fid d) a) Ex)]; cbn [call7 arg2]; rewrite <- E2, ?Hf, ?Hf';
    first [done | apply andb_false_r].
Qed.

(** The next step is a response the manager refuses. *)
Local Ltac bad_call x r R :=
  match goal with |- context [(direct_resp sp_conduit d ?a ≫= ?k) ?s] =>
    destruct (bad_ids a x k s eq_refl ltac:(cbn; tauto)) as (r & R & ->); rewrite R; cbn [point] end.

Lemma server_checks_ok m (s : state) :
  ffa_fid_state s = fid_state_init -> same_data m (expected_req d) = true -> exists l1,
    Forall (fun a => is_resp a = true \/ supports (fid a) = false) l1 /\
    server_checks sp_conduit v d vm me m s = Ret (VAL_SUCCESS, set_fw_world (asked_more l1 (fw_world s)) s).
Proof.
  intros HS D. unfold server_checks. rewrite D. cbn [point]. rewrite !lor_ids by done.
  bad_call (ids vm vm) r1 R1.
  bad_call (ids vm me) r2 R2.
  bad_call (ids me vm) r3 R3.
  cbn [fw_world set_fw_world]. rewrite !asked_more_app. cbn [app].
  set (l1 := [_; _; _]). set (s1 := set_fw_world _ _).
  destruct (forbidden_calls_ok (ids me vm) s1) as (l2 & L2 & ->); [done..|]. exists (l1 ++ l2). split.
  - apply list.Forall_app. split; [|eapply list.Forall_impl; [exact L2 | by right]].
    do 3 (apply List.Forall_cons; [left; apply resp_fid_resp|]). apply List.Forall_nil.
  - unfold s1. cbn [fw_world set_fw_world]. by rewrite asked_more_app.
Qed.

(** The server function, with the messages [ms] still to come. *)
Lemma direct_server_eq m1 ms out l0 (s : state) :
  knows s -> is_select m1 -> fw_world s = SpWorld ms out l0 true ->
  match ms with
  | [] => direct_server sp_conduit v d m1 s =
            Ret (VAL_ERROR_POINT 1, set_fw_world (SpWorld [] (out ++ [delivered handshake]) l0 true) s)
  | m2 :: ms' => is_data m2 -> exists asked',
      Forall (fun a => is_resp a = true \/ supports (fid a) = false) asked' /\
      direct_server sp_conduit v d m1 s =
        Ret (VAL_SUCCESS, set_fw_world (next_message (out ++ [delivered handshake; delivered answer])
                                         (SpWorld ms' [] (l0 ++ asked') true)).2 s)
  end.
Proof.
  intros HK (F1 & E1 & E3) HW. pose proof HK as (_ & HS & _).
  assert (Hu : u32 (arg3 m1) = TEST_RUN_DATA n c l SERVER_TEST).
  { rewrite E3. destruct (run_data_fields n c l SERVER_TEST) as (U & _); [done..|]. apply uwrap_small. unfold is_uint in U. lia. }
  unfold direct_server. rewrite Hu, E1, (sender_ids vm me), (receiver_ids vm me), handshake_eq by first [assumption | by rewrite HW].
  rewrite HW. unfold next_message at 1. cbn [inbox outbox]. destruct ms as [|m2 ms].
  { cbn [fid no_message]. replace (FFA_ERROR_32 =? req_fid d) with false; [done|]. unfold req_fid. by destruct (arch64 d). }
  intros [F2 D2]. unfold next_message at 1. cbn [inbox asked]. cbv iota beta. rewrite F2, Z.eqb_refl. cbn [negb].
  set (w := SpWorld ms _ _ _). destruct (server_checks_ok m2 (set_fw_world w s)) as (l1 & L1 & E); [done..|].
  exists l1. split; [exact L1|]. unfold mbind at 1, cmd_bind at 1. rewrite E. rewrite lor_ids by done.
  rewrite good_resp; [|rewrite (routed_ids me vm Hme Hvm) by done; destruct Hd as [<-|[<-|[]]];
    cbn [call7 arg2 set_arg1]; by rewrite !Z.eqb_refl | done].
  cbn [fw_world set_fw_world asked_more outbox]. unfold w, asked_more. cbn [inbox outbox asked busy].
  rewrite <- app_assoc. cbn [app]. unfold next_message. cbn [inbox asked]. by destruct ms.
Qed.

(** *** The answers of the partition *)

Context (t : @test_db sp_world) (Ht : test_list !! Z.to_nat n = Some t)
  (Hfn : server_fn t = Some (direct_server sp_conduit v d)) (Hk : knows sv).

(** The wait loop on the selecting message [m1] and at most two more: what it sent. *)
Lemma run_server_sends m1 ms : is_select m1 -> (length ms <= 2)%nat -> (forall m, head ms = Some m -> is_data m) ->
  exists s, run_server (m1 :: ms) = Ret (tt, s) /\
    outbox (fw_world s) = match ms with
                          | [] => [delivered handshake; delivered (verdict (VAL_ERROR_POINT 1))]
                          | _ => [delivered handshake; delivered answer; delivered (verdict VAL_SUCCESS)]
                          end.
Proof.
  intros Hm Hlen Hms. pose proof Hm as (F1 & E1 & E3). set (w0 := SpWorld ms [] [] true).
  assert (HL' : exists k, S (length (m1 :: ms)) = S (S k)) by (cbn; eauto). destruct HL' as [k HL'].
  unfold run_server. rewrite HL'. unfold val_wait_for_test_fn_req.
  assert (EW : fw_ffa (val_ffa_msg_wait sp_conduit ffa_args_zero) (set_fw_world (SpWorld (m1 :: ms) [] [] false) sv) =
               Ret (m1, set_fw_world w0 sv)) by done.
  unfold mbind at 1, cmd_bind at 1. rewrite EW. cbn [serve_loop]. rewrite F1. cbn [tpm_request Z.eqb negb].
  unfold mbind at 1, cmd_bind at 1.
  rewrite (serve_server_test n c l Hn Hc Hl sp_conduit test_list m1 vm me t _ _ Hvm Hme) by (rewrite ?route_ids; done).
  unfold mbind at 1, cmd_bind at 1.
  pose proof (direct_server_eq m1 ms [] [] (set_fw_world w0 sv) Hk Hm eq_refl) as HS.
  assert (HV : forall st w, busy w = true -> (length (inbox w) <= 0)%nat ->
    exists s, (match send_resp sp_conduit (msg (me * 2 ^ 16 + vm) st 0 0 0 0) (set_fw_world w sv) with
               | Ret (a, s') => serve_loop sp_conduit test_list None (S k) a s'
               | Panic => Panic | Fault => Fault | Diverge => Diverge end) = Ret (tt, s) /\
      outbox (fw_world s) = outbox w ++ [delivered (verdict st)]).
  { intros st w HB HI. pose proof (resp_32_eq (msg (ids me vm) st 0 0 0 0)
      (fun a => serve_loop sp_conduit test_list None (S k) a) (set_fw_world w sv) eq_refl eq_refl HB) as E.
    unfold mbind, cmd_bind in E. unfold ids in E at 1. rewrite E. cbn [fw_world set_fw_world]. unfold next_message.
    destruct (inbox w) as [|]; [|cbn in HI; lia]. eexists. split; [reflexivity | done]. }
  destruct ms as [|m2 ms].
  - rewrite HS. apply HV; [done | cbn; lia].
  - destruct (HS (Hms m2 eq_refl)) as (l1 & _ & E). rewrite E. cbn [set_fw_world app].
    set (w2 := (next_message _ _).2).
    assert (E2 : outbox w2 = [delivered handshake; delivered answer] /\ busy w2 = true /\ inbox w2 = tail ms)
      by (unfold w2, next_message; cbn [inbox]; by destruct ms).
    destruct E2 as (E2 & HB & HI). destruct (HV VAL_SUCCESS w2 HB) as (s & Es & Os).
    + rewrite HI. destruct ms as [|m3 ms]; cbn in *; lia.
    + exists s. split; [exact Es|]. by rewrite Os, E2.
Qed.

(** Its answers to the three requests of the client. *)
Lemma respond_select m1 : is_select m1 -> respond [m1] = Some (delivered handshake).
Proof.
  intros Hm. destruct (run_server_sends m1 [] Hm) as (s & E & O); [cbn; lia | done|].
  unfold respond. rewrite E, O. done.
Qed.
Lemma respond_data m1 m2 : is_select m1 -> is_data m2 -> respond [m1; m2] = Some (delivered answer).
Proof.
  intros Hm Hm2. destruct (run_server_sends m1 [m2] Hm) as (s & E & O); [cbn; lia | by intros m [= <-]|].
  unfold respond. rewrite E, O. done.
Qed.
Lemma respond_verdict m1 m2 m3 : is_select m1 -> is_data m2 -> respond [m1; m2; m3] = Some (delivered (verdict VAL_SUCCESS)).
Proof.
  intros Hm Hm2. destruct (run_server_sends m1 [m2; m3] Hm) as (s & E & O); [cbn; lia | by intros m [= <-]|].
  unfold respond. rewrite E, O. done.
Qed.
End Server.

(** ** The client *)

Section Client.
Context `{ValCommon} `{ValConfig} `{InfoCommon} `{ErrorPoints}.
Context {W : Type} (conduit : ffa_args -> W -> ffa_args * W) (resume : bool) (fuel : nat) (v : ffa_v) (d : direct_test).

(** A direct request the manager answers with [r]. *)
Lemma direct_call (arch : bool) a w r w' :
  conduit (call7 (if arch then FFA_MSG_SEND_DIRECT_REQ_64 else FFA_MSG_SEND_DIRECT_REQ_32) a) w = (r, w') ->
  fid r <> FFA_INTERRUPT_32 ->
  ffa_msg_send_direct_req conduit resume fuel a arch w = Ret (r, w').
Proof.
  intros E HI. unfold ffa_msg_send_direct_req, mbind, cmd_bind, smccc_x7, ffa_smccc. unfold call7 in E.
  destruct arch; rewrite E; (destruct resume; [|done]); apply resume_loop_0; exact HI.
Qed.

Lemma direct_req_eq {A} a (k : ffa_args -> cmd (fw W) A) (s : fw W) r w' :
  conduit (call7 (req_fid d) a) (fw_world s) = (r, w') -> fid r <> FFA_INTERRUPT_32 ->
  (direct_req conduit resume fuel d a ≫= k) s = k r (set_fw_world w' s).
Proof.
  intros E HI. unfold direct_req, fw_ffa, zoom, mbind, cmd_bind. unfold req_fid in E. destruct (arch64 d).
  - unfold val_ffa_msg_send_direct_req_64. by rewrite (direct_call true a _ r w' E HI).
  - unfold val_ffa_msg_send_direct_req_32. by rewrite (direct_call false a _ r w' E HI).
Qed.

Lemma send_req_eq a (s : fw W) r w' :
  conduit (call7 FFA_MSG_SEND_DIRECT_REQ_32 a) (fw_world s) = (r, w') -> fid r <> FFA_INTERRUPT_32 ->
  send_req conduit resume fuel a s = Ret (r, set_fw_world w' s).
Proof.
  intros E HI. unfold send_req, fw_ffa, zoom, val_ffa_msg_send_direct_req_32. by rewrite (direct_call false a _ r w' E HI).
Qed.

(** *** A conforming manager *)

Context (me vm : Z) (Hme : is_uint 16 me) (Hvm : is_uint 16 vm) (Hne : me <> vm).
(** The server's answer to the last of the requests it was sent, and the requests
    the manager has delivered so far. *)
Context (respond : list ffa_args -> option ffa_args) (sent : W -> list ffa_args).

(** A request the manager must not deliver. *)
Definition bad_request (a : ffa_args) : Prop :=
  SENDER_ID (arg1 a) <> vm \/ RECEIVER_ID (arg1 a) = SENDER_ID (arg1 a) \/ (v_1_2 v = false /\ arg2 a <> 0).

Record relays : Prop := Relays {
  rl_deliver : forall a w r, is_req a = true -> routed vm me a = true -> respond (sent w ++ [delivered a]) = Some r ->
    (conduit a w).1 = r /\ sent (conduit a w).2 = sent w ++ [delivered a];
  rl_refuse : forall a w, is_req a = true -> bad_request a ->
    refused (conduit a w).1 = true /\ sent (conduit a w).2 = sent w;
  rl_resp : forall a w, is_resp a = true -> fid (conduit a w).1 = FFA_ERROR_32 /\ sent (conduit a w).2 = sent w
}.
Context (HR : relays) (Hd : In d [direct_32; direct_64]).

Lemma req_fid_req a : is_req (call7 (req_fid d) a) = true.
Proof. unfold is_req, call7, req_fid. by destruct (arch64 d). Qed.

Lemma refused_fid r : refused r = true -> fid r = FFA_ERROR_32.
Proof. unfold refused. intros [E%Z.eqb_eq _]%andb_true_iff. done. Qed.

(** The two ways a request of the test ends. *)
Lemma delivered_req {A} a (k : ffa_args -> cmd (fw W) A) (s : fw W) r :
  arg1 a = ids vm me -> arg2 a = 0 -> respond (sent (fw_world s) ++ [delivered (call7 (req_fid d) a)]) = Some r ->
  fid r <> FFA_INTERRUPT_32 -> exists w',
  (direct_req conduit resume fuel d a ≫= k) s = k r (set_fw_world w' s) /\
  sent w' = sent (fw_world s) ++ [delivered (call7 (req_fid d) a)].
Proof.
  intros E1 E2 Hr HI. destruct (rl_deliver HR (call7 (req_fid d) a) (fw_world s) r) as [Er Es]; [apply req_fid_req | | done |].
  { rewrite (routed_ids vm me Hvm Hme) by exact E1. cbn [call7 arg2]. by rewrite E2, !Z.eqb_refl. }
  destruct (conduit _ _) as [r' w'] eqn:E. cbn [fst snd] in *. subst r'. exists w'. split; [|done]. by apply direct_req_eq.
Qed.

Lemma refused_req {A} a (k : ffa_args -> cmd (fw W) A) (s : fw W) :
  bad_request a -> exists r w', refused r = true /\ sent w' = sent (fw_world s) /\
  (direct_req conduit resume fuel d a ≫= k) s = k r (set_fw_world w' s).
Proof.
  intros Hb. destruct (rl_refuse HR (call7 (req_fid d) a) (fw_world s)) as [Er Es]; [apply req_fid_req | exact Hb|].
  destruct (conduit _ _) as [r w'] eqn:E. cbn [fst snd] in *. exists r, w'. do 2 (split; [done|]). apply direct_req_eq; [done|].
  by rewrite (refused_fid _ Er).
Qed.

(** *** The client function *)

Context (n l : Z) (Hn : is_uint 10 n) (Hl : is_uint 4 l).

Abbreviation trd := (TEST_RUN_DATA n VM1 l CLIENT_TEST).

(** The endpoints in the table of VM1. *)
Record endpoints (s : fw W) : Prop := Endpoints {
  es_len : Z.of_nat (length (ep_tbl s)) < 2 ^ 16;
  es_client : exists e, ep_tbl s !! Z.to_nat VM1 = Some e /\ ep_id e = vm;
  es_server : exists e, ep_tbl s !! Z.to_nat l = Some e /\ ep_id e = me;
  es_sp1 : exists e, ep_tbl s !! Z.to_nat SP1 = Some e
}.

Definition select_msg : ffa_args := call7 FFA_MSG_SEND_DIRECT_REQ_32 (msg (ids vm me) (TEST_RUN_DATA n VM1 l SERVER_TEST) 0 0 0 0).
Definition data_msg : ffa_args := call7 (req_fid d) (set_arg1 (ids vm me) (req_data d)).

Lemma select_reply s r :
  endpoints s -> respond (sent (fw_world s) ++ [delivered select_msg]) = Some r -> fid r <> FFA_INTERRUPT_32 -> exists w',
  val_select_server_fn_direct conduit resume fuel trd 0 0 0 0 s = Ret (r, set_fw_world w' s) /\
  sent w' = sent (fw_world s) ++ [delivered select_msg].
Proof.
  intros [E1 (ec & Ec & Ic) (el & El & Il) _] Hr HI.
  rewrite (select_server_eq n VM1 l Hn VM1_uint Hl conduit resume fuel 0 0 0 0 s ec el E1 Ec El), Ic, Il, route_ids by done.
  destruct (rl_deliver HR select_msg (fw_world s) r) as [Er Es]; [done | | done |].
  { rewrite (routed_ids vm me Hvm Hme) by done. by rewrite !Z.eqb_refl. }
  destruct (conduit select_msg (fw_world s)) as [r' w'] eqn:E. cbn [fst snd] in *. subst r'. exists w'. split; [|done].
  by apply send_req_eq.
Qed.

Lemma resp_check_ok (s : fw W) : endpoints s -> exists w',
  client_resp_check conduit v d VM1 vm s = Ret (VAL_SUCCESS, set_fw_world w' s) /\ sent w' = sent (fw_world s).
Proof.
  intros HE. unfold client_resp_check. destruct (negb (v_1_0 v) && resp_check d && _).
  2:{ exists (fw_world s). by destruct s. }
  destruct HE as [E1 _ _ (e & Ee)]. unfold endpoint_id, lift, mbind at 1, cmd_bind at 1.
  rewrite (get_endpoint_id_eq _ SP1 e) by (done || unfold SP1; destruct ENABLE_TPM_CRB; lia).
  set (a := blank _ 0). rewrite direct_resp_eq. destruct (rl_resp HR (call7 (resp_fid d) a) (fw_world s)) as [F S].
  { unfold is_resp, call7, resp_fid. by destruct (arch64 d). }
  destruct (conduit _ _) as [r w']. cbn [fst snd] in *. rewrite F. exists w'. done.
Qed.

(** The next step is a request the manager refuses. *)
Local Ltac refuse r w R S T :=
  match goal with |- context [(direct_req conduit resume fuel d ?a ≫= ?k) ?s] =>
    destruct (refused_req a k s) as (r & w & R & S & ->); [T | rewrite R; cbn [point]; cbn [fw_world set_fw_world] in S] end.

(** The requests with wrong ids or a reserved register that is not zero. *)
Lemma error_checks_ok (s : fw W) : endpoints s -> exists w',
  client_error_checks conduit resume fuel v d VM1 vm me s = Ret (VAL_SUCCESS, set_fw_world w' s) /\ sent w' = sent (fw_world s).
Proof.
  intros HE. unfold client_error_checks. rewrite !lor_ids by done.
  refuse r1 w1 R1 S1 ltac:(left; cbn; by rewrite sender_ids).
  refuse r2 w2 R2 S2 ltac:(right; left; cbn; by rewrite sender_ids, receiver_ids).
  destruct (v_1_2 v) eqn:EV; [|refuse r3 w3 R3 S3 ltac:(by right; right)].
  all: match goal with |- context [client_resp_check _ _ _ _ _ ?s2] => destruct (resp_check_ok s2) as (w' & E & S') end;
    [by destruct HE|]; exists w'; (split; [exact E | cbn [fw_world set_fw_world] in S'; congruence]).
Qed.

Lemma client_checks_ok (s : fw W) :
  endpoints s -> sent (fw_world s) = [] ->
  respond [delivered select_msg] = Some (delivered (handshake me vm)) ->
  respond [delivered select_msg; delivered data_msg] = Some (delivered (answer me vm d)) ->
  exists w', client_checks conduit resume fuel v d trd s = Ret (VAL_SUCCESS, set_fw_world w' s) /\
             sent w' = [delivered select_msg; delivered data_msg].
Proof.
  intros HE S0 P1 P2. unfold client_checks.
  destruct (run_data_fields n VM1 l CLIENT_TEST) as (_ & _ & -> & -> & _); [done | apply VM1_uint | done..|].
  destruct (select_reply s (delivered (handshake me vm))) as (w1 & E1 & S1); [done | by rewrite S0 | done|].
  unfold mbind at 1, cmd_bind at 1. rewrite E1. cbn [delivered handshake call7 fid]. rewrite Z.eqb_refl. cbn [point].
  pose proof HE as [L (ec & Ec & Ic) (el & El & Il) _]. pose proof VM1_uint. unfold is_uint in *.
  unfold endpoint_id, lift, mbind at 1 2, cmd_bind at 1 2. cbn [ep_tbl set_fw_world].
  rewrite (get_endpoint_id_eq _ VM1 ec), (get_endpoint_id_eq _ l el) by (done || lia). rewrite Ic, Il, lor_ids by done.
  rewrite S0 in S1. cbn [app] in S1.
  match goal with |- context [(direct_req conduit resume fuel d ?a ≫= ?k) ?s] =>
    destruct (delivered_req a k s (delivered (answer me vm d))) as (w2 & -> & S2) end.
  - done.
  - by destruct Hd as [<-|[<-|[]]].
  - cbn [fw_world set_fw_world]. rewrite S1. exact P2.
  - by destruct Hd as [<-|[<-|[]]].
  - cbn [fw_world set_fw_world] in S2. rewrite S1 in S2.
    assert (EA : (fid (delivered (answer me vm d)) =? resp_fid d) = true /\ same_data (delivered (answer me vm d)) (expected_resp d) = true)
      by (by destruct Hd as [<-|[<-|[]]]).
    destruct EA as [EA ED]. unfold data_reply. rewrite EA. cbn [point]. rewrite ED. cbn [point].
    match goal with |- context [client_error_checks _ _ _ _ _ _ _ _ ?s2] =>
      destruct (error_checks_ok s2) as (w' & E & S') end; [by destruct HE|].
    exists w'. split; [exact E|]. cbn [fw_world set_fw_world] in S'. by rewrite S', S2.
Qed.

(** The client function when the server answers as it does: it returns the verdict
    of the server. *)
Lemma direct_client_ok (s : fw W) st :
  endpoints s -> sent (fw_world s) = [] ->
  respond [delivered select_msg] = Some (delivered (handshake me vm)) ->
  respond [delivered select_msg; delivered data_msg] = Some (delivered (answer me vm d)) ->
  respond [delivered select_msg; delivered data_msg; delivered select_msg] = Some (delivered (verdict me vm st)) ->
  exists w', direct_client conduit resume fuel v d trd s = Ret (u32 (u32 st), set_fw_world w' s).
Proof.
  intros HE S0 P1 P2 P3. destruct (client_checks_ok s HE S0 P1 P2) as (w1 & E1 & S1). unfold direct_client.
  unfold mbind at 1, cmd_bind at 1. rewrite E1.
  destruct (select_reply (set_fw_world w1 s) (delivered (verdict me vm st))) as (w2 & E2 & _).
  - by destruct HE.
  - cbn [fw_world set_fw_world]. rewrite S1. exact P3.
  - done.
  - unfold mbind, cmd_bind. rewrite E2, VAL_SUCCESS_zero. exists w2. done.
Qed.
End Client.

(** ** Both sides *)

Section EndToEnd.
Context `{ValCommon} `{ValConfig} `{InfoCommon} `{ErrorPoints}.
(** The image of VM1, and the server partition. *)
Context {W : Type} (conduit : ffa_args -> W -> ffa_args * W) (resume : bool) (fuel : nat) (curr_id : Z).
Context (vm_tests : list (@test_db W)) (sent : W -> list ffa_args).
Context (sp_tests : list (@test_db sp_world)) (local : ffa_args -> ffa_args) (sv : fw sp_world).
Context (me vm : Z) (Hme : is_uint 16 me) (Hvm : is_uint 16 vm) (Hne : me <> vm).

(** Claim C17: ffa_direct_message_32 and ffa_direct_message_64 pass on a conforming
    manager: when the manager delivers direct messages between VM1 and a server
    partition, refuses those with wrong ids or a reserved register set, and supports
    FFA_MSG_WAIT and (from version 1.1 on) FFA_YIELD, val_execute_test on VM1, with
    the partition in its wait loop, returns and records RESULT_PASS. *)
Theorem direct_messages_pass v d supports n l t t' (s : fw W) :
  In d [direct_32; direct_64] -> is_uint 10 n -> is_uint 4 l ->
  local_ok me vm local supports -> supports FFA_MSG_WAIT_32 = true -> (v_1_0 v = false -> supports FFA_YIELD_32 = true) ->
  sp_tests !! Z.to_nat n = Some t -> server_fn t = Some (direct_server (sp_conduit me vm local) v d) ->
  knows me vm VM1 l sv ->
  vm_tests !! Z.to_nat n = Some t' -> client_fn t' = Some (direct_client conduit resume fuel v d) ->
  endpoints me vm l s -> sent (fw_world s) = [] ->
  relays conduit v me vm (respond me vm local sp_tests sv) sent ->
  validate_test_config VM1 l s = Ret (VAL_SUCCESS, s) ->
  exists w', val_execute_test conduit resume fuel curr_id vm_tests n VM1 l s =
    Ret (RESULT_PASS VAL_SUCCESS, set_status (val_set_status (RESULT_PASS VAL_SUCCESS) (status_buf s)) (set_fw_world w' s)).
Proof.
  intros Hd Hn Hl HL Hw Hy Ht Hf Hk Ht' Hf' He Hs HR Hval. set (R := respond me vm local sp_tests sv) in *.
  pose proof VM1_uint as HV. destruct (run_data_fields n VM1 l SERVER_TEST) as (U & _); [done..|].
  assert (Hsel : is_select me vm n VM1 l (delivered (select_msg me vm n l))).
  { unfold is_select, select_msg, delivered, call7, msg. cbn [fid arg1 arg3 Z.eqb orb].
    split; [done|]. cbn [fid arg1 arg3]. unfold is_uint in *.
    rewrite !uwrap_small by (done || unfold is_uint in *; lia || by apply ids_uint32). done. }
  assert (Hdata : is_data d (delivered (data_msg d me vm))) by (by destruct Hd as [<-|[<-|[]]]).
  destruct (direct_client_ok conduit resume fuel v d me vm Hme Hvm Hne R sent HR Hd n l Hn Hl s VAL_SUCCESS) as (w' & E);
    [done | done | by apply (respond_select me vm local sp_tests sv supports v d HL Hme Hvm Hne n VM1 l Hn HV Hl Hd Hw Hy t Ht Hf Hk)
    | by apply (respond_data me vm local sp_tests sv supports v d HL Hme Hvm Hne n VM1 l Hn HV Hl Hd Hw Hy t Ht Hf Hk)
    | by apply (respond_verdict me vm local sp_tests sv supports v d HL Hme Hvm Hne n VM1 l Hn HV Hl Hd Hw Hy t Ht Hf Hk)|].
  exists w'. rewrite VAL_SUCCESS_zero in E. change (u32 (u32 0)) with 0 in E. rewrite <- VAL_SUCCESS_zero in E.
  exact (execute_client_test conduit resume fuel curr_id vm_tests n l t' _ s _ Hn Hl Hval Ht' Hf' E).
Qed.
End EndToEnd.

(** ** Example: a manager between VM1 and SP1 *)

Definition demo_points : ErrorPoints.
Proof. refine {| VAL_ERROR_POINT n := 100 + n |}. intros n Hn. unfold is_uint. lia. Defined.

Definition present_table : ep_table := map (set_valid VAL_PARTITION_PRESENT) demo_table.
Definition error_reply (code : Z) : ffa_args := FfaArgs FFA_ERROR_32 0 code 0 0 0 0 0 0 0 0 0 0 0 0 0 0 0.
Definition demo_supported (f : Z) : bool := negb (f =? FFA_MSG_SEND_32).
Definition demo_local (a : ffa_args) : ffa_args :=
  if fid a =? FFA_FEATURES_32 then
    if demo_supported (arg1 a) then FfaArgs FFA_SUCCESS_32 0 0 0 0 0 0 0 0 0 0 0 0 0 0 0 0 0 else error_reply FFA_ERROR_NOT_SUPPORTED
  else error_reply FFA_ERROR_INVALID_PARAMETERS.

(** The manager keeps the requests it delivered. *)
Definition demo_relay (respond : list ffa_args -> option ffa_args) (a : ffa_args) (w : list ffa_args)
  : ffa_args * list ffa_args :=
  if is_req a && routed 1 0x8001 a then
    (default (error_reply FFA_ERROR_ABORTED) (respond (w ++ [delivered a])), w ++ [delivered a])
  else (error_reply FFA_ERROR_INVALID_PARAMETERS, w).

Lemma demo_relays v respond : relays (demo_relay respond) v 0x8001 1 respond (fun w => w).
Proof.
  split; unfold demo_relay.
  - intros a w r -> -> ->. done.
  - intros a w -> HB. replace (routed 1 0x8001 a) with false; [done|]. symmetry. apply not_true_iff_false.
    unfold routed. rewrite !andb_true_iff, !Z.eqb_eq. intros [[E1 E2] E3]. unfold bad_request in HB. rewrite E1, E2, E3 in HB.
    destruct HB as [HB|[HB|[_ HB]]]; lia.
  - intros a w HR. unfold is_resp in HR. unfold is_req. apply orb_true_iff in HR as [E%Z.eqb_eq|E%Z.eqb_eq]; rewrite E; done.
Qed.

Lemma demo_local_ok : local_ok 0x8001 1 demo_local demo_supported.
Proof.
  split; unfold demo_local.
  - intros a ->. cbn [Z.eqb]. rewrite Z.eqb_refl. by destruct (demo_supported (arg1 a)).
  - intros a HR _. unfold is_resp in HR. apply orb_true_iff in HR as [E%Z.eqb_eq|E%Z.eqb_eq]; rewrite E; done.
  - intros a Ha _. cbn [In] in Ha. destruct Ha as [<-|[<-|[<-|[]]]]; done.
Qed.

(** Test number 3 of the two images. *)
Definition demo_sp_tests : list (@test_db sp_world) :=
  repeat (TestDb 2 0 None None (Some (@direct_server sample_val_common demo_points _ (sp_conduit 0x8001 1 demo_local) FFA_V_1_1 direct_32))
            None None FFA_MSG_SEND_DIRECT_REQ_32) 4.
Definition demo_sp : fw sp_world := demo_state present_table (SpWorld [] [] [] false).
Definition demo_respond : list ffa_args -> option ffa_args :=
  @respond 0x8001 1 demo_local sample_val_common demo_sp_tests demo_sp.
Definition demo_vm_tests : list (@test_db (list ffa_args)) :=
  repeat (TestDb 2 0 None (Some (@direct_client sample_val_common demo_config demo_points _ (demo_relay demo_respond) true 1 FFA_V_1_1
            direct_32)) None None None FFA_MSG_SEND_DIRECT_REQ_32) 4.

Lemma direct_messages_pass_witness :
  exists s', @val_execute_test sample_val_common demo_config demo_info _ (demo_relay demo_respond) true 1 1 demo_vm_tests
    3 5 1 (demo_state present_table []) = Ret (0x500, s') /\ status_buf s' = StatusBuffer 5 0.
Proof.
  destruct (@direct_messages_pass sample_val_common demo_config demo_info demo_points _ (demo_relay demo_respond) true 1 1
              demo_vm_tests (fun w => w) demo_sp_tests demo_local demo_sp 0x8001 1) with
    (v := FFA_V_1_1) (d := direct_32) (supports := demo_supported) (n := 3) (l := 1)
    (t := default (TestDb 0 0 None None None None None 0) (head demo_sp_tests))
    (t' := default (TestDb 0 0 None None None None None 0) (head demo_vm_tests))
    (s := demo_state present_table ([] : list ffa_args)) as (w' & E).
  1, 2, 5, 6: unfold is_uint; lia.
  - lia.
  - by left.
  - exact demo_local_ok.
  - reflexivity.
  - reflexivity.
  - reflexivity.
  - reflexivity.
  - split; [vm_compute; reflexivity|]. split; [reflexivity|]. split; eexists; split; reflexivity.
  - reflexivity.
  - reflexivity.
  - split; [vm_compute; reflexivity | eexists; split; reflexivity | eexists; split; reflexivity | eexists; reflexivity].
  - reflexivity.
  - apply demo_relays.
  - reflexivity.
  - eexists. split; [exact E | reflexivity].
Defined.

(** ** What a pass tells

    Nothing is assumed of the manager here: [log] records every call with its
    answer.  The image does not resume interrupted calls by itself. *)

Section Verdict.
Context `{ValCommon} `{ValConfig} `{ErrorPoints}.
Context {W : Type} (conduit : ffa_args -> W -> ffa_args * W) (fuel : nat) (v : ffa_v) (d : direct_test).
Context (log : W -> list (ffa_args * ffa_args)).
Context (logs : forall a w, log (conduit a w).2 = log w ++ [(a, (conduit a w).1)]).
Context (me vm : Z) (Hme : is_uint 16 me) (Hvm : is_uint 16 vm).

(** The call [a] is in the log and was answered with [r]. *)
Definition answered (s : fw W) (a r : ffa_args) : Prop := In (a, r) (log (fw_world s)).
Definition refuses (s : fw W) (a : ffa_args) : Prop := exists r, answered s a r /\ refused r = true.

(** The state after one call. *)
Definition after (a : ffa_args) (s : fw W) : fw W := set_fw_world (conduit a (fw_world s)).2 s.
Definition reply (a : ffa_args) (s : fw W) : ffa_args := (conduit a (fw_world s)).1.

(** [s'] is reached from [s] by calls, and the image did not change otherwise. *)
Definition later (s s' : fw W) : Prop :=
  (exists w, s' = set_fw_world w s) /\ forall a r, answered s a r -> answered s' a r.

Lemma later_refl s : later s s.
Proof. split; [exists (fw_world s); by destruct s | done]. Qed.
Lemma later_trans s1 s2 s3 : later s1 s2 -> later s2 s3 -> later s1 s3.
Proof. intros [(w1 & ->) L1] [(w2 & ->) L2]. split; [by exists w2 | auto]. Qed.
Lemma after_later a s : later s (after a s).
Proof. split; [by eexists|]. intros b r Hb. unfold answered, after. cbn [fw_world set_fw_world]. rewrite logs. apply in_or_app. by left. Qed.
Lemma after_answered a s : answered (after a s) a (reply a s).
Proof. unfold answered, after. cbn [fw_world set_fw_world]. rewrite logs. apply in_or_app. right. by left. Qed.
Lemma later_answered s s' a r : later s s' -> answered s a r -> answered s' a r.
Proof. intros [_ L]. apply L. Qed.

Lemma resp_step {A} a (k : ffa_args -> cmd (fw W) A) s :
  (direct_resp conduit d a ≫= k) s = k (reply (call7 (resp_fid d) a) s) (after (call7 (resp_fid d) a) s).
Proof. rewrite direct_resp_eq. unfold reply, after. by destruct (conduit _ _). Qed.

Lemma req_step {A} a (k : ffa_args -> cmd (fw W) A) s :
  (direct_req conduit false fuel d a ≫= k) s = k (reply (call7 (req_fid d) a) s) (after (call7 (req_fid d) a) s).
Proof.
  unfold direct_req, req_fid, fw_ffa, zoom, mbind, cmd_bind, reply, after. destruct (arch64 d);
    unfold val_ffa_msg_send_direct_req_64, val_ffa_msg_send_direct_req_32, ffa_msg_send_direct_req, smccc_x7, ffa_smccc,
      call7, mbind, cmd_bind; by destruct (conduit _ _).
Qed.

(** *** Commands that only make calls *)

Definition calls_only {A} (c : cmd (fw W) A) : Prop := forall s a s', c s = Ret (a, s') -> later s s'.

Lemma calls_ret {A} (a : A) : calls_only (mret a).
Proof. intros s b s' [= _ <-]. apply later_refl. Qed.
Lemma calls_bind {A B} (c : cmd (fw W) A) (k : A -> cmd (fw W) B) :
  calls_only c -> (forall a, calls_only (k a)) -> calls_only (c ≫= k).
Proof. intros HA HK s b s' E. apply cmd_bind_Ret_inv in E as (a & s1 & E1 & E2). eapply later_trans; [by eapply HA | by eapply HK]. Qed.
Lemma calls_w32 f a : calls_only (fw_ffa (smccc_w32 conduit f a)).
Proof.
  intros s r s'. unfold fw_ffa, zoom, smccc_w32, ffa_smccc. set (b := FfaArgs f _ _ _ _ _ _ _ _ _ _ _ _ _ _ _ _ _).
  intros E. assert (Es : s' = after b s) by (unfold after; destruct (conduit b (fw_world s)); by injection E as _ <-).
  rewrite Es. apply after_later.
Qed.
Lemma calls_point n ok next : calls_only next -> calls_only (point n ok next).
Proof. intros. destruct ok; [done | apply calls_ret]. Qed.

Lemma calls_fw_ret {A} (a : A) : calls_only (fw_ffa (mret a)).
Proof. intros s b s' E. cbn in E. injection E as _ <-. destruct s. apply later_refl. Qed.

Lemma zoom_bind {A B} (c : cmd W A) (k : A -> cmd W B) (s : fw W) b s1 :
  fw_ffa (c ≫= k) s = Ret (b, s1) -> exists a s2, fw_ffa c s = Ret (a, s2) /\ fw_ffa (k a) s2 = Ret (b, s1).
Proof.
  unfold fw_ffa, zoom, mbind, cmd_bind. destruct (c (fw_world s)) as [[a w]| | |]; intros E; try discriminate.
  exists a, (set_fw_world w s). split; [done|]. cbn [fw_world set_fw_world]. by destruct (k a w) as [[x w']| | |].
Qed.

Lemma calls_supported f : calls_only (fid_supported conduit v f).
Proof.
  intros s b s' E. unfold fid_supported in E. apply cmd_bind_Ret_inv in E as (st & s1 & E1 & [= _ <-]).
  revert s st s1 E1. enough (HS : forall fids st, calls_only (fw_ffa (supported_loop conduit v fids st f))) by (intros s; apply HS).
  induction fids as [|g fids IH]; intros [|x st]; cbn [supported_loop]; try apply calls_fw_ret.
  destruct (g =? f); [|apply IH]. destruct (x =? 1); [apply calls_fw_ret|].
  destruct (x =? 255); [apply calls_fw_ret|].
  unfold features_query. intros s a s1 E. apply zoom_bind in E as (r & s2 & E1 & E2).
  apply calls_w32 in E1. eapply later_trans; [exact E1|]. revert E2. destruct (fid r =? FFA_ERROR_32); apply calls_fw_ret.
Qed.

Lemma calls_when f g a n ok next :
  calls_only next -> calls_only (when_status conduit v f (fun a => fw_ffa (smccc_w32 conduit g a)) a n ok next).
Proof.
  intros Hn. apply calls_bind; [apply calls_supported|]. intros []; cbn [negb]; [done|].
  apply calls_bind; [apply calls_w32|]. intros p. by apply calls_point.
Qed.

Lemma calls_forbidden x : calls_only (forbidden_calls conduit v x).
Proof. unfold forbidden_calls. apply calls_when. destruct (v_1_0 v); repeat apply calls_when; apply calls_ret. Qed.

(** *** The server *)

Lemma server_passes m s s' sender receiver :
  server_checks conduit v d sender receiver m s = Ret (0, s') ->
  same_data m (expected_req d) = true /\ exists s3,
    refuses s3 (call7 (resp_fid d) (blank (Z.lor (u32 (Z.shiftl sender 16)) sender) 0)) /\
    refuses s3 (call7 (resp_fid d) (blank (Z.lor (u32 (Z.shiftl sender 16)) receiver) 0)) /\
    refuses s3 (call7 (resp_fid d) (blank (Z.lor (u32 (Z.shiftl receiver 16)) sender) 0xFFFF)) /\
    later s s3 /\ forbidden_calls conduit v (Z.lor (u32 (Z.shiftl receiver 16)) sender) s3 = Ret (0, s').
Proof.
  unfold server_checks. intros [D E]%point_inv; [|lia]. split; [exact D|].
  rewrite resp_step in E. apply point_inv in E as [R1 E]; [|lia].
  rewrite resp_step in E. apply point_inv in E as [R2 E]; [|lia].
  rewrite resp_step in E. apply point_inv in E as [R3 E]; [|lia].
  set (a1 := call7 _ (blank _ 0)) in R1, E. set (a2 := call7 _ (blank _ 0)) in R2, E. set (a3 := call7 _ (blank _ 0xFFFF)) in R3, E.
  exists (after a3 (after a2 (after a1 s))).
  assert (L : later s (after a1 s) /\ later (after a1 s) (after a2 (after a1 s)) /\
              later (after a2 (after a1 s)) (after a3 (after a2 (after a1 s)))) by (repeat split; apply after_later).
  destruct L as (L1 & L2 & L3).
  split; [eexists; split; [|exact R1]; eapply later_answered; [eapply later_trans; [exact L2 | exact L3] | apply after_answered]|].
  split; [eexists; split; [|exact R2]; eapply later_answered; [exact L3 | apply after_answered]|].
  split; [eexists; split; [|exact R3]; apply after_answered|].
  split; [|exact E]. eapply later_trans; [exact L1|]. by eapply later_trans.
Qed.

(** *** The client *)

Context (trd : Z).
Abbreviation cl := (GET_CLIENT_LOGIC_ID trd).
Abbreviation sl := (GET_SERVER_LOGIC_ID trd).

(** The table has these ids for the two endpoints of the test. *)
Definition finds (s : fw W) : Prop := val_get_endpoint_id (ep_tbl s) cl = Ret vm /\ val_get_endpoint_id (ep_tbl s) sl = Ret me.

Lemma later_finds s s' : later s s' -> finds s -> finds s'.
Proof. by intros [(w & ->) _]. Qed.

Definition select_call : ffa_args :=
  call7 FFA_MSG_SEND_DIRECT_REQ_32 (msg (ids vm me) (ADD_TEST_TYPE trd SERVER_TEST) 0 0 0 0).
Definition data_call : ffa_args := call7 (req_fid d) (set_arg1 (ids vm me) (req_data d)).
Definition spoofed_call : ffa_args := call7 (req_fid d) (blank (ids me vm) 0).
Definition self_call : ffa_args := call7 (req_fid d) (blank (ids vm vm) 0).
Definition reserved_call : ffa_args := call7 (req_fid d) (blank (ids vm me) 0xFFFF).

Lemma select_step {A} (k : ffa_args -> cmd (fw W) A) s :
  finds s -> (val_select_server_fn_direct conduit false fuel trd 0 0 0 0 ≫= k) s = k (reply select_call s) (after select_call s).
Proof.
  intros [Ec El]. unfold val_select_server_fn_direct, endpoint_id, lift, mbind, cmd_bind. rewrite Ec, El, route_ids by done.
  unfold send_req, fw_ffa, zoom, val_ffa_msg_send_direct_req_32, ffa_msg_send_direct_req, smccc_x7, ffa_smccc, mbind, cmd_bind.
  unfold reply, after, select_call, call7. by destruct (conduit _ _).
Qed.

(** The client got the data back: at once, or after it resumed the server. *)
Definition data_came_back (s : fw W) : Prop := exists r r',
  answered s data_call r /\ fid r' = resp_fid d /\ same_data r' (expected_resp d) = true /\
  (r' = r \/ (fid r = FFA_YIELD_32 /\ exists a, fid a = FFA_RUN_32 /\ answered s a r')).

Lemma later_came_back s s' : later s s' -> data_came_back s -> data_came_back s'.
Proof.
  intros L (r & r' & A & F & D & C). exists r, r'. split; [by eapply later_answered|]. do 2 (split; [done|]).
  destruct C as [C|(Fy & a & Fa & Aa)]; [by left|]. right. split; [done|]. exists a. split; [done | by eapply later_answered].
Qed.
Lemma later_refuses s s' a : later s s' -> refuses s a -> refuses s' a.
Proof. intros L (r & A & R). exists r. split; [by eapply later_answered | done]. Qed.

Lemma resp_check_later s s' : client_resp_check conduit v d cl vm s = Ret (0, s') -> later s s'.
Proof.
  unfold client_resp_check. destruct (negb (v_1_0 v) && resp_check d && _); [|intros [= _ <-]; apply later_refl].
  intros E. apply cmd_bind_Ret_inv in E as (r & s1 & E1 & E). unfold endpoint_id, lift in E1.
  destruct (val_get_endpoint_id _ _) as [x| | |]; try discriminate. injection E1 as <- <-.
  rewrite resp_step in E. apply point_inv in E as [_ E]; [|lia]. injection E as _ <-. apply after_later.
Qed.

Lemma error_checks_pass s s' :
  client_error_checks conduit false fuel v d cl vm me s = Ret (0, s') ->
  later s s' /\ refuses s' spoofed_call /\ refuses s' self_call /\ (v_1_2 v = false -> refuses s' reserved_call).
Proof.
  unfold client_error_checks. rewrite !lor_ids by done. intros E.
  rewrite req_step in E. fold spoofed_call in E. apply point_inv in E as [R1 E]; [|lia].
  rewrite req_step in E. fold self_call in E. apply point_inv in E as [R2 E]; [|lia].
  set (s1 := after spoofed_call s) in *. set (s2 := after self_call s1) in *.
  assert (L1 : later s s1) by apply after_later. assert (L2 : later s1 s2) by apply after_later.
  assert (Q1 : refuses s1 spoofed_call) by (eexists; split; [apply after_answered | exact R1]).
  assert (Q2 : refuses s2 self_call) by (eexists; split; [apply after_answered | exact R2]).
  destruct (v_1_2 v).
  - apply resp_check_later in E. split; [eapply later_trans; [exact L1|]; by eapply later_trans|].
    split; [eapply later_refuses; [|exact Q1]; by eapply later_trans|]. split; [by eapply later_refuses | done].
  - rewrite req_step in E. fold reserved_call in E. apply point_inv in E as [R3 E]; [|lia]. apply resp_check_later in E.
    set (s3 := after reserved_call s2) in *. assert (L3 : later s2 s3) by apply after_later.
    assert (L4 : later s2 s') by (by eapply later_trans).
    split; [eapply later_trans; [exact L1|]; by eapply later_trans|].
    split; [eapply later_refuses; [|exact Q1]; by eapply later_trans|]. split; [by eapply later_refuses|].
    intros _. eapply later_refuses; [exact E|]. eexists. split; [apply after_answered | exact R3].
Qed.

Lemma data_reply_pass next r0 s s' :
  answered s data_call r0 -> data_reply conduit false fuel v d me r0 next s = Ret (0, s') ->
  exists r s1, later s s1 /\ next r s1 = Ret (0, s') /\
    (same_data r (expected_resp d) = true -> data_came_back s1).
Proof.
  intros A0. unfold data_reply. destruct (Z.eqb_spec (fid r0) (resp_fid d)) as [F|F].
  { intros E. exists r0, s. split; [apply later_refl|]. split; [exact E|]. intros D. exists r0, r0. auto. }
  destruct (negb (v_1_0 v) && (fid r0 =? FFA_YIELD_32)) eqn:EY.
  2:{ cbn. intros [= E _]. by destruct (VAL_ERROR_POINT_status 3 ltac:(lia)). }
  apply andb_true_iff in EY as [_ EY%Z.eqb_eq]. set (a := set_arg1 _ r0).
  assert (ER : exists c, fid c = FFA_RUN_32 /\ forall k : ffa_args -> cmd (fw W) Z,
            (fw_ffa (val_ffa_run conduit false fuel a) ≫= k) s = k (reply c s) (after c s)).
  { exists (FfaArgs FFA_RUN_32 (u32 (arg1 a)) (u32 (arg2 a)) (u32 (arg3 a)) (u32 (arg4 a)) (u32 (arg5 a)) (u32 (arg6 a))
              (u32 (arg7 a)) 0 0 0 0 0 0 0 0 0 0). split; [done|]. intros k.
    unfold fw_ffa, zoom, val_ffa_run, ffa_run, smccc_w32, ffa_smccc, mbind, cmd_bind, reply, after. by destruct (conduit _ _). }
  destruct ER as (c & Fc & Ec). rewrite Ec. intros [F2%Z.eqb_eq E]%point_inv; [|lia].
  exists (reply c s), (after c s). split; [apply after_later|]. split; [exact E|]. intros D.
  exists r0, (reply c s). split; [eapply later_answered; [apply after_later | exact A0]|]. do 2 (split; [done|]).
  right. split; [exact EY|]. exists c. split; [exact Fc | apply after_answered].
Qed.

Lemma client_passes s s' :
  finds s -> client_checks conduit false fuel v d trd s = Ret (0, s') ->
  later s s' /\ data_came_back s' /\ refuses s' spoofed_call /\ refuses s' self_call /\ (v_1_2 v = false -> refuses s' reserved_call).
Proof.
  intros HF. unfold client_checks. rewrite select_step by done. intros [_ E]%point_inv; [|lia].
  set (s1 := after select_call s) in *. assert (L1 : later s s1) by apply after_later.
  destruct (later_finds _ _ L1 HF) as [Ec El]. unfold endpoint_id, lift in E.
  unfold mbind at 1, cmd_bind at 1 in E. rewrite Ec in E. unfold mbind at 1, cmd_bind at 1 in E. rewrite El in E.
  rewrite lor_ids in E by done. rewrite req_step in E. fold data_call in E. set (s2 := after data_call s1) in *.
  assert (L2 : later s1 s2) by apply after_later.
  apply data_reply_pass in E as (r & s3 & L3 & E & D); [|apply after_answered].
  apply point_inv in E as [ED E]; [|lia]. apply error_checks_pass in E as (L4 & E). specialize (D ED).
  split; [eapply later_trans; [exact L1|]; eapply later_trans; [exact L2|]; by eapply later_trans|].
  split; [by eapply later_came_back | exact E].
Qed.

(** The server asks for the data in one call. *)
Lemma handshake_call x a3 a4 a5 a6 a7 r s s1 :
  val_resp_client_fn_direct conduit x a3 a4 a5 a6 a7 s = Ret (r, s1) ->
  exists q, fid q = FFA_MSG_SEND_DIRECT_RESP_32 /\ r = reply q s /\ s1 = after q s.
Proof.
  unfold val_resp_client_fn_direct. intros E. apply cmd_bind_Ret_inv in E as (i & s2 & E1 & E).
  apply cmd_bind_Ret_inv in E as (j & s3 & E2 & E). unfold endpoint_id, lift in E1, E2.
  destruct (val_get_endpoint_id _ _) as [x1| | |] in E1; try discriminate. injection E1 as -> <-.
  destruct (val_get_endpoint_id _ _) as [x2| | |] in E2; try discriminate. injection E2 as -> <-.
  revert E. unfold send_resp, fw_ffa, zoom, val_ffa_msg_send_direct_resp_32, ffa_msg_send_direct_resp, smccc_x7, ffa_smccc.
  set (q := FfaArgs _ _ _ _ _ _ _ _ _ _ _ _ _ _ _ _ _ _). intros E. exists q. split; [done|]. unfold reply, after.
  destruct (conduit q (fw_world s)) as [p w]. by injection E as <- <-.
Qed.

(** Claim C18: A pass of a direct message test is earned, whatever the manager does.
    When the client function returns success, in an image that returns FFA_INTERRUPT
    to the caller instead of resuming (no hypervisor, no Linux) and whose endpoint
    table has both partition ids, it got the expected data as the reply to its
    request (at once or after one FFA_RUN), the manager refused with
    INVALID_PARAMETERS the request in the name of the server, the request to itself
    and (before 1.2) the one with a reserved register set, and the reply to the very
    last call, the one that selects the server function, has status 0. When the
    server function returns success on a message from the client to the server, the
    data request it received had the expected data and its three wrong responses
    were refused. *)
Theorem pass_is_earned s s' :
  (finds s -> direct_client conduit false fuel v d trd s = Ret (0, s') ->
   exists s1 r, later s s1 /\
     data_came_back s1 /\ refuses s1 spoofed_call /\ refuses s1 self_call /\ (v_1_2 v = false -> refuses s1 reserved_call) /\
     log (fw_world s') = log (fw_world s1) ++ [(select_call, r)] /\ u32 (arg3 r) = 0) /\
  (forall m, SENDER_ID (arg1 m) = vm -> RECEIVER_ID (arg1 m) = me ->
   direct_server conduit v d m s = Ret (0, s') ->
   (exists c r, fid c = FFA_MSG_SEND_DIRECT_RESP_32 /\ answered s' c r /\ fid r = req_fid d /\ same_data r (expected_req d) = true) /\
   refuses s' (call7 (resp_fid d) (blank (ids vm vm) 0)) /\
   refuses s' (call7 (resp_fid d) (blank (ids vm me) 0)) /\
   refuses s' (call7 (resp_fid d) (blank (ids me vm) 0xFFFF))).
Proof.
  split.
  - intros HF E. unfold direct_client in E. apply cmd_bind_Ret_inv in E as (st & s1 & E1 & E).
    destruct (Z.eqb_spec st 0) as [->|Hst].
    2:{ apply cmd_bind_Ret_inv in E as (r & s2 & _ & E). cbn in E. by injection E as ->. }
    apply client_passes in E1 as (L1 & D & R1 & R2 & R3); [|done]. cbn [negb Z.eqb] in E.
    rewrite select_step in E by (by eapply later_finds). injection E as E <-.
    exists s1, (reply select_call s1). split; [exact L1|]. split; [exact D|]. split; [exact R1|]. split; [exact R2|].
    split; [exact R3|]. split; [apply logs | exact E].
  - intros m E1 E2 E. unfold direct_server in E. rewrite E1, E2 in E.
    apply cmd_bind_Ret_inv in E as (r & s1 & Eh & E). apply handshake_call in Eh as (q & Fq & -> & ->).
    destruct (Z.eqb_spec (fid (reply q s)) (req_fid d)) as [F|F]; cbn [negb] in E.
    2:{ injection E as E _. by destruct (VAL_ERROR_POINT_status 1 ltac:(lia)). }
    apply cmd_bind_Ret_inv in E as (st & s2 & Ec & E). rewrite resp_step in E. injection E as -> <-.
    apply server_passes in Ec as (D & s3 & R1 & R2 & R3 & L1 & Ec). rewrite lor_ids in R1, R2, R3 by done.
    apply calls_forbidden in Ec. set (s4 := after _ s2) in *. assert (L2 : later s2 s4) by apply after_later.
    assert (L3 : later s3 s4) by (by eapply later_trans).
    split; [exists q, (reply q s) | repeat split; by eapply later_refuses].
    split; [exact Fq|]. split; [|done]. eapply later_answered; [|apply after_answered]. by eapply later_trans.
Qed.
End Verdict.

(** ** Example: a manager that reads its answers from a list *)

Definition scripted (answers : list ffa_args) (a : ffa_args) (w : list (ffa_args * ffa_args))
  : ffa_args * list (ffa_args * ffa_args) :=
  let r := default no_message (answers !! length w) in (r, w ++ [(a, r)]).

Definition refusals (n : nat) : list ffa_args := repeat (error_reply FFA_ERROR_INVALID_PARAMETERS) n.
Definition with_fid (f : Z) (a : ffa_args) : ffa_args := call7 f a.
Definition client_script : list ffa_args :=
  [with_fid FFA_MSG_SEND_DIRECT_RESP_32 ffa_args_zero; with_fid FFA_MSG_SEND_DIRECT_RESP_32 expected_resp_data_32]
  ++ refusals 4 ++ [with_fid FFA_MSG_SEND_DIRECT_RESP_32 ffa_args_zero].
Definition server_script : list ffa_args :=
  [with_fid FFA_MSG_SEND_DIRECT_REQ_32 expected_req_data_32] ++ refusals 3 ++ repeat (with_fid FFA_SUCCESS_32 ffa_args_zero) 3.
Definition demo_trd : Z := TEST_RUN_DATA 3 (@VM1 demo_config) 1 CLIENT_TEST.
Definition demo_start : fw (list (ffa_args * ffa_args)) := demo_state present_table [].

Definition final {S A} (o : outcome (A * S)) (s : S) : S := match o with Ret (_, s') => s' | _ => s end.
Definition demo_client_run : outcome (Z * fw (list (ffa_args * ffa_args))) :=
  @direct_client sample_val_common demo_config demo_points _ (scripted client_script) false 1 FFA_V_1_1 direct_32 demo_trd demo_start.
Definition demo_request : ffa_args := call7 0 (msg (ids 1 0x8001) demo_trd 0 0 0 0).
Definition demo_server_run : outcome (Z * fw (list (ffa_args * ffa_args))) :=
  @direct_server sample_val_common demo_points _ (scripted server_script) FFA_V_1_1 direct_32 demo_request demo_start.

Lemma pass_is_earned_witness :
  (exists s1 r, data_came_back direct_32 (fun w => w) 0x8001 1 s1 /\
   fw_world (final demo_client_run demo_start) = fw_world s1 ++ [(select_call 0x8001 1 demo_trd, r)] /\ u32 (arg3 r) = 0) /\
  refuses (fun w => w) (final demo_server_run demo_start) (call7 FFA_MSG_SEND_DIRECT_RESP_32 (blank (ids 0x8001 1) 0xFFFF)).
Proof.
  assert (HI : is_uint 16 0x8001 /\ is_uint 16 1) by (unfold is_uint; lia). destruct HI as [I1 I2].
  split.
  - destruct (proj1 (@pass_is_earned sample_val_common demo_config demo_points _ (scripted client_script) 1 FFA_V_1_1 direct_32
                (fun w => w) (fun a w => eq_refl) 0x8001 1 I1 I2 demo_trd demo_start (final demo_client_run demo_start)))
      as (s1 & r & _ & D & _ & _ & _ & L & R).
    + split; vm_compute; reflexivity.
    + vm_compute; reflexivity.
    + exists s1, r. split; [exact D | split; [exact L | exact R]].
  - destruct (proj2 (@pass_is_earned sample_val_common demo_config demo_points _ (scripted server_script) 1 FFA_V_1_1 direct_32
                (fun w => w) (fun a w => eq_refl) 0x8001 1 I1 I2 demo_trd demo_start (final demo_server_run demo_start))
                demo_request) as (_ & _ & _ & R).
    + vm_compute; reflexivity.
    + vm_compute; reflexivity.
    + vm_compute; reflexivity.
    + exact R.
Defined.
