(* ===== verification/RxtxTestProof.v ===== *)
(** * Proofs about the tests of the RX/TX buffers

    The tests run against the heap of MallocAligned and against any manager that keeps
    the registration of the buffers as the specification has it.  Every page that was
    taken is back when the test ends, whatever the manager does. *)

From S2P Require Import Prelude ValCommon Machine CMem Malloc MallocSpec MallocProof MallocCorrect MallocClient MallocRealloc MallocTrace MallocAligned.
From S2P Require Import EndpointInfo FfaAbi Framework FrameworkProof TestDispatch DispatchProof TestCheck DirectMessageProof RxtxTest.

(** ** The pages of a test *)

Section Pages.
Context `{ValCommon} `{ErrorPoints} (B : Z) (HB : heap_base_ok B).
Context {W : Type}.

(** The heap has the blocks [bs], and the endpoint holds the regions [live] in it. *)
Definition heap_is (live : gmap Z Z) (bs : list ablk) (h : heap) : Prop :=
  heap_rep B h bs /\ tidy B bs /\ owns bs live.

(** A page is free, and can be taken without harm: in every free block the first page
    boundary is at the data pointer or at least a header behind it (the search looks at
    every block), and no bytes too few for a block are left behind the page. *)
Definition page_room (bs : list ablk) : Prop :=
  Forall (clean 4096) bs /\ (aaligned 4096 4096 bs).1 <> 0 /\ tidy B (aaligned 4096 4096 bs).2.
(** The same for two pages, one after the other. *)
Definition room (bs : list ablk) : Prop := page_room bs /\ page_room (aaligned 4096 4096 bs).2.

(** With only whole pages taken it is enough that they are there. *)
Lemma paged_room bs : tidy B bs -> paged bs ->
  (aaligned 4096 4096 bs).1 <> 0 -> (aaligned 4096 4096 (aaligned 4096 4096 bs).2).1 <> 0 -> room bs.
Proof.
  intros HT HP R1 R2. destruct (pages_placed B HB bs 1 HT HP ltac:(lia)) as [HT1 HP1].
  destruct (pages_placed B HB _ 1 HT1 HP1 ltac:(lia)) as [HT2 HP2].
  split; split; auto using paged_clean.
Qed.

Definition is_page (p : Z) : Prop := 0 < p < 2 ^ 63 - 4096 /\ p mod 4096 = 0.

Lemma page_taken live bs h :
  heap_is live bs h -> page_room bs ->
  exists p bs' h', aaligned 4096 4096 bs = (p, bs') /\ val_aligned_alloc B h 4096 4096 = Ret (p, h') /\
    heap_is (<[p := 4096]> live) bs' h' /\ is_page p /\ live !! p = None /\
    exists reg, b_ptr reg = p /\ forall x, b_used x = true -> x ∈ bs' <-> x ∈ bs \/ x = reg.
Proof.
  intros (HR & HT & HO) (Hcl & Hne & HT').
  destruct (inv_aligned B HB h live bs 1 HR HO Hcl ltac:(lia)) as (p & h' & bs' & Ea & E & HR' & HC).
  change (1 * 4096) with 4096 in *. exists p, bs', h'. rewrite Ea in Hne, HT'. cbn [fst snd] in Hne, HT'. do 2 (split; [done|]).
  destruct HC as [[-> _]|(Hp & Hm & Hf & HO' & Hreg)]; [done|]. split; [done|].
  split; [|done]. split; [|done].
  destruct (live_apart B HB h' _ bs' p 4096 HR' HO' (lookup_insert_eq _ _ _)) as (_ & _ & Hhi & _).
  destruct (heap_base_bounds B HB) as (_ & Hl & _). unfold heap_limit in Hl. lia.
Qed.

Lemma page_back live bs h p n :
  heap_is live bs h -> live !! p = Some n ->
  exists bs' h', val_free h p = Ret (VAL_SUCCESS, h') /\ heap_is (delete p live) bs' h' /\
    (forall x, b_used x = true -> x ∈ bs' <-> x ∈ bs /\ b_ptr x <> p).
Proof.
  intros (HR & HT & HO) Hp.
  destruct (inv_free B HB h live bs p n HR HT HO Hp) as (h' & bs' & E & HR' & HT' & HO' & _ & _ & HU).
  by exists bs', h'.
Qed.

(** Two blocks lists with the same used blocks are the same. *)
Lemma heap_is_unique live bs bs' h :
  tidy B bs -> heap_is live bs' h -> (forall x, b_used x = true -> x ∈ bs' <-> x ∈ bs) -> heap_is live bs h.
Proof.
  intros [HT HK] (HR & [HT' HK'] & HO) HU.
  assert (bs' = bs) as <- by (by eapply tiled_compact_unique).
  by repeat split; try apply HO.
Qed.

(** The frame of the checks: two pages that differ, and after the checks, which leave
    the heap alone, both are given back and the heap is as before. *)
Lemma with_pages_eq n1 n2 checks (s : fw W) live bs :
  heap_is live bs (fw_heap s) -> room bs -> exists tx rx h1, is_page tx /\ is_page rx /\ tx <> rx /\
    with_pages B n1 n2 checks s = (status ← checks tx rx; release_pages n2 rx tx status) (set_fw_heap h1 s) /\
    forall status (s' : fw W), fw_heap s' = h1 -> exists h2,
      release_pages n2 rx tx status s' = Ret (status, set_fw_heap h2 s') /\ heap_is live bs h2.
Proof.
  intros HH [R1 R2]. pose proof HH as (_ & HT & HO).
  destruct (page_taken live bs _ HH R1) as (tx & bs1 & ha & Ea & E1 & H1' & Pt & Ft & reg1 & Q1 & U1).
  rewrite Ea in R2. cbn [snd] in R2.
  destruct (page_taken _ bs1 _ H1' R2) as (rx & bs2 & h1 & Eb & E2 & H2' & Pr & Fr & reg2 & Q2 & U2).
  apply lookup_insert_None in Fr as [Fr Hne].
  exists tx, rx, h1. do 3 (split; [done|]). split.
  - unfold with_pages, page_buffer, heap_op, zoom, PAGE_SIZE_4K, mbind, cmd_bind. change 0x1000 with 4096. rewrite E1.
    cbn [fw_heap set_fw_heap]. rewrite E2. destruct Pt as [Pt _], Pr as [Pr _].
    rewrite (proj2 (Z.eqb_neq rx 0)), (proj2 (Z.eqb_neq tx 0)) by lia. done.
  - intros status s' Hs. destruct (page_back _ bs2 h1 rx 4096 H2') as (bs3 & h3 & E3 & H3' & U3); [apply lookup_insert_eq|].
    rewrite delete_insert_id in H3' by (by rewrite lookup_insert_ne).
    destruct (page_back _ bs3 h3 tx 4096 H3') as (bs4 & h4 & E4 & H4' & U4); [apply lookup_insert_eq|].
    rewrite delete_insert_id in H4' by done. exists h4. split.
    + unfold release_pages, heap_op, zoom, mbind, cmd_bind. rewrite Hs, E3, VAL_SUCCESS_zero. cbn [negb Z.eqb fw_heap set_fw_heap].
      rewrite E4, VAL_SUCCESS_zero. done.
    + eapply heap_is_unique; [exact HT | exact H4'|]. intros x Hx.
      rewrite (U4 x Hx), (U3 x Hx), (U2 x Hx), (U1 x Hx). split.
      * intros [[[[Hin| ->]| ->] N2] N1]; congruence.
      * intros Hin. destruct HO as [_ HO]. pose proof (HO x Hin Hx) as [k Hk].
        split; [split; [by left; left|]|]; intros E; rewrite E in Hk; congruence.
Qed.
(** The state after a test: only the world and the heap have changed. *)
Definition ends (P : W -> Prop) (live : gmap Z Z) (bs : list ablk) (s s' : fw W) : Prop :=
  exists w h, s' = set_fw_world w (set_fw_heap h s) /\ P w /\ heap_is live bs h.

Lemma with_pages_ok n1 n2 checks (s : fw W) live bs st (P : W -> Prop) :
  heap_is live bs (fw_heap s) -> room bs ->
  (forall tx rx s1, is_page tx -> is_page rx -> tx <> rx -> fw_world s1 = fw_world s ->
     exists w, checks tx rx s1 = Ret (st, set_fw_world w s1) /\ P w) ->
  exists s', with_pages B n1 n2 checks s = Ret (st, s') /\ ends P live bs s s'.
Proof.
  intros HH HR HC. destruct (with_pages_eq n1 n2 checks s live bs HH HR) as (tx & rx & h1 & Pt & Pr & Hne & -> & HB').
  destruct (HC tx rx (set_fw_heap h1 s) Pt Pr Hne eq_refl) as (w & E & HP).
  destruct (HB' st (set_fw_world w (set_fw_heap h1 s)) eq_refl) as (h2 & E2 & H2).
  exists (set_fw_world w (set_fw_heap h2 s)). split; [|by exists w, h2]. unfold mbind, cmd_bind. by rewrite E, E2.
Qed.

(** Commands that only change the world. *)
Definition world_only {A} (c : cmd (fw W) A) : Prop := forall s a s', c s = Ret (a, s') -> exists w, s' = set_fw_world w s.

Lemma world_only_ret {A} (a : A) : world_only (mret a).
Proof. intros s b s' [= _ <-]. exists (fw_world s). by destruct s. Qed.
Lemma world_only_ffa {A} (c : cmd W A) : world_only (fw_ffa c).
Proof. intros s a s'. unfold fw_ffa, zoom. destruct (c _) as [[b w]| | |]; intros [= _ <-]. by exists w. Qed.
Lemma world_only_bind {A C} (c : cmd (fw W) A) (k : A -> cmd (fw W) C) :
  world_only c -> (forall a, world_only (k a)) -> world_only (c ≫= k).
Proof.
  intros HA HK s b s' E. apply cmd_bind_Ret_inv in E as (a & s1 & E1 & E2).
  apply HA in E1 as (w1 & ->). apply HK in E2 as (w2 & ->). by exists w2.
Qed.
Lemma world_only_point n ok (next : cmd (fw W) Z) : world_only next -> world_only (point n ok next).
Proof. intros. destruct ok; [done | apply world_only_ret]. Qed.

Lemma with_pages_ends n1 n2 checks (s s' : fw W) live bs st :
  (forall tx rx, world_only (checks tx rx)) -> heap_is live bs (fw_heap s) -> room bs ->
  with_pages B n1 n2 checks s = Ret (st, s') -> ends (fun _ => True) live bs s s'.
Proof.
  intros HW HH HR. destruct (with_pages_eq n1 n2 checks s live bs HH HR) as (tx & rx & h1 & _ & _ & _ & -> & HB').
  intros E. apply cmd_bind_Ret_inv in E as (a & s1 & E1 & E2). apply HW in E1 as (w & ->).
  destruct (HB' a (set_fw_world w (set_fw_heap h1 s)) eq_refl) as (h2 & E3 & H2). rewrite E3 in E2. injection E2 as _ <-.
  by exists w, h2.
Qed.

Lemma ends_trans (P Q : W -> Prop) live bs s1 s2 s3 :
  ends P live bs s1 s2 -> ends Q live bs s2 s3 -> ends Q live bs s1 s3.
Proof. intros (w & h & -> & _ & _) (w' & h' & -> & HQ & HH). by exists w', h'. Qed.
Lemma ends_heap P live bs s s' : ends P live bs s s' -> heap_is live bs (fw_heap s').
Proof. by intros (w & h & -> & _ & HH). Qed.
End Pages.

#[export] Hint Resolve world_only_ret world_only_ffa world_only_bind world_only_point : world_only.

(** ** Whatever the manager does *)

Section Any.
Context `{ValCommon} `{ErrorPoints} {W : Type} (conduit : ffa_args -> W -> ffa_args * W) (B : Z) (HB : heap_base_ok B).
Context (live : gmap Z Z) (bs : list ablk).

Lemma unless_failed_inv (c next : cmd (fw W) Z) s st s' :
  unless_failed c next s = Ret (st, s') -> exists a s1, c s = Ret (a, s1) /\ (s' = s1 \/ next s1 = Ret (st, s')).
Proof.
  intros E. apply cmd_bind_Ret_inv in E as (a & s1 & E1 & E2). exists a, s1. split; [done|].
  destruct (negb (a =? 0)); [left; by injection E2 as _ -> | by right].
Qed.

Local Ltac world := unfold unaligned_checks, invalid_size_checks, denied_checks, zero_size_check; cbv zeta; repeat first [apply world_only_bind; [|intros ?] | apply world_only_ffa | apply world_only_point
  | apply world_only_ret | progress cbv zeta | case_match].

(** Claim C20: Whatever the manager does, and whether the test passes or not, when
    ffa_rxtx_map_and_unmap_client returns on a well-formed heap with room for two
    pages, every page it took is back: the heap has the blocks and the live regions
    it had, and besides the heap only what the manager did has changed. Room for a
    page: in every free block the first page boundary is at the data pointer or at
    least 32 bytes behind it, some block has a page there, and taking it leaves no
    remainder too small for a block; room for two: the same again once one is taken.
    On a heap without that room a page can be lost (rxtx_unclean_heap_fails). *)
Theorem rxtx_pages_returned test_run_data (s s' : fw W) st :
  heap_is B live bs (fw_heap s) -> room B bs ->
  ffa_rxtx_map_and_unmap_client conduit B test_run_data s = Ret (st, s') ->
  ends B (fun _ => True) live bs s s'.
Proof.
  intros HH HR E. unfold ffa_rxtx_map_and_unmap_client in E.
  assert (step : forall n1 n2 checks next, (forall tx rx, world_only (checks tx rx)) ->
    (forall s1, heap_is B live bs (fw_heap s1) -> next s1 = Ret (st, s') -> ends B (fun _ => True) live bs s1 s') ->
    forall s0, heap_is B live bs (fw_heap s0) -> unless_failed (with_pages B n1 n2 checks) next s0 = Ret (st, s') ->
    ends B (fun _ => True) live bs s0 s').
  { intros n1 n2 checks next HW HN s0 Hh E0. apply unless_failed_inv in E0 as (a & s1 & E1 & [->|E2]).
    - by eapply with_pages_ends.
    - pose proof (with_pages_ends B HB _ _ _ _ _ _ _ _ HW Hh HR E1) as K1. eapply ends_trans; [exact K1|].
      apply HN; [by eapply ends_heap | done]. }
  revert s HH E. apply step; [intros; world|]. apply step; [intros; world|].
  apply step; [intros; world|]. intros s1 Hh E.
  assert (HW : world_only (test_rxtx_unmap_before_map conduit)) by (unfold test_rxtx_unmap_before_map, curr_endpoint_id; world).
  apply HW in E as (w & ->). exists w, (fw_heap s1). split; [by destruct s1 | done].
Qed.

(** Without room for the second buffer the first is lost. *)
Theorem rxtx_alloc_failure_leaks test_run_data (s : fw W) :
  heap_is B live bs (fw_heap s) -> page_room B bs -> Forall (clean 4096) (aaligned 4096 4096 bs).2 ->
  (aaligned 4096 4096 (aaligned 4096 4096 bs).2).1 = 0 ->
  exists p h, ffa_rxtx_map_and_unmap_client conduit B test_run_data s = Ret (VAL_ERROR_POINT 2, set_fw_heap h s) /\
    live !! p = None /\ heap_is B (<[p := 4096]> live) (aaligned 4096 4096 bs).2 h.
Proof.
  intros HH R1 Hcl R2. destruct (page_taken B HB live bs _ HH R1) as (tx & bs1 & ha & Ea & E1 & Hh & Pt & Ft & _).
  rewrite Ea in *. cbn [snd] in *. pose proof Hh as (HR & HT & HO).
  destruct (inv_aligned B HB ha _ bs1 1 HR HO Hcl ltac:(lia)) as (p & h' & bs' & Eb & E2 & HR' & HC).
  change (1 * 4096) with 4096 in *. rewrite Eb in R2. cbn in R2. subst p.
  destruct HC as [[_ ->]|[? _]]; [|lia]. exists tx, h'. split; [|split; [done | by split]].
  unfold ffa_rxtx_map_and_unmap_client, unless_failed, test_rxtx_map_unaligned_buffers, with_pages, page_buffer, heap_op, zoom.
  unfold mbind, cmd_bind, PAGE_SIZE_4K. change 0x1000 with 4096. rewrite E1. cbn [fw_heap set_fw_heap]. rewrite E2.
  cbn [Z.eqb orb]. destruct (VAL_ERROR_POINT_status 2 ltac:(lia)) as [_ H2]. cbn [mret cmd_ret].
  by rewrite (proj2 (Z.eqb_neq (VAL_ERROR_POINT 2) 0) H2).
Qed.
End Any.

(** ** A manager that keeps the registration *)

(** The pair of buffers of a request is one the specification lets a partition
    register: both start at a multiple of the translation granule [g], they differ,
    and their size is a multiple of it and not zero. *)
Definition map_ok (g : Z) (a : ffa_args) : bool :=
  (arg1 a mod g =? 0) && (arg2 a mod g =? 0) && negb (arg1 a =? arg2 a) && (0 <? arg3 a) && (arg3 a * 4096 mod g =? 0).

(** The two bits of FFA_FEATURES that tell the granule. *)
Definition granule_code (g : Z) : Z := if g =? 4096 then 0 else if g =? 65536 then 1 else 2.

Definition failed (a : ffa_args) : bool := fid a =? FFA_ERROR_32.

Section Manager.
Context {W : Type} (conduit : ffa_args -> W -> ffa_args * W) (g : Z) (mapped : W -> bool).

(** The answer to the call [a] in the world [w], and whether a pair is registered then. *)
Definition answers (a : ffa_args) (w : W) (ok : ffa_args -> bool) (after : bool) : Prop :=
  ok (conduit a w).1 = true /\ mapped (conduit a w).2 = after.

Record rxtx_manager : Prop := RxtxManager {
  rm_map : forall a w, fid a = FFA_RXTX_MAP_64 -> mapped w = false -> map_ok g a = true ->
    answers a w (fun r => negb (failed r)) true;
  rm_invalid : forall a w, fid a = FFA_RXTX_MAP_64 -> mapped w = false -> map_ok g a = false -> answers a w refused false;
  rm_denied : forall a w, fid a = FFA_RXTX_MAP_64 -> mapped w = true -> map_ok g a = true ->
    answers a w (failed_with FFA_ERROR_DENIED) true;
  rm_unmap : forall a w, fid a = FFA_RXTX_UNMAP_32 -> mapped w = true -> answers a w (fun r => negb (failed r)) false;
  rm_unmapped : forall a w, fid a = FFA_RXTX_UNMAP_32 -> mapped w = false -> answers a w refused false;
  rm_release : forall a w, fid a = FFA_RX_RELEASE_32 -> mapped w = false ->
    answers a w (failed_with FFA_ERROR_DENIED) false;
  rm_features : forall a w, fid a = FFA_FEATURES_32 -> arg1 a = FFA_RXTX_MAP_64 ->
    answers a w (fun r => VAL_EXTRACT_BITS (arg2 r) 0 1 =? granule_code g) (mapped w);
  rm_id : forall a w, fid a = FFA_ID_GET_32 -> answers a w (fun r => negb (failed r)) (mapped w)
}.

Context `{ValCommon} `{ErrorPoints} (B : Z) (HB : heap_base_ok B) (HM : rxtx_manager).

Lemma answered {a w ok after} : answers a w ok after -> exists r w', conduit a w = (r, w') /\ ok r = true /\ mapped w' = after.
Proof. intros [E1 E2]. by exists (conduit a w).1, (conduit a w).2; destruct (conduit a w). Qed.

(** The command ends with [st] on a world where a pair is registered or not, as
    [before] says, and leaves it as [after] says. *)
Definition passes (c : cmd (fw W) Z) (before after : bool) (st : Z) : Prop :=
  forall s : fw W, mapped (fw_world s) = before ->
    exists w, c s = Ret (st, set_fw_world w s) /\ mapped w = after.

Lemma passes_ret st b : passes (mret st) b b st.
Proof. intros s Hs. exists (fw_world s). by destruct s. Qed.
Lemma passes_point n ok next b b' st : ok = true -> passes next b b' st -> passes (point n ok next) b b' st.
Proof. by intros ->. Qed.

(** One call: [ok] holds of the answer, and [mid] after it. *)
Lemma passes_call (c : cmd (fw W) ffa_args) (k : ffa_args -> cmd (fw W) Z) f (ok : ffa_args -> bool) b mid after st :
  (forall s : fw W, (c ≫= k) s = let '(r, w) := conduit f (fw_world s) in k r (set_fw_world w s)) ->
  (forall w, mapped w = b -> answers f w ok mid) -> (forall r, ok r = true -> passes (k r) mid after st) ->
  passes (c ≫= k) b after st.
Proof.
  intros EC HA HK s Hs. destruct (answered (HA _ Hs)) as (r & w' & E & Hok & Hm).
  rewrite EC, E. destruct (HK r Hok (set_fw_world w' s) Hm) as (w & -> & Hw). by exists w.
Qed.

Lemma map_call a (k : ffa_args -> cmd (fw W) Z) ok b mid after st :
  (forall w, mapped w = b -> answers (call7 FFA_RXTX_MAP_64 a) w ok mid) -> (forall r, ok r = true -> passes (k r) mid after st) ->
  passes (rxtx_map conduit a ≫= k) b after st.
Proof. apply passes_call. intros s. apply (fw_x7_eq conduit FFA_RXTX_MAP_64). Qed.
Lemma w32_call f a (k : ffa_args -> cmd (fw W) Z) ok b mid after st :
  (forall w, mapped w = b -> answers (call32 f a) w ok mid) -> (forall r, ok r = true -> passes (k r) mid after st) ->
  passes (fw_ffa (smccc_w32 conduit f a) ≫= k) b after st.
Proof. apply passes_call. intros s. apply fw_w32_eq. Qed.

Lemma passes_ext (c c' : cmd (fw W) Z) b b' st : (forall s, c s = c' s) -> passes c' b b' st -> passes c b b' st.
Proof. intros E HP s Hs. rewrite E. by apply HP. Qed.

(** The pages of the heap as buffers. *)
Definition granule : Prop := g = 4096 \/ g = 16384 \/ g = 65536.

Lemma page_off p : is_page p -> granule -> (u64 (val_mem_virt_to_phys p + 0x100) mod g =? 0) = false.
Proof.
  intros [Hp Hm] Hg. apply Z.eqb_neq. unfold val_mem_virt_to_phys, pal_mem_virt_to_phys. change 0x100 with 256. rewrite uwrap_small by lia.
  intros E. assert ((p + 256) mod 4096 = 0) as E2.
  { destruct Hg as [->|[->| ->]]; apply Z.mod_divide; try lia; apply Z.mod_divide in E; try lia; destruct E as [k E]; rewrite E.
    - by exists k.
    - exists (4 * k). lia.
    - exists (16 * k). lia. }
  rewrite <- Z.add_mod_idemp_l, Hm in E2 by lia. discriminate.
Qed.

Lemma unaligned_passes tx rx : is_page tx -> is_page rx -> granule ->
  passes (unaligned_checks conduit tx rx) false false VAL_SUCCESS.
Proof.
  intros Ht Hr Hg. apply (map_call _ _ refused _ false).
  { intros w Hw. apply (rm_invalid HM); [done..|]. unfold map_ok. cbn [arg1 arg2 arg3 call7 map_request]. by rewrite page_off. }
  intros r Hok. apply passes_point; [done|]. apply (map_call _ _ refused _ false).
  { intros w Hw. apply (rm_invalid HM); [done..|]. unfold map_ok. cbn [arg1 arg2 arg3 call7 map_request].
    by rewrite page_off, andb_false_r by done. }
  intros r' Hok'. apply passes_point; [done|]. apply passes_ret.
Qed.

Lemma zero_size_passes tx rx : passes (zero_size_check conduit tx rx) false false VAL_SUCCESS.
Proof.
  apply (map_call _ _ refused _ false).
  { intros w Hw. apply (rm_invalid HM); [done..|]. unfold map_ok. cbn [arg1 arg2 arg3 call7 map_request].
    by rewrite andb_false_r. }
  intros r Hok. apply passes_point; [done|]. apply passes_ret.
Qed.

(** A 4 KiB request to a manager with a larger granule. *)
Lemma one_page_invalid tx rx : granule -> g <> 4096 -> map_ok g (call7 FFA_RXTX_MAP_64 (map_request tx rx 1)) = false.
Proof.
  intros Hg Hne. unfold map_ok. cbn [arg1 arg2 arg3 call7 map_request]. rewrite (proj2 (Z.eqb_neq (1 * 4096 mod g) 0)), andb_false_r; [done|].
  by destruct Hg as [->|[->| ->]].
Qed.

Lemma invalid_size_passes tx rx : granule -> passes (invalid_size_checks conduit tx rx) false false VAL_SUCCESS.
Proof.
  intros Hg. apply (w32_call _ _ _ (fun r => VAL_EXTRACT_BITS (arg2 r) 0 1 =? granule_code g) _ false).
  { intros w Hw. rewrite <- Hw. by apply (rm_features HM). }
  intros r Hr%Z.eqb_eq. rewrite Hr. unfold FFA_RXTX_MAP_4K_SIZE.
  case_match; [|apply zero_size_passes]. apply (map_call _ _ refused _ false).
  { intros w Hw. apply (rm_invalid HM); [done..|]. apply one_page_invalid; [done|]. by intros ->. }
  intros r' Hok. apply passes_point; [done | apply zero_size_passes].
Qed.

Lemma id_call (k : Z -> cmd (fw W) Z) b after st :
  (forall id, passes (k id) b after st) -> passes (curr_endpoint_id conduit ≫= k) b after st.
Proof.
  intros HK. unfold curr_endpoint_id, val_get_curr_endpoint_id. eapply passes_ext; [intros s; apply fw_bind_eq|].
  apply (w32_call FFA_ID_GET_32 ffa_args_zero _ (fun r => negb (failed r)) _ b).
  { intros w Hw. rewrite <- Hw. by apply (rm_id HM). }
  unfold failed. intros r Hr%negb_true_iff. rewrite Hr. eapply passes_ext; [intros s; apply fw_ret_eq | apply HK].
Qed.

(** [val_rxtx_map_64] and [val_rxtx_unmap]: the status tells whether the call failed. *)
Lemma try_call (c : cmd W ffa_args) (k : Z -> cmd (fw W) Z) b after st :
  passes (fw_ffa c ≫= fun r => k (if failed r then VAL_ERROR else VAL_SUCCESS)) b after st ->
  passes (fw_ffa (r ← c; if fid r =? FFA_ERROR_32 then mret VAL_ERROR else mret VAL_SUCCESS) ≫= k) b after st.
Proof.
  intros HP. eapply passes_ext; [|exact HP]. intros s. rewrite fw_bind_eq. apply bind_ext. intros r s1.
  unfold failed. by destruct (fid r =? _); rewrite fw_ret_eq.
Qed.

Lemma denied_passes tx rx : is_page tx -> is_page rx -> tx <> rx -> g = 4096 ->
  passes (denied_checks conduit tx rx) false false VAL_SUCCESS.
Proof.
  intros [_ Ht] [_ Hr] Hne Hg.
  assert (Hok : map_ok g (call7 FFA_RXTX_MAP_64 (map_request tx rx 1)) = true).
  { unfold map_ok. cbn [arg1 arg2 arg3 call7 map_request]. by rewrite Hg, Ht, Hr, (proj2 (Z.eqb_neq _ _) Hne). }
  apply try_call. apply (map_call (rxtx_payload tx rx 1) _ (fun r => negb (failed r)) _ true).
  { intros w Hw. by apply (rm_map HM). }
  intros r Hf%negb_true_iff. rewrite Hf, VAL_SUCCESS_zero. cbn [negb Z.eqb].
  apply (map_call _ _ (failed_with FFA_ERROR_DENIED) _ true). { intros w Hw. by apply (rm_denied HM). }
  intros r' Hd. apply passes_point; [done|]. apply id_call. intros id.
  apply try_call. apply (w32_call FFA_RXTX_UNMAP_32 ffa_args_zero _ (fun r => negb (failed r)) _ false).
  { intros w Hw. by apply (rm_unmap HM). }
  intros r'' Hu%negb_true_iff. rewrite Hu, VAL_SUCCESS_zero. apply passes_ret.
Qed.

Lemma denied_large tx rx : granule -> g <> 4096 -> passes (denied_checks conduit tx rx) false false (VAL_ERROR_POINT 11).
Proof.
  intros Hg Hne. apply try_call. apply (map_call (rxtx_payload tx rx 1) _ refused _ false).
  { intros w Hw. apply (rm_invalid HM); [done..|]. by apply one_page_invalid. }
  intros r Hf. unfold refused, failed_with in Hf. apply andb_prop in Hf as [Hf _]. unfold failed. rewrite Hf. apply passes_ret.
Qed.

Lemma unmap_passes : passes (test_rxtx_unmap_before_map conduit) false false VAL_SUCCESS.
Proof.
  apply id_call. intros id. apply (w32_call FFA_RXTX_UNMAP_32 _ _ refused _ false).
  { intros w Hw. by apply (rm_unmapped HM). }
  intros r Hok. apply passes_point; [done | apply passes_ret].
Qed.

Lemma release_passes trd : passes (ffa_rx_release_client conduit trd) false false VAL_SUCCESS.
Proof.
  apply (w32_call FFA_RX_RELEASE_32 ffa_args_zero _ (failed_with FFA_ERROR_DENIED) _ false).
  { intros w Hw. by apply (rm_release HM). }
  intros r Hok. apply passes_point; [done | apply passes_ret].
Qed.

(** *** The test functions *)

Context (live : gmap Z Z) (bs : list ablk) (HR : room B bs).
Abbreviation unmapped := (ends B (fun w => mapped w = false) live bs).

Lemma pages_pass n1 n2 checks (s : fw W) st :
  (forall tx rx, is_page tx -> is_page rx -> tx <> rx -> passes (checks tx rx) false false st) ->
  heap_is B live bs (fw_heap s) -> mapped (fw_world s) = false ->
  exists s', with_pages B n1 n2 checks s = Ret (st, s') /\ unmapped s s' /\
    heap_is B live bs (fw_heap s') /\ mapped (fw_world s') = false.
Proof.
  intros HC HH Hm. destruct (with_pages_ok B HB n1 n2 checks s live bs st (fun w => mapped w = false) HH HR) as (s' & E & He).
  - intros tx rx s1 Ht Hr Hne Hs1. apply HC; [done..|]. by rewrite Hs1.
  - exists s'. split; [done|]. split; [done|]. destruct He as (w & h & -> & ? & ?). done.
Qed.

Lemma unless_success (c next : cmd (fw W) Z) s s1 : c s = Ret (VAL_SUCCESS, s1) -> unless_failed c next s = next s1.
Proof. intros E. unfold unless_failed, mbind, cmd_bind. by rewrite E, VAL_SUCCESS_zero. Qed.

(** Up to the third check the tests pass with every granule. *)
Lemma first_tests trd (s : fw W) : granule -> heap_is B live bs (fw_heap s) -> mapped (fw_world s) = false ->
  exists s1, ffa_rxtx_map_and_unmap_client conduit B trd s =
      unless_failed (test_rxtx_map_denied conduit B) (test_rxtx_unmap_before_map conduit) s1 /\
    unmapped s s1 /\ heap_is B live bs (fw_heap s1) /\ mapped (fw_world s1) = false.
Proof.
  intros Hg HH Hm.
  destruct (pages_pass 2 5 (unaligned_checks conduit) s VAL_SUCCESS) as (s1 & E1 & K1 & H1' & M1);
    [intros; by apply unaligned_passes | done..|].
  destruct (pages_pass 6 9 (invalid_size_checks conduit) s1 VAL_SUCCESS) as (s2 & E2 & K2 & H2' & M2);
    [intros; by apply invalid_size_passes | done..|].
  exists s2. split; [|split; [by eapply ends_trans | done]]. unfold ffa_rxtx_map_and_unmap_client.
  by rewrite (unless_success _ _ _ _ E1), (unless_success _ _ _ _ E2).
Qed.

Lemma map_and_unmap_passes trd (s : fw W) : g = 4096 -> heap_is B live bs (fw_heap s) -> mapped (fw_world s) = false ->
  exists s', ffa_rxtx_map_and_unmap_client conduit B trd s = Ret (VAL_SUCCESS, s') /\ unmapped s s'.
Proof.
  intros Hg HH Hm. destruct (first_tests trd s (or_introl Hg) HH Hm) as (s2 & -> & K2 & H2' & M2).
  destruct (pages_pass 10 14 (denied_checks conduit) s2 VAL_SUCCESS) as (s3 & E3 & K3 & H3' & M3);
    [intros; by apply denied_passes | done..|].
  destruct (unmap_passes s3 M3) as (w & E4 & M4). rewrite (unless_success _ _ _ _ E3), E4. eexists. split; [reflexivity|].
  eapply ends_trans; [exact K2|]. eapply ends_trans; [exact K3|]. exists w, (fw_heap s3). split; [by destruct s3 | done].
Qed.

(** With a larger granule the test asks for both: the request for one page is to be
    refused, and later to be accepted. *)
Theorem rxtx_large_granule trd (s : fw W) :
  granule -> g <> 4096 -> heap_is B live bs (fw_heap s) -> mapped (fw_world s) = false ->
  exists s', ffa_rxtx_map_and_unmap_client conduit B trd s = Ret (VAL_ERROR_POINT 11, s').
Proof.
  intros Hg Hne HH Hm. destruct (first_tests trd s Hg HH Hm) as (s2 & -> & K2 & H2' & M2).
  destruct (pages_pass 10 14 (denied_checks conduit) s2 (VAL_ERROR_POINT 11)) as (s3 & E3 & _);
    [intros; by apply denied_large | done..|].
  exists s3. unfold unless_failed, test_rxtx_map_denied, mbind, cmd_bind. rewrite E3.
  destruct (VAL_ERROR_POINT_status 11 ltac:(lia)) as [_ Hn]. by rewrite (proj2 (Z.eqb_neq (VAL_ERROR_POINT 11) 0) Hn).
Qed.

(** Claim C19: The tests of the RX/TX buffers pass on a conforming manager: when the
    manager with the 4 KiB granule registers a pair of distinct aligned buffers,
    refuses what is not one, denies a second registration and drops it on
    FFA_RXTX_UNMAP, no pair is registered before, and the heap is well formed with
    room for two pages, val_execute_test on VM1 with a supported pair of endpoints
    returns and records RESULT_PASS, no pair is registered and the heap has the
    blocks and live regions it had. Room for a page: in every free block the first
    page boundary is at the data pointer or at least 32 bytes behind it, some block
    has a page there, and taking it leaves no remainder too small for a block; room
    for two: the same again once one is taken. On other heaps the allocator
    misbehaves and the test can fail (rxtx_unclean_heap_fails). *)
Theorem rxtx_tests_pass `{ValConfig} `{InfoCommon} resume fuel curr_id (tests : list (@test_db W)) n l t f (s : fw W) :
  In f [ffa_rxtx_map_and_unmap_client conduit B; ffa_rx_release_client conduit] -> g = 4096 ->
  is_uint 10 n -> is_uint 4 l -> tests !! Z.to_nat n = Some t -> client_fn t = Some f ->
  validate_test_config VM1 l s = Ret (VAL_SUCCESS, s) -> heap_is B live bs (fw_heap s) -> mapped (fw_world s) = false ->
  exists s', unmapped s s' /\
    val_execute_test conduit resume fuel curr_id tests n VM1 l s =
      Ret (RESULT_PASS VAL_SUCCESS, set_status (val_set_status (RESULT_PASS VAL_SUCCESS) (status_buf s)) s').
Proof.
  intros Hin Hg Hn Hl Ht Hf Hval HH Hm.
  assert (exists s', f (TEST_RUN_DATA n VM1 l CLIENT_TEST) s = Ret (VAL_SUCCESS, s') /\ unmapped s s') as (s' & E & He).
  { destruct Hin as [<-|[<-|[]]]; [by apply map_and_unmap_passes|].
    destruct (release_passes (TEST_RUN_DATA n VM1 l CLIENT_TEST) s Hm) as (w & E & Mw). eexists. split; [exact E|].
    exists w, (fw_heap s). split; [by destruct s | done]. }
  exists s'. split; [done|]. rewrite (execute_client_test conduit resume fuel curr_id tests n l t f s s' Hn Hl Hval Ht Hf E).
  by destruct He as (w & h & -> & _).
Qed.
End Manager.

(** ** Examples *)

(** The heap after a request for 24 bytes. *)
Definition small_heap : heap := final (val_malloc demo_base demo_heap 24) demo_heap.
Definition small_blocks : list ablk := [ABlk demo_base 24 true; ABlk (demo_base + 56) (PLATFORM_HEAP_BUF_SIZE - 88) false].
Definition small_live : gmap Z Z := {[demo_base + 32 := 24]}.

Lemma small_heap_is : heap_is demo_base small_live small_blocks small_heap.
Proof.
  destruct (client_inv_fresh demo_base ∅) as (bs & HR & HT & HO).
  destruct HR as [[_ ->]|[HI _]]; [|done].
  destruct (val_malloc_rep demo_base demo_base_ok demo_heap [whole demo_base] 24 (demo_rep) ltac:(lia)) as (h' & E & HR' & _).
  assert (Eb : (amalloc (ALIGN 24) [whole demo_base]).2 = small_blocks) by (vm_compute; reflexivity).
  destruct HT as [HT HK].
  pose proof (amalloc_tiled (ALIGN 24) _ _ _ ltac:(done) HT) as HT1. pose proof (amalloc_compact (ALIGN 24) _ HK) as HK1.
  rewrite Eb in HR', HT1, HK1. unfold small_heap. rewrite E. cbn [final]. split; [exact HR'|]. split; [done|]. unfold small_live.
  split.
  - intros p n [<- <-]%lookup_singleton_Some. exists (ABlk demo_base 24 true). split; [by left | done].
  - intros b Hb Hu. apply elem_of_cons in Hb as [->|Hb]; [by exists 24|].
      apply list_elem_of_singleton in Hb as ->. done.
Qed.

Lemma small_room : room demo_base small_blocks.
Proof.
  assert (HC : forall bs, forallb (fun b => b_used b || (lead 4096 b =? 0) || (32 <=? lead 4096 b)) bs = true -> Forall (clean 4096) bs).
  { intros bs Hb. apply Forall_forall. intros b Hin. rewrite forallb_forall in Hb. specialize (Hb b Hin). unfold clean.
    rewrite !orb_true_iff, Z.eqb_eq, Z.leb_le in Hb. tauto. }
  assert (HT : forall bs, tiled demo_base bs (heap_limit demo_base) -> compact bs = true -> tidy demo_base bs) by (by split).
  split; (split; [apply HC; vm_compute; reflexivity|]); (split; [vm_compute; discriminate|]); (apply HT; [|vm_compute; reflexivity]).
  - vm_compute. repeat split; discriminate.
  - vm_compute. repeat split; discriminate.
Qed.

(** The manager with a granule of [g]; the world tells whether a pair is registered. *)
Definition success_reply (x : Z) : ffa_args := FfaArgs FFA_SUCCESS_32 0 x 0 0 0 0 0 0 0 0 0 0 0 0 0 0 0.
Definition demo_rxtx (g : Z) (a : ffa_args) (w : bool) : ffa_args * bool :=
  if fid a =? FFA_RXTX_MAP_64 then
    if negb (map_ok g a) then (error_reply FFA_ERROR_INVALID_PARAMETERS, w)
    else if w then (error_reply FFA_ERROR_DENIED, w) else (success_reply 0, true)
  else if fid a =? FFA_RXTX_UNMAP_32 then
    (if w then success_reply 0 else error_reply FFA_ERROR_INVALID_PARAMETERS, false)
  else if fid a =? FFA_RX_RELEASE_32 then (error_reply FFA_ERROR_DENIED, w)
  else if fid a =? FFA_FEATURES_32 then (success_reply (granule_code g), w)
  else (success_reply 1, w).

Lemma demo_rxtx_manager g : granule g -> rxtx_manager (demo_rxtx g) g (fun w => w).
Proof.
  intros Hg. split; unfold answers, demo_rxtx; intros a w ->; cbn [Z.eqb Pos.eqb FFA_RXTX_MAP_64].
  - by intros -> ->.
  - by intros -> ->.
  - by intros -> ->.
  - by intros ->.
  - by intros ->.
  - by intros ->.
  - intros _. by destruct Hg as [->|[->| ->]].
  - done.
Qed.

Definition demo_rxtx_start : fw bool := set_fw_heap small_heap (demo_state present_table false).
Definition demo_rxtx_tests : list (@test_db bool) :=
  repeat (TestDb 1 0 None (Some (@ffa_rxtx_map_and_unmap_client sample_val_common demo_points _ (demo_rxtx 4096) demo_base))
            None None None FFA_RXTX_MAP_64) 4.

Lemma rxtx_tests_pass_witness :
  exists s', @val_execute_test sample_val_common demo_config demo_info _ (demo_rxtx 4096) true 1 1 demo_rxtx_tests
    3 5 1 demo_rxtx_start = Ret (0x500, s') /\ fw_world s' = false /\
    heap_is demo_base small_live small_blocks (fw_heap s').
Proof.
  destruct (@rxtx_tests_pass bool (demo_rxtx 4096) 4096 (fun w => w) sample_val_common demo_points demo_base demo_base_ok
              (demo_rxtx_manager 4096 (or_introl eq_refl)) small_live small_blocks small_room) with
    (H1 := demo_config) (H2 := demo_info) (resume := true) (fuel := 1%nat) (curr_id := 1)
    (tests := demo_rxtx_tests) (n := 3) (l := 1) (t := default (TestDb 0 0 None None None None None 0) (head demo_rxtx_tests))
    (f := @ffa_rxtx_map_and_unmap_client sample_val_common demo_points _ (demo_rxtx 4096) demo_base)
    (s := demo_rxtx_start) as (s' & (w & h & -> & Hw & Hh) & E).
  - by left.
  - reflexivity.
  - unfold is_uint; lia.
  - unfold is_uint; lia.
  - reflexivity.
  - reflexivity.
  - reflexivity.
  - exact small_heap_is.
  - reflexivity.
  - eexists. split; [exact E|]. split; [exact Hw | exact Hh].
Defined.

(** A manager that accepts everything fails the first check; the pages are back. *)
Definition accepts (a : ffa_args) (w : unit) : ffa_args * unit := (success_reply 0, w).
Definition accepts_start : fw unit := set_fw_heap small_heap (demo_state present_table tt).
Definition accepts_run : outcome (Z * fw unit) :=
  @ffa_rxtx_map_and_unmap_client sample_val_common demo_points unit accepts demo_base 0 accepts_start.

Lemma rxtx_pages_returned_witness :
  exists s', accepts_run = Ret (103, s') /\ heap_is demo_base small_live small_blocks (fw_heap s').
Proof.
  assert (E : accepts_run = Ret (103, final accepts_run accepts_start)) by (vm_compute; reflexivity).
  destruct (@rxtx_pages_returned sample_val_common demo_points unit accepts demo_base demo_base_ok small_live small_blocks
              0 accepts_start (final accepts_run accepts_start) 103) as (w & h & Es & _ & Hh).
  - exact small_heap_is.
  - exact small_room.
  - exact E.
  - rewrite Es in E. eexists. split; [exact E | exact Hh].
Defined.

(** Without [page_room]: after val_malloc(4024) on an otherwise empty heap the first page
    boundary is 8 bytes behind the data pointer of the free block.  The second page is
    no block of its own: the first test ends at VAL_ERROR_POINT(5) although the manager
    conforms and more than a hundred pages are free, and the page it took is lost. *)
Definition bad_heap : heap := final (val_malloc demo_base demo_heap 4024) demo_heap.
Definition bad_run : outcome (Z * fw bool) :=
  @ffa_rxtx_map_and_unmap_client sample_val_common demo_points _ (demo_rxtx 4096) demo_base 0
    (set_fw_heap bad_heap (demo_state present_table false)).
Definition page_of (h : heap) : Z := match val_aligned_alloc demo_base h 4096 4096 with Ret (p, _) => p | _ => 0 end.
Theorem rxtx_unclean_heap_fails :
  (exists s', bad_run = Ret (105, s') /\ page_of bad_heap = demo_base + 4096 /\ page_of (fw_heap s') <> page_of bad_heap) /\
  (exists p h, val_aligned_alloc demo_base bad_heap 4096 (100 * 4096) = Ret (p, h) /\ p <> 0).
Proof.
  split; [eexists; split; [vm_compute; reflexivity|] | eexists _, _; split; [vm_compute; reflexivity | done]].
  split; vm_compute; [reflexivity | discriminate].
Qed.
