(* ===== verification/Boot.v ===== *)
(** * val_main

    What an endpoint does between the entry code ([Entry]) and the standby loop: version
    negotiation, MMU, interrupts, then the test suite.  The state is that of the parts
    it calls: the framework, the translation tables and MMU registers, the interrupt
    controller.  [pal_terminate_simulation] never returns. *)

From S2P Require Import Prelude ValCommon FfaAbi FfaHelpers EndpointInfo Framework TestDispatch Machine Gic Irq.
From S2P Require Import PageTable PageTableProof Devices GicProof IrqProof FrameworkProof.







Section Main.
Context `{ValCommon} `{ValConfig} `{NvmCommon} `{InfoCommon}.
Context {W : Type} (conduit : ffa_args -> W -> ffa_args * W).
Context {S : Type} `{!Machine S}.

(** *** The build: the image, Linux as the VM's guest, the FF-A version. *)
Context (img : image) (TARGET_LINUX : bool) (FFA_VERSION_MAJOR FFA_VERSION_MINOR : Z).
(** What the linker fixes. *)
Context (tt_l0_base tt_l1_base : Z) (tt_l2_bases tt_l3_bases : list Z) (sections : image_sections) (XEN_SUPPORT : bool).
(** ID_AA64MMFR0_EL1, CurrentEL, and what FFA_ID_GET answers to this endpoint. *)
Context (mmfr0 current_el curr_id : Z) (fuel : nat).
(** The test suite, [val_run_test_suite]. *)
Context (run_test_suite : cmd (fw W) unit).

Definition is_vm : bool := match img with VM1_COMPILE | VM2_COMPILE | VM3_COMPILE => true | _ => false end.
Definition is_vm1 : bool := match img with VM1_COMPILE => true | _ => false end.
(** The variant of val_main that is compiled, which is also the one with tables. *)
Definition el1_image : bool := (PLATFORM_SP_EL =? 1) || is_vm1.

Record boot := Boot { b_fw : fw W; b_regs : mmu_regs; b_tt : tt_state; b_irq : irq (S := S); b_hcr : Z }.
Definition on_fw {A} (c : cmd (fw W) A) : cmd boot A :=
  zoom b_fw (fun f s => Boot f (b_regs s) (b_tt s) (b_irq s) (b_hcr s)) c.
Definition on_irq {A} (c : cmd (irq (S := S)) A) : cmd boot A :=
  zoom b_irq (fun i s => Boot (b_fw s) (b_regs s) (b_tt s) i (b_hcr s)) c.
Definition write_hcr_el2 (v : Z) : cmd boot unit := modify (fun s => Boot (b_fw s) (b_regs s) (b_tt s) (b_irq s) v).

(** [val_setup_mmu] with the granule of this endpoint, which it first assigns; an EL0
    endpoint leaves everything alone. *)
Definition setup_mmu : cmd boot Z := fun s =>
  let t := ep_tbl (b_fw s) in
  let! el_info := val_get_curr_endpoint_el_info curr_id t in
  let! (tg0_status, t) :=
    if GET_EL_NUM el_info =? EL0 then Ret (VAL_SUCCESS, t) else val_assign_tg0_to_endpoint mmfr0 t in
  let! g := val_get_curr_endpoint_tt_tg0 curr_id t in
  let! page_size := val_curr_endpoint_page_size curr_id t in
  let! (st, regs, tt_s) :=
    val_setup_mmu tt_l0_base tt_l1_base tt_l2_bases tt_l3_bases page_size el1_image (XEN_SUPPORT && is_vm1) is_vm sections
      (endpoint_device_regions XEN_SUPPORT img) el_info current_el tg0_status g (b_regs s) (b_tt s) in
  Ret (st, Boot (set_tbl t (b_fw s)) regs tt_s (b_irq s) (b_hcr s)).

(** [payload.arg1 = (MAJOR << 16) | MINOR]. *)
Definition version_payload : ffa_args :=
  FfaArgs 0 (Z.lor (Z.shiftl FFA_VERSION_MAJOR 16) FFA_VERSION_MINOR) 0 0 0 0 0 0 0 0 0 0 0 0 0 0 0 0.
Definition negotiate_version : cmd boot unit :=
  payload ← on_fw (fw_ffa (val_ffa_version conduit version_payload));
  if fid payload =? FFA_ERROR_NOT_SUPPORTED then panic else mret tt.

(** [info_ptr[VM1].id = id]. *)
Definition set_vm1_id (id : Z) : cmd boot unit := on_fw (fun f =>
  let! t := ep_set (ep_tbl f) VM1
              (fun e => EpInfo (ep_name e) (is_valid e) (is_secure e) (u16 id) (tg0 e) (el_info e) (ec_count e) (ep_properties e) (ep_uuid e)) in
  Ret (tt, set_tbl t f)).

(** val_main of an image at EL1 or EL2, up to the test suite: [false] is [goto exit]. *)
Definition main_el1 : cmd boot bool :=
  _ ← (if is_vm then negotiate_version else mret tt);
  _ ← (if (TARGET_LINUX || PLATFORM_NS_HYPERVISOR_PRESENT) && is_vm1
       then id ← on_fw (fw_ffa (val_get_curr_endpoint_id conduit)); set_vm1_id id else mret tt);
  st ← (if TARGET_LINUX then mret VAL_SUCCESS else setup_mmu);
  if negb (st =? 0) then mret false
  else
    l ← (fun s => lift (val_get_curr_endpoint_logical_id curr_id (ep_tbl (b_fw s))) s);
    _ ← (if l =? VM1 then
           _ ← (if negb TARGET_LINUX && negb PLATFORM_NS_HYPERVISOR_PRESENT then write_hcr_el2 (Z.shiftl 1 27) else mret tt);
           on_irq (val_irq_setup fuel)
         else mret tt);
    mret true.

(** val_main of an EL0 partition. *)
Definition main_el0 : cmd boot bool :=
  payload ← on_fw (fw_ffa (val_ffa_id_get conduit ffa_args_zero));
  mret (fid payload =? FFA_SUCCESS_32).

Definition val_main : cmd boot unit :=
  go ← (if el1_image then main_el1 else main_el0);
  _ ← (if (go : bool) then on_fw run_test_suite else mret tt);
  panic.

(** ** What the test suite finds *)











End Main.




